(** * AquaMetric: the swim-analysis core, embedded and verified

    A shallow embedding of [backend/app/models.py], of the analysis
    core under [backend/app/core/] (preprocessor, segmenter, classifier,
    stroke counter, pipeline) and of the session endpoints of
    [backend/app/api/v1/sessions.py], with the properties the design
    document states about them and further properties of the code.

    The pipeline is embedded with the components it is built with by
    default, once on the contents of its arrays and once, in module
    [InStore], on the arrays as objects that share buffers. Of the
    alternate strategies the null-probability segmenter is embedded; the
    resampling preprocessor (scipy's interpolation), the neural
    classifier (a stub) and the batch pipeline are not.

    Conventions of the embedding:
    - a Python [int] is a [Z]; a Python [float] is a rational [Q] whose
      arithmetic is exact (finite doubles are dyadic rationals), except
      where the rounding of a result decides an integer: the sum that
      SWOLF truncates is rounded to binary64, and the difference of two
      int64 timestamps wraps;
    - a raised exception is the [Raise] branch of the result type [res];
    - a numpy array of shape (N,) is a [list], one of shape (N,3) a list
      of rows [vec3]; a [dict] read with [.get(key, default)] is a
      [gmap string _]. *)

From Stdlib Require Import ZArith QArith Qround Qabs Qpower Lia Lqa.
From stdpp Require Import base option list sorting gmap strings.

Local Open Scope Z_scope.

(** ** Python numerics *)

(** [int(x)] on a float: truncation toward zero. *)
Definition py_int (q : Q) : Z := Z.quot (Qnum q) (Z.pos (Qden q)).

(** [round(x)] on a float: nearest integer, halves to the even one. *)
Definition py_round (q : Q) : Z :=
  let f := Qfloor q in
  match Qcompare (q - inject_Z f) (1 # 2) with
  | Lt => f
  | Gt => f + 1
  | Eq => if Z.even f then f else f + 1
  end.

(** ** binary64

    A finite double is a rational [m * 2^e] with [|m| < 2^53] and
    [e >= -1074]. [round64 q] is the double nearest to [q], a tie going
    to the even [m]; that a result beyond the largest double becomes
    infinite is left out. *)

(** [floor(log2(q))] for [q > 0]. *)
Definition Qlog2 (q : Q) : Z :=
  let l := Z.log2 (Qnum q) - Z.log2 (Z.pos (Qden q)) in
  if Qle_bool (2 ^ l) q then l else l - 1.

(** The exponent of the last place of the double nearest to [q]. *)
Definition float_exponent (q : Q) : Z := Z.max (Qlog2 (Qabs q) - 52) (-1074).

Definition round64 (q : Q) : Q :=
  if Qeq_bool q 0 then 0%Q
  else let e := float_exponent q in (inject_Z (py_round (q / 2 ^ e)) * 2 ^ e)%Q.

(** [a + b] on floats, and [float(z)] of an int. *)
Definition float_add (a b : Q) : Q := round64 (a + b).
Definition py_float (z : Z) : Q := round64 (inject_Z z).

(** ** Exceptions *)

Inductive exn : Type :=
  | ZeroDivisionError
  | ValueError
  | IndexError
  | AxisError.

Inductive res (A : Type) : Type :=
  | Ok (a : A)
  | Raise (e : exn).
Arguments Ok {A} a.
Arguments Raise {A} e.

(** Sequencing: an exception skips the rest (stdpp's [x ← m; k]). *)
#[global] Instance res_bind : MBind res := fun A B k m =>
  match m with
  | Ok a => k a
  | Raise e => Raise e
  end.

#[global] Instance res_ret : MRet res := @Ok.

#[global] Instance res_fmap : FMap res := fun A B f m =>
  match m with
  | Ok a => Ok (f a)
  | Raise e => Raise e
  end.

Definition is_ok {A : Type} (m : res A) : Prop :=
  match m with Ok _ => True | Raise _ => False end.

(** [a / b] on floats. *)
Definition py_truediv (a b : Q) : res Q :=
  if Qeq_bool b 0 then Raise ZeroDivisionError else Ok (a / b)%Q.

(** ** schemas.py: StrokeType *)

Inductive StrokeType : Type :=
  | FREESTYLE
  | BACKSTROKE
  | BREASTSTROKE
  | BUTTERFLY
  | UNKNOWN
  | REST
  | TURN.

#[global] Instance StrokeType_eq_dec : EqDecision StrokeType.
Proof. solve_decision. Defined.

(** ** models.py: SwimLap *)

Record SwimLap : Type := mkSwimLap {
  lap_number : Z;
  start_idx : Z;
  end_idx : Z;
  stroke_type : StrokeType;
  stroke_count : Z;
  duration_sec : Q;
  pool_length_m : Z
}.

(** [int(self.duration_sec + self.stroke_count)]: the count is converted
    to a float, and the sum is rounded to a double before it is
    truncated. *)
Definition swolf (lap : SwimLap) : Z :=
  py_int (float_add (duration_sec lap) (py_float (stroke_count lap))).

Definition distance_m (lap : SwimLap) : Z := pool_length_m lap.

Definition pace_per_100m (lap : SwimLap) : res Q :=
  if pool_length_m lap <=? 0 then Ok 0%Q
  else q ← py_truediv (duration_sec lap) (inject_Z (pool_length_m lap));
       Ok (q * 100)%Q.

(** The formulas as the design document words them. *)
Definition spec_swolf (lap : SwimLap) : Z :=
  py_round (duration_sec lap) + stroke_count lap.

Definition spec_pace_per_100m (lap : SwimLap) : Q :=
  (duration_sec lap / inject_Z (pool_length_m lap) * 100)%Q.

(** ** numpy arrays *)

(** One row of an (N,3) array. *)
Record vec3 : Type := mkVec3 { vx : Q; vy : Q; vz : Q }.

(** The contents of an array of shape (N,) or (N,3). *)
Inductive ndarray : Type :=
  | Arr1 (xs : list Q)
  | Arr2 (rows : list vec3).

(** [len(a)] *)
Definition np_len (a : ndarray) : nat :=
  match a with
  | Arr1 xs => length xs
  | Arr2 rows => length rows
  end.

Inductive np_shape : Type :=
  | Shape1 (n : nat)
  | Shape2 (n : nat).

Definition shape (a : ndarray) : np_shape :=
  match a with
  | Arr1 xs => Shape1 (length xs)
  | Arr2 rows => Shape2 (length rows)
  end.

(** Bounds of the basic slice [start:stop] on a sequence of [n] items:
    a negative index counts from the end, both ends are clipped to
    [0, n], and a stop before the start gives the empty range. *)
Definition slice_index (n : nat) (i : Z) : Z :=
  if i <? 0 then Z.max (i + Z.of_nat n) 0 else Z.min i (Z.of_nat n).

Definition slice_bounds (n : nat) (start stop : Z) : nat * nat :=
  let lo := slice_index n start in
  let hi := Z.max lo (slice_index n stop) in
  (Z.to_nat lo, Z.to_nat hi).

Definition py_slice {A : Type} (l : list A) (start stop : Z) : list A :=
  let '(lo, hi) := slice_bounds (length l) start stop in
  take (hi - lo)%nat (drop lo l).

Definition np_slice (a : ndarray) (start stop : Z) : ndarray :=
  match a with
  | Arr1 xs => Arr1 (py_slice xs start stop)
  | Arr2 rows => Arr2 (py_slice rows start stop)
  end.

(** *** Arrays as objects

    A numpy array object is a window on a buffer; basic slicing makes a
    new window on the same buffer. The store maps buffer addresses to
    their contents. *)

Record view : Type := mkView { base : nat; offset : nat; size : nat }.

Definition view_slice (v : view) (start stop : Z) : view :=
  let '(lo, hi) := slice_bounds (size v) start stop in
  {| base := base v; offset := (offset v + lo)%nat; size := (hi - lo)%nat |}.

Definition window (v : view) (buf : ndarray) : ndarray :=
  match buf with
  | Arr1 xs => Arr1 (take (size v) (drop (offset v) xs))
  | Arr2 rows => Arr2 (take (size v) (drop (offset v) rows))
  end.

(** What reading the whole array gives. *)
Definition read (st : gmap nat ndarray) (v : view) : option ndarray :=
  window v <$> st !! base v.

(** An index into a sequence of [n] items, negative ones from the end. *)
Definition item_index (n : nat) (i : Z) : res nat :=
  let j := if i <? 0 then i + Z.of_nat n else i in
  if (0 <=? j) && (j <? Z.of_nat n) then Ok (Z.to_nat j) else Raise IndexError.

(** [a[i] = x] on an array of shape (N,). *)
Definition setitem1 (st : gmap nat ndarray) (v : view) (i : Z) (x : Q)
  : res (gmap nat ndarray) :=
  j ← item_index (size v) i;
  match st !! base v with
  | Some (Arr1 xs) => Ok (<[base v := Arr1 (<[(offset v + j)%nat := x]> xs)]> st)
  | _ => Raise IndexError
  end.

(** [a[i] = row] on an array of shape (N,3). *)
Definition setitem2 (st : gmap nat ndarray) (v : view) (i : Z) (x : vec3)
  : res (gmap nat ndarray) :=
  j ← item_index (size v) i;
  match st !! base v with
  | Some (Arr2 rows) => Ok (<[base v := Arr2 (<[(offset v + j)%nat := x]> rows)]> st)
  | _ => Raise IndexError
  end.

(** ** models.py: SensorData, SessionData *)

(** [A] is [view] for the object as Python holds it and [ndarray] for
    its contents. *)
Record SensorData (A : Type) : Type := mkSensorData {
  timestamps : A;
  accel : A;
  gyro : A;
  mag : option A;
  pressure : option A
}.
Arguments mkSensorData {A}.
Arguments timestamps {A}.
Arguments accel {A}.
Arguments gyro {A}.
Arguments mag {A}.
Arguments pressure {A}.

Definition slice (self : SensorData view) (start_idx end_idx : Z) : SensorData view :=
  {| timestamps := view_slice (timestamps self) start_idx end_idx;
     accel := view_slice (accel self) start_idx end_idx;
     gyro := view_slice (gyro self) start_idx end_idx;
     mag := (fun m => view_slice m start_idx end_idx) <$> mag self;
     pressure := (fun p => view_slice p start_idx end_idx) <$> pressure self |}.

(** The contents of all arrays of a [SensorData] object. *)
Definition load (st : gmap nat ndarray) (sd : SensorData view)
  : option (SensorData ndarray) :=
  t ← read st (timestamps sd);
  a ← read st (accel sd);
  g ← read st (gyro sd);
  m ← match mag sd with
      | Some v => Some <$> read st v
      | None => Some None
      end;
  p ← match pressure sd with
      | Some v => Some <$> read st v
      | None => Some None
      end;
  Some {| timestamps := t; accel := a; gyro := g; mag := m; pressure := p |}.

(** A function applied to every array of a [SensorData]. *)
Definition sensor_data_map {A B : Type} (f : A -> B) (sd : SensorData A) : SensorData B :=
  {| timestamps := f (timestamps sd);
     accel := f (accel sd);
     gyro := f (gyro sd);
     mag := f <$> mag sd;
     pressure := f <$> pressure sd |}.

(** [SensorData.length]: [len(self.timestamps)]. *)
Definition sensor_length (self : SensorData ndarray) : nat := np_len (timestamps self).

(** The element type of an array of timestamps: [read_csv] gives int64
    for a column of whole numbers, and [astype(float)] gives float64. The
    items of an int64 array are whole numbers. *)
Inductive dtype : Type :=
  | int64
  | float64.

(** Two's complement in 64 bits. *)
Definition wrap_int64 (z : Z) : Z := (z + 2 ^ 63) mod 2 ^ 64 - 2 ^ 63.

(** [a - b] on two items of an array: on int64 the difference wraps. *)
Definition np_subtract (dt : dtype) (a b : Q) : Q :=
  match dt with
  | int64 => inject_Z (wrap_int64 (Qfloor a - Qfloor b))
  | float64 => (a - b)%Q
  end.

(** [SensorData.duration_sec]: the timestamps, of element type [dt], are
    nanoseconds. On timestamps of shape (N,3) the difference of the last
    and the first row is a row. *)
Definition sensor_duration_sec (dt : dtype) (self : SensorData ndarray) : Q + vec3 :=
  if (sensor_length self <? 2)%nat then inl 0%Q
  else
    match timestamps self with
    | Arr1 ts => inl (np_subtract dt (List.last ts 0) (hd 0 ts) / 1000000000)%Q
    | Arr2 rows =>
        let first := hd (mkVec3 0 0 0) rows in
        let last := List.last rows (mkVec3 0 0 0) in
        inr {| vx := np_subtract dt (vx last) (vx first) / 1000000000;
               vy := np_subtract dt (vy last) (vy first) / 1000000000;
               vz := np_subtract dt (vz last) (vz first) / 1000000000 |}%Q
    end.

(** Identifiers stand for UUIDs, times for [datetime] values. *)
Record SessionData : Type := mkSessionData {
  session_id : N;
  user_id : N;
  session_pool_length_m : Z;
  start_time : Z;
  sensor_data : SensorData ndarray;
  end_time : option Z;
  device_type : string
}.

(** ** models.py: AnalysisResult *)

Record AnalysisResult : Type := mkAnalysisResult {
  result_session_id : N;
  processed_at : Z;
  result_pool_length_m : Z;
  laps : list SwimLap;
  filtered_accel : option ndarray;
  filtered_gyro : option ndarray
}.

(** [sum(...)] over Python ints and over floats. *)
Definition py_sum_int (l : list Z) : Z := fold_left Z.add l 0.
Definition py_sum (l : list Q) : Q := fold_left Qplus l 0%Q.

(** Runs the computations of a list in order, stopping at the first
    exception. *)
Fixpoint sequence {A : Type} (l : list (res A)) : res (list A) :=
  match l with
  | [] => Ok []
  | m :: l' => a ← m; r ← sequence l'; Ok (a :: r)
  end.

Definition total_laps (self : AnalysisResult) : Z := Z.of_nat (length (laps self)).

Definition total_distance_m (self : AnalysisResult) : Z :=
  py_sum_int (map distance_m (laps self)).

Definition total_duration_sec (self : AnalysisResult) : Q :=
  py_sum (map duration_sec (laps self)).

Definition avg_swolf (self : AnalysisResult) : res Q :=
  match laps self with
  | [] => Ok 0%Q
  | _ => py_truediv (inject_Z (py_sum_int (map swolf (laps self))))
                    (inject_Z (Z.of_nat (length (laps self))))
  end.

Definition avg_pace_per_100m (self : AnalysisResult) : res Q :=
  match laps self with
  | [] => Ok 0%Q
  | _ => paces ← sequence (map pace_per_100m (laps self));
         py_truediv (py_sum paces) (inject_Z (Z.of_nat (length (laps self))))
  end.

(** A [dict] keeps its keys in the order of their first insertion:
    an association list, updated in place or extended at the end. *)
Fixpoint dict_get {K V : Type} `{EqDecision K} (d : list (K * V)) (k : K) (dflt : V) : V :=
  match d with
  | [] => dflt
  | (k', v) :: d' => if decide (k' = k) then v else dict_get d' k dflt
  end.

Fixpoint dict_set {K V : Type} `{EqDecision K} (d : list (K * V)) (k : K) (v : V)
  : list (K * V) :=
  match d with
  | [] => [(k, v)]
  | (k', v') :: d' =>
      if decide (k' = k) then (k, v) :: d' else (k', v') :: dict_set d' k v
  end.

(** [breakdown[lap.stroke_type] = breakdown.get(lap.stroke_type, 0) + 1],
    the body of the loop over the laps. *)
Definition breakdown_step (breakdown : list (StrokeType * Z)) (lap : SwimLap)
  : list (StrokeType * Z) :=
  dict_set breakdown (stroke_type lap) (dict_get breakdown (stroke_type lap) 0 + 1).

Definition get_stroke_breakdown (self : AnalysisResult) : list (StrokeType * Z) :=
  fold_left breakdown_step (laps self) [].

(** [max(iterable, key=f)] keeps the first of the largest items: a later
    item replaces the current one only when its key is strictly larger. *)
Definition py_max_by {A : Type} (f : A -> Z) (first : A) (rest : list A) : A :=
  fold_left (fun best x => if f best <? f x then x else best) rest first.

Definition primary_stroke (self : AnalysisResult) : StrokeType :=
  let breakdown := get_stroke_breakdown self in
  match map fst breakdown with
  | [] => UNKNOWN
  | k :: keys => py_max_by (fun s => dict_get breakdown s 0) k keys
  end.

(** The words of the design document about the primary stroke: the
    number of laps swum in a style, and the position of the first lap
    swum in it. *)
Definition lap_count (s : StrokeType) (ls : list SwimLap) : Z :=
  Z.of_nat (length (List.filter (fun lap => bool_decide (stroke_type lap = s)) ls)).

Definition first_lap_with (s : StrokeType) (ls : list SwimLap) : option nat :=
  fst <$> list_find (fun lap => stroke_type lap = s) ls.

(** ** Numerical routines of numpy and scipy

    The routines whose values are not rational are taken as given, with
    the facts about them that the code relies on. *)

Class Numerics : Type := {
  (** [np.sqrt] *)
  np_sqrt : Q -> Q;
  (** [scipy.signal.firwin(numtaps, cutoff, window='hamming')] *)
  firwin : nat -> Q -> list Q;
  firwin_length : forall numtaps cutoff, length (firwin numtaps cutoff) = numtaps;
  (** [np.abs(np.fft.fft(x))], one magnitude per frequency bin *)
  fft_abs : list Q -> list Q;
  fft_abs_length : forall x, length (fft_abs x) = length x;
  fft_abs_nonneg : forall x, Forall (fun m => 0 <= m)%Q (fft_abs x)
}.

(** Comparisons and the two-argument [max] and [min] on floats. *)
Definition Qltb (a b : Q) : bool := negb (Qle_bool b a).
Definition py_max (a b : Q) : Q := if Qltb a b then b else a.
Definition py_min (a b : Q) : Q := if Qltb b a then b else a.

(** [np.mean] of a one-dimensional array. *)
Definition np_mean (xs : list Q) : Q :=
  (py_sum xs / inject_Z (Z.of_nat (length xs)))%Q.

(** *** scipy.signal.filtfilt for a FIR filter

    [filtfilt(b, 1.0, x)] with the defaults [padtype='odd'] and
    [padlen = 3 * max(len(a), len(b))]: the input, which must be longer
    than [padlen], is extended at both ends, filtered forward and
    backward from the filter's state of rest, and cut back. *)

(** [odd_ext(x, n)]: [x] extended by [n] samples at each end, mirrored
    through the end points. *)
Definition odd_ext (x : list Q) (n : nat) : list Q :=
  let left_end := hd 0%Q x in
  let right_end := List.last x 0%Q in
  let left_ext := rev (take n (drop 1 x)) in
  let right_ext := rev (take n (drop (length x - 1 - n) x)) in
  map (fun v => 2 * left_end - v)%Q left_ext ++ x
    ++ map (fun v => 2 * right_end - v)%Q right_ext.

(** [lfilter_zi(b, [1.0])]: the state in which the filter rests on a
    constant input 1; entry [k] is [b[k+1] + ... + b[-1]]. It is the
    solution of a linear system that scipy sets up only for two
    coefficients or more. *)
Fixpoint suffix_sums (l : list Q) : list Q :=
  match l with
  | [] => []
  | x :: l' => py_sum (x :: l') :: suffix_sums l'
  end.

Definition lfilter_zi (b : list Q) : list Q := suffix_sums (tl b).

(** One sample through the transposed direct form: the new delay line
    [z[i] = z[i+1] + b[i+1] * x]. *)
Fixpoint lfilter_delay (b_tail z : list Q) (x : Q) : list Q :=
  match b_tail, z with
  | bi :: b', _ :: z' => (hd 0 z' + bi * x)%Q :: lfilter_delay b' z' x
  | _, _ => []
  end.

(** [lfilter(b, [1.0], x, zi=zi)] *)
Fixpoint lfilter (b zi x : list Q) : list Q :=
  match x with
  | [] => []
  | xn :: x' =>
      (hd 0 zi + hd 0 b * xn)%Q :: lfilter b (lfilter_delay (tl b) zi xn) x'
  end.

Definition filtfilt_1d (b x : list Q) : res (list Q) :=
  let ntaps := Nat.max 1 (length b) in
  let edge := (3 * ntaps)%nat in
  if (length x <=? edge)%nat then Raise ValueError
  else if (length b <? 2)%nat then Raise ValueError
  else
    let ext := odd_ext x edge in
    let zi := lfilter_zi b in
    let y := lfilter b (map (Qmult (hd 0%Q ext)) zi) ext in
    let y0 := List.last y 0%Q in
    let y := lfilter b (map (Qmult y0) zi) (rev y) in
    Ok (take (length x) (drop edge (rev y))).

(** Along axis 0, each column on its own. *)
Definition filtfilt (b : list Q) (x : ndarray) : res ndarray :=
  match x with
  | Arr1 xs => Arr1 <$> filtfilt_1d b xs
  | Arr2 rows =>
      c0 ← filtfilt_1d b (map vx rows);
      c1 ← filtfilt_1d b (map vy rows);
      c2 ← filtfilt_1d b (map vz rows);
      Ok (Arr2 (zip_with (fun xy z => mkVec3 xy.1 xy.2 z) (zip c0 c1) c2))
  end.

(** ** core/preprocessor.py: SwimBITFilter *)

Module SwimBITFilter.

Record t : Type := make {
  order : nat;
  cutoff_hz : Q;
  _filter_taps_cache : list (Q * list Q)
}.

(** [SwimBITFilter(order, cutoff_hz)] *)
Definition init (order : nat) (cutoff_hz : Q) : t :=
  {| order := order; cutoff_hz := cutoff_hz; _filter_taps_cache := [] |}.

(** The cache is a dict keyed by the sampling rate, a float. *)
Fixpoint cache_get (cache : list (Q * list Q)) (rate : Q) : option (list Q) :=
  match cache with
  | [] => None
  | (r, taps) :: cache' => if Qeq_bool r rate then Some taps else cache_get cache' rate
  end.

Section WithNumerics.
Context `{Numerics}.

Definition _get_filter_taps (self : t) (sampling_rate : Q) : res (list Q) * t :=
  match cache_get (_filter_taps_cache self) sampling_rate with
  | Some taps => (Ok taps, self)
  | None =>
      let nyquist := (0.5 * sampling_rate)%Q in
      match py_truediv (cutoff_hz self) nyquist with
      | Raise e => (Raise e, self)
      | Ok normalized_cutoff =>
          let normalized_cutoff := py_min (py_max normalized_cutoff 0.01) 0.99 in
          let taps := firwin (order self + 1) normalized_cutoff in
          (Ok taps,
           {| order := order self; cutoff_hz := cutoff_hz self;
              _filter_taps_cache := _filter_taps_cache self ++ [(sampling_rate, taps)] |})
      end
  end.

Definition process (self : t) (data : ndarray) (sampling_rate : Q) : res ndarray * t :=
  if (np_len data <=? order self + 1)%nat then (Ok data, self)
  else
    let '(taps, self) := _get_filter_taps self sampling_rate in
    (taps ← taps; filtfilt taps data, self).

(** The tuple is built left to right: an exception of the first call
    leaves the second one out. *)
Definition process_sensor_data (self : t) (accel gyro : ndarray) (sampling_rate : Q)
  : res (ndarray * ndarray) * t :=
  let '(filtered_accel, self) := process self accel sampling_rate in
  match filtered_accel with
  | Raise e => (Raise e, self)
  | Ok filtered_accel =>
      let '(filtered_gyro, self) := process self gyro sampling_rate in
      (filtered_gyro ← filtered_gyro; Ok (filtered_accel, filtered_gyro), self)
  end.

End WithNumerics.
End SwimBITFilter.

(** ** core/segmenter.py: PitchRollSegmenter *)

(** [enumerate(l)] *)
Definition enumerate {A : Type} (l : list A) : list (Z * A) :=
  zip (seqZ 0 (Z.of_nat (length l))) l.

(** [any(l)] and [all(l)] on a 0/1 mask. *)
Definition py_any (l : list bool) : bool := existsb id l.
Definition py_all (l : list bool) : bool := forallb id l.

Module PitchRollSegmenter.

Record t : Type := make {
  pool_length_m : Z;
  sampling_rate : Q;
  config : gmap string Q
}.

(** The 0/1 integer mask is a [list bool]; [astype(int)] and
    [astype(bool)] are the identity on it. *)

(** [mask[max(0, i - size):min(len(mask), i + size + 1)]] *)
Definition neighbourhood (mask : list bool) (i size : Z) : list bool :=
  py_slice mask (Z.max 0 (i - size)) (Z.min (Z.of_nat (length mask)) (i + size + 1)).

Definition _morphological_close (mask : list bool) (size : Z) : list bool :=
  let result :=
    map (fun '(i, m) => if py_any (neighbourhood mask i size) then true else m)
        (enumerate mask) in
  map (fun '(i, r) => if negb (py_all (neighbourhood result i size)) then false else r)
      (enumerate result).

Definition _morphological_open (mask : list bool) (size : Z) : list bool :=
  let result :=
    map (fun '(i, m) => if negb (py_all (neighbourhood mask i size)) then false else m)
        (enumerate mask) in
  map (fun '(i, r) => if py_any (neighbourhood result i size) then true else r)
      (enumerate result).

(** The loop state of [_find_segments]: the segments so far, whether a
    segment is open, and where it started. *)
Definition find_segments_step (st : list (Z * Z) * bool * Z) (x : Z * bool)
  : list (Z * Z) * bool * Z :=
  let '(segments, in_segment, start_idx) := st in
  let '(i, is_active) := x in
  if is_active && negb in_segment then (segments, true, i)
  else if negb is_active && in_segment then (segments ++ [(start_idx, i)], false, start_idx)
  else (segments, in_segment, start_idx).

Definition _find_segments (mask : list bool) : list (Z * Z) :=
  let '(segments, in_segment, start_idx) :=
    fold_left find_segments_step (enumerate mask) ([], false, 0) in
  if in_segment then segments ++ [(start_idx, Z.of_nat (length mask))]
  else segments.

Definition _filter_short_segments (segments : list (Z * Z)) (min_samples : Z)
  : list (Z * Z) :=
  List.filter (fun '(s, e) => min_samples <=? e - s) segments.

Section WithNumerics.
Context `{Numerics}.

Definition _calculate_null_probability (accel : list vec3) : list Q :=
  let gravity := 9.8%Q in
  map (fun a =>
         let magnitude := np_sqrt (vx a ^ 2 + vy a ^ 2 + vz a ^ 2)%Q in
         let deviation := Qabs (magnitude - gravity) in
         (1 / (1 + deviation / 2))%Q)
      accel.

(** [np.sum(accel ** 2, axis=1)] needs a second axis. *)
Definition segment (self : t) (sensor_data : SensorData ndarray)
    (sampling_rate_arg : option Q) : res (list (Z * Z)) :=
  let sampling_rate := default (sampling_rate self) sampling_rate_arg in
  match accel sensor_data with
  | Arr1 _ => Raise AxisError
  | Arr2 rows =>
      let null_prob := _calculate_null_probability rows in
      let swimming_mask := map (fun p => Qltb p 0.5) null_prob in
      let close_size := py_int (3 * sampling_rate) in
      let open_size := py_int (2 * sampling_rate) in
      let swimming_mask := _morphological_close swimming_mask close_size in
      let swimming_mask := _morphological_open swimming_mask open_size in
      let segments := _find_segments swimming_mask in
      let min_lap_sec := default 10%Q (config self !! "min_lap_duration_sec") in
      let min_samples := py_int (min_lap_sec * sampling_rate) in
      Ok (_filter_short_segments segments min_samples)
  end.

End WithNumerics.
End PitchRollSegmenter.

(** ** core/segmenter.py: NullProbabilitySegmenter *)

Module NullProbabilitySegmenter.

(** The probabilities are an array of shape (N,); [config] is the
    post-processing part of the configuration, a dict of dicts. *)
Record t : Type := make {
  null_probs : option (list Q);
  config : gmap string (gmap string Q)
}.

Definition set_null_probabilities (self : t) (probs : list Q) : t :=
  {| null_probs := Some probs; config := config self |}.

Section WithNumerics.
Context `{Numerics}.

(** [segmentation_config] is what the configuration file gives the
    [PitchRollSegmenter()] built for the fall-back. *)
Definition segment (self : t) (segmentation_config : gmap string Q)
    (sensor_data : SensorData ndarray) (sampling_rate : Q) : res (list (Z * Z)) :=
  match null_probs self with
  | None =>
      let fallback := PitchRollSegmenter.make 25 30.0 segmentation_config in
      PitchRollSegmenter.segment fallback sensor_data (Some sampling_rate)
  | Some null_probs =>
      let config := default ∅ (config self !! "smooth_nulls") in
      let prob_threshold := default 0.5%Q (config !! "probability") in
      let swimming_mask := map (fun p => Qltb p prob_threshold) null_probs in
      let '(segments, in_segment, start_idx) :=
        fold_left PitchRollSegmenter.find_segments_step (enumerate swimming_mask)
                  ([], false, 0) in
      if in_segment then Ok (segments ++ [(start_idx, Z.of_nat (length swimming_mask))])
      else Ok segments
  end.

End WithNumerics.
End NullProbabilitySegmenter.

(** ** core/classifier.py: EnergyClassifier *)

Module EnergyClassifier.

Record t : Type := make { thresholds : gmap string Q }.

(** [sum(|x - mean|) / N] of one column. *)
Definition channel_energy (xs : list Q) : Q :=
  let mean := np_mean xs in
  (py_sum (map (fun x => Qabs (x - mean)) xs) / inject_Z (Z.of_nat (length xs)))%Q.

(** A scalar for a one-dimensional input, one energy per axis otherwise. *)
Definition _calculate_energy (data : ndarray) : Q + vec3 :=
  match data with
  | Arr1 xs => inl (channel_energy xs)
  | Arr2 rows =>
      inr {| vx := channel_energy (map vx rows);
             vy := channel_energy (map vy rows);
             vz := channel_energy (map vz rows) |}
  end.

(** [accel_data[:, 2]] needs a second axis. *)
Definition _detect_backstroke_by_gravity (self : t) (accel_data : ndarray) : res bool :=
  match accel_data with
  | Arr1 _ => Raise IndexError
  | Arr2 rows =>
      let z_mean := np_mean (map vz rows) in
      let threshold := default 5.0%Q (thresholds self !! "backstroke_gravity_z") in
      Ok (Qltb threshold z_mean)
  end.

Definition classify (self : t) (lap_data : ndarray) : res StrokeType :=
  if (np_len lap_data <? 30)%nat then Ok UNKNOWN
  else
    match _calculate_energy lap_data with
    | inl _ => Raise IndexError
    | inr energies =>
        let E_x := vx energies in
        let E_y := vy energies in
        let E_z := vz energies in
        backstroke ← _detect_backstroke_by_gravity self lap_data;
        if (backstroke : bool) then Ok BACKSTROKE
        else
          let y_ratio := default 1.2%Q (thresholds self !! "freestyle_y_energy_ratio") in
          if Qltb (E_x * y_ratio) E_y && Qltb (E_z * y_ratio) E_y then Ok FREESTYLE
          else if Qle_bool E_y E_z then
            let butterfly_threshold :=
              default 15.0%Q (thresholds self !! "butterfly_x_energy") in
            let breaststroke_max :=
              default 12.0%Q (thresholds self !! "breaststroke_energy_max") in
            if Qltb butterfly_threshold E_x then Ok BUTTERFLY
            else if Qltb E_x breaststroke_max then Ok BREASTSTROKE
            else
              let total_energy := (E_x + E_y + E_z)%Q in
              if Qltb 35 total_energy then Ok BUTTERFLY else Ok BREASTSTROKE
          else Ok FREESTYLE
    end.

End EnergyClassifier.

(** ** scipy.signal.find_peaks with a minimum distance *)

(** Local maxima: a sample, or the middle (rounded down) of a run of
    equal samples, strictly above the samples on both sides. The first
    and the last sample never count. [cand] is the start of the run being
    followed, [i] the index of the head of [l], [prev] the sample before
    it. *)
Fixpoint local_maxima_scan (prev : Q) (cand : option nat) (i : nat) (l : list Q)
  : list nat :=
  match l with
  | [] => []
  | x :: l' =>
      match Qcompare prev x with
      | Lt => local_maxima_scan x (Some i) (S i) l'
      | Eq => local_maxima_scan x cand (S i) l'
      | Gt =>
          match cand with
          | Some left_edge =>
              ((left_edge + (i - 1)) / 2)%nat :: local_maxima_scan x None (S i) l'
          | None => local_maxima_scan x None (S i) l'
          end
      end
  end.

Definition _local_maxima_1d (x : list Q) : list nat :=
  match x with
  | [] => []
  | x0 :: l => local_maxima_scan x0 None 1 l
  end.

(** [np.argsort(priority)]: positions by increasing priority. numpy
    leaves the order of equal priorities open; here they stay in index
    order. The properties below hold for any order. *)
Fixpoint argsort_insert (key : nat -> Q) (j : nat) (sorted : list nat) : list nat :=
  match sorted with
  | [] => [j]
  | k :: sorted' =>
      if Qle_bool (key k) (key j) then k :: argsort_insert key j sorted'
      else j :: sorted
  end.

Definition argsort (priority : list Q) : list nat :=
  fold_left (fun sorted j => argsort_insert (fun k => nth k priority 0%Q) j sorted)
            (seq 0 (length priority)) [].

(** A kept peak at position [j] removes every other peak closer than
    [distance] samples. *)
Definition suppress_neighbours (peaks : list nat) (distance : Z) (keep : list bool)
    (j : nat) : list bool :=
  if nth j keep false then
    imap (fun k b =>
            if bool_decide (k ≠ j)
               && (Z.abs (Z.of_nat (nth k peaks 0%nat) - Z.of_nat (nth j peaks 0%nat))
                   <? distance)
            then false else b)
         keep
  else keep.

(** [_select_by_peak_distance]: peaks are visited from the highest
    priority down. *)
Definition _select_by_peak_distance (peaks : list nat) (priority : list Q)
    (distance : Z) : list bool :=
  fold_left (suppress_neighbours peaks distance) (rev (argsort priority))
            (repeat true (length peaks)).

(** [peaks, _ = find_peaks(x, distance=distance)] *)
Definition find_peaks (x : list Q) (distance : Z) : res (list nat) :=
  if distance <? 1 then Raise ValueError
  else
    let peaks := _local_maxima_1d x in
    let keep := _select_by_peak_distance peaks (map (fun p => nth p x 0%Q) peaks) distance in
    Ok (map fst (List.filter snd (zip peaks keep))).

(** ** core/stroke_counter.py *)

(** [np.fft.fftfreq(n, d)]: bins [0, 1, ..., (n-1)//2, -(n//2), ..., -1]
    times [1 / (n * d)]. *)
Definition fftfreq (n : nat) (d : Q) : list Q :=
  let val := (1 / (inject_Z (Z.of_nat n) * d))%Q in
  map (fun k => inject_Z k * val)%Q
      (seqZ 0 ((Z.of_nat n - 1) / 2 + 1) ++ seqZ (- (Z.of_nat n / 2)) (Z.of_nat n / 2)).

(** [np.argmax]: the first index of the largest entry. *)
Fixpoint argmax_from (best_idx : nat) (best : Q) (i : nat) (l : list Q) : nat :=
  match l with
  | [] => best_idx
  | x :: l' =>
      if Qltb best x then argmax_from i x (S i) l' else argmax_from best_idx best (S i) l'
  end.

Definition np_argmax (l : list Q) : nat :=
  match l with
  | [] => 0%nat
  | x :: l' => argmax_from 0 x 1 l'
  end.

Module BasicStrokeCounter.

Record t : Type := make { sampling_rate : Q }.

Definition _get_stroke_frequency_range (stroke_type : StrokeType) : Q * Q :=
  match stroke_type with
  | FREESTYLE => (0.6, 1.5)
  | BACKSTROKE => (0.5, 1.2)
  | BREASTSTROKE => (0.3, 0.8)
  | BUTTERFLY => (0.4, 1.0)
  | UNKNOWN => (0.3, 1.5)
  | _ => (0.3, 1.5)
  end%Q.

Definition _calculate_min_peak_distance (self : t) (stroke_type : StrokeType) : res Z :=
  let '(_, max_freq) := _get_stroke_frequency_range stroke_type in
  min_period ← py_truediv 1.0 max_freq;
  Ok (py_int (min_period * sampling_rate self)).

(** [stroke_type in [StrokeType.FREESTYLE, StrokeType.BACKSTROKE]] *)
Definition bilateral (stroke_type : StrokeType) : bool :=
  match stroke_type with
  | FREESTYLE | BACKSTROKE => true
  | _ => false
  end.

(** [lap_data[:, 1]] or [lap_data[:, 2]]; it needs a second axis. *)
Definition select_axis (lap_data : ndarray) (stroke_type : StrokeType) : res (list Q) :=
  match lap_data with
  | Arr1 _ => Raise IndexError
  | Arr2 rows => Ok (if bilateral stroke_type then map vy rows else map vz rows)
  end.

Definition count_strokes (self : t) (lap_data : ndarray) (stroke_type : StrokeType)
  : res Z :=
  if (np_len lap_data <? 10)%nat then Ok 0
  else
    signal ← select_axis lap_data stroke_type;
    let mean := np_mean signal in
    let signal := map (fun s => s - mean)%Q signal in
    min_distance ← _calculate_min_peak_distance self stroke_type;
    let min_distance := Z.max 3 min_distance in
    peaks_pos ← find_peaks signal min_distance;
    peaks_neg ← find_peaks (map Qopp signal) min_distance;
    if bilateral stroke_type then Ok (Z.of_nat (length peaks_pos))
    else Ok (Z.max (Z.of_nat (length peaks_pos)) (Z.of_nat (length peaks_neg))).

Section WithNumerics.
Context `{Numerics}.

Definition count_strokes_fft (self : t) (lap_data : ndarray) (stroke_type : StrokeType)
  : res Z :=
  if (np_len lap_data <? 30)%nat then count_strokes self lap_data stroke_type
  else
    signal ← select_axis lap_data stroke_type;
    let n := length signal in
    let mean := np_mean signal in
    let fft := fft_abs (map (fun s => s - mean)%Q signal) in
    d ← py_truediv 1.0 (sampling_rate self);
    let freqs := fftfreq n d in
    let positive := List.filter (fun fm => Qltb 0 fm.1) (zip freqs fft) in
    let magnitudes := map snd positive in
    let positive_freqs := map fst positive in
    let '(min_freq, max_freq) := _get_stroke_frequency_range stroke_type in
    let freq_mask :=
      map (fun f => Qle_bool min_freq f && Qle_bool f max_freq) positive_freqs in
    if negb (py_any freq_mask) then Ok 0
    else
      let masked_mags :=
        zip_with (fun m (in_band : bool) => if in_band then m else 0%Q)
                 magnitudes freq_mask in
      let dominant_idx := np_argmax masked_mags in
      let dominant_freq := nth dominant_idx positive_freqs 0%Q in
      duration_sec ← py_truediv (inject_Z (Z.of_nat n)) (sampling_rate self);
      Ok (py_int (dominant_freq * duration_sec)).

End WithNumerics.
End BasicStrokeCounter.

Module HybridStrokeCounter.

Record t : Type := make {
  sampling_rate : Q;
  basic_counter : BasicStrokeCounter.t
}.

(** [HybridStrokeCounter(sampling_rate)] *)
Definition init (sampling_rate : Q) : t :=
  {| sampling_rate := sampling_rate;
     basic_counter := BasicStrokeCounter.make sampling_rate |}.

Section WithNumerics.
Context `{Numerics}.

Definition count_strokes (self : t) (lap_data : ndarray) (stroke_type : StrokeType)
  : res Z :=
  peak_count ← BasicStrokeCounter.count_strokes (basic_counter self) lap_data stroke_type;
  fft_count ← BasicStrokeCounter.count_strokes_fft (basic_counter self) lap_data stroke_type;
  duration ← py_truediv (inject_Z (Z.of_nat (np_len lap_data))) (sampling_rate self);
  let weight :=
    if Qltb duration 15 then 0.8%Q
    else if Qltb duration 30 then 0.6%Q
    else 0.4%Q in
  let hybrid_count :=
    py_int (weight * inject_Z peak_count + (1 - weight) * inject_Z fft_count) in
  Ok (Z.max 0 hybrid_count).

End WithNumerics.
End HybridStrokeCounter.

(** ** core/segmenter.py: refine_lap_boundaries *)

(** [np.diff] *)
Definition np_diff (l : list Q) : list Q := zip_with (fun a b => b - a)%Q l (tl l).

(** [np.argmax] refuses an empty array. *)
Definition np_argmax_checked (l : list Q) : res nat :=
  match l with
  | [] => Raise ValueError
  | _ :: _ => Ok (np_argmax l)
  end.

Section RefineLapBoundaries.
Context `{Numerics}.

(** [np.argmax(np.abs(np.diff(magnitudes)))] with
    [magnitudes = np.sqrt(np.sum(region ** 2, axis=1))], the expression
    used at both ends of a lap. *)
Definition spike_index (region : ndarray) : res nat :=
  match region with
  | Arr1 _ => Raise AxisError
  | Arr2 rows =>
      let magnitudes := map (fun a => np_sqrt (vx a ^ 2 + vy a ^ 2 + vz a ^ 2)%Q) rows in
      np_argmax_checked (map Qabs (np_diff magnitudes))
  end.

(** A method of [PitchRollSegmenter]. *)
Definition refine_lap_boundaries (self : PitchRollSegmenter.t)
    (sensor_data : SensorData ndarray) (segments : list (Z * Z))
    (sampling_rate_arg : option Q) : res (list (Z * Z)) :=
  let sampling_rate := default (PitchRollSegmenter.sampling_rate self) sampling_rate_arg in
  let n := Z.of_nat (np_len (accel sensor_data)) in
  sequence
    (map (fun '(start, end') =>
            let window := py_int (2 * sampling_rate) in
            let start_region :=
              np_slice (accel sensor_data) (Z.max 0 (start - window)) (start + window) in
            new_start ←
              (if (0 <? np_len start_region)%nat then
                 spike_idx ← spike_index start_region;
                 Ok (Z.max 0 (start - window) + Z.of_nat spike_idx)
               else Ok start);
            let end_region :=
              np_slice (accel sensor_data) (Z.max 0 (end' - window))
                       (Z.min n (end' + window)) in
            new_end ←
              (if (0 <? np_len end_region)%nat then
                 spike_idx ← spike_index end_region;
                 Ok (Z.max 0 (end' - window) + Z.of_nat spike_idx)
               else Ok end');
            Ok (new_start, Z.min new_end n))
         segments).

End RefineLapBoundaries.

(** ** core/classifier.py: get_energy_profile *)

Record EnergyProfile : Type := mkEnergyProfile {
  energy_x : Q;
  energy_y : Q;
  energy_z : Q;
  total_energy : Q;
  mean_x : Q;
  mean_y : Q;
  mean_z : Q;
  dominant_axis : string
}.

(** A method of [EnergyClassifier]. The entries [energies[0]] of a
    one-dimensional input's scalar energy do not exist. On an empty
    array numpy computes nan where this gives 0. *)
Definition get_energy_profile (self : EnergyClassifier.t) (lap_data : ndarray)
  : res EnergyProfile :=
  match EnergyClassifier._calculate_energy lap_data, lap_data with
  | inr energies, Arr2 rows =>
      Ok {| energy_x := vx energies;
            energy_y := vy energies;
            energy_z := vz energies;
            total_energy := py_sum [vx energies; vy energies; vz energies];
            mean_x := np_mean (map vx rows);
            mean_y := np_mean (map vy rows);
            mean_z := np_mean (map vz rows);
            dominant_axis :=
              nth (np_argmax [vx energies; vy energies; vz energies]) ["x"; "y"; "z"] "x" |}
  | _, _ => Raise IndexError
  end.

(** ** core/pipeline.py: AnalysisPipeline

    The pipeline with its default components. *)

Module AnalysisPipeline.

Record t : Type := make {
  sampling_rate : Q;
  preprocessor : SwimBITFilter.t;
  segmenter : PitchRollSegmenter.t;
  classifier : EnergyClassifier.t;
  stroke_counter : BasicStrokeCounter.t
}.

Definition with_preprocessor (self : t) (p : SwimBITFilter.t) : t :=
  {| sampling_rate := sampling_rate self;
     preprocessor := p;
     segmenter := segmenter self;
     classifier := classifier self;
     stroke_counter := stroke_counter self |}.

Section WithNumerics.
Context `{Numerics}.

Definition _preprocess (self : t) (sensor_data : SensorData ndarray)
  : res (ndarray * ndarray) * t :=
  let '(filtered_accel, p) :=
    SwimBITFilter.process (preprocessor self) (accel sensor_data) (sampling_rate self) in
  match filtered_accel with
  | Raise e => (Raise e, with_preprocessor self p)
  | Ok filtered_accel =>
      let '(filtered_gyro, p) :=
        SwimBITFilter.process p (gyro sensor_data) (sampling_rate self) in
      (filtered_gyro ← filtered_gyro; Ok (filtered_accel, filtered_gyro),
       with_preprocessor self p)
  end.

Definition _create_lap (self : t) (lap_number start_idx end_idx : Z)
    (lap_accel : ndarray) (pool_length_m : Z) : res SwimLap :=
  stroke_type ← EnergyClassifier.classify (classifier self) lap_accel;
  stroke_count ← BasicStrokeCounter.count_strokes (stroke_counter self) lap_accel stroke_type;
  let n_samples := end_idx - start_idx in
  duration_sec ← py_truediv (inject_Z n_samples) (sampling_rate self);
  Ok {| lap_number := lap_number;
        start_idx := start_idx;
        end_idx := end_idx;
        stroke_type := stroke_type;
        stroke_count := stroke_count;
        duration_sec := duration_sec;
        pool_length_m := pool_length_m |}.

(** [now] is what [datetime.now()] returns. *)
Definition analyze (self : t) (session : SessionData) (now : Z)
  : res AnalysisResult * t :=
  let '(filtered, self) := _preprocess self (sensor_data session) in
  (filtered ← filtered;
   let '(filtered_accel, filtered_gyro) := filtered in
   let filtered_sensor_data :=
     {| timestamps := timestamps (sensor_data session);
        accel := filtered_accel;
        gyro := filtered_gyro;
        mag := mag (sensor_data session);
        pressure := pressure (sensor_data session) |} in
   lap_segments ←
     PitchRollSegmenter.segment (segmenter self) filtered_sensor_data
                                (Some (sampling_rate self));
   laps ←
     sequence
       (map (fun '(i, (start_idx, end_idx)) =>
               let lap_accel := np_slice filtered_accel start_idx end_idx in
               _create_lap self (i + 1) start_idx end_idx lap_accel
                           (session_pool_length_m session))
            (enumerate lap_segments));
   Ok {| result_session_id := session_id session;
         processed_at := now;
         result_pool_length_m := session_pool_length_m session;
         laps := laps;
         filtered_accel := Some filtered_accel;
         filtered_gyro := Some filtered_gyro |},
   self).

End WithNumerics.

(** [AnalysisPipeline(sampling_rate=...)] with the filter's configured
    order and cutoff and the two configuration dicts. *)
Definition init (sampling_rate : Q) (order : nat) (cutoff_hz : Q)
    (segmentation_config classifier_thresholds : gmap string Q) : t :=
  {| sampling_rate := sampling_rate;
     preprocessor := SwimBITFilter.init order cutoff_hz;
     segmenter := PitchRollSegmenter.make 25 sampling_rate segmentation_config;
     classifier := EnergyClassifier.make classifier_thresholds;
     stroke_counter := BasicStrokeCounter.make sampling_rate |}.

End AnalysisPipeline.

(** ** The analysis on array objects

    The operations of the pipeline on arrays as Python holds them,
    windows on buffers in a store: an operation that builds an array
    puts a new buffer into the store, a slice is a window on the buffer
    of its source, and an assignment to an item writes into the buffer
    of its target. The result [None] stands for what no Python program
    meets: a window on a buffer that is not there, or a mask that is not
    of shape (N,). *)

Module InStore.

(** A new array with these contents. *)
Definition np_array (st : gmap nat ndarray) (a : ndarray) : view * gmap nat ndarray :=
  let b := fresh (dom st) in
  ({| base := b; offset := 0; size := np_len a |}, <[b := a]> st).

(** [a.copy()] *)
Definition np_copy (st : gmap nat ndarray) (a : view) : option (view * gmap nat ndarray) :=
  contents ← read st a;
  Some (np_array st contents).

(** A 0/1 mask as an array of numbers, and the truth value of a
    number. *)
Definition int_of_bool (b : bool) : Q := if b then 1%Q else 0%Q.
Definition int_mask (mask : list bool) : ndarray := Arr1 (map int_of_bool mask).
Definition truthy (x : Q) : bool := negb (Qeq_bool x 0).

(** The truth values of the items of an array of shape (N,). *)
Definition truth_values (st : gmap nat ndarray) (a : view) : option (list bool) :=
  contents ← read st a;
  match contents with
  | Arr1 xs => Some (map truthy xs)
  | Arr2 _ => None
  end.

(** [len(a)] *)
Definition view_len (a : view) : nat := size a.

(** One loop of a morphological operation:
    [for i in range(len(src)): if test(src[max(0, i - size):min(len(src), i + size + 1)]): dst[i] = x] *)
Definition morphological_pass (test : list bool -> bool) (x : Q) (st : gmap nat ndarray)
    (src dst : view) (size : Z) : option (gmap nat ndarray) :=
  fold_left
    (fun st i =>
       st ← st;
       neighbours ←
         truth_values st
           (view_slice src (Z.max 0 (i - size))
                       (Z.min (Z.of_nat (view_len src)) (i + size + 1)));
       if test neighbours
       then match setitem1 st dst i x with
            | Ok st => Some st
            | Raise _ => None
            end
       else Some st)
    (seqZ 0 (Z.of_nat (view_len src)))
    (Some st).

Definition _morphological_close (st : gmap nat ndarray) (mask : view) (size : Z)
  : option (view * gmap nat ndarray) :=
  '(result, st) ← np_copy st mask;
  st ← morphological_pass py_any 1 st mask result size;
  '(closed, st) ← np_copy st result;
  st ← morphological_pass (fun neighbours => negb (py_all neighbours)) 0 st result closed size;
  Some (closed, st).

Definition _morphological_open (st : gmap nat ndarray) (mask : view) (size : Z)
  : option (view * gmap nat ndarray) :=
  '(result, st) ← np_copy st mask;
  st ← morphological_pass (fun neighbours => negb (py_all neighbours)) 0 st mask result size;
  '(opened, st) ← np_copy st result;
  st ← morphological_pass py_any 1 st result opened size;
  Some (opened, st).

Section WithNumerics.
Context `{Numerics}.

(** [SwimBITFilter.process]: a short input is returned as it is, the
    same object; [filtfilt] returns a new array. *)
Definition process (self : SwimBITFilter.t) (st : gmap nat ndarray) (data : view)
    (sampling_rate : Q) : option (res view * SwimBITFilter.t * gmap nat ndarray) :=
  contents ← read st data;
  if (np_len contents <=? SwimBITFilter.order self + 1)%nat then Some (Ok data, self, st)
  else
    let '(taps, self) := SwimBITFilter._get_filter_taps self sampling_rate in
    match taps ≫= (fun taps => filtfilt taps contents) with
    | Raise e => Some (Raise e, self, st)
    | Ok filtered =>
        let '(filtered, st) := np_array st filtered in
        Some (Ok filtered, self, st)
    end.

(** [PitchRollSegmenter.segment]: the probabilities, the mask and its
    conversion to integers are new arrays; the morphological operations
    write to copies. *)
Definition segment (self : PitchRollSegmenter.t) (st : gmap nat ndarray) (accel_data : view)
    (sampling_rate_arg : option Q) : option (res (list (Z * Z)) * gmap nat ndarray) :=
  let sampling_rate := default (PitchRollSegmenter.sampling_rate self) sampling_rate_arg in
  contents ← read st accel_data;
  match contents with
  | Arr1 _ => Some (Raise AxisError, st)
  | Arr2 rows =>
      let probabilities := PitchRollSegmenter._calculate_null_probability rows in
      let '(null_prob, st) := np_array st (Arr1 probabilities) in
      let mask := map (fun p => Qltb p 0.5) probabilities in
      let '(swimming_mask, st) := np_array st (int_mask mask) in
      let close_size := py_int (3 * sampling_rate) in
      let open_size := py_int (2 * sampling_rate) in
      '(as_int, st) ← np_copy st swimming_mask;
      '(swimming_mask, st) ← _morphological_close st as_int close_size;
      '(swimming_mask, st) ← _morphological_open st swimming_mask open_size;
      as_bool ← truth_values st swimming_mask;
      let segments := PitchRollSegmenter._find_segments as_bool in
      let min_lap_sec :=
        default 10%Q (PitchRollSegmenter.config self !! "min_lap_duration_sec") in
      let min_samples := py_int (min_lap_sec * sampling_rate) in
      Some (Ok (PitchRollSegmenter._filter_short_segments segments min_samples), st)
  end.

(** [AnalysisPipeline.analyze] on the session's [SensorData] object
    [sensor_data]; of [session] the identifier and the pool length are
    read. The array of a lap is the slice [filtered_accel[start:end]]. *)
Definition analyze (self : AnalysisPipeline.t) (st : gmap nat ndarray)
    (session : SessionData) (sensor_data : SensorData view) (now : Z)
  : option (res AnalysisResult * AnalysisPipeline.t * gmap nat ndarray) :=
  let sampling_rate := AnalysisPipeline.sampling_rate self in
  '(filtered_accel, p, st) ←
    process (AnalysisPipeline.preprocessor self) st (accel sensor_data) sampling_rate;
  match filtered_accel with
  | Raise e => Some (Raise e, AnalysisPipeline.with_preprocessor self p, st)
  | Ok filtered_accel =>
      '(filtered_gyro, p, st) ← process p st (gyro sensor_data) sampling_rate;
      let self := AnalysisPipeline.with_preprocessor self p in
      match filtered_gyro with
      | Raise e => Some (Raise e, self, st)
      | Ok filtered_gyro =>
          '(lap_segments, st) ←
            segment (AnalysisPipeline.segmenter self) st filtered_accel (Some sampling_rate);
          match lap_segments with
          | Raise e => Some (Raise e, self, st)
          | Ok lap_segments =>
              lap_arrays ←
                mapM (fun '(start_idx, end_idx) =>
                        read st (view_slice filtered_accel start_idx end_idx))
                     lap_segments;
              accel_contents ← read st filtered_accel;
              gyro_contents ← read st filtered_gyro;
              Some
                (laps ←
                   sequence
                     (map (fun '(i, (start_idx, end_idx, lap_accel)) =>
                             AnalysisPipeline._create_lap self (i + 1) start_idx end_idx
                               lap_accel (session_pool_length_m session))
                          (enumerate (zip lap_segments lap_arrays)));
                 Ok {| result_session_id := session_id session;
                       processed_at := now;
                       result_pool_length_m := session_pool_length_m session;
                       laps := laps;
                       filtered_accel := Some accel_contents;
                       filtered_gyro := Some gyro_contents |},
                 self, st)
          end
      end
  end.

End WithNumerics.
End InStore.

(** ** schemas.py: the schemas of the session endpoints *)

Module schemas.

Inductive SessionStatus : Type :=
  | UPLOADING
  | PROCESSING
  | COMPLETED
  | FAILED.

(** [StrokeType.value] *)
Definition value (s : StrokeType) : string :=
  match s with
  | FREESTYLE => "freestyle"
  | BACKSTROKE => "backstroke"
  | BREASTSTROKE => "breaststroke"
  | BUTTERFLY => "butterfly"
  | UNKNOWN => "unknown"
  | REST => "rest"
  | TURN => "turn"
  end.

Record LapDetail : Type := mkLapDetail {
  lap_number : Z;
  stroke_type : StrokeType;
  duration_sec : Q;
  stroke_count : Z;
  swolf : Z;
  pace_per_100m : Q;
  start_time : Q;
  end_time : Q
}.

Record SessionSummary : Type := mkSessionSummary {
  summary_session_id : N;
  summary_status : SessionStatus;
  summary_pool_length_m : Z;
  summary_total_laps : Z;
  summary_total_distance_m : Z;
  total_duration_sec : Q;
  avg_pace_per_100m : Q;
  avg_swolf : Q;
  primary_stroke : StrokeType;
  stroke_breakdown : list (StrokeType * Z)
}.

Record AnalysisResult : Type := mkAnalysisResult {
  session_id : N;
  processed_at : Z;
  pool_length_m : Z;
  total_laps : Z;
  total_distance_m : Z;
  laps : list LapDetail;
  summary : SessionSummary;
  summary_text : string
}.

Record SessionUploadResponse : Type := mkSessionUploadResponse {
  upload_session_id : N;
  upload_status : SessionStatus;
  message : string
}.

Record SessionStatusResponse : Type := mkSessionStatusResponse {
  status_session_id : N;
  status : SessionStatus;
  progress_percent : option Z;
  error_message : option string
}.

End schemas.

(** ** api/v1/sessions.py

    The endpoints on the two dicts they share. An endpoint returns its
    response or raises; what the web framework does with either is not
    part of this. *)

Module sessions.

(** A cell of a frame: a number, or a text that [float()] does not
    accept (a text that it accepts stands as the number it gives). *)
Inductive cell : Type :=
  | Number (x : Q)
  | Text (s : string).

(** A pandas DataFrame, its columns by label; all columns have the same
    number of cells. *)
Record DataFrame : Type := mkDataFrame { columns : gmap string (list cell) }.

(** The exceptions met in the endpoints: those of the analysis core, the
    KeyError of a missing column, the ValueError of [astype(float)] on a
    text, the two of the parser, and the one that makes an HTTP error
    response. *)
Inductive exception : Type :=
  | CoreError (e : exn)
  | KeyError (labels : list string)
  | ConversionError (text : string)
  | EmptyDataError
  | ParserError (message : string)
  | HTTPException (status_code : Z) (detail : string).

Inductive outcome (A : Type) : Type :=
  | Return (a : A)
  | Throw (e : exception).
Arguments Return {A} a.
Arguments Throw {A} e.

(** [float(c)] on a cell. *)
Definition to_float (c : cell) : outcome Q :=
  match c with
  | Number x => Return x
  | Text s => Throw (ConversionError s)
  end.

(** [a.astype(float)] on an array of shape (N,): the cells are converted
    in order, and the first text raises. *)
Fixpoint astype_float (cells : list cell) : outcome (list Q) :=
  match cells with
  | [] => Return []
  | c :: cells' =>
      match to_float c with
      | Throw e => Throw e
      | Return x =>
          match astype_float cells' with
          | Throw e => Throw e
          | Return xs => Return (x :: xs)
          end
      end
  end.

(** The same on an array of shape (N,3), row by row. *)
Fixpoint astype_float_rows (rows : list (cell * cell * cell)) : outcome (list vec3) :=
  match rows with
  | [] => Return []
  | (a, b, c) :: rows' =>
      match to_float a with
      | Throw e => Throw e
      | Return x =>
          match to_float b with
          | Throw e => Throw e
          | Return y =>
              match to_float c with
              | Throw e => Throw e
              | Return z =>
                  match astype_float_rows rows' with
                  | Throw e => Throw e
                  | Return vs => Return (mkVec3 x y z :: vs)
                  end
              end
          end
      end
  end.

(** [df[label].values.astype(float)] *)
Definition column_values (df : DataFrame) (label : string) : outcome ndarray :=
  match columns df !! label with
  | Some cells =>
      match astype_float cells with
      | Throw e => Throw e
      | Return xs => Return (Arr1 xs)
      end
  | None => Throw (KeyError [label])
  end.

(** [df[[l0, l1, l2]].values.astype(float)]: one row per line of the
    frame. *)
Definition rows_values (df : DataFrame) (l0 l1 l2 : string) : outcome ndarray :=
  match columns df !! l0, columns df !! l1, columns df !! l2 with
  | Some c0, Some c1, Some c2 =>
      match astype_float_rows (zip_with (fun ab c => (ab.1, ab.2, c)) (zip c0 c1) c2) with
      | Throw e => Throw e
      | Return rows => Return (Arr2 rows)
      end
  | _, _, _ =>
      Throw (KeyError (List.filter (fun l => bool_decide (columns df !! l = None))
                                   [l0; l1; l2]))
  end.

(** An entry of [_sessions], a dict with these keys; the key "error" is
    set by a failed analysis only. *)
Record session_dict : Type := mk_session_dict {
  id : N;
  status : schemas.SessionStatus;
  pool_length_m : Z;
  device_type : string;
  notes : option string;
  uploaded_at : Z;
  data : DataFrame;
  progress : Z;
  error : option string
}.

Definition set_progress (percent : Z) (session : session_dict) : session_dict :=
  mk_session_dict (id session) (status session) (pool_length_m session)
    (device_type session) (notes session) (uploaded_at session) (data session)
    percent (error session).

Definition set_status (s : schemas.SessionStatus) (session : session_dict) : session_dict :=
  mk_session_dict (id session) s (pool_length_m session)
    (device_type session) (notes session) (uploaded_at session) (data session)
    (progress session) (error session).

Definition set_error (msg : string) (session : session_dict) : session_dict :=
  mk_session_dict (id session) (status session) (pool_length_m session)
    (device_type session) (notes session) (uploaded_at session) (data session)
    (progress session) (Some msg).

(** The two module-level dicts. *)
Record state : Type := mk_state {
  _sessions : gmap N session_dict;
  _analysis_results : gmap N AnalysisResult
}.

(** [if session_id in _sessions: _sessions[session_id][...] = ...] *)
Definition update_session (st : state) (session_id : N)
    (f : session_dict -> session_dict) : state :=
  match _sessions st !! session_id with
  | Some session => mk_state (<[session_id := f session]> (_sessions st)) (_analysis_results st)
  | None => st
  end.

(** The values that the configuration file gives the components of an
    [AnalysisPipeline] built with defaults. *)
Record AlgorithmConfig : Type := mkAlgorithmConfig {
  filter_order : nat;
  filter_cutoff_hz : Q;
  segmentation_config : gmap string Q;
  classifier_thresholds : gmap string Q
}.

Definition required_cols : list string :=
  ["timestamp"; "ACC_0"; "ACC_1"; "ACC_2"; "GYRO_0"; "GYRO_1"; "GYRO_2"].

(** [str(labels)] of a list of strings without quotes in them. *)
Definition py_str_list (labels : list string) : string :=
  "[" +:+ String.concat ", " (map (fun l => "'" +:+ l +:+ "'") labels) +:+ "]".

Section Endpoints.
Context `{Numerics}.

(** [str(e)] of an exception, [str(n)] of an int and the format [.1f]
    of a float. *)
Variable str : exception -> string.
Variable str_int : Z -> string.
Variable format_1f : Q -> string.

(** [parsed] is what reading the file and [pd.read_csv] give,
    [session_id] what [uuid4()] returns and [now] what [datetime.now()]
    returns. Beside the response and the dicts, the task given to
    [background_tasks.add_task], if any. *)
Definition upload_session (st : state) (session_id : N) (now : Z)
    (parsed : outcome DataFrame) (pool_length_m : Z) (device_type : string)
    (notes : option string)
  : outcome schemas.SessionUploadResponse * state * option (N * DataFrame * Z) :=
  let tried :=
    match parsed with
    | Throw e => (Throw e, st, None)
    | Return df =>
        let missing :=
          List.filter (fun col => bool_decide (columns df !! col = None)) required_cols in
        match missing with
        | _ :: _ =>
            (Throw (HTTPException 400 ("Missing required columns: " +:+ py_str_list missing)),
             st, None)
        | [] =>
            let session :=
              mk_session_dict session_id schemas.PROCESSING pool_length_m device_type notes
                              now df 0 None in
            (Return (schemas.mkSessionUploadResponse session_id schemas.PROCESSING
                       "Session uploaded successfully. Analysis in progress."),
             mk_state (<[session_id := session]> (_sessions st)) (_analysis_results st),
             Some (session_id, df, pool_length_m))
        end
    end in
  match tried with
  | (Throw EmptyDataError, st, task) =>
      (Throw (HTTPException 400 "Uploaded file is empty"), st, task)
  | (Throw e, st, task) => (Throw (HTTPException 500 (str e)), st, task)
  | (Return response, st, task) => (Return response, st, task)
  end.

(** The sensor data of a frame; the magnetometer is read when its three
    columns are there. *)
Definition sensor_data_of_frame (df : DataFrame) : outcome (SensorData ndarray) :=
  match column_values df "timestamp" with
  | Throw e => Throw e
  | Return timestamps =>
      match rows_values df "ACC_0" "ACC_1" "ACC_2" with
      | Throw e => Throw e
      | Return accel =>
          match rows_values df "GYRO_0" "GYRO_1" "GYRO_2" with
          | Throw e => Throw e
          | Return gyro =>
              if forallb (fun col => bool_decide (is_Some (columns df !! col)))
                         ["MAG_0"; "MAG_1"; "MAG_2"]
              then
                match rows_values df "MAG_0" "MAG_1" "MAG_2" with
                | Throw e => Throw e
                | Return mag => Return (mkSensorData timestamps accel gyro (Some mag) None)
                end
              else Return (mkSensorData timestamps accel gyro None None)
          end
      end
  end.

(** The handler of [_process_session]: the session, if still there, is
    marked as failed. *)
Definition mark_failed (st : state) (session_id : N) (e : exception) : state :=
  update_session st session_id
    (fun session => set_error (str e) (set_status schemas.FAILED session)).

(** The background task. [user_id] is what [uuid4()] returns,
    [start_time] and [now] what the two calls of [datetime.now()]
    return. *)
Definition _process_session (config : AlgorithmConfig) (st : state) (session_id : N)
    (df : DataFrame) (pool_length_m : Z) (user_id : N) (start_time now : Z) : state :=
  let st := update_session st session_id (set_progress 10) in
  match sensor_data_of_frame df with
  | Throw e => mark_failed st session_id e
  | Return sensor_data =>
      let session :=
        mkSessionData session_id user_id pool_length_m start_time sensor_data None
                      "unknown" in
      let st := update_session st session_id (set_progress 30) in
      let pipeline :=
        AnalysisPipeline.init 30.0 (filter_order config) (filter_cutoff_hz config)
                              (segmentation_config config) (classifier_thresholds config) in
      match (AnalysisPipeline.analyze pipeline session now).1 with
      | Raise e => mark_failed st session_id (CoreError e)
      | Ok result =>
          let st := update_session st session_id (set_progress 90) in
          let st := mk_state (_sessions st) (<[session_id := result]> (_analysis_results st)) in
          update_session st session_id
            (fun session => set_progress 100 (set_status schemas.COMPLETED session))
      end
  end.

Definition get_session_status (st : state) (session_id : N)
  : outcome schemas.SessionStatusResponse :=
  match _sessions st !! session_id with
  | None => Throw (HTTPException 404 "Session not found")
  | Some session =>
      Return (schemas.mkSessionStatusResponse session_id (status session)
                (Some (progress session)) (error session))
  end.

(** A lap as the response gives it; the times are for 30 Hz. *)
Definition lap_detail (lap : SwimLap) : res schemas.LapDetail :=
  pace ← pace_per_100m lap;
  Ok (schemas.mkLapDetail (lap_number lap) (stroke_type lap) (duration_sec lap)
        (stroke_count lap) (swolf lap) pace
        (inject_Z (start_idx lap) / 30.0)%Q (inject_Z (end_idx lap) / 30.0)%Q).

Definition analysis_response (result : AnalysisResult) : res schemas.AnalysisResult :=
  laps ← sequence (map lap_detail (laps result));
  avg_pace ← avg_pace_per_100m result;
  avg_swolf ← avg_swolf result;
  let summary :=
    schemas.mkSessionSummary (result_session_id result) schemas.COMPLETED
      (result_pool_length_m result) (total_laps result) (total_distance_m result)
      (total_duration_sec result) avg_pace avg_swolf (primary_stroke result)
      (get_stroke_breakdown result) in
  let summary_text :=
    "Completed " +:+ str_int (total_laps result) +:+ " laps ("
      +:+ str_int (total_distance_m result) +:+ "m) in "
      +:+ format_1f (total_duration_sec result) +:+ " seconds. Primary stroke: "
      +:+ schemas.value (primary_stroke result) +:+ ". Average SWOLF: "
      +:+ format_1f avg_swolf +:+ "." in
  Ok (schemas.mkAnalysisResult (result_session_id result) (processed_at result)
        (result_pool_length_m result) (total_laps result) (total_distance_m result)
        laps summary summary_text).

Definition get_analysis_result (st : state) (session_id : N)
  : outcome schemas.AnalysisResult :=
  match _sessions st !! session_id with
  | None => Throw (HTTPException 404 "Session not found")
  | Some session =>
      match status session with
      | schemas.PROCESSING => Throw (HTTPException 202 "Analysis still in progress")
      | schemas.FAILED =>
          Throw (HTTPException 500
                   ("Analysis failed: " +:+ default "Unknown error" (error session)))
      | _ =>
          match _analysis_results st !! session_id with
          | None => Throw (HTTPException 404 "Analysis result not found")
          | Some result =>
              match analysis_response result with
              | Ok response => Return response
              | Raise e => Throw (CoreError e)
              end
          end
      end
  end.

(** The response is the message. *)
Definition delete_session (st : state) (session_id : N) : outcome string * state :=
  match _sessions st !! session_id with
  | None => (Throw (HTTPException 404 "Session not found"), st)
  | Some _ =>
      (Return "Session deleted successfully",
       mk_state (delete session_id (_sessions st)) (delete session_id (_analysis_results st)))
  end.

End Endpoints.
End sessions.

(** ** Predicates of the statements *)

(** The array objects of a [SensorData]. *)
Definition arrays (sd : SensorData view) : list view :=
  [timestamps sd; accel sd; gyro sd] ++ option_list (mag sd) ++ option_list (pressure sd).

(** A window lies within its buffer. *)
Definition view_ok (st : gmap nat ndarray) (v : view) : Prop :=
  exists buf, st !! base v = Some buf /\ (offset v + size v <= np_len buf)%nat.

(** All arrays of a [SensorData] are there and [n] samples long. *)
Definition sensor_data_ok (st : gmap nat ndarray) (sd : SensorData view) (n : nat) : Prop :=
  Forall (fun v => view_ok st v /\ size v = n) (arrays sd).

(** A result with another time of analysis. *)
Definition stamped (now : Z) (r : AnalysisResult) : AnalysisResult :=
  {| result_session_id := result_session_id r;
     processed_at := now;
     result_pool_length_m := result_pool_length_m r;
     laps := laps r;
     filtered_accel := filtered_accel r;
     filtered_gyro := filtered_gyro r |}.

(** The array [v] is a whole buffer that holds the 0/1 mask [mask]. *)
Definition mask_array (st : gmap nat ndarray) (v : view) (mask : list bool) : Prop :=
  offset v = 0%nat /\ size v = length mask /\ st !! base v = Some (InStore.int_mask mask).

(** The items of an array of element type [dt]. *)
Definition is_int64 (q : Q) : Prop :=
  exists z, q = inject_Z z /\ - 2 ^ 63 <= z < 2 ^ 63.

Definition has_dtype (dt : dtype) (xs : list Q) : Prop :=
  match dt with
  | int64 => Forall is_int64 xs
  | float64 => True
  end.

(** Every cached entry was designed for this filter's order. *)
Definition cache_consistent (self : SwimBITFilter.t) : Prop :=
  Forall (fun entry => length entry.2 = (SwimBITFilter.order self + 1)%nat)
         (SwimBITFilter._filter_taps_cache self).

(** What holds of the loop state of [_find_segments] once the samples
    before index [i] are read: the closed segments are non-empty, in
    order, and end no later than the open segment starts, or than [i]
    when none is open. *)
Definition find_segments_inv (i : Z) (st : list (Z * Z) * bool * Z) : Prop :=
  let '(segments, in_segment, start_idx) := st in
  Forall (fun '(s, e) => 0 <= s /\ s < e /\ e <= (if in_segment then start_idx else i))
         segments
  /\ StronglySorted (fun a b => a.2 <= b.1) segments
  /\ (in_segment = true -> 0 <= start_idx /\ start_idx < i).

(** What else holds of that loop state once the samples of [prefix] are
    read: a sample is set exactly when it lies in a closed segment or in
    the open one; a closed segment ends on a clear sample and starts at
    sample 0 or after a clear sample, as the open one does; with no
    segment open, the last sample read was clear. *)
Definition find_segments_runs (prefix : list bool) (st : list (Z * Z) * bool * Z) : Prop :=
  let '(segments, in_segment, start_idx) := st in
  (forall k : nat,
     prefix !! k = Some true <->
     (exists s e, (s, e) ∈ segments /\ s <= Z.of_nat k < e)
     \/ (in_segment = true /\ start_idx <= Z.of_nat k < Z.of_nat (length prefix)))
  /\ (forall s e, (s, e) ∈ segments ->
        0 <= s /\ s < e /\ e < Z.of_nat (length prefix)
        /\ prefix !! Z.to_nat e = Some false
        /\ (s = 0 \/ prefix !! Z.to_nat (s - 1) = Some false))
  /\ (in_segment = true ->
        0 <= start_idx < Z.of_nat (length prefix)
        /\ (start_idx = 0 \/ prefix !! Z.to_nat (start_idx - 1) = Some false))
  /\ (in_segment = false -> prefix = [] \/ last prefix = Some false).

(** The two passes that the morphological operations are made of:
    closing erodes the dilated mask, opening dilates the eroded one. *)
Definition dilate (mask : list bool) (size : Z) : list bool :=
  map (fun '(i, m) =>
         if py_any (PitchRollSegmenter.neighbourhood mask i size) then true else m)
      (enumerate mask).

Definition erode (mask : list bool) (size : Z) : list bool :=
  map (fun '(i, m) =>
         if negb (py_all (PitchRollSegmenter.neighbourhood mask i size)) then false else m)
      (enumerate mask).

(** Sample [j] of a mask of [n] samples lies in the neighbourhood of
    sample [i]. *)
Definition in_window (n : nat) (size : Z) (i j : nat) : Prop :=
  (j < n)%nat /\ Z.of_nat i - size <= Z.of_nat j <= Z.of_nat i + size.

(** A sample whose acceleration is within 2 m/s^2 of gravity. *)
Definition quiet `{Numerics} (a : vec3) : Prop :=
  (Qabs (np_sqrt (vx a ^ 2 + vy a ^ 2 + vz a ^ 2) - 9.8) <= 2)%Q.

(** A frame with the seven required columns and [n] lines whose cells
    in these columns, and in those of the magnetometer if it has them,
    are numbers. *)
Definition frame_has_rows (df : sessions.DataFrame) (n : nat) : Prop :=
  Forall (fun col => exists xs,
            sessions.columns df !! col = Some (sessions.Number <$> xs) /\ length xs = n)
         sessions.required_cols
  /\ Forall (fun col => forall cells,
               sessions.columns df !! col = Some cells ->
               exists xs, cells = sessions.Number <$> xs)
            ["MAG_0"; "MAG_1"; "MAG_2"].

(** What holds of the keep mask of [_select_by_peak_distance] once the
    positions in [visited] are done: two kept positions, one of them
    visited, are [distance] apart. *)
Definition spaced_from (peaks : list nat) (distance : Z) (visited : list nat)
    (keep : list bool) : Prop :=
  forall j k, j ∈ visited -> j <> k ->
    keep !! j = Some true -> keep !! k = Some true ->
    distance <= Z.abs (Z.of_nat (nth k peaks 0%nat) - Z.of_nat (nth j peaks 0%nat)).

(** The words of the design document about a lap list over [n] samples:
    every range lies within the samples, is non-empty and at least
    [min_samples] long; starts ascend; no range begins before the one
    before it ends. *)
Definition lap_ranges_valid (n min_samples : Z) (segments : list (Z * Z)) : Prop :=
  Forall (fun '(s, e) => 0 <= s /\ s < e /\ e <= n /\ min_samples <= e - s) segments
  /\ StronglySorted (fun a b => a.1 < b.1) segments
  /\ StronglySorted (fun a b => a.2 <= b.1) segments.

(** The words of the design document about the spectral method: the
    positive frequency bins of an [n]-sample lap that lie in the style's
    band. *)
Definition band_frequencies (sampling_rate : Q) (n : nat) (stroke_type : StrokeType)
  : list Q :=
  let '(min_freq, max_freq) := BasicStrokeCounter._get_stroke_frequency_range stroke_type in
  List.filter (fun f => Qle_bool min_freq f && Qle_bool f max_freq)
              (List.filter (Qltb 0) (fftfreq n (1.0 / sampling_rate))).

(** The minimum distance between peaks that [count_strokes] asks for. *)
Definition min_peak_distance (sampling_rate : Q) (stroke_type : StrokeType) : Z :=
  let '(_, max_freq) := BasicStrokeCounter._get_stroke_frequency_range stroke_type in
  Z.max 3 (py_int (1.0 / max_freq * sampling_rate)).


(** The lengths on which [filtfilt] is either not called or, with a
    filter of order 1 or more, has its padding. *)
Definition filterable (order n : nat) : Prop :=
  (n <= order + 1 \/ (1 <= order /\ 3 * (order + 1) < n))%nat.

(** ** Inputs of the examples *)

(** 83 samples at 4 Hz, 20.75 s, and a lap of 20 s. *)
Definition lap_20_75s : SwimLap := mkSwimLap 1 0 83 FREESTYLE 18 (83 # 4) 25.
Definition lap_20s : SwimLap := mkSwimLap 1 0 600 FREESTYLE 18 20 25.

Definition two_laps_result : AnalysisResult :=
  mkAnalysisResult 7 0 25
    [mkSwimLap 1 0 600 FREESTYLE 18 20 25; mkSwimLap 2 700 1300 BACKSTROKE 20 20 25]
    None None.

Definition tied_result : AnalysisResult :=
  mkAnalysisResult 7 0 25
    [mkSwimLap 1 0 600 BACKSTROKE 18 20 25; mkSwimLap 2 700 1300 FREESTYLE 20 20 25;
     mkSwimLap 3 1400 2000 FREESTYLE 20 20 25; mkSwimLap 4 2100 2700 BACKSTROKE 20 20 25]
    None None.

Definition empty_result : AnalysisResult := mkAnalysisResult 7 0 25 [] None None.

(** [n] samples at rest but for one bump on the Z axis at sample 1. *)
Definition bump_lap (n : nat) : list vec3 :=
  mkVec3 0 0 0 :: mkVec3 0 0 1 :: repeat (mkVec3 0 0 0) (n - 2).

(** [n] samples lying face up: 8 m/s^2 on the Z axis. *)
Definition face_up_lap (n : nat) : list vec3 := repeat (mkVec3 40 (-3) 8) n.

(** [n] samples of gravity alone, and [n] samples swinging by 20 m/s^2
    on the Z axis. *)
Definition at_rest (n : nat) : list vec3 := repeat (mkVec3 0 0 9.8) n.

Fixpoint swinging (n : nat) : list vec3 :=
  match n with
  | O => []
  | S n' => (if Nat.even n then mkVec3 0 0 20 else mkVec3 0 0 (-20)) :: swinging n'
  end.

(** A store with three buffers of four samples and the [SensorData] on
    them. *)
Definition four_sample_store : gmap nat ndarray :=
  {[ 0%nat := Arr1 [0; 1; 2; 3]%Q;
     1%nat := Arr2 [mkVec3 0 0 0; mkVec3 1 1 1; mkVec3 2 2 2; mkVec3 3 3 3];
     2%nat := Arr2 [mkVec3 0 0 0; mkVec3 0 0 0; mkVec3 0 0 0; mkVec3 0 0 0] ]}.

Definition four_samples : SensorData view :=
  mkSensorData (mkView 0 0 4) (mkView 1 0 4) (mkView 2 0 4) None None.

(** What the arrays of [four_samples] hold. *)
Definition four_samples_contents : SensorData ndarray :=
  mkSensorData (Arr1 [0; 1; 2; 3]%Q)
               (Arr2 [mkVec3 0 0 0; mkVec3 1 1 1; mkVec3 2 2 2; mkVec3 3 3 3])
               (Arr2 [mkVec3 0 0 0; mkVec3 0 0 0; mkVec3 0 0 0; mkVec3 0 0 0])
               None None.


(** 48 samples at 1 Hz: two bursts of 15 s, 8 s apart. *)
Definition two_bursts_session : SessionData :=
  mkSessionData 2 1 25 0
    (mkSensorData (Arr1 (map inject_Z (seqZ 0 48)))
                  (Arr2 (at_rest 5 ++ swinging 15 ++ at_rest 8 ++ swinging 15 ++ at_rest 5))
                  (Arr2 (repeat (mkVec3 0 0 0) 48)) None None)
    None "unknown".

(** 60 samples at 3 Hz: one burst of 40 samples. *)
Definition one_burst_session : SessionData :=
  mkSessionData 3 1 25 0
    (mkSensorData (Arr1 (map inject_Z (seqZ 0 60)))
                  (Arr2 (at_rest 10 ++ swinging 40 ++ at_rest 10))
                  (Arr2 (repeat (mkVec3 0 0 0) 60)) None None)
    None "unknown".

(** A frame with the seven required columns, [n] lines at rest, and the
    configuration of a filter of order 48. *)
Definition frame_at_rest (n : nat) : sessions.DataFrame :=
  sessions.mkDataFrame
    (list_to_map
       [("timestamp", sessions.Number <$> map inject_Z (seqZ 0 (Z.of_nat n)));
        ("ACC_0", sessions.Number <$> repeat 0%Q n);
        ("ACC_1", sessions.Number <$> repeat 0%Q n);
        ("ACC_2", sessions.Number <$> repeat 9.8%Q n);
        ("GYRO_0", sessions.Number <$> repeat 0%Q n);
        ("GYRO_1", sessions.Number <$> repeat 0%Q n);
        ("GYRO_2", sessions.Number <$> repeat 0%Q n)]).

(** Three lines at rest whose second acceleration on Y is the text
    n/a. *)
Definition frame_with_text : sessions.DataFrame :=
  sessions.mkDataFrame
    (<["ACC_1" := [sessions.Number 0; sessions.Text "n/a"; sessions.Number 0]]>
       (sessions.columns (frame_at_rest 3))).

Definition config_order_48 : sessions.AlgorithmConfig :=
  sessions.mkAlgorithmConfig 48 3.0 ∅ ∅.

(** The dicts with one session, 7, just uploaded. *)
Definition one_upload (df : sessions.DataFrame) : sessions.state :=
  sessions.mk_state
    {[ 7%N := sessions.mk_session_dict 7 schemas.PROCESSING 25 "unknown" None 0 df 0 None ]}
    ∅.

(** ** An instance of the numerical routines

    Square roots to six decimals, a rectangular window in place of the
    Hamming design, and the absolute values of the samples in place of
    their spectrum. It serves to run the embedding on concrete inputs;
    the theorems below hold for every instance. *)

Definition sqrt_6_decimals (q : Q) : Q :=
  Qred (Z.sqrt (Qfloor (q * 1000000000000)) # 1000000).

Definition rectangular_taps (numtaps : nat) (cutoff : Q) : list Q :=
  repeat (1 / inject_Z (Z.of_nat numtaps))%Q numtaps.

#[global] Instance sample_numerics : Numerics.
Proof.
  refine {| np_sqrt := sqrt_6_decimals;
            firwin := rectangular_taps;
            fft_abs := map Qabs |}.
  - intros numtaps cutoff. apply repeat_length.
  - intros x. apply length_map.
  - intros x. induction x as [|a x IH]; constructor; auto using Qabs_nonneg.
Defined.

(** * Properties *)

(** ** Python numerics *)

(** On a non-negative float [int] is the floor. *)
Lemma py_int_nonneg_floor (q : Q) : (0 <= q)%Q -> py_int q = Qfloor q.
Proof.
  destruct q as [n d]. unfold Qle, py_int, Qfloor. simpl. intros Hn.
  rewrite Z.mul_1_r in Hn. apply Z.quot_div_nonneg; lia.
Qed.

(** [int] gives equal results on equal rationals. *)
Lemma py_int_Qeq (p q : Q) : (p == q)%Q -> py_int p = py_int q.
Proof.
  intros Heq.
  destruct (Qlt_le_dec p 0) as [Hneg|Hpos].
  - assert (Hq : (q < 0)%Q) by (rewrite <- Heq; exact Hneg).
    assert (Hp' : (0 <= - p)%Q) by lra.
    assert (Hq' : (0 <= - q)%Q) by lra.
    assert (Ho : forall r : Q, py_int r = - py_int (- r)).
    { intros [n d]. unfold py_int. simpl. rewrite Z.quot_opp_l by lia. lia. }
    rewrite (Ho p), (Ho q), !py_int_nonneg_floor by assumption.
    f_equal. apply Qfloor_comp. rewrite Heq. reflexivity.
  - assert (Hq : (0 <= q)%Q) by (rewrite <- Heq; exact Hpos).
    rewrite !py_int_nonneg_floor by assumption. apply Qfloor_comp, Heq.
Qed.

Lemma Qfloor_plus_Z (q : Q) (z : Z) : Qfloor (q + inject_Z z) = Qfloor q + z.
Proof.
  destruct q as [n d]. unfold Qfloor, Qplus, inject_Z. simpl.
  rewrite Z.mul_1_r, Pos.mul_1_r.
  rewrite Z.div_add by lia. reflexivity.
Qed.

Lemma py_truediv_nonzero (a b : Q) : ~ (b == 0)%Q -> py_truediv a b = Ok (a / b)%Q.
Proof.
  intros Hb. unfold py_truediv. destruct (Qeq_bool b 0) eqn:Hz; [|reflexivity].
  apply Qeq_bool_eq in Hz. contradiction.
Qed.

Lemma inject_Z_nonzero (z : Z) : z <> 0 -> ~ (inject_Z z == 0)%Q.
Proof. intros Hz Heq. unfold Qeq, inject_Z in Heq. simpl in Heq. lia. Qed.

(** ** binary64: rounding between two integers *)

(** [round] stays between the integers around its argument. *)
Lemma py_round_between (y : Q) (a b : Z) :
  (inject_Z a <= y <= inject_Z b)%Q -> a <= py_round y <= b.
Proof.
  intros [Ha Hb].
  assert (Hfa : a <= Qfloor y).
  { rewrite <- (Qfloor_Z a). apply Qfloor_resp_le, Ha. }
  assert (Hfb : Qfloor y <= b).
  { rewrite <- (Qfloor_Z b). apply Qfloor_resp_le, Hb. }
  assert (Hup : (inject_Z (Qfloor y) < y)%Q -> Qfloor y + 1 <= b).
  { intros Hlt. destruct (Z.eq_dec (Qfloor y) b) as [Heq|]; [|lia].
    rewrite Heq in Hlt. lra. }
  unfold py_round.
  destruct (Qcompare (y - inject_Z (Qfloor y)) (1 # 2)) eqn:Hc.
  - apply Qeq_alt in Hc. destruct (Z.even (Qfloor y)); [lia|].
    split; [lia|]. apply Hup. lra.
  - lia.
  - apply Qgt_alt in Hc. split; [lia|]. apply Hup. lra.
Qed.

(** On a positive rational [abs] changes nothing, numerator and
    denominator included. *)
Lemma Qabs_pos_eq (x : Q) : (0 < x)%Q -> Qabs x = x.
Proof.
  destruct x as [p d]. unfold Qlt, Qabs. simpl. intros Hp. f_equal. apply Z.abs_eq. lia.
Qed.

(** Below [2^53] the last place of a double is a whole or a smaller
    power of two. *)
Lemma Qlog2_le_52 (x : Q) : (0 < x)%Q -> (x < inject_Z (2 ^ 53))%Q -> Qlog2 x <= 52.
Proof.
  intros Hpos Hlt. destruct x as [p d]. unfold Qlog2. cbn [Qnum Qden].
  assert (Hp : 0 < p) by (unfold Qlt in Hpos; simpl in Hpos; lia).
  assert (Hpd : p < 2 ^ 53 * Z.pos d).
  { unfold Qlt, inject_Z in Hlt. cbn [Qnum Qden] in Hlt. lia. }
  assert (Hl : Z.log2 p <= 53 + Z.log2 (Z.pos d)).
  { rewrite <- Z.log2_mul_pow2 by lia. apply Z.log2_le_mono. lia. }
  destruct (Qle_bool (2 ^ (Z.log2 p - Z.log2 (Z.pos d))) (p # d)) eqn:Hb; [|lia].
  destruct (Z.eq_dec (Z.log2 p - Z.log2 (Z.pos d)) 53) as [Heq|]; [|lia].
  rewrite Heq in Hb. apply Qle_bool_iff in Hb.
  exfalso. apply (Qlt_not_le _ _ Hlt). exact Hb.
Qed.

Lemma Qpower_2_nonpos (e : Z) :
  e <= 0 -> (2 ^ e == / inject_Z (2 ^ (- e)))%Q.
Proof.
  intros He. replace e with (- - e) at 1 by lia.
  rewrite Qpower_opp. rewrite (Zpower_Qpower 2 (- e)) by lia. reflexivity.
Qed.

(** Integers up to [2^53] are doubles, so rounding does not cross
    them. *)
Lemma round64_between (x : Q) (a b : Z) :
  0 <= a -> b < 2 ^ 53 ->
  (inject_Z a <= x <= inject_Z b)%Q ->
  (inject_Z a <= round64 x <= inject_Z b)%Q.
Proof.
  intros Ha Hb [Hax Hxb]. unfold round64.
  destruct (Qeq_bool x 0) eqn:Hz.
  - apply Qeq_bool_eq in Hz. rewrite Hz in Hax, Hxb. split; assumption.
  - apply Qeq_bool_neq in Hz.
    assert (H0a : (0 <= inject_Z a)%Q) by (unfold Qle, inject_Z; simpl; lia).
    assert (Hpos : (0 < x)%Q) by lra.
    assert (Hlt : (x < inject_Z (2 ^ 53))%Q).
    { apply Qle_lt_trans with (inject_Z b); [exact Hxb|].
      unfold Qlt, inject_Z; cbn [Qnum Qden]. lia. }
    set (e := float_exponent x).
    assert (He : e <= 0).
    { unfold e, float_exponent. rewrite Qabs_pos_eq by exact Hpos.
      pose proof (Qlog2_le_52 x Hpos Hlt). lia. }
    pose proof (Qpower_2_nonpos e He) as HP.
    set (P := (2 ^ e)%Q) in *. set (k := 2 ^ (- e)) in *.
    assert (Hk : 0 < k) by (apply Z.pow_pos_nonneg; lia).
    assert (HkQ : (0 < inject_Z k)%Q) by (unfold Qlt, inject_Z; simpl; lia).
    assert (Hy : (x / P == x * inject_Z k)%Q).
    { rewrite HP. unfold Qdiv. rewrite Qinv_involutive. reflexivity. }
    destruct (py_round_between (x / P) (a * k) (b * k)) as [Hlo Hhi].
    { rewrite Hy, !inject_Z_mult. split; apply Qmult_le_compat_r; lra. }
    set (m := py_round (x / P)) in *.
    assert (HloQ : (inject_Z a * inject_Z k <= inject_Z m)%Q).
    { rewrite <- inject_Z_mult. rewrite <- Zle_Qle. exact Hlo. }
    assert (HhiQ : (inject_Z m <= inject_Z b * inject_Z k)%Q).
    { rewrite <- inject_Z_mult. rewrite <- Zle_Qle. exact Hhi. }
    rewrite HP. split.
    + apply Qle_shift_div_l; assumption.
    + apply Qle_shift_div_r; assumption.
Qed.

(** An integer below [2^53] is rounded to itself. *)
Lemma round64_integer (x : Q) (n : Z) :
  0 <= n -> n < 2 ^ 53 -> (x == inject_Z n)%Q -> (round64 x == inject_Z n)%Q.
Proof.
  intros H0 Hn Hx. apply Qle_antisym; apply (round64_between x n n); try assumption; lra.
Qed.

(** ** SwimLap: SWOLF and pace *)

Lemma pace_per_100m_positive_pool (lap : SwimLap) :
  0 < pool_length_m lap ->
  pace_per_100m lap
  = Ok (duration_sec lap / inject_Z (pool_length_m lap) * 100)%Q.
Proof.
  intros Hpool. unfold pace_per_100m.
  destruct (Z.leb_spec (pool_length_m lap) 0) as [Hle|_]; [lia|].
  rewrite py_truediv_nonzero by (apply inject_Z_nonzero; lia). reflexivity.
Qed.

Lemma pace_per_100m_is_ok (lap : SwimLap) : is_ok (pace_per_100m lap).
Proof.
  destruct (Z.leb_spec (pool_length_m lap) 0) as [Hle|Hlt].
  - unfold pace_per_100m. apply Z.leb_le in Hle. rewrite Hle. exact I.
  - rewrite pace_per_100m_positive_pool by assumption. exact I.
Qed.

(** C1, as stated, fails: a lap of 83 samples at 4 Hz, 20.75 s, with 18
    strokes has SWOLF 38, where rounding the duration first gives 39. *)
Lemma swolf_truncates_counterexample :
  swolf lap_20_75s = 38
  /\ spec_swolf lap_20_75s = 39
  /\ swolf lap_20_75s <> spec_swolf lap_20_75s.
Proof. repeat split; try reflexivity. vm_compute. discriminate. Qed.

(** C1, amended: for a lap with non-negative duration and stroke count
    whose sum is below [2^52], SWOLF is the whole part of the binary64
    sum of the duration and the count. It is the whole seconds of the
    duration plus the stroke count, or one more: never less, never
    beyond, and exactly that whenever the binary64 sum is exact. The
    duration is not rounded. The pace is
    [duration_sec / pool_length_m * 100] for a positive pool length and 0
    otherwise; a lap of 20.0 s with 18 strokes has SWOLF 38, and in a
    25 m pool its pace is 80.0. *)
Theorem swolf_pace_derivation (lap : SwimLap) :
  (0 <= duration_sec lap)%Q ->
  0 <= stroke_count lap ->
  Qfloor (duration_sec lap) + stroke_count lap < 2 ^ 52 ->
  let sum := float_add (duration_sec lap) (py_float (stroke_count lap)) in
  swolf lap = Qfloor sum
  /\ Qfloor (duration_sec lap) + stroke_count lap <= swolf lap
     <= Qfloor (duration_sec lap) + stroke_count lap + 1
  /\ ((sum == duration_sec lap + inject_Z (stroke_count lap))%Q ->
      swolf lap = Qfloor (duration_sec lap) + stroke_count lap)
  /\ pace_per_100m lap
     = Ok (if pool_length_m lap <=? 0 then 0%Q else spec_pace_per_100m lap)
  /\ ((duration_sec lap == 20)%Q -> stroke_count lap = 18 -> swolf lap = 38)
  /\ ((duration_sec lap == 20)%Q -> pool_length_m lap = 25 ->
      exists pace, pace_per_100m lap = Ok pace /\ (pace == 80)%Q).
Proof.
  intros Hdur Hcount Hbound sum.
  set (d := duration_sec lap) in *. set (c := stroke_count lap) in *.
  assert (Hc : (py_float c == inject_Z c)%Q).
  { apply round64_integer; [exact Hcount| |reflexivity].
    pose proof (Qfloor_resp_le _ _ Hdur) as Hf. change (Qfloor 0) with 0 in Hf. lia. }
  assert (Hfloor : (inject_Z (Qfloor d + c) <= d + py_float c)%Q).
  { rewrite Hc, inject_Z_plus. pose proof (Qfloor_le d). lra. }
  assert (Hceil : (d + py_float c <= inject_Z (Qfloor d + c + 1))%Q).
  { rewrite Hc. replace (Qfloor d + c + 1) with ((Qfloor d + 1) + c) by lia.
    rewrite inject_Z_plus. pose proof (Qlt_floor d). lra. }
  assert (H0 : 0 <= Qfloor d + c).
  { pose proof (Qfloor_resp_le _ _ Hdur) as Hf. change (Qfloor 0) with 0 in Hf. lia. }
  destruct (round64_between (d + py_float c) (Qfloor d + c) (Qfloor d + c + 1))
    as [Hlo Hhi]; [exact H0|lia|split; assumption|].
  fold (float_add d (py_float c)) in Hlo, Hhi. fold sum in Hlo, Hhi.
  assert (Hsum : (0 <= sum)%Q).
  { apply Qle_trans with (inject_Z (Qfloor d + c)); [|exact Hlo].
    unfold Qle, inject_Z; simpl; lia. }
  assert (Hswolf : swolf lap = Qfloor sum).
  { unfold swolf. fold d c sum. apply py_int_nonneg_floor, Hsum. }
  assert (Hexact : (sum == d + inject_Z c)%Q -> swolf lap = Qfloor d + c).
  { intros Heq. rewrite Hswolf, (Qfloor_comp _ _ Heq). apply Qfloor_plus_Z. }
  split; [exact Hswolf|]. split; [|split; [exact Hexact|split; [|split]]].
  - rewrite Hswolf. split.
    + rewrite <- (Qfloor_Z (Qfloor d + c)). apply Qfloor_resp_le, Hlo.
    + rewrite <- (Qfloor_Z (Qfloor d + c + 1)). apply Qfloor_resp_le, Hhi.
  - destruct (Z.leb_spec (pool_length_m lap) 0) as [Hle|Hlt].
    + unfold pace_per_100m. apply Z.leb_le in Hle. rewrite Hle. reflexivity.
    + apply pace_per_100m_positive_pool, Hlt.
  - intros H20 H18. rewrite Hswolf.
    assert (H38 : (sum == inject_Z 38)%Q).
    { apply round64_integer; [lia|lia|]. rewrite Hc, H20, H18. reflexivity. }
    rewrite (Qfloor_comp _ _ H38). apply Qfloor_Z.
  - intros H20 H25. eexists. split.
    + apply pace_per_100m_positive_pool. lia.
    + fold d. rewrite H25, H20. reflexivity.
Qed.

(** The lap of 20 s with 18 strokes. *)
Lemma swolf_pace_derivation_witness :
  (0 <= duration_sec lap_20s)%Q
  /\ 0 <= stroke_count lap_20s
  /\ Qfloor (duration_sec lap_20s) + stroke_count lap_20s < 2 ^ 52
  /\ swolf lap_20s = 38.
Proof.
  split; [|split; [|split]].
  - vm_compute. discriminate.
  - vm_compute. discriminate.
  - vm_compute. reflexivity.
  - apply (swolf_pace_derivation lap_20s).
    + vm_compute. discriminate.
    + vm_compute. discriminate.
    + vm_compute. reflexivity.
    + reflexivity.
    + reflexivity.
Defined.

(** ** AnalysisResult: aggregates *)

Lemma sequence_is_ok {A : Type} (l : list (res A)) :
  Forall is_ok l -> exists r, sequence l = Ok r /\ length r = length l.
Proof.
  induction 1 as [|m l Hm _ IH]; simpl.
  - exists []. split; reflexivity.
  - destruct m as [a|e]; [|contradiction].
    destruct IH as (r & -> & Hlen). exists (a :: r). simpl. split; [reflexivity|].
    f_equal. exact Hlen.
Qed.

Lemma py_truediv_by_length {A : Type} (q : Q) (x : A) (l : list A) :
  py_truediv q (inject_Z (Z.of_nat (length (x :: l))))
  = Ok (q / inject_Z (Z.of_nat (length (x :: l))))%Q.
Proof.
  apply py_truediv_nonzero, inject_Z_nonzero. simpl. lia.
Qed.

Lemma avg_swolf_is_ok (r : AnalysisResult) : is_ok (avg_swolf r).
Proof.
  unfold avg_swolf. destruct (laps r) as [|lap ls]; [exact I|].
  rewrite py_truediv_by_length. exact I.
Qed.

Lemma avg_pace_per_100m_is_ok (r : AnalysisResult) : is_ok (avg_pace_per_100m r).
Proof.
  unfold avg_pace_per_100m. destruct (laps r) as [|lap ls]; [exact I|].
  destruct (sequence_is_ok (map pace_per_100m (lap :: ls))) as (paces & Hs & _).
  { apply Forall_map, Forall_forall. intros l _. apply pace_per_100m_is_ok. }
  rewrite Hs. unfold mbind, res_bind. rewrite py_truediv_by_length. exact I.
Qed.

(** C10: on a result without laps the averages are 0.0 and the primary
    stroke is unknown; and on every result the averages return a value:
    the division by the lap count is never a division by zero. *)
Theorem empty_result_aggregates (r : AnalysisResult) :
  (laps r = [] ->
   avg_swolf r = Ok 0%Q /\ avg_pace_per_100m r = Ok 0%Q /\ primary_stroke r = UNKNOWN)
  /\ is_ok (avg_swolf r)
  /\ is_ok (avg_pace_per_100m r).
Proof.
  split; [|split].
  - intros Hempty. unfold avg_swolf, avg_pace_per_100m, primary_stroke, get_stroke_breakdown.
    rewrite Hempty. repeat split.
  - apply avg_swolf_is_ok.
  - apply avg_pace_per_100m_is_ok.
Qed.

(** The result without laps. *)
Lemma empty_result_aggregates_witness :
  laps empty_result = []
  /\ avg_swolf empty_result = Ok 0%Q
  /\ avg_pace_per_100m empty_result = Ok 0%Q
  /\ primary_stroke empty_result = UNKNOWN.
Proof.
  split; [reflexivity|].
  apply (empty_result_aggregates empty_result). reflexivity.
Defined.

(** *** The stroke breakdown as a dict *)

Section Dict.
Context {K V : Type} `{EqDecision K}.

Lemma dict_get_set (d : list (K * V)) (k k' : K) (v dflt : V) :
  dict_get (dict_set d k v) k' dflt
  = if decide (k = k') then v else dict_get d k' dflt.
Proof.
  induction d as [|[k0 v0] d IH]; simpl.
  - destruct (decide (k = k')); reflexivity.
  - destruct (decide (k0 = k)) as [->|Hne]; simpl.
    + destruct (decide (k = k')); reflexivity.
    + rewrite IH. destruct (decide (k0 = k')) as [->|]; [|reflexivity].
      destruct (decide (k = k')); [congruence|reflexivity].
Qed.

Lemma dict_set_keys (d : list (K * V)) (k : K) (v : V) :
  map fst (dict_set d k v)
  = if decide (k ∈ map fst d) then map fst d else map fst d ++ [k].
Proof.
  induction d as [|[k0 v0] d IH]; simpl.
  - destruct (decide (k ∈ [])) as [Hin|_]; [inversion Hin|reflexivity].
  - destruct (decide (k0 = k)) as [->|Hne]; simpl.
    + destruct (decide (k ∈ k :: map fst d)) as [_|Hnin]; [reflexivity|].
      exfalso. apply Hnin. left.
    + rewrite IH.
      destruct (decide (k ∈ map fst d)) as [Hin|Hnin];
        destruct (decide (k ∈ k0 :: map fst d)) as [Hin'|Hnin']; try reflexivity.
      * exfalso. apply Hnin'. right. exact Hin.
      * exfalso. apply elem_of_cons in Hin' as [->|Hin']; [congruence|auto].
Qed.

End Dict.

Lemma lap_count_cons (t : StrokeType) (lap : SwimLap) (ls : list SwimLap) :
  lap_count t (lap :: ls)
  = (if decide (stroke_type lap = t) then 1 else 0) + lap_count t ls.
Proof.
  unfold lap_count. simpl.
  destruct (decide (stroke_type lap = t)) as [Heq|Hne].
  - rewrite bool_decide_eq_true_2 by exact Heq. simpl. lia.
  - rewrite bool_decide_eq_false_2 by exact Hne. lia.
Qed.

Lemma breakdown_counts (ls : list SwimLap) (d : list (StrokeType * Z)) (t : StrokeType) :
  dict_get (fold_left breakdown_step ls d) t 0 = dict_get d t 0 + lap_count t ls.
Proof.
  revert d. induction ls as [|lap ls IH]; intros d; simpl.
  - unfold lap_count. simpl. lia.
  - rewrite IH, lap_count_cons. unfold breakdown_step. rewrite dict_get_set.
    destruct (decide (stroke_type lap = t)) as [->|Hne]; lia.
Qed.

Lemma get_stroke_breakdown_counts (r : AnalysisResult) (t : StrokeType) :
  dict_get (get_stroke_breakdown r) t 0 = lap_count t (laps r).
Proof. unfold get_stroke_breakdown. apply (breakdown_counts (laps r) [] t). Qed.

Lemma breakdown_snoc (ls : list SwimLap) (lap : SwimLap) :
  map fst (fold_left breakdown_step (ls ++ [lap]) [])
  = let keys := map fst (fold_left breakdown_step ls []) in
    if decide (stroke_type lap ∈ keys) then keys else keys ++ [stroke_type lap].
Proof. rewrite fold_left_app. simpl. unfold breakdown_step at 1. apply dict_set_keys. Qed.

(** A style is a key exactly when a lap was swum in it, and a key that
    comes earlier has a lap before every lap of a later key. *)
Lemma breakdown_keys_order (ls : list SwimLap) :
  let keys := map fst (fold_left breakdown_step ls []) in
  (forall s, s ∈ keys <-> s ∈ map stroke_type ls)
  /\ (forall a b s t, keys !! a = Some s -> keys !! b = Some t -> (a < b)%nat ->
      exists i, map stroke_type ls !! i = Some s
                /\ forall j, (j <= i)%nat -> map stroke_type ls !! j <> Some t).
Proof.
  induction ls as [|lap ls IH] using rev_ind.
  - simpl. split.
    + intros s. reflexivity.
    + intros a b s t Ha. rewrite lookup_nil in Ha. discriminate.
  - cbv zeta in IH. destruct IH as [IHmem IHord].
    cbv zeta. rewrite breakdown_snoc. cbv zeta.
    set (keys := map fst (fold_left breakdown_step ls [])) in *.
    rewrite map_app. simpl.
    assert (Hold : forall a b s t, keys !! a = Some s -> keys !! b = Some t -> (a < b)%nat ->
      exists i, (map stroke_type ls ++ [stroke_type lap]) !! i = Some s
                /\ forall j, (j <= i)%nat ->
                     (map stroke_type ls ++ [stroke_type lap]) !! j <> Some t).
    { intros a b s t Ha Hb Hab.
      destruct (IHord a b s t Ha Hb Hab) as (i & Hi & Hbefore).
      pose proof (lookup_lt_Some _ _ _ Hi) as Hlt.
      exists i. split.
      - rewrite lookup_app_l by exact Hlt. exact Hi.
      - intros j Hj. rewrite lookup_app_l by lia. apply Hbefore, Hj. }
    destruct (decide (stroke_type lap ∈ keys)) as [Hin|Hnin].
    + split; [|exact Hold].
      intros s. rewrite elem_of_app, <- IHmem, list_elem_of_singleton.
      split; [auto|]. intros [Hs| ->]; assumption.
    + split.
      * intros s. rewrite !elem_of_app, IHmem. reflexivity.
      * intros a b s t Ha Hb Hab.
        pose proof (lookup_lt_Some _ _ _ Hb) as Hblt.
        rewrite length_app in Hblt. simpl in Hblt.
        rewrite lookup_app_l in Ha by lia.
        destruct (decide (b < length keys)%nat) as [Hb'|Hb'].
        -- rewrite lookup_app_l in Hb by exact Hb'. eapply Hold; eassumption.
        -- rewrite lookup_app_r in Hb by lia.
           replace (b - length keys)%nat with 0%nat in Hb by lia.
           simpl in Hb. injection Hb as <-.
           assert (Hs : s ∈ map stroke_type ls).
           { apply IHmem. eapply list_elem_of_lookup_2, Ha. }
           apply list_elem_of_lookup in Hs as [i Hi].
           pose proof (lookup_lt_Some _ _ _ Hi) as Hlt.
           exists i. split.
           ++ rewrite lookup_app_l by exact Hlt. exact Hi.
           ++ intros j Hj Hcontra. rewrite lookup_app_l in Hcontra by lia.
              apply Hnin, IHmem. eapply list_elem_of_lookup_2, Hcontra.
Qed.

(** [max(..., key=f)] returns the first item whose key is largest. *)
Lemma py_max_by_first_largest {A : Type} (f : A -> Z) (first : A) (rest : list A) :
  exists idx,
    (first :: rest) !! idx = Some (py_max_by f first rest)
    /\ (forall j x, (first :: rest) !! j = Some x -> f x <= f (py_max_by f first rest))
    /\ (forall j x, (first :: rest) !! j = Some x -> (j < idx)%nat ->
        f x < f (py_max_by f first rest)).
Proof.
  induction rest as [|y rest IH] using rev_ind.
  - exists 0%nat. simpl. split; [reflexivity|]. split.
    + intros [|j] x Hx; simpl in Hx; [injection Hx as <-; lia|].
      rewrite lookup_nil in Hx. discriminate.
    + intros j x _ Hj. lia.
  - destruct IH as (idx & Hidx & Hmax & Hfirst).
    unfold py_max_by in *. rewrite fold_left_app. simpl.
    set (m := fold_left (fun best x => if f best <? f x then x else best) rest first) in *.
    assert (Hsplit : forall j x, (first :: rest ++ [y]) !! j = Some x ->
              ((first :: rest) !! j = Some x /\ (j < length (first :: rest))%nat)
              \/ (j = length (first :: rest) /\ x = y)).
    { intros j x Hx. change (first :: rest ++ [y]) with ((first :: rest) ++ [y]) in Hx.
      destruct (decide (j < length (first :: rest))%nat) as [Hj|Hj].
      - left. rewrite lookup_app_l in Hx by exact Hj. auto.
      - right. pose proof (lookup_lt_Some _ _ _ Hx) as Hlt.
        rewrite length_app in Hlt. simpl in Hlt.
        rewrite lookup_app_r in Hx by lia.
        assert (Hj0 : (j - length (first :: rest) = 0)%nat) by (simpl; lia).
        rewrite Hj0 in Hx. simpl in Hx. injection Hx as <-. split; [simpl in *; lia|reflexivity]. }
    destruct (Z.ltb_spec (f m) (f y)) as [Hlt|Hge].
    + exists (length (first :: rest)). split; [|split].
      * change (first :: rest ++ [y]) with ((first :: rest) ++ [y]).
        rewrite lookup_app_r by lia. rewrite Nat.sub_diag. reflexivity.
      * intros j x Hx. destruct (Hsplit j x Hx) as [[Hx' _]|[_ ->]]; [|lia].
        specialize (Hmax j x Hx'). lia.
      * intros j x Hx Hj. destruct (Hsplit j x Hx) as [[Hx' _]|[-> _]]; [|lia].
        specialize (Hmax j x Hx'). lia.
    + exists idx. split; [|split].
      * change (first :: rest ++ [y]) with ((first :: rest) ++ [y]).
        rewrite lookup_app_l by (eapply lookup_lt_Some, Hidx). exact Hidx.
      * intros j x Hx. destruct (Hsplit j x Hx) as [[Hx' _]|[_ ->]]; [|lia].
        apply (Hmax j x Hx').
      * intros j x Hx Hj. destruct (Hsplit j x Hx) as [[Hx' _]|[-> _]].
        -- apply (Hfirst j x Hx' Hj).
        -- pose proof (lookup_lt_Some _ _ _ Hidx). lia.
Qed.

Lemma lap_count_nonneg (t : StrokeType) (ls : list SwimLap) : 0 <= lap_count t ls.
Proof. unfold lap_count. lia. Qed.

Lemma lap_count_absent (t : StrokeType) (ls : list SwimLap) :
  t ∉ map stroke_type ls -> lap_count t ls = 0.
Proof.
  induction ls as [|lap ls IH]; intros Hnin; [reflexivity|].
  rewrite lap_count_cons. simpl in Hnin. apply not_elem_of_cons in Hnin as [Hne Hnin].
  destruct (decide (stroke_type lap = t)); [congruence|]. rewrite IH by exact Hnin. lia.
Qed.

Lemma py_sum_int_constant (p : Z) (l : list Z) :
  Forall (fun x => x = p) l -> py_sum_int l = p * Z.of_nat (length l).
Proof.
  unfold py_sum_int. intros Hall.
  enough (Hgen : forall a, fold_left Z.add l a = a + p * Z.of_nat (length l))
    by (rewrite Hgen; lia).
  induction Hall as [|x l -> _ IH]; intros a; simpl; [lia|]. rewrite IH. lia.
Qed.

Lemma first_lap_with_spec (s : StrokeType) (ls : list SwimLap) (i : nat) :
  first_lap_with s ls = Some i <->
  map stroke_type ls !! i = Some s
  /\ forall j, (j < i)%nat -> map stroke_type ls !! j <> Some s.
Proof.
  unfold first_lap_with. change (map stroke_type ls) with (stroke_type <$> ls).
  split.
  - intros Hfind. destruct (list_find _ ls) as [[i' lap]|] eqn:Hf; [|discriminate].
    simpl in Hfind. injection Hfind as ->.
    apply list_find_Some in Hf as (Hi & Hs & Hbefore). split.
    + rewrite list_lookup_fmap, Hi. simpl. congruence.
    + intros j Hj Hcontra. rewrite list_lookup_fmap in Hcontra.
      destruct (ls !! j) as [y|] eqn:Hy; [|discriminate].
      simpl in Hcontra. injection Hcontra as Hcontra. exact (Hbefore j y Hy Hj Hcontra).
  - intros [Hi Hbefore]. rewrite list_lookup_fmap in Hi.
    destruct (ls !! i) as [lap|] eqn:Hlap; [|discriminate].
    simpl in Hi. injection Hi as Hs.
    assert (Hf : list_find (fun lap => stroke_type lap = s) ls = Some (i, lap)).
    { apply list_find_Some. split; [exact Hlap|]. split; [exact Hs|].
      intros j y Hy Hj Hcontra. apply (Hbefore j Hj).
      rewrite list_lookup_fmap, Hy. simpl. congruence. }
    rewrite Hf. reflexivity.
Qed.

(** C9: when all laps have the pool length [p], the total distance is
    [p * total_laps]; on a result with laps, [avg_swolf] is the sum of
    the laps' SWOLF divided by their number, the breakdown holds each
    style's number of laps, and the primary stroke is a style that was
    swum, no style has more laps, and every style with as many laps was
    first swum later. *)
Theorem aggregate_consistency (r : AnalysisResult) :
  (forall p, Forall (fun lap => pool_length_m lap = p) (laps r) ->
             total_distance_m r = p * total_laps r)
  /\ (laps r <> [] ->
      avg_swolf r
      = Ok (inject_Z (py_sum_int (map swolf (laps r))) / inject_Z (total_laps r))%Q
      /\ (forall t, dict_get (get_stroke_breakdown r) t 0 = lap_count t (laps r))
      /\ primary_stroke r ∈ map stroke_type (laps r)
      /\ (forall t, lap_count t (laps r) <= lap_count (primary_stroke r) (laps r))
      /\ (forall t i j,
            lap_count t (laps r) = lap_count (primary_stroke r) (laps r) ->
            first_lap_with (primary_stroke r) (laps r) = Some i ->
            first_lap_with t (laps r) = Some j ->
            (i <= j)%nat)).
Proof.
  split.
  - intros p Hall. unfold total_distance_m, total_laps.
    rewrite (py_sum_int_constant p).
    + rewrite length_map. reflexivity.
    + apply Forall_map. exact Hall.
  - intros Hne. split; [|split; [exact (get_stroke_breakdown_counts r)|]].
    { unfold avg_swolf, total_laps. destruct (laps r) as [|lap ls] eqn:Hl; [congruence|].
      apply py_truediv_by_length. }
    destruct (breakdown_keys_order (laps r)) as [Hmem Hord].
    unfold primary_stroke.
    change (fold_left breakdown_step (laps r) []) with (get_stroke_breakdown r) in *.
    destruct (map fst (get_stroke_breakdown r)) as [|k keys] eqn:Hkeys.
    { exfalso. destruct (laps r) as [|lap ls]; [congruence|].
      assert (Hin : stroke_type lap ∈ @nil StrokeType) by (apply Hmem; left).
      inversion Hin. }
    destruct (py_max_by_first_largest
                (fun s => dict_get (get_stroke_breakdown r) s 0) k keys)
      as (idx & Hidx & Hmax & Hfirst).
    set (s := py_max_by (fun s => dict_get (get_stroke_breakdown r) s 0) k keys) in *.
    cbv beta in Hmax, Hfirst. rewrite !get_stroke_breakdown_counts in *.
    assert (Hcount : forall x, dict_get (get_stroke_breakdown r) x 0 = lap_count x (laps r))
      by exact (get_stroke_breakdown_counts r).
    split; [|split].
    + apply Hmem. eapply list_elem_of_lookup_2, Hidx.
    + intros t. destruct (decide (t ∈ k :: keys)) as [Hin|Hnin].
      * apply list_elem_of_lookup in Hin as [b Hb].
        specialize (Hmax b t Hb). rewrite !Hcount in Hmax. exact Hmax.
      * rewrite lap_count_absent by (rewrite <- Hmem; exact Hnin).
        apply lap_count_nonneg.
    + intros t i j Htie Hi Hj.
      apply first_lap_with_spec in Hi as [Hi Hi_first].
      apply first_lap_with_spec in Hj as [Hj Hj_first].
      assert (Hin : t ∈ k :: keys) by (apply Hmem; eapply list_elem_of_lookup_2, Hj).
      apply list_elem_of_lookup in Hin as [b Hb].
      destruct (Nat.lt_trichotomy b idx) as [Hlt|[->|Hgt]].
      * specialize (Hfirst b t Hb Hlt). rewrite !Hcount in Hfirst. lia.
      * assert (t = s) as -> by congruence.
        destruct (Nat.lt_trichotomy i j) as [?|[?|Hji]]; [lia|lia|].
        exfalso. exact (Hi_first j Hji Hj).
      * destruct (Hord idx b s t Hidx Hb Hgt) as (i0 & Hi0 & Hbefore).
        assert (i <= i0)%nat.
        { destruct (Nat.le_gt_cases i i0) as [?|Hi0lt]; [assumption|].
          exfalso. exact (Hi_first i0 Hi0lt Hi0). }
        assert (i0 < j)%nat.
        { destruct (Nat.le_gt_cases j i0) as [Hle|?]; [|assumption].
          exfalso. exact (Hbefore j Hle Hj). }
        lia.
Qed.

(** Two laps in a 25 m pool. *)
Lemma aggregate_consistency_witness :
  Forall (fun lap => pool_length_m lap = 25) (laps two_laps_result)
  /\ total_distance_m two_laps_result = 25 * total_laps two_laps_result.
Proof.
  split.
  - repeat constructor.
  - apply (aggregate_consistency two_laps_result). repeat constructor.
Defined.

(** With two laps each of freestyle and backstroke the style of the
    first lap wins. *)
Example primary_stroke_tie_first_seen :
  get_stroke_breakdown tied_result = [(BACKSTROKE, 2); (FREESTYLE, 2)]
  /\ primary_stroke tied_result = BACKSTROKE.
Proof. split; reflexivity. Qed.

(** ** Comparisons on floats *)

Lemma Qltb_lt (a b : Q) : Qltb a b = true <-> (a < b)%Q.
Proof.
  unfold Qltb. rewrite negb_true_iff. split.
  - intros Hf. apply Qnot_le_lt. intros Hle. apply Qle_bool_iff in Hle. congruence.
  - intros Hlt. destruct (Qle_bool b a) eqn:Hle; [|reflexivity].
    apply Qle_bool_iff in Hle. lra.
Qed.

Lemma Qltb_ge (a b : Q) : Qltb a b = false <-> (b <= a)%Q.
Proof.
  unfold Qltb. rewrite negb_false_iff. apply Qle_bool_iff.
Qed.

(** ** EnergyClassifier *)

(** C8: a lap array of shape (n,3) with fewer than 30 samples is
    classified unknown; with 30 samples or more and the mean of its Z
    column above the gravity threshold (5.0 unless configured) it is
    classified backstroke, whatever the other axes hold. *)
Theorem classify_short_and_backstroke (self : EnergyClassifier.t) (rows : list vec3) :
  ((length rows < 30)%nat -> EnergyClassifier.classify self (Arr2 rows) = Ok UNKNOWN)
  /\ ((30 <= length rows)%nat ->
      (default 5.0 (EnergyClassifier.thresholds self !! "backstroke_gravity_z")
       < np_mean (map vz rows))%Q ->
      EnergyClassifier.classify self (Arr2 rows) = Ok BACKSTROKE).
Proof.
  unfold EnergyClassifier.classify. simpl. split.
  - intros Hshort. apply Nat.ltb_lt in Hshort. rewrite Hshort. reflexivity.
  - intros Hlong Hz. apply Nat.ltb_ge in Hlong. rewrite Hlong.
    apply Qltb_lt in Hz. unfold mbind, res_bind. simpl. rewrite Hz. reflexivity.
Qed.

(** Thirty samples lying face up. *)
Lemma classify_short_and_backstroke_witness :
  (30 <= length (face_up_lap 30))%nat
  /\ (default 5.0 (EnergyClassifier.thresholds (EnergyClassifier.make ∅)
                     !! "backstroke_gravity_z")
      < np_mean (map vz (face_up_lap 30)))%Q
  /\ EnergyClassifier.classify (EnergyClassifier.make ∅) (Arr2 (face_up_lap 30))
     = Ok BACKSTROKE.
Proof.
  split; [|split].
  - vm_compute. lia.
  - vm_compute. reflexivity.
  - apply (classify_short_and_backstroke (EnergyClassifier.make ∅) (face_up_lap 30)).
    + vm_compute. lia.
    + vm_compute. reflexivity.
Defined.

(** ** PitchRollSegmenter *)

Lemma find_segments_step_inv (i : Z) (st : list (Z * Z) * bool * Z) (is_active : bool) :
  0 <= i ->
  find_segments_inv i st ->
  find_segments_inv (i + 1) (PitchRollSegmenter.find_segments_step st (i, is_active)).
Proof.
  destruct st as [[segments in_segment] start_idx]. intros Hi (Hall & Hsorted & Hopen).
  unfold PitchRollSegmenter.find_segments_step, find_segments_inv.
  destruct is_active, in_segment; simpl.
  - split; [exact Hall|]. split; [exact Hsorted|]. intros _.
    specialize (Hopen eq_refl). lia.
  - split; [exact Hall|]. split; [exact Hsorted|]. intros _. lia.
  - specialize (Hopen eq_refl). split; [|split; [|discriminate]].
    + apply Forall_app. split.
      * eapply Forall_impl; [exact Hall|]. intros [s e]. lia.
      * constructor; [lia|constructor].
    + apply StronglySorted_app_2.
      * intros [s e] [s' e'] Hin Hin'. apply list_elem_of_singleton in Hin'.
        injection Hin' as -> ->. rewrite Forall_forall in Hall.
        specialize (Hall _ Hin). simpl in *. lia.
      * exact Hsorted.
      * repeat constructor.
  - split; [|split; [exact Hsorted|discriminate]].
    eapply Forall_impl; [exact Hall|]. intros [s e]. lia.
Qed.

Lemma find_segments_fold_inv (mask : list bool) (k : Z) (st : list (Z * Z) * bool * Z) :
  0 <= k ->
  find_segments_inv k st ->
  find_segments_inv (k + Z.of_nat (length mask))
    (fold_left PitchRollSegmenter.find_segments_step
               (zip (seqZ k (Z.of_nat (length mask))) mask) st).
Proof.
  revert k st. induction mask as [|a mask IH]; intros k st Hk Hinv.
  - simpl. rewrite Z.add_0_r. exact Hinv.
  - rewrite seqZ_cons by (simpl; lia).
    replace (Z.pred (Z.of_nat (length (a :: mask)))) with (Z.of_nat (length mask))
      by (simpl; lia).
    simpl zip. simpl fold_left.
    replace (k + Z.of_nat (length (a :: mask))) with (Z.succ k + Z.of_nat (length mask))
      by (simpl; lia).
    apply IH; [lia|]. replace (Z.succ k) with (k + 1) by lia.
    apply find_segments_step_inv; assumption.
Qed.

(** The ranges of [_find_segments] are non-empty, within the mask, and
    each ends before the next begins. *)
Lemma find_segments_ranges (mask : list bool) :
  lap_ranges_valid (Z.of_nat (length mask)) 1 (PitchRollSegmenter._find_segments mask).
Proof.
  assert (Hinit : find_segments_inv 0 ([], false, 0))
    by (split; [constructor|split; [constructor|discriminate]]).
  pose proof (find_segments_fold_inv mask 0 ([], false, 0) ltac:(lia) Hinit) as Hinv.
  unfold PitchRollSegmenter._find_segments, enumerate.
  destruct (fold_left _ _ _) as [[segments in_segment] start_idx].
  destruct Hinv as (Hall & Hsorted & Hopen).
  rewrite Z.add_0_l in *.
  assert (Hvalid : forall segs,
            Forall (fun '(s, e) => 0 <= s /\ s < e /\ e <= Z.of_nat (length mask)) segs ->
            StronglySorted (fun a b => a.2 <= b.1) segs ->
            lap_ranges_valid (Z.of_nat (length mask)) 1 segs).
  { clear. intros segs Hall Hsorted. split; [|split; [|exact Hsorted]].
    - eapply Forall_impl; [exact Hall|]. intros [s e]. lia.
    - induction Hsorted as [|a l Hs IH Ha]; constructor.
      + apply IH. inversion Hall; assumption.
      + inversion Hall as [|? ? Ha0 Hl]; subst.
        rewrite Forall_forall in *. intros [s e] Hin.
        specialize (Ha _ Hin). specialize (Hl _ Hin). destruct a as [s0 e0].
        simpl in *. lia. }
  destruct in_segment.
  - specialize (Hopen eq_refl). apply Hvalid.
    + apply Forall_app. split.
      * eapply Forall_impl; [exact Hall|]. intros [s e]. lia.
      * constructor; [lia|constructor].
    + apply StronglySorted_app_2; [|exact Hsorted|repeat constructor].
      intros [s e] [s' e'] Hin Hin'. apply list_elem_of_singleton in Hin'.
      injection Hin' as -> ->. rewrite Forall_forall in Hall.
      specialize (Hall _ Hin). simpl in *. lia.
  - apply Hvalid; [|exact Hsorted].
    eapply Forall_impl; [exact Hall|]. intros [s e]. lia.
Qed.

Lemma length_enumerate {A : Type} (l : list A) : length (enumerate l) = length l.
Proof.
  unfold enumerate. rewrite length_zip, length_seqZ. lia.
Qed.

Lemma length_morphological_close (mask : list bool) (size : Z) :
  length (PitchRollSegmenter._morphological_close mask size) = length mask.
Proof.
  unfold PitchRollSegmenter._morphological_close.
  rewrite !length_map, !length_enumerate, !length_map, length_enumerate. reflexivity.
Qed.

Lemma length_morphological_open (mask : list bool) (size : Z) :
  length (PitchRollSegmenter._morphological_open mask size) = length mask.
Proof.
  unfold PitchRollSegmenter._morphological_open.
  rewrite !length_map, !length_enumerate, !length_map, length_enumerate. reflexivity.
Qed.

Lemma StronglySorted_filter {A : Type} (R : A -> A -> Prop) (f : A -> bool) (l : list A) :
  StronglySorted R l -> StronglySorted R (List.filter f l).
Proof.
  induction 1 as [|a l Hs IH Ha]; simpl; [constructor|].
  destruct (f a); [|exact IH]. constructor; [exact IH|].
  rewrite Forall_forall in *. intros x Hin. apply Ha.
  apply list_elem_of_In in Hin. apply filter_In in Hin as [Hin _].
  apply list_elem_of_In. exact Hin.
Qed.

Lemma filter_short_segments_valid (n min_samples : Z) (segments : list (Z * Z)) :
  lap_ranges_valid n 1 segments ->
  lap_ranges_valid n min_samples
    (PitchRollSegmenter._filter_short_segments segments min_samples).
Proof.
  intros (Hall & Hstart & Hdisjoint). unfold PitchRollSegmenter._filter_short_segments.
  split; [|split; apply StronglySorted_filter; assumption].
  rewrite Forall_forall in *. intros [s e] Hin.
  apply list_elem_of_In in Hin. apply filter_In in Hin as [Hin Hlen].
  apply list_elem_of_In in Hin. specialize (Hall _ Hin). simpl in Hall.
  apply Z.leb_le in Hlen. lia.
Qed.

(** The ranges that [segment] returns are valid over the samples of the
    acceleration. *)
Lemma segment_valid_ranges `{Numerics} (self : PitchRollSegmenter.t)
    (times gyr : ndarray) (rows : list vec3) (magn pres : option ndarray)
    (sampling_rate : option Q) :
  exists segments,
    PitchRollSegmenter.segment self (mkSensorData times (Arr2 rows) gyr magn pres)
                               sampling_rate = Ok segments
    /\ lap_ranges_valid
         (Z.of_nat (length rows))
         (py_int (default 10%Q (PitchRollSegmenter.config self !! "min_lap_duration_sec")
                  * default (PitchRollSegmenter.sampling_rate self) sampling_rate)%Q)
         segments.
Proof.
  eexists. split; [reflexivity|].
  apply filter_short_segments_valid.
  match goal with
  | |- lap_ranges_valid _ _ (PitchRollSegmenter._find_segments ?m) =>
      replace (Z.of_nat (length rows)) with (Z.of_nat (length m));
      [apply find_segments_ranges|]
  end.
  rewrite length_morphological_open, length_morphological_close.
  unfold PitchRollSegmenter._calculate_null_probability.
  rewrite !length_map. reflexivity.
Qed.

(** C6: on sensor data whose acceleration has shape (N,3), at every
    sampling rate, [segment] returns a list of ranges with
    [0 <= start < end <= N], each at least the minimum lap duration
    (10 s unless configured) times the sampling rate long, truncated to
    whole samples, with ascending starts and no range beginning before
    the previous one ends. *)
Theorem segment_ranges_valid `{Numerics} (self : PitchRollSegmenter.t)
    (times gyr : ndarray) (rows : list vec3) (magn pres : option ndarray)
    (sampling_rate : option Q) :
  exists segments,
    PitchRollSegmenter.segment self (mkSensorData times (Arr2 rows) gyr magn pres)
                               sampling_rate = Ok segments
    /\ lap_ranges_valid
         (Z.of_nat (length rows))
         (py_int (default 10%Q (PitchRollSegmenter.config self !! "min_lap_duration_sec")
                  * default (PitchRollSegmenter.sampling_rate self) sampling_rate)%Q)
         segments.
Proof. apply segment_valid_ranges. Qed.

(** ** SwimBITFilter *)

Lemma length_lfilter (b zi x : list Q) : length (lfilter b zi x) = length x.
Proof.
  revert zi. induction x as [|xn x IH]; intros zi; simpl; [reflexivity|].
  rewrite IH. reflexivity.
Qed.

Lemma length_odd_ext (x : list Q) (n : nat) :
  (n < length x)%nat -> length (odd_ext x n) = (length x + 2 * n)%nat.
Proof.
  intros Hn. unfold odd_ext.
  rewrite !length_app, !length_map, !length_rev, !length_take, !length_drop. lia.
Qed.

(** [filtfilt] needs more samples than its padding, three times the
    number of taps at each end; given them, it keeps the length. *)
Lemma filtfilt_1d_too_short (b x : list Q) :
  (length x <= 3 * Nat.max 1 (length b))%nat -> filtfilt_1d b x = Raise ValueError.
Proof.
  intros Hlen. unfold filtfilt_1d. apply Nat.leb_le in Hlen. rewrite Hlen. reflexivity.
Qed.

Lemma filtfilt_1d_long_enough (b x : list Q) :
  (2 <= length b)%nat ->
  (3 * length b < length x)%nat ->
  exists y, filtfilt_1d b x = Ok y /\ length y = length x.
Proof.
  intros Htaps Hlen. unfold filtfilt_1d.
  destruct (Nat.leb_spec (length x) (3 * Nat.max 1 (length b))) as [Hle|_]; [lia|].
  destruct (Nat.ltb_spec (length b) 2) as [Hlt|_]; [lia|].
  eexists. split; [reflexivity|].
  rewrite length_take, length_drop, length_rev, length_lfilter, length_rev,
    length_lfilter, length_odd_ext by lia.
  lia.
Qed.

Lemma filtfilt_too_short (b : list Q) (x : ndarray) :
  (np_len x <= 3 * Nat.max 1 (length b))%nat -> filtfilt b x = Raise ValueError.
Proof.
  intros Hlen. destruct x as [xs|rows]; cbn [np_len] in Hlen; unfold filtfilt.
  - rewrite filtfilt_1d_too_short by exact Hlen. reflexivity.
  - rewrite (filtfilt_1d_too_short b (map vx rows)) by (rewrite length_map; exact Hlen).
    reflexivity.
Qed.

Lemma filtfilt_long_enough (b : list Q) (x : ndarray) :
  (2 <= length b)%nat ->
  (3 * length b < np_len x)%nat ->
  exists y, filtfilt b x = Ok y /\ shape y = shape x.
Proof.
  intros Htaps Hlen. destruct x as [xs|rows]; cbn [np_len] in Hlen; unfold filtfilt.
  - destruct (filtfilt_1d_long_enough b xs Htaps Hlen) as (y & -> & Hy).
    exists (Arr1 y). split; [reflexivity|]. simpl. rewrite Hy. reflexivity.
  - destruct (filtfilt_1d_long_enough b (map vx rows) Htaps) as (c0 & -> & H0);
      [rewrite length_map; exact Hlen|].
    destruct (filtfilt_1d_long_enough b (map vy rows) Htaps) as (c1 & -> & H1);
      [rewrite length_map; exact Hlen|].
    destruct (filtfilt_1d_long_enough b (map vz rows) Htaps) as (c2 & -> & H2);
      [rewrite length_map; exact Hlen|].
    eexists. split; [reflexivity|]. simpl.
    rewrite length_map in H0, H1, H2.
    rewrite length_zip_with, length_zip. f_equal. lia.
Qed.

Lemma cache_get_consistent (self : SwimBITFilter.t) (rate : Q) (taps : list Q) :
  cache_consistent self ->
  SwimBITFilter.cache_get (SwimBITFilter._filter_taps_cache self) rate = Some taps ->
  length taps = (SwimBITFilter.order self + 1)%nat.
Proof.
  unfold cache_consistent.
  induction (SwimBITFilter._filter_taps_cache self) as [|[r t] cache IH];
    intros Hall Hget; simpl in Hget; [discriminate|].
  inversion Hall as [|? ? Hhd Htl]; subst.
  destruct (Qeq_bool r rate); [injection Hget as <-; exact Hhd|].
  apply IH; assumption.
Qed.

(** With a sampling rate other than zero the taps are there, as many as
    the order plus one, and the cache stays consistent. *)
Lemma get_filter_taps_ok `{Numerics} (self : SwimBITFilter.t) (rate : Q) :
  cache_consistent self ->
  ~ (rate == 0)%Q ->
  exists taps self',
    SwimBITFilter._get_filter_taps self rate = (Ok taps, self')
    /\ length taps = (SwimBITFilter.order self + 1)%nat
    /\ SwimBITFilter.order self' = SwimBITFilter.order self
    /\ cache_consistent self'.
Proof.
  intros Hcache Hrate. unfold SwimBITFilter._get_filter_taps.
  destruct (SwimBITFilter.cache_get _ rate) as [taps|] eqn:Hget.
  - exists taps, self. repeat split; [|assumption].
    eapply cache_get_consistent; eassumption.
  - unfold py_truediv. destruct (Qeq_bool (0.5 * rate) 0) eqn:Hz.
    + exfalso. apply Qeq_bool_eq in Hz. apply Hrate. lra.
    + eexists _, _. split; [reflexivity|]. split; [apply firwin_length|].
      split; [reflexivity|]. unfold cache_consistent. simpl.
      apply Forall_app. split; [exact Hcache|].
      constructor; [apply firwin_length|constructor].
Qed.

(** Up to [order + 1] samples pass through untouched. *)
Lemma process_short_identity `{Numerics} (self : SwimBITFilter.t) (data : ndarray) (rate : Q) :
  (np_len data <= SwimBITFilter.order self + 1)%nat ->
  SwimBITFilter.process self data rate = (Ok data, self).
Proof.
  intros Hlen. unfold SwimBITFilter.process. apply Nat.leb_le in Hlen.
  rewrite Hlen. reflexivity.
Qed.

(** Beyond three times [order + 1] samples the data is filtered and
    keeps its shape. *)
Lemma process_long_keeps_shape `{Numerics} (self : SwimBITFilter.t) (data : ndarray) (rate : Q) :
  cache_consistent self ->
  ~ (rate == 0)%Q ->
  (1 <= SwimBITFilter.order self)%nat ->
  (3 * (SwimBITFilter.order self + 1) < np_len data)%nat ->
  exists out self',
    SwimBITFilter.process self data rate = (Ok out, self')
    /\ shape out = shape data
    /\ SwimBITFilter.order self' = SwimBITFilter.order self
    /\ cache_consistent self'.
Proof.
  intros Hcache Hrate Horder Hlen. unfold SwimBITFilter.process.
  destruct (Nat.leb_spec (np_len data) (SwimBITFilter.order self + 1)) as [Hle|_]; [lia|].
  destruct (get_filter_taps_ok self rate Hcache Hrate) as (taps & self' & -> & Htaps & Ho & Hc).
  destruct (filtfilt_long_enough taps data) as (out & Hout & Hshape);
    [rewrite Htaps; lia|rewrite Htaps; lia|].
  exists out, self'. unfold mbind, res_bind. rewrite Hout. auto.
Qed.

(** In between, [filtfilt] refuses the input. *)
Lemma process_medium_raises `{Numerics} (self : SwimBITFilter.t) (data : ndarray) (rate : Q) :
  cache_consistent self ->
  ~ (rate == 0)%Q ->
  (SwimBITFilter.order self + 1 < np_len data)%nat ->
  (np_len data <= 3 * (SwimBITFilter.order self + 1))%nat ->
  exists self',
    SwimBITFilter.process self data rate = (Raise ValueError, self')
    /\ SwimBITFilter.order self' = SwimBITFilter.order self
    /\ cache_consistent self'.
Proof.
  intros Hcache Hrate Hlo Hhi. unfold SwimBITFilter.process.
  destruct (Nat.leb_spec (np_len data) (SwimBITFilter.order self + 1)) as [Hle|_]; [lia|].
  destruct (get_filter_taps_ok self rate Hcache Hrate) as (taps & self' & -> & Htaps & Ho & Hc).
  exists self'. unfold mbind, res_bind.
  rewrite filtfilt_too_short by (rewrite Htaps; lia). auto.
Qed.

(** C2, where the code falls short of the claim: with the default order
    48, a recording of 100 samples, of shape (100,) or (100,3), sampled at
    30 Hz is longer than [order + 1], and [process] raises [ValueError]
    instead of returning a filtered array of the same shape. *)
Theorem process_100_samples_raises `{Numerics} :
  (SwimBITFilter.process (SwimBITFilter.init 48 3.0) (Arr1 (repeat 0%Q 100)) 30).1
  = Raise ValueError
  /\ (SwimBITFilter.process (SwimBITFilter.init 48 3.0)
        (Arr2 (at_rest 100)) 30).1
     = Raise ValueError.
Proof.
  split.
  - destruct (process_medium_raises (SwimBITFilter.init 48 3.0)
                (Arr1 (repeat 0%Q 100)) 30) as (self' & -> & _).
    + constructor.
    + intros Hz. vm_compute in Hz. discriminate.
    + vm_compute. lia.
    + vm_compute. lia.
    + reflexivity.
  - destruct (process_medium_raises (SwimBITFilter.init 48 3.0)
                (Arr2 (at_rest 100)) 30) as (self' & -> & _).
    + constructor.
    + intros Hz. vm_compute in Hz. discriminate.
    + vm_compute. lia.
    + vm_compute. lia.
    + reflexivity.
Qed.

(** ** Stroke counting *)

Lemma length_fftfreq (n : nat) (d : Q) : length (fftfreq n d) = n.
Proof.
  unfold fftfreq. rewrite length_map, length_app, !length_seqZ.
  destruct n as [|n]; [reflexivity|].
  assert (Hdiv : (Z.of_nat (S n) - 1) / 2 + Z.of_nat (S n) / 2 = Z.of_nat (S n) - 1).
  { pose proof (Z.div_mod (Z.of_nat (S n) - 1) 2 ltac:(lia)) as H1.
    pose proof (Z.div_mod (Z.of_nat (S n)) 2 ltac:(lia)) as H2.
    pose proof (Z.mod_pos_bound (Z.of_nat (S n) - 1) 2 ltac:(lia)).
    pose proof (Z.mod_pos_bound (Z.of_nat (S n)) 2 ltac:(lia)).
    lia. }
  assert (0 <= (Z.of_nat (S n) - 1) / 2) by (apply Z.div_pos; lia).
  assert (0 <= Z.of_nat (S n) / 2) by (apply Z.div_pos; lia).
  lia.
Qed.

Lemma filter_fst_zip {A B : Type} (P : A -> bool) (a : list A) (b : list B) :
  length a = length b ->
  map fst (List.filter (fun ab => P ab.1) (zip a b)) = List.filter P a.
Proof.
  revert b. induction a as [|x a IH]; intros [|y b] Hlen; simpl in *; try discriminate.
  - reflexivity.
  - destruct (P x); simpl; rewrite IH by lia; reflexivity.
Qed.

Lemma py_any_map_filter {A : Type} (P : A -> bool) (l : list A) :
  List.filter P l = [] -> py_any (map P l) = false.
Proof.
  unfold py_any. induction l as [|x l IH]; simpl; [reflexivity|].
  destruct (P x) eqn:HP; [discriminate|]. exact IH.
Qed.

Lemma stroke_max_freq_nonzero (stroke_type : StrokeType) :
  Qeq_bool (BasicStrokeCounter._get_stroke_frequency_range stroke_type).2 0 = false.
Proof. destruct stroke_type; reflexivity. Qed.

Lemma find_peaks_is_ok (x : list Q) (distance : Z) :
  1 <= distance -> exists peaks, find_peaks x distance = Ok peaks.
Proof.
  intros Hd. unfold find_peaks.
  destruct (Z.ltb_spec distance 1) as [?|_]; [lia|]. eexists. reflexivity.
Qed.

(** The peak method returns a count on every array of shape (n,3). *)
Lemma count_strokes_is_ok (self : BasicStrokeCounter.t) (rows : list vec3)
    (stroke_type : StrokeType) :
  exists count, BasicStrokeCounter.count_strokes self (Arr2 rows) stroke_type = Ok count
                /\ 0 <= count.
Proof.
  unfold BasicStrokeCounter.count_strokes.
  destruct (np_len (Arr2 rows) <? 10)%nat; [exists 0; split; [reflexivity|lia]|].
  unfold BasicStrokeCounter.select_axis, BasicStrokeCounter._calculate_min_peak_distance.
  pose proof (stroke_max_freq_nonzero stroke_type) as Hmax.
  destruct (BasicStrokeCounter._get_stroke_frequency_range stroke_type) as [min_freq max_freq].
  simpl in Hmax. unfold py_truediv. rewrite Hmax. unfold mbind, res_bind.
  match goal with
  | |- context [find_peaks ?sig ?d] =>
      destruct (find_peaks_is_ok sig d ltac:(lia)) as (pos & ->)
  end.
  match goal with
  | |- context [find_peaks ?sig ?d] =>
      destruct (find_peaks_is_ok sig d ltac:(lia)) as (neg & ->)
  end.
  destruct (BasicStrokeCounter.bilateral stroke_type); eexists; (split; [reflexivity|lia]).
Qed.

Lemma count_strokes_fft_empty_band `{Numerics} (self : BasicStrokeCounter.t)
    (rows : list vec3) (stroke_type : StrokeType) :
  (30 <= length rows)%nat ->
  ~ (BasicStrokeCounter.sampling_rate self == 0)%Q ->
  band_frequencies (BasicStrokeCounter.sampling_rate self) (length rows) stroke_type = [] ->
  BasicStrokeCounter.count_strokes_fft self (Arr2 rows) stroke_type = Ok 0.
Proof.
  intros Hlong Hrate Hband. unfold BasicStrokeCounter.count_strokes_fft.
  cbn [np_len]. apply Nat.ltb_ge in Hlong. rewrite Hlong.
  unfold BasicStrokeCounter.select_axis, py_truediv, band_frequencies in *.
  destruct (Qeq_bool (BasicStrokeCounter.sampling_rate self) 0) eqn:Hz;
    [apply Qeq_bool_eq in Hz; contradiction|].
  unfold mbind, res_bind.
  destruct (BasicStrokeCounter._get_stroke_frequency_range stroke_type) as [min_freq max_freq].
  rewrite (filter_fst_zip (Qltb 0)).
  - assert (Hn : length (if BasicStrokeCounter.bilateral stroke_type
                         then map vy rows else map vz rows) = length rows)
      by (destruct (BasicStrokeCounter.bilateral stroke_type); apply length_map).
    rewrite Hn.
    rewrite (py_any_map_filter _ _ Hband). reflexivity.
  - rewrite length_fftfreq, fft_abs_length, length_map. reflexivity.
Qed.

(** C3, as stated, fails: a breaststroke lap of 30 samples at 30 Hz has
    its frequency bins at 1, 2, ..., 14 Hz, none in the band 0.3-0.8 Hz;
    with one bump on the Z axis the peak method counts 1 stroke and the
    spectral method returns 0. *)
Lemma count_strokes_fft_empty_band_counterexample :
  band_frequencies 30 30 BREASTSTROKE = []
  /\ BasicStrokeCounter.count_strokes (BasicStrokeCounter.make 30)
       (Arr2 (bump_lap 30)) BREASTSTROKE
     = Ok 1
  /\ (forall N : Numerics,
        @BasicStrokeCounter.count_strokes_fft N (BasicStrokeCounter.make 30)
          (Arr2 (bump_lap 30)) BREASTSTROKE
        = Ok 0).
Proof.
  split; [vm_compute; reflexivity|]. split; [vm_compute; reflexivity|].
  intros N. apply count_strokes_fft_empty_band.
  - vm_compute. lia.
  - intros Hz. vm_compute in Hz. discriminate.
  - vm_compute. reflexivity.
Qed.

(** C3, amended: on a lap array of shape (n,3), the spectral method
    returns the count of the peak method, which never raises, when the
    lap has fewer than 30 samples; when the lap has 30 samples or more,
    the sampling rate is not zero and no positive frequency bin lies in
    the style's band, it returns 0 and does not raise. *)
Theorem count_strokes_fft_short_or_empty_band `{Numerics} (self : BasicStrokeCounter.t)
    (rows : list vec3) (stroke_type : StrokeType) :
  ((length rows < 30)%nat ->
   BasicStrokeCounter.count_strokes_fft self (Arr2 rows) stroke_type
   = BasicStrokeCounter.count_strokes self (Arr2 rows) stroke_type
   /\ is_ok (BasicStrokeCounter.count_strokes self (Arr2 rows) stroke_type))
  /\ ((30 <= length rows)%nat ->
      ~ (BasicStrokeCounter.sampling_rate self == 0)%Q ->
      band_frequencies (BasicStrokeCounter.sampling_rate self) (length rows) stroke_type = [] ->
      BasicStrokeCounter.count_strokes_fft self (Arr2 rows) stroke_type = Ok 0).
Proof.
  split.
  - intros Hshort. split.
    + unfold BasicStrokeCounter.count_strokes_fft. cbn [np_len].
      apply Nat.ltb_lt in Hshort. rewrite Hshort. reflexivity.
    + destruct (count_strokes_is_ok self rows stroke_type) as (count & -> & _). exact I.
  - apply count_strokes_fft_empty_band.
Qed.

(** Thirty samples at 30 Hz, breaststroke: no bin in the band. *)
Lemma count_strokes_fft_short_or_empty_band_witness :
  (30 <= length (bump_lap 30))%nat
  /\ ~ (BasicStrokeCounter.sampling_rate (BasicStrokeCounter.make 30) == 0)%Q
  /\ band_frequencies (BasicStrokeCounter.sampling_rate (BasicStrokeCounter.make 30))
       (length (bump_lap 30)) BREASTSTROKE = []
  /\ BasicStrokeCounter.count_strokes_fft (BasicStrokeCounter.make 30)
       (Arr2 (bump_lap 30)) BREASTSTROKE = Ok 0.
Proof.
  split; [vm_compute; lia|].
  split; [intros Hz; vm_compute in Hz; discriminate|].
  split; [vm_compute; reflexivity|].
  apply (count_strokes_fft_short_or_empty_band (BasicStrokeCounter.make 30)
           (bump_lap 30) BREASTSTROKE).
  - vm_compute. lia.
  - intros Hz. vm_compute in Hz. discriminate.
  - vm_compute. reflexivity.
Defined.

(** *** Peaks at a minimum distance *)

Lemma local_maxima_scan_spec (l : list Q) :
  forall (prev : Q) (cand : option nat) (i lo : nat),
    (forall left_edge, cand = Some left_edge -> (lo <= left_edge < i)%nat) ->
    (lo <= i)%nat ->
    StronglySorted lt (local_maxima_scan prev cand i l)
    /\ Forall (fun p => (lo <= p /\ p + 1 < i + length l)%nat)
              (local_maxima_scan prev cand i l).
Proof.
  induction l as [|x l IH]; intros prev cand i lo Hcand Hlo;
    cbn [local_maxima_scan length].
  - split; constructor.
  - destruct (Qcompare prev x).
    + destruct (IH x cand (S i) lo) as [Hs Hb]; [intros e He; specialize (Hcand e He); lia|lia|].
      split; [exact Hs|]. eapply Forall_impl; [exact Hb|]. intros p. cbv beta. lia.
    + destruct (IH x (Some i) (S i) lo) as [Hs Hb];
        [intros e He; injection He as <-; lia|lia|].
      split; [exact Hs|]. eapply Forall_impl; [exact Hb|]. intros p. cbv beta. lia.
    + destruct cand as [left_edge|].
      * specialize (Hcand left_edge eq_refl).
        destruct (IH x None (S i) i) as [Hs Hb]; [discriminate|lia|].
        assert (Hmid : (left_edge <= (left_edge + (i - 1)) / 2 <= i - 1)%nat).
        { split.
          - apply Nat.div_le_lower_bound; lia.
          - apply Nat.Div0.div_le_upper_bound; lia. }
        set (mid := ((left_edge + (i - 1)) / 2)%nat) in *.
        split.
        -- constructor; [exact Hs|]. eapply Forall_impl; [exact Hb|].
           intros p. cbv beta. lia.
        -- constructor; [lia|]. eapply Forall_impl; [exact Hb|].
           intros p. cbv beta. lia.
      * destruct (IH x None (S i) lo) as [Hs Hb]; [discriminate|lia|].
        split; [exact Hs|]. eapply Forall_impl; [exact Hb|]. intros p. cbv beta. lia.
Qed.

(** Local maxima come in ascending order and are interior samples. *)
Lemma local_maxima_1d_spec (x : list Q) :
  StronglySorted lt (_local_maxima_1d x)
  /\ Forall (fun p => (1 <= p /\ p + 2 <= length x)%nat) (_local_maxima_1d x).
Proof.
  destruct x as [|x0 l]; cbn [_local_maxima_1d length]; [split; constructor|].
  destruct (local_maxima_scan_spec l x0 None 1 1) as [Hs Hb]; [discriminate|lia|].
  split; [exact Hs|]. eapply Forall_impl; [exact Hb|]. intros p. cbv beta. lia.
Qed.

Lemma argsort_insert_elem (key : nat -> Q) (j x : nat) (sorted : list nat) :
  x ∈ argsort_insert key j sorted <-> x = j \/ x ∈ sorted.
Proof.
  induction sorted as [|k sorted IH]; simpl.
  - rewrite list_elem_of_singleton. split; [auto|]. intros [?|Hin]; [assumption|inversion Hin].
  - destruct (Qle_bool (key k) (key j)).
    + rewrite !elem_of_cons, IH. tauto.
    + rewrite !elem_of_cons. tauto.
Qed.

(** Every position occurs in the order of visit. *)
Lemma argsort_complete (priority : list Q) (k : nat) :
  (k < length priority)%nat -> k ∈ argsort priority.
Proof.
  intros Hk. unfold argsort.
  assert (Hgen : forall l acc, k ∈ l \/ k ∈ acc ->
            k ∈ fold_left (fun sorted j =>
                             argsort_insert (fun i => nth i priority 0%Q) j sorted) l acc).
  { induction l as [|j l IH]; intros acc Hin; simpl.
    - destruct Hin as [Hin|Hin]; [inversion Hin|exact Hin].
    - apply IH. rewrite argsort_insert_elem.
      destruct Hin as [Hin|Hin]; [|auto].
      apply elem_of_cons in Hin as [->|Hin]; auto. }
  apply Hgen. left. apply list_elem_of_In, in_seq. lia.
Qed.

Section PeakDistance.
Variable peaks : list nat.
Variable distance : Z.

Lemma suppress_neighbours_lookup (keep : list bool) (j k : nat) :
  suppress_neighbours peaks distance keep j !! k = Some true ->
  keep !! k = Some true
  /\ (keep !! j = Some true -> j <> k ->
      distance <= Z.abs (Z.of_nat (nth k peaks 0%nat) - Z.of_nat (nth j peaks 0%nat))).
Proof.
  unfold suppress_neighbours. rewrite (nth_lookup keep j false).
  destruct (keep !! j) as [[|]|] eqn:Hj; simpl.
  - rewrite list_lookup_imap. destruct (keep !! k) as [b|] eqn:Hk; simpl; [|discriminate].
    destruct (bool_decide (k ≠ j)) eqn:Hne; simpl.
    + destruct (Z.ltb_spec
                  (Z.abs (Z.of_nat (nth k peaks 0%nat) - Z.of_nat (nth j peaks 0%nat)))
                  distance) as [Hlt|Hge]; [discriminate|].
      intros Hb. split; [exact Hb|]. intros _ _. exact Hge.
    + apply bool_decide_eq_false in Hne. intros Hb. split; [exact Hb|].
      intros _ Hjk. exfalso. apply Hne. congruence.
  - intros Hk. split; [exact Hk|discriminate].
  - intros Hk. split; [exact Hk|discriminate].
Qed.

Lemma suppress_neighbours_keeps_self (keep : list bool) (j : nat) :
  keep !! j = Some true -> suppress_neighbours peaks distance keep j !! j = Some true.
Proof.
  intros Hj. unfold suppress_neighbours. rewrite (nth_lookup keep j false), Hj. simpl.
  rewrite list_lookup_imap, Hj. simpl.
  rewrite bool_decide_eq_false_2 by (intros Hne; apply Hne; reflexivity). reflexivity.
Qed.

Lemma select_fold_spaced (order : list nat) :
  forall (visited : list nat) (keep : list bool),
    spaced_from peaks distance visited keep ->
    spaced_from peaks distance (visited ++ order)
                (fold_left (suppress_neighbours peaks distance) order keep).
Proof.
  induction order as [|j order IH]; intros visited keep Hinv; simpl.
  - rewrite app_nil_r. exact Hinv.
  - replace (visited ++ j :: order) with ((visited ++ [j]) ++ order)
      by (rewrite <- app_assoc; reflexivity).
    apply IH. intros a b Ha Hab Hka Hkb.
    destruct (suppress_neighbours_lookup keep j a Hka) as [Hka' Hja].
    destruct (suppress_neighbours_lookup keep j b Hkb) as [Hkb' Hjb].
    apply elem_of_app in Ha as [Ha|Ha].
    + apply (Hinv a b Ha Hab Hka' Hkb').
    + apply list_elem_of_singleton in Ha. subst a. apply Hjb; assumption.
Qed.

Lemma select_by_peak_distance_spaced (priority : list Q) (j k : nat) :
  length priority = length peaks ->
  j <> k ->
  _select_by_peak_distance peaks priority distance !! j = Some true ->
  _select_by_peak_distance peaks priority distance !! k = Some true ->
  distance <= Z.abs (Z.of_nat (nth k peaks 0%nat) - Z.of_nat (nth j peaks 0%nat)).
Proof.
  intros Hlen Hjk Hj Hk. unfold _select_by_peak_distance in *.
  pose proof (select_fold_spaced (rev (argsort priority)) []
                (repeat true (length peaks))) as Hinv.
  simpl in Hinv. apply (Hinv ltac:(intros a b Ha; inversion Ha) j k); try assumption.
  apply list_elem_of_In, (proj1 (in_rev _ _)), list_elem_of_In, argsort_complete.
  apply lookup_lt_Some in Hj.
  assert (Hfold : forall order keep,
            length (fold_left (suppress_neighbours peaks distance) order keep) = length keep).
  { clear. induction order as [|a order IH]; intros keep; simpl; [reflexivity|].
    rewrite IH. unfold suppress_neighbours.
    destruct (nth a keep false); [apply length_imap|reflexivity]. }
  rewrite Hfold, repeat_length in Hj. lia.
Qed.

End PeakDistance.

Lemma kept_peaks_lookup (peaks : list nat) (keep : list bool) (x : nat) :
  x ∈ map fst (List.filter snd (zip peaks keep)) ->
  exists k, peaks !! k = Some x /\ keep !! k = Some true.
Proof.
  revert keep. induction peaks as [|p peaks IH]; intros [|b keep] Hin; simpl in Hin;
    try (inversion Hin; fail).
  destruct b; simpl in Hin.
  - apply elem_of_cons in Hin as [->|Hin]; [exists 0%nat; split; reflexivity|].
    destruct (IH keep Hin) as (k & Hp & Hk). exists (S k). split; assumption.
  - destruct (IH keep Hin) as (k & Hp & Hk). exists (S k). split; assumption.
Qed.

Lemma kept_peaks_spaced (distance : Z) (peaks : list nat) (keep : list bool) :
  (forall j k pj pk, (j < k)%nat -> peaks !! j = Some pj -> peaks !! k = Some pk ->
     keep !! j = Some true -> keep !! k = Some true ->
     Z.of_nat pj + distance <= Z.of_nat pk) ->
  StronglySorted (fun a b => Z.of_nat a + distance <= Z.of_nat b)
                 (map fst (List.filter snd (zip peaks keep))).
Proof.
  revert keep. induction peaks as [|p peaks IH]; intros [|b keep] Hsp; simpl;
    try constructor.
  assert (Htail : forall j k pj pk, (j < k)%nat ->
            peaks !! j = Some pj -> peaks !! k = Some pk ->
            keep !! j = Some true -> keep !! k = Some true ->
            Z.of_nat pj + distance <= Z.of_nat pk).
  { intros j k pj pk Hjk Hj Hk Hkj Hkk. apply (Hsp (S j) (S k) pj pk); try assumption. lia. }
  destruct b; simpl.
  - constructor; [apply IH, Htail|].
    rewrite Forall_forall. intros x Hin.
    destruct (kept_peaks_lookup peaks keep x Hin) as (k & Hp & Hk).
    apply (Hsp 0%nat (S k) p x); try assumption; try reflexivity. lia.
  - apply IH, Htail.
Qed.

(** The peaks that [find_peaks] returns are interior samples, at least
    [distance] apart. *)
Lemma find_peaks_spec (x : list Q) (distance : Z) (found : list nat) :
  find_peaks x distance = Ok found ->
  1 <= distance
  /\ StronglySorted (fun a b => Z.of_nat a + distance <= Z.of_nat b) found
  /\ Forall (fun p => (1 <= p /\ p + 2 <= length x)%nat) found.
Proof.
  unfold find_peaks. destruct (Z.ltb_spec distance 1) as [?|Hd]; [discriminate|].
  intros Hfound. injection Hfound as <-. split; [exact Hd|].
  destruct (local_maxima_1d_spec x) as [Hsorted Hbounds].
  set (peaks := _local_maxima_1d x) in *.
  set (keep := _select_by_peak_distance peaks (map (fun p => nth p x 0%Q) peaks) distance).
  split.
  - apply kept_peaks_spaced. intros j k pj pk Hjk Hj Hk Hkj Hkk.
    pose proof (select_by_peak_distance_spaced peaks distance
                  (map (fun p => nth p x 0%Q) peaks) j k
                  ltac:(apply length_map) ltac:(lia) Hkj Hkk) as Hdist.
    rewrite (nth_lookup_Some _ _ _ _ Hj), (nth_lookup_Some _ _ _ _ Hk) in Hdist.
    assert (pj < pk)%nat; [|lia].
    apply (StronglySorted_app_1_elem_of lt (take k peaks) (drop k peaks)).
    + rewrite take_drop. exact Hsorted.
    + apply list_elem_of_lookup. exists j. rewrite lookup_take_lt by lia. exact Hj.
    + apply list_elem_of_lookup. exists 0%nat. rewrite lookup_drop, Nat.add_0_r. exact Hk.
  - rewrite Forall_forall in *. intros p Hin.
    destruct (kept_peaks_lookup peaks keep p Hin) as (k & Hp & _).
    apply Hbounds. eapply list_elem_of_lookup_2, Hp.
Qed.

(** Samples between [lo] and [hi], each at least [d] after the one
    before: there are at most [(hi - lo) / d + 1] of them. *)
Lemma spaced_count (d hi : Z) (l : list nat) :
  1 <= d ->
  forall lo,
    StronglySorted (fun a b => Z.of_nat a + d <= Z.of_nat b) l ->
    Forall (fun p => lo <= Z.of_nat p <= hi) l ->
    l <> [] ->
    Z.of_nat (length l) <= (hi - lo) / d + 1.
Proof.
  intros Hd. induction l as [|a l IH]; intros lo Hsorted Hbounds Hne; [congruence|].
  apply StronglySorted_inv in Hsorted as [Hsorted Ha].
  inversion Hbounds as [|? ? Hab Hl]; subst.
  destruct l as [|b l].
  - simpl. assert (0 <= (hi - lo) / d) by (apply Z.div_pos; lia). lia.
  - specialize (IH (Z.of_nat a + d) Hsorted).
    assert (Hl' : Forall (fun p => Z.of_nat a + d <= Z.of_nat p <= hi) (b :: l)).
    { rewrite Forall_forall in *. intros p Hin.
      specialize (Ha p Hin). specialize (Hl p Hin). simpl in *. lia. }
    specialize (IH Hl' ltac:(discriminate)).
    assert (Hshift : (hi - (Z.of_nat a + d)) / d = (hi - Z.of_nat a) / d - 1).
    { replace (hi - (Z.of_nat a + d)) with (hi - Z.of_nat a + (-1) * d) by lia.
      rewrite Z.div_add by lia. lia. }
    assert (Hmono : (hi - Z.of_nat a) / d <= (hi - lo) / d)
      by (apply Z.div_le_mono; lia).
    change (length (a :: b :: l)) with (S (length (b :: l))). lia.
Qed.

Lemma find_peaks_count (x : list Q) (distance : Z) (found : list nat) :
  3 <= distance ->
  find_peaks x distance = Ok found ->
  Z.of_nat (length found) <= (Z.of_nat (length x) - 3) / distance + 1.
Proof.
  intros Hd Hfound. apply find_peaks_spec in Hfound as (_ & Hsorted & Hbounds).
  destruct found as [|p found].
  - simpl.
    assert (-1 <= (Z.of_nat (length x) - 3) / distance); [|lia].
    apply Z.div_le_lower_bound; lia.
  - replace (Z.of_nat (length x) - 3) with (Z.of_nat (length x) - 2 - 1) by lia.
    apply spaced_count; [lia|exact Hsorted| |discriminate].
    eapply Forall_impl; [exact Hbounds|]. intros q. cbv beta. lia.
Qed.

(** The peak method counts at most [(n - 3) / d + 1] strokes on [n]
    samples, [d] being the minimum peak distance. *)
Lemma count_strokes_bound (self : BasicStrokeCounter.t) (rows : list vec3)
    (stroke_type : StrokeType) (count : Z) :
  BasicStrokeCounter.count_strokes self (Arr2 rows) stroke_type = Ok count ->
  0 <= count
  /\ count <= (Z.of_nat (length rows) - 3)
              / min_peak_distance (BasicStrokeCounter.sampling_rate self) stroke_type + 1.
Proof.
  unfold BasicStrokeCounter.count_strokes, min_peak_distance.
  cbn [np_len].
  unfold BasicStrokeCounter.select_axis, BasicStrokeCounter._calculate_min_peak_distance.
  pose proof (stroke_max_freq_nonzero stroke_type) as Hmax.
  destruct (BasicStrokeCounter._get_stroke_frequency_range stroke_type) as [min_freq max_freq].
  simpl in Hmax. unfold py_truediv. rewrite Hmax. unfold mbind, res_bind.
  set (d := Z.max 3 (py_int (1.0 / max_freq * BasicStrokeCounter.sampling_rate self))).
  assert (Hd : 3 <= d) by (unfold d; lia).
  assert (Hzero : 0 <= (Z.of_nat (length rows) - 3) / d + 1).
  { assert (-1 <= (Z.of_nat (length rows) - 3) / d); [|lia].
    apply Z.div_le_lower_bound; lia. }
  destruct (length rows <? 10)%nat.
  { intros Hc. injection Hc as <-. split; [lia|exact Hzero]. }
  match goal with
  | |- context [find_peaks ?sig d] =>
      destruct (find_peaks sig d) as [pos|e] eqn:Hpos; [|discriminate];
      pose proof (find_peaks_count sig d pos Hd Hpos) as Hpos_count
  end.
  match goal with
  | |- context [find_peaks (map Qopp ?sig) d] =>
      destruct (find_peaks (map Qopp sig) d) as [neg|e] eqn:Hneg; [|discriminate];
      pose proof (find_peaks_count (map Qopp sig) d neg Hd Hneg) as Hneg_count
  end.
  assert (Hn : forall s : list Q,
            s = (if BasicStrokeCounter.bilateral stroke_type then map vy rows else map vz rows) ->
            length s = length rows).
  { intros s ->. destruct (BasicStrokeCounter.bilateral stroke_type); apply length_map. }
  rewrite !length_map, (Hn _ eq_refl) in *.
  destruct (BasicStrokeCounter.bilateral stroke_type); intros Hc; injection Hc as <-; lia.
Qed.

Lemma Qmult_le_nonneg_l (x y z : Q) : (0 <= z)%Q -> (x <= y)%Q -> (z * x <= z * y)%Q.
Proof.
  intros Hz Hxy. rewrite (Qmult_comm z x), (Qmult_comm z y).
  apply Qmult_le_compat_r; assumption.
Qed.

Lemma py_int_le_nonneg (q : Q) (m : Z) : 0 <= m -> (q <= inject_Z m)%Q -> py_int q <= m.
Proof.
  intros Hm Hq. destruct (Qlt_le_dec q 0) as [Hneg|Hpos].
  - assert (Ho : py_int q = - py_int (- q)).
    { destruct q as [n d]. unfold py_int. simpl. rewrite Z.quot_opp_l by lia. lia. }
    rewrite Ho, py_int_nonneg_floor by lra.
    pose proof (Qfloor_resp_le 0 (- q) ltac:(lra)) as Hfloor.
    change (Qfloor 0) with 0 in Hfloor. lia.
  - rewrite py_int_nonneg_floor by exact Hpos.
    rewrite <- (Qfloor_Z m). apply Qfloor_resp_le, Hq.
Qed.

(** The blend of two estimates lies between 0 and the larger one. *)
Lemma hybrid_blend_bounds (weight : Q) (peak_count fft_count : Z) :
  (0 <= weight <= 1)%Q ->
  0 <= peak_count ->
  0 <= Z.max 0 (py_int (weight * inject_Z peak_count + (1 - weight) * inject_Z fft_count))
  /\ Z.max 0 (py_int (weight * inject_Z peak_count + (1 - weight) * inject_Z fft_count))
     <= Z.max peak_count fft_count.
Proof.
  intros [Hw0 Hw1] Hp. split; [lia|].
  apply Z.max_lub; [lia|]. apply py_int_le_nonneg; [lia|].
  assert (Hpm : (inject_Z peak_count <= inject_Z (Z.max peak_count fft_count))%Q)
    by (rewrite <- Zle_Qle; lia).
  assert (Hfm : (inject_Z fft_count <= inject_Z (Z.max peak_count fft_count))%Q)
    by (rewrite <- Zle_Qle; lia).
  set (M := inject_Z (Z.max peak_count fft_count)) in *.
  set (P := inject_Z peak_count) in *. set (F := inject_Z fft_count) in *.
  assert (H1 : (weight * P <= weight * M)%Q) by (apply Qmult_le_nonneg_l; assumption).
  assert (H2 : ((1 - weight) * F <= (1 - weight) * M)%Q)
    by (apply Qmult_le_nonneg_l; [lra|exact Hfm]).
  lra.
Qed.

(** *** The dominant frequency *)

Lemma argmax_from_spec (l : list Q) :
  forall (best_idx : nat) (best : Q) (i : nat),
    argmax_from best_idx best i l = best_idx
    \/ exists k, argmax_from best_idx best i l = (i + k)%nat
                 /\ l !! k ≠ None /\ (best < nth k l 0)%Q.
Proof.
  induction l as [|x l IH]; intros best_idx best i; simpl; [left; reflexivity|].
  destruct (Qltb best x) eqn:Hlt.
  - apply Qltb_lt in Hlt. right.
    destruct (IH i x (S i)) as [->|(k & -> & Hk & Hbest)].
    + exists 0%nat. split; [lia|]. split; [discriminate|exact Hlt].
    + exists (S k). split; [lia|]. split; [exact Hk|]. simpl. lra.
  - destruct (IH best_idx best (S i)) as [->|(k & -> & Hk & Hbest)]; [left; reflexivity|].
    right. exists (S k). split; [lia|]. split; [exact Hk|exact Hbest].
Qed.

Lemma py_any_true (l : list bool) : py_any l = true -> true ∈ l.
Proof.
  unfold py_any. induction l as [|b l IH]; simpl; [discriminate|].
  destruct b; simpl; [intros _; left|intros H; right; exact (IH H)].
Qed.

(** When the lowest bin is the smallest frequency and some bin is in
    the band, the bin of the largest masked magnitude is no higher than
    the band's upper end. *)
Lemma dominant_frequency_le_max (in_band : Q -> bool) (max_freq v : Q)
    (rest magnitudes : list Q) :
  Forall (Qle v) rest ->
  length magnitudes = length (v :: rest) ->
  Forall (fun m => 0 <= m)%Q magnitudes ->
  (forall f, in_band f = true -> (f <= max_freq)%Q) ->
  py_any (map in_band (v :: rest)) = true ->
  (nth (np_argmax (zip_with (fun m (b : bool) => if b then m else 0%Q)
                            magnitudes (map in_band (v :: rest))))
       (v :: rest) 0
   <= max_freq)%Q.
Proof.
  intros Hmin Hlen Hnonneg Hband Hany.
  destruct magnitudes as [|m0 mags]; [discriminate|].
  cbn [map zip_with np_argmax].
  set (masked := zip_with (fun m (b : bool) => if b then m else 0%Q) mags (map in_band rest)).
  inversion Hnonneg as [|? ? Hm0 Hmags]; subst.
  destruct (argmax_from_spec masked 0 (if in_band v then m0 else 0%Q) 1)
    as [->|(k & -> & Hk & Hbest)].
  - cbn [nth]. apply py_any_true in Hany.
    apply list_elem_of_In, in_map_iff in Hany as (f & Hf & Hin).
    apply list_elem_of_In, elem_of_cons in Hin as [->|Hin]; [apply Hband, Hf|].
    rewrite Forall_forall in Hmin. specialize (Hmin f Hin).
    specialize (Hband f Hf). lra.
  - change (nth (1 + k) (v :: rest) 0%Q) with (nth k rest 0%Q).
    destruct (masked !! k) as [y|] eqn:Hy; [|congruence].
    rewrite (nth_lookup_Some _ _ _ _ Hy) in Hbest.
    unfold masked in Hy. rewrite lookup_zip_with in Hy.
    destruct (mags !! k) as [m|] eqn:Hm; [|discriminate]. simpl in Hy.
    change (map in_band rest) with (in_band <$> rest) in Hy.
    rewrite list_lookup_fmap in Hy.
    destruct (rest !! k) as [f|] eqn:Hf; [|discriminate]. simpl in Hy.
    injection Hy as <-. rewrite (nth_lookup_Some _ _ _ _ Hf).
    destruct (in_band f) eqn:Hinb; [apply Hband, Hinb|].
    exfalso. destruct (in_band v); lra.
Qed.

(** For a positive sample spacing the positive bins start with the
    lowest frequency. *)
Lemma positive_fftfreq (n : nat) (d : Q) :
  (3 <= n)%nat -> (0 < d)%Q ->
  exists v rest,
    List.filter (Qltb 0) (fftfreq n d) = v :: rest /\ Forall (Qle v) rest.
Proof.
  intros Hn Hd. unfold fftfreq.
  set (val := (1 / (inject_Z (Z.of_nat n) * d))%Q).
  assert (Hval : (0 < val)%Q).
  { unfold val. apply Qlt_shift_div_l.
    - apply Qmult_lt_0_compat; [|exact Hd].
      unfold Qlt, inject_Z. simpl. lia.
    - lra. }
  assert (Hm : 2 <= (Z.of_nat n - 1) / 2 + 1).
  { assert (1 <= (Z.of_nat n - 1) / 2) by (apply Z.div_le_lower_bound; lia). lia. }
  rewrite (seqZ_cons 0) by lia. rewrite (seqZ_cons (Z.succ 0)) by lia.
  cbn [app map List.filter].
  assert (H0 : Qltb 0 (inject_Z 0 * val) = false)
    by (apply Qltb_ge; change (inject_Z 0) with 0%Q; lra).
  assert (H1 : Qltb 0 (inject_Z (Z.succ 0) * val) = true)
    by (apply Qltb_lt; change (inject_Z (Z.succ 0)) with 1%Q; lra).
  rewrite H0, H1. eexists _, _. split; [reflexivity|].
  rewrite Forall_forall. intros f Hin.
  apply list_elem_of_In, filter_In in Hin as [Hin Hpos].
  apply in_map_iff in Hin as (k & <- & _). apply Qltb_lt in Hpos.
  change (inject_Z (Z.succ 0)) with 1%Q.
  assert (Hk : (0 < inject_Z k)%Q).
  { destruct (Qlt_le_dec 0 (inject_Z k)) as [?|Hle]; [assumption|].
    exfalso. assert (inject_Z k * val <= 0 * val)%Q
      by (apply Qmult_le_compat_r; lra). lra. }
  assert (Hk1 : (1 <= inject_Z k)%Q).
  { change 0%Q with (inject_Z 0) in Hk. rewrite <- Zlt_Qlt in Hk.
    change 1%Q with (inject_Z 1). rewrite <- Zle_Qle. lia. }
  apply Qmult_le_compat_r; lra.
Qed.

Lemma stroke_max_freq_pos (stroke_type : StrokeType) :
  (0 < (BasicStrokeCounter._get_stroke_frequency_range stroke_type).2)%Q.
Proof. destruct stroke_type; reflexivity. Qed.

Lemma py_int_le_bound (q b : Q) : (q <= b)%Q -> (0 <= b)%Q -> (inject_Z (py_int q) <= b)%Q.
Proof.
  intros Hq Hb. destruct (Qlt_le_dec q 0) as [Hneg|Hpos].
  - assert (py_int q <= 0) by (apply py_int_le_nonneg; [lia|change (inject_Z 0) with 0%Q; lra]).
    assert (inject_Z (py_int q) <= inject_Z 0)%Q by (rewrite <- Zle_Qle; assumption).
    change (inject_Z 0) with 0%Q in *. lra.
  - rewrite py_int_nonneg_floor by exact Hpos. pose proof (Qfloor_le q). lra.
Qed.

Lemma snd_filter_zip_subset {A B : Type} (P : A * B -> bool) (a : list A) (b : list B)
    (Q : B -> Prop) :
  Forall Q b -> Forall Q (map snd (List.filter P (zip a b))).
Proof.
  intros Hb. rewrite Forall_forall in *. intros y Hin.
  apply list_elem_of_In, in_map_iff in Hin as ([x y'] & <- & Hin).
  apply filter_In in Hin as [Hin _]. apply Hb.
  apply list_elem_of_In in Hin. apply elem_of_zip_r in Hin. exact Hin.
Qed.

(** The spectral estimate of a lap of 30 samples or more is at most the
    lap's duration times the upper end of the style's band. *)
Lemma count_strokes_fft_bound `{Numerics} (self : BasicStrokeCounter.t)
    (rows : list vec3) (stroke_type : StrokeType) :
  (30 <= length rows)%nat ->
  (0 < BasicStrokeCounter.sampling_rate self)%Q ->
  exists count,
    BasicStrokeCounter.count_strokes_fft self (Arr2 rows) stroke_type = Ok count
    /\ (inject_Z count
        <= inject_Z (Z.of_nat (length rows)) / BasicStrokeCounter.sampling_rate self
           * (BasicStrokeCounter._get_stroke_frequency_range stroke_type).2)%Q.
Proof.
  intros Hlong Hrate. unfold BasicStrokeCounter.count_strokes_fft.
  cbn [np_len]. pose proof Hlong as Hlong'. apply Nat.ltb_ge in Hlong'. rewrite Hlong'.
  unfold BasicStrokeCounter.select_axis, py_truediv.
  destruct (Qeq_bool (BasicStrokeCounter.sampling_rate self) 0) eqn:Hz;
    [apply Qeq_bool_eq in Hz; lra|].
  unfold mbind, res_bind.
  pose proof (stroke_max_freq_pos stroke_type) as Hmax.
  destruct (BasicStrokeCounter._get_stroke_frequency_range stroke_type) as [min_freq max_freq].
  cbn [snd] in *.
  set (rate := BasicStrokeCounter.sampling_rate self) in *.
  set (signal := if BasicStrokeCounter.bilateral stroke_type then map vy rows else map vz rows).
  assert (Hn : length signal = length rows)
    by (unfold signal; destruct (BasicStrokeCounter.bilateral stroke_type); apply length_map).
  rewrite Hn.
  assert (Hduration : (0 <= inject_Z (Z.of_nat (length rows)) / rate * max_freq)%Q).
  { apply Qmult_le_0_compat; [|lra]. apply Qle_shift_div_l; [exact Hrate|].
    rewrite Qmult_0_l. change 0%Q with (inject_Z 0). rewrite <- Zle_Qle. lia. }
  rewrite (filter_fst_zip (Qltb 0))
    by (rewrite length_fftfreq, fft_abs_length, length_map; symmetry; exact Hn).
  destruct (positive_fftfreq (length rows) (1.0 / rate)) as (v & rest & Hpf & Hmin);
    [lia|apply Qlt_shift_div_l; lra|].
  rewrite Hpf.
  set (in_band := fun f : Q => Qle_bool min_freq f && Qle_bool f max_freq).
  destruct (py_any (map in_band (v :: rest))) eqn:Hany; cbn [negb].
  2:{ exists 0. split; [reflexivity|]. exact Hduration. }
  eexists. split; [reflexivity|].
  apply py_int_le_bound; [|exact Hduration].
  rewrite (Qmult_comm _ max_freq).
  apply Qmult_le_compat_r.
  - apply dominant_frequency_le_max; try assumption.
    + rewrite length_map, <- (length_map fst), (filter_fst_zip (Qltb 0)), Hpf;
        [reflexivity|].
      rewrite length_fftfreq, fft_abs_length, length_map. symmetry. exact Hn.
    + apply snd_filter_zip_subset, fft_abs_nonneg.
    + intros f Hf. unfold in_band in Hf. apply andb_true_iff in Hf as [_ Hf].
      apply Qle_bool_iff, Hf.
  - apply Qle_shift_div_l; [exact Hrate|].
    rewrite Qmult_0_l. change 0%Q with (inject_Z 0). rewrite <- Zle_Qle. lia.
Qed.

(** C7, as stated, fails: a breaststroke lap of 10 samples at 30 Hz
    lasts a third of a second, so that [T * max_freq] is 4/15, yet with
    one bump on the Z axis the hybrid count is 1. *)
Lemma hybrid_count_exceeds_rate_counterexample :
  (forall N : Numerics,
     @HybridStrokeCounter.count_strokes N (HybridStrokeCounter.init 30)
       (Arr2 (bump_lap 10)) BREASTSTROKE
     = Ok 1)
  /\ ~ (inject_Z 1
        <= inject_Z (Z.of_nat (length (bump_lap 10))) / 30
           * (BasicStrokeCounter._get_stroke_frequency_range BREASTSTROKE).2)%Q.
Proof.
  split.
  - intros N. vm_compute. reflexivity.
  - intros Hle. vm_compute in Hle. apply Hle. reflexivity.
Qed.

(** C7, amended: at a positive sampling rate, on a lap array of shape
    (n,3), the hybrid [count_strokes] returns an integer between 0 and
    the larger of its two estimates. The peak estimate is at most
    [(n - 3) / d + 1], [d] being the minimum peak distance
    [max(3, int(sampling_rate / max_freq))]; the spectral estimate is the
    peak estimate below 30 samples and at most [T * max_freq] from 30
    samples on. *)
Theorem hybrid_count_strokes_bounds `{Numerics} (rate : Q) (rows : list vec3)
    (stroke_type : StrokeType) :
  (0 < rate)%Q ->
  exists count peak_count fft_count,
    HybridStrokeCounter.count_strokes (HybridStrokeCounter.init rate) (Arr2 rows) stroke_type
    = Ok count
    /\ BasicStrokeCounter.count_strokes (BasicStrokeCounter.make rate) (Arr2 rows) stroke_type
       = Ok peak_count
    /\ BasicStrokeCounter.count_strokes_fft (BasicStrokeCounter.make rate) (Arr2 rows) stroke_type
       = Ok fft_count
    /\ 0 <= count <= Z.max peak_count fft_count
    /\ 0 <= peak_count
       <= (Z.of_nat (length rows) - 3) / min_peak_distance rate stroke_type + 1
    /\ ((length rows < 30)%nat -> fft_count = peak_count)
    /\ ((30 <= length rows)%nat ->
        (inject_Z fft_count
         <= inject_Z (Z.of_nat (length rows)) / rate
            * (BasicStrokeCounter._get_stroke_frequency_range stroke_type).2)%Q).
Proof.
  intros Hrate.
  destruct (count_strokes_is_ok (BasicStrokeCounter.make rate) rows stroke_type)
    as (peak_count & Hpeak & _).
  destruct (count_strokes_bound _ _ _ _ Hpeak) as [Hp0 Hp1].
  assert (Hfft : exists fft_count,
    BasicStrokeCounter.count_strokes_fft (BasicStrokeCounter.make rate) (Arr2 rows) stroke_type
    = Ok fft_count
    /\ ((length rows < 30)%nat -> fft_count = peak_count)
    /\ ((30 <= length rows)%nat ->
        (inject_Z fft_count
         <= inject_Z (Z.of_nat (length rows)) / rate
            * (BasicStrokeCounter._get_stroke_frequency_range stroke_type).2)%Q)).
  { destruct (Nat.lt_ge_cases (length rows) 30) as [Hshort|Hlong].
    - exists peak_count. split; [|split; [reflexivity|lia]].
      unfold BasicStrokeCounter.count_strokes_fft. cbn [np_len].
      apply Nat.ltb_lt in Hshort. rewrite Hshort. exact Hpeak.
    - destruct (count_strokes_fft_bound (BasicStrokeCounter.make rate) rows stroke_type
                  Hlong Hrate) as (fft_count & Hf & Hbound).
      exists fft_count. split; [exact Hf|]. split; [lia|]. intros _. exact Hbound. }
  destruct Hfft as (fft_count & Hfft & Hshort & Hlong).
  unfold HybridStrokeCounter.count_strokes, HybridStrokeCounter.init.
  cbn [HybridStrokeCounter.basic_counter HybridStrokeCounter.sampling_rate].
  rewrite Hpeak, Hfft. unfold mbind, res_bind.
  rewrite py_truediv_nonzero by lra.
  eexists _, peak_count, fft_count. split; [reflexivity|].
  split; [reflexivity|]. split; [reflexivity|].
  split; [|split; [split; assumption|split; assumption]].
  apply hybrid_blend_bounds; [|exact Hp0].
  destruct (Qltb _ 15); [lra|]. destruct (Qltb _ 30); lra.
Qed.

(** Ten samples at 30 Hz with one bump. *)
Lemma hybrid_count_strokes_bounds_witness :
  (0 < 30)%Q
  /\ exists count peak_count fft_count,
       HybridStrokeCounter.count_strokes (HybridStrokeCounter.init 30)
         (Arr2 (bump_lap 10)) BREASTSTROKE
       = Ok count
       /\ BasicStrokeCounter.count_strokes (BasicStrokeCounter.make 30)
            (Arr2 (bump_lap 10)) BREASTSTROKE
          = Ok peak_count
       /\ BasicStrokeCounter.count_strokes_fft (BasicStrokeCounter.make 30)
            (Arr2 (bump_lap 10)) BREASTSTROKE
          = Ok fft_count
       /\ 0 <= count <= Z.max peak_count fft_count.
Proof.
  split; [reflexivity|].
  destruct (hybrid_count_strokes_bounds 30 (bump_lap 10) BREASTSTROKE)
    as (count & peak_count & fft_count & Hc & Hp & Hf & Hbound & _).
  - reflexivity.
  - exists count, peak_count, fft_count. auto.
Defined.

(** ** SensorData.slice *)

Lemma slice_bounds_range (n : nat) (start stop : Z) :
  ((slice_bounds n start stop).1 <= (slice_bounds n start stop).2 <= n)%nat.
Proof.
  unfold slice_bounds, slice_index. cbn [fst snd].
  destruct (Z.ltb_spec start 0), (Z.ltb_spec stop 0); lia.
Qed.

Lemma slice_bounds_valid (n : nat) (start stop : Z) :
  0 <= start -> start <= stop -> stop <= Z.of_nat n ->
  slice_bounds n start stop = (Z.to_nat start, Z.to_nat stop).
Proof.
  intros H0 H1 H2. unfold slice_bounds, slice_index.
  destruct (Z.ltb_spec start 0); [lia|]. destruct (Z.ltb_spec stop 0); [lia|].
  f_equal; f_equal; lia.
Qed.

Lemma window_slice {A : Type} (buf : list A) (off sz lo hi : nat) :
  (lo <= hi <= sz)%nat ->
  take (hi - lo) (drop (off + lo) buf)
  = take (hi - lo) (drop lo (take sz (drop off buf))).
Proof.
  intros Hb. rewrite <- drop_drop.
  replace sz with (lo + (sz - lo))%nat at 1 by lia.
  rewrite <- take_drop_commute, take_take. f_equal. lia.
Qed.

(** Reading a slice gives the sub-range of what the source reads. *)
Lemma read_view_slice (st : gmap nat ndarray) (v : view) (start stop : Z) :
  view_ok st v ->
  read st (view_slice v start stop) = (fun a => np_slice a start stop) <$> read st v.
Proof.
  intros (buf & Hbuf & Hfit). unfold read, view_slice.
  pose proof (slice_bounds_range (size v) start stop) as Hrange.
  destruct (slice_bounds (size v) start stop) as [lo hi] eqn:Hb. simpl in Hrange.
  cbn [base]. rewrite Hbuf. simpl. f_equal.
  destruct buf as [xs|rows]; cbn [window np_slice offset size np_len] in *; f_equal;
    unfold py_slice; rewrite length_take_le, Hb by (rewrite length_drop; lia);
    apply window_slice; exact Hrange.
Qed.

Lemma item_index_valid (n : nat) (i : Z) :
  0 <= i -> i < Z.of_nat n -> item_index n i = Ok (Z.to_nat i).
Proof.
  intros H0 H1. unfold item_index.
  destruct (Z.ltb_spec i 0); [lia|].
  destruct (Z.leb_spec 0 i); [|lia]. destruct (Z.ltb_spec i (Z.of_nat n)); [|lia].
  reflexivity.
Qed.

Lemma window_insert {A : Type} (buf : list A) (off sz j : nat) (x : A) :
  (j < sz)%nat ->
  take sz (drop off (<[(off + j)%nat := x]> buf)) = <[j := x]> (take sz (drop off buf)).
Proof.
  intros Hj. rewrite drop_insert_ge by lia.
  replace (off + j - off)%nat with j by lia.
  apply take_insert_lt, Hj.
Qed.

(** Writing row [i] of a slice writes row [start + i] of the source. *)
Lemma setitem2_through_slice (st : gmap nat ndarray) (v : view) (start stop i : Z)
    (rows : list vec3) (x : vec3) :
  view_ok st v ->
  0 <= start -> start <= stop -> stop <= Z.of_nat (size v) ->
  0 <= i -> i < stop - start ->
  read st v = Some (Arr2 rows) ->
  exists st',
    setitem2 st (view_slice v start stop) i x = Ok st'
    /\ read st' v = Some (Arr2 (<[Z.to_nat (start + i) := x]> rows)).
Proof.
  intros (buf & Hbuf & Hfit) H0 H1 H2 Hi0 Hi1 Hread.
  unfold read in Hread. rewrite Hbuf in Hread. simpl in Hread.
  destruct buf as [xs|buf]; cbn [window] in Hread; [discriminate|].
  injection Hread as <-.
  unfold setitem2, view_slice. rewrite slice_bounds_valid by assumption.
  cbn [size base offset]. rewrite item_index_valid by lia.
  unfold mbind, res_bind. rewrite Hbuf. eexists. split; [reflexivity|].
  unfold read. rewrite lookup_insert_eq. simpl. do 2 f_equal.
  replace (offset v + Z.to_nat start + Z.to_nat i)%nat
    with (offset v + Z.to_nat (start + i))%nat by lia.
  apply window_insert. lia.
Qed.

(** The same for an array of shape (N,). *)
Lemma setitem1_through_slice (st : gmap nat ndarray) (v : view) (start stop i : Z)
    (xs : list Q) (x : Q) :
  view_ok st v ->
  0 <= start -> start <= stop -> stop <= Z.of_nat (size v) ->
  0 <= i -> i < stop - start ->
  read st v = Some (Arr1 xs) ->
  exists st',
    setitem1 st (view_slice v start stop) i x = Ok st'
    /\ read st' v = Some (Arr1 (<[Z.to_nat (start + i) := x]> xs)).
Proof.
  intros (buf & Hbuf & Hfit) H0 H1 H2 Hi0 Hi1 Hread.
  unfold read in Hread. rewrite Hbuf in Hread. simpl in Hread.
  destruct buf as [buf|rows]; cbn [window] in Hread; [|discriminate].
  injection Hread as <-.
  unfold setitem1, view_slice. rewrite slice_bounds_valid by assumption.
  cbn [size base offset]. rewrite item_index_valid by lia.
  unfold mbind, res_bind. rewrite Hbuf. eexists. split; [reflexivity|].
  unfold read. rewrite lookup_insert_eq. simpl. do 2 f_equal.
  replace (offset v + Z.to_nat start + Z.to_nat i)%nat
    with (offset v + Z.to_nat (start + i))%nat by lia.
  apply window_insert. lia.
Qed.

(** C4, as stated, fails: the source holds four rows of acceleration;
    writing row 0 of the slice [1:3] changes row 1 of the source. *)
Lemma slice_aliases_source_counterexample :
  exists st',
    setitem2 four_sample_store (accel (slice four_samples 1 3)) 0 (mkVec3 9 9 9) = Ok st'
    /\ read four_sample_store (accel four_samples)
       = Some (Arr2 [mkVec3 0 0 0; mkVec3 1 1 1; mkVec3 2 2 2; mkVec3 3 3 3])
    /\ read st' (accel four_samples)
       = Some (Arr2 [mkVec3 0 0 0; mkVec3 9 9 9; mkVec3 2 2 2; mkVec3 3 3 3]).
Proof.
  eexists. split; [|split].
  - unfold setitem2, slice, view_slice, four_samples, four_sample_store. cbn. reflexivity.
  - reflexivity.
  - unfold read, four_samples. cbn [base accel]. rewrite lookup_insert_eq. reflexivity.
Qed.

(** ** AnalysisPipeline.analyze *)

Lemma process_filterable `{Numerics} (self : SwimBITFilter.t) (data : ndarray) (rate : Q) :
  cache_consistent self ->
  ~ (rate == 0)%Q ->
  filterable (SwimBITFilter.order self) (np_len data) ->
  exists out self',
    SwimBITFilter.process self data rate = (Ok out, self')
    /\ shape out = shape data
    /\ SwimBITFilter.order self' = SwimBITFilter.order self
    /\ cache_consistent self'.
Proof.
  intros Hcache Hrate [Hshort|[Horder Hlong]].
  - exists data, self. rewrite process_short_identity by exact Hshort. auto.
  - apply process_long_keeps_shape; assumption.
Qed.

Lemma classify_is_ok (self : EnergyClassifier.t) (rows : list vec3) :
  exists stroke_type, EnergyClassifier.classify self (Arr2 rows) = Ok stroke_type.
Proof.
  unfold EnergyClassifier.classify. cbn [EnergyClassifier._calculate_energy].
  destruct (np_len (Arr2 rows) <? 30)%nat; [eexists; reflexivity|].
  cbn [EnergyClassifier._detect_backstroke_by_gravity]. unfold mbind, res_bind.
  repeat match goal with
         | |- context [if ?c then _ else _] => destruct c
         end; eexists; reflexivity.
Qed.


Lemma sequence_map_ok {A B : Type} (f : A -> res B) (P : A -> B -> Prop) (l : list A) :
  (forall x, exists y, f x = Ok y /\ P x y) ->
  exists ys, sequence (map f l) = Ok ys /\ Forall2 P l ys.
Proof.
  intros Hf. induction l as [|x l IH]; simpl.
  - exists []. split; [reflexivity|constructor].
  - destruct (Hf x) as (y & -> & Hy). destruct IH as (ys & -> & Hys).
    exists (y :: ys). split; [reflexivity|]. constructor; assumption.
Qed.

Lemma snd_enumerate {A : Type} (l : list A) : map snd (enumerate l) = l.
Proof.
  unfold enumerate. apply snd_zip. rewrite length_seqZ. lia.
Qed.

Lemma preprocess_filterable `{Numerics} (self : AnalysisPipeline.t) (sd : SensorData ndarray) :
  cache_consistent (AnalysisPipeline.preprocessor self) ->
  ~ (AnalysisPipeline.sampling_rate self == 0)%Q ->
  filterable (SwimBITFilter.order (AnalysisPipeline.preprocessor self)) (np_len (accel sd)) ->
  filterable (SwimBITFilter.order (AnalysisPipeline.preprocessor self)) (np_len (gyro sd)) ->
  exists filtered_accel filtered_gyro p,
    AnalysisPipeline._preprocess self sd
    = (Ok (filtered_accel, filtered_gyro), AnalysisPipeline.with_preprocessor self p)
    /\ shape filtered_accel = shape (accel sd)
    /\ shape filtered_gyro = shape (gyro sd).
Proof.
  intros Hcache Hrate Haccel Hgyro. unfold AnalysisPipeline._preprocess.
  destruct (process_filterable (AnalysisPipeline.preprocessor self) (accel sd)
              (AnalysisPipeline.sampling_rate self) Hcache Hrate Haccel)
    as (fa & p1 & -> & Hfa & Horder & Hcache1).
  rewrite <- Horder in Hgyro.
  destruct (process_filterable p1 (gyro sd) (AnalysisPipeline.sampling_rate self)
              Hcache1 Hrate Hgyro)
    as (fg & p2 & -> & Hfg & _ & _).
  exists fa, fg, p2. split; [reflexivity|]. split; assumption.
Qed.






(** An acceleration array of shape (N,) is not refused up front either:
    the filter runs on it, and the error comes from the segmenter's sum
    along the second axis. *)
Lemma analyze_one_dimensional_accel `{Numerics} (rate : Q) (order : nat) (cutoff : Q)
    (segmentation_config thresholds : gmap string Q) (session : SessionData) (now : Z)
    (xs : list Q) :
  (0 < rate)%Q ->
  accel (sensor_data session) = Arr1 xs ->
  filterable order (length xs) ->
  filterable order (np_len (gyro (sensor_data session))) ->
  (exists filtered p,
     AnalysisPipeline._preprocess
       (AnalysisPipeline.init rate order cutoff segmentation_config thresholds)
       (sensor_data session) = (Ok filtered, p))
  /\ (AnalysisPipeline.analyze
        (AnalysisPipeline.init rate order cutoff segmentation_config thresholds)
        session now).1 = Raise AxisError.
Proof.
  intros Hrate Haccel Hfa Hfg.
  assert (Hrate0 : ~ (rate == 0)%Q) by lra.
  destruct (preprocess_filterable
              (AnalysisPipeline.init rate order cutoff segmentation_config thresholds)
              (sensor_data session))
    as (fa & fg & p & Hpre & Hshape_a & _).
  { constructor. }
  { exact Hrate0. }
  { rewrite Haccel. exact Hfa. }
  { exact Hfg. }
  split; [eexists _, _; exact Hpre|].
  unfold AnalysisPipeline.analyze. rewrite Hpre.
  rewrite Haccel in Hshape_a. destruct fa as [xs'|rows]; [|discriminate].
  reflexivity.
Qed.

(** The contents of a slice are the ranges [start:end] of the contents
    of the source. *)
Lemma load_slice (st : gmap nat ndarray) (sd : SensorData view) (n : nat) (start stop : Z) :
  sensor_data_ok st sd n ->
  load st (slice sd start stop)
  = sensor_data_map (fun a => np_slice a start stop) <$> load st sd.
Proof.
  intros Hok. unfold sensor_data_ok, arrays in Hok.
  unfold load, slice, sensor_data_map. cbn [timestamps accel gyro mag pressure].
  destruct (mag sd) as [m|], (pressure sd) as [p|]; cbn in Hok;
    repeat match type of Hok with
           | Forall _ (_ :: _) => apply Forall_cons in Hok as [[? _] Hok]
           end;
    cbn [fmap option_fmap option_map];
    rewrite !read_view_slice by assumption;
    repeat match goal with
           | |- context [read st ?v] => destruct (read st v)
           end; reflexivity.
Qed.

(** * Further properties of the code *)

(** ** SensorData: length, duration and slicing *)

Lemma lookup_last_default {A : Type} (l : list A) (d : A) :
  l <> [] -> l !! (length l - 1)%nat = Some (List.last l d).
Proof.
  induction l as [|a [|b l] IH]; intros Hne; [done|done|].
  change (List.last (a :: b :: l) d) with (List.last (b :: l) d).
  replace (length (a :: b :: l) - 1)%nat with (S (length (b :: l) - 1))
    by (cbn [length]; lia).
  apply IH. discriminate.
Qed.

Lemma lookup_hd_default {A : Type} (l : list A) (d : A) :
  l <> [] -> l !! 0%nat = Some (hd d l).
Proof. destruct l; [done|reflexivity]. Qed.

Lemma sorted_lookup_Qle (l : list Q) (i j : nat) (x y : Q) :
  StronglySorted Qle l -> (i <= j)%nat -> l !! i = Some x -> l !! j = Some y -> (x <= y)%Q.
Proof.
  intros Hs. revert i j. induction Hs as [|a l Hs IH Hall]; intros i j Hij Hi Hj.
  - discriminate.
  - destruct i as [|i], j as [|j]; simpl in Hi, Hj.
    + injection Hi as <-. injection Hj as <-. apply Qle_refl.
    + injection Hi as <-. exact (Forall_lookup_1 _ _ _ _ Hall Hj).
    + lia.
    + apply (IH i j); [lia|done|done].
Qed.

Lemma lookup_py_slice {A : Type} (l : list A) (start stop : Z) (k : nat) :
  (k < length (py_slice l start stop))%nat ->
  py_slice l start stop !! k = l !! ((slice_bounds (length l) start stop).1 + k)%nat.
Proof.
  unfold py_slice. destruct (slice_bounds (length l) start stop) as [lo hi].
  cbn [fst]. intros Hk. rewrite length_take in Hk.
  rewrite lookup_take_lt by lia. apply lookup_drop.
Qed.

Lemma length_py_slice {A : Type} (l : list A) (start stop : Z) :
  length (py_slice l start stop)
  = ((slice_bounds (length l) start stop).2 - (slice_bounds (length l) start stop).1)%nat.
Proof.
  pose proof (slice_bounds_range (length l) start stop) as Hr.
  unfold py_slice. destruct (slice_bounds (length l) start stop) as [lo hi].
  cbn [fst snd] in *. rewrite length_take, length_drop. lia.
Qed.

Lemma np_len_np_slice (a : ndarray) (start stop : Z) :
  np_len (np_slice a start stop)
  = ((slice_bounds (np_len a) start stop).2 - (slice_bounds (np_len a) start stop).1)%nat.
Proof. destruct a; apply length_py_slice. Qed.

Lemma arrays_slice (sd : SensorData view) (start stop : Z) :
  arrays (slice sd start stop) = map (fun v => view_slice v start stop) (arrays sd).
Proof.
  unfold arrays, slice. cbn [timestamps accel gyro mag pressure].
  destruct (mag sd), (pressure sd); reflexivity.
Qed.

Lemma view_slice_ok (st : gmap nat ndarray) (v : view) (start stop : Z) :
  view_ok st v ->
  view_ok st (view_slice v start stop)
  /\ size (view_slice v start stop)
     = ((slice_bounds (size v) start stop).2 - (slice_bounds (size v) start stop).1)%nat.
Proof.
  intros (buf & Hbuf & Hfit). unfold view_slice.
  pose proof (slice_bounds_range (size v) start stop) as Hrange.
  destruct (slice_bounds (size v) start stop) as [lo hi]. cbn [fst snd] in *.
  split; [|reflexivity]. exists buf. cbn [base offset size]. split; [exact Hbuf|lia].
Qed.

Lemma np_len_window (v : view) (buf : ndarray) :
  (offset v + size v <= np_len buf)%nat -> np_len (window v buf) = size v.
Proof.
  intros Hfit. destruct buf; cbn [window np_len] in *;
    rewrite length_take, length_drop; lia.
Qed.

Lemma read_ok (st : gmap nat ndarray) (v : view) :
  view_ok st v -> exists a, read st v = Some a /\ np_len a = size v.
Proof.
  intros (buf & Hbuf & Hfit). exists (window v buf). split.
  - unfold read. rewrite Hbuf. reflexivity.
  - apply np_len_window, Hfit.
Qed.

(** A [SensorData] whose arrays are all there can be read, and what is
    read has the arrays' length. *)
Lemma load_ok (st : gmap nat ndarray) (sd : SensorData view) (n : nat) :
  sensor_data_ok st sd n ->
  exists c, load st sd = Some c
            /\ np_len (timestamps c) = n /\ np_len (accel c) = n /\ np_len (gyro c) = n.
Proof.
  intros Hok. unfold sensor_data_ok, arrays in Hok.
  apply Forall_cons in Hok as [[Ht Hnt] Hok].
  apply Forall_cons in Hok as [[Ha Hna] Hok].
  apply Forall_cons in Hok as [[Hg Hng] Hok].
  apply Forall_app in Hok as [Hm Hp].
  destruct (read_ok st _ Ht) as (t & Hrt & Hlt).
  destruct (read_ok st _ Ha) as (a & Hra & Hla).
  destruct (read_ok st _ Hg) as (g & Hrg & Hlg).
  assert (Hmag : exists m, match mag sd with
                           | Some v => Some <$> read st v
                           | None => Some None
                           end = Some m).
  { destruct (mag sd) as [v|]; [|eauto].
    apply Forall_cons in Hm as [[Hv _] _].
    destruct (read_ok st _ Hv) as (m & Hrm & _). rewrite Hrm. eauto. }
  assert (Hpres : exists p, match pressure sd with
                            | Some v => Some <$> read st v
                            | None => Some None
                            end = Some p).
  { destruct (pressure sd) as [v|]; [|eauto].
    apply Forall_cons in Hp as [[Hv _] _].
    destruct (read_ok st _ Hv) as (p & Hrp & _). rewrite Hrp. eauto. }
  destruct Hmag as (m & Hmag). destruct Hpres as (p & Hpres).
  exists {| timestamps := t; accel := a; gyro := g; mag := m; pressure := p |}.
  unfold load. rewrite Hrt, Hra, Hrg. cbn [mbind option_bind].
  rewrite Hmag. cbn [mbind option_bind]. rewrite Hpres. cbn [mbind option_bind].
  cbn [timestamps accel gyro]. repeat split; congruence.
Qed.

Lemma slice_sensor_data_ok (st : gmap nat ndarray) (sd : SensorData view) (n : nat)
    (start stop : Z) :
  sensor_data_ok st sd n ->
  sensor_data_ok st (slice sd start stop)
    ((slice_bounds n start stop).2 - (slice_bounds n start stop).1)%nat.
Proof.
  intros Hok. unfold sensor_data_ok in *. rewrite arrays_slice.
  apply Forall_fmap. eapply Forall_impl; [exact Hok|].
  intros v [Hview Hsize]. cbn beta.
  destruct (view_slice_ok st v start stop Hview) as [Hview' Hsize'].
  split; [exact Hview'|]. rewrite Hsize', Hsize. reflexivity.
Qed.

(** X1: slicing never fails and keeps the channels aligned. For a
    [SensorData] whose arrays all hold [n] samples and any two indices
    (negative ones count from the end, both are clipped to the array),
    all arrays of [slice(start, end)] are again windows within their
    buffers and hold the same number [m <= n] of samples, which is the
    [length] of the slice; [m = end - start] when
    [0 <= start <= end <= n]. *)
Theorem slice_keeps_channels_aligned (st : gmap nat ndarray) (sd : SensorData view)
    (n : nat) (start stop : Z) :
  sensor_data_ok st sd n ->
  exists m c,
    sensor_data_ok st (slice sd start stop) m
    /\ load st (slice sd start stop) = Some c
    /\ sensor_length c = m
    /\ np_len (accel c) = m /\ np_len (gyro c) = m
    /\ (m <= n)%nat
    /\ (0 <= start -> start <= stop -> stop <= Z.of_nat n -> Z.of_nat m = stop - start).
Proof.
  intros Hok.
  pose proof (slice_sensor_data_ok st sd n start stop Hok) as Hok'.
  destruct (load_ok st _ _ Hok') as (c & Hload & Ht & Ha & Hg).
  pose proof (slice_bounds_range n start stop) as Hrange.
  eexists _, c. split; [exact Hok'|]. split; [exact Hload|].
  split; [exact Ht|]. split; [exact Ha|]. split; [exact Hg|]. split; [lia|].
  intros H0 H1 H2. rewrite slice_bounds_valid by assumption. cbn [fst snd]. lia.
Qed.

(** The slice [-3:9] of four samples: the last three. *)
Lemma slice_keeps_channels_aligned_witness :
  sensor_data_ok four_sample_store four_samples 4
  /\ exists c, load four_sample_store (slice four_samples (-3) 9) = Some c
               /\ sensor_length c = 3%nat.
Proof.
  assert (Hok : sensor_data_ok four_sample_store four_samples 4).
  { unfold sensor_data_ok, arrays, four_samples, four_sample_store. cbn.
    repeat constructor; eexists; (split; [reflexivity|cbn; lia]). }
  split; [exact Hok|].
  destruct (slice_keeps_channels_aligned _ _ 4 (-3) 9 Hok)
    as (m & c & Hok' & Hload & Hlen & _).
  exists c. split; [exact Hload|].
  rewrite Hlen. unfold sensor_data_ok in Hok'.
  apply Forall_cons in Hok' as [[_ Hsize] _]. rewrite <- Hsize. reflexivity.
Defined.

Lemma Qdiv_le_nanoseconds (a b : Q) :
  (a <= b)%Q -> (a / 1000000000 <= b / 1000000000)%Q.
Proof.
  intros Hab. unfold Qdiv. apply Qmult_le_compat_r; [exact Hab|]. discriminate.
Qed.

Lemma Qdiv_nanoseconds_nonneg (a : Q) : (0 <= a)%Q -> (0 <= a / 1000000000)%Q.
Proof. intros Ha. unfold Qdiv. apply Qmult_le_0_compat; [exact Ha|discriminate]. Qed.

(** Differences of timestamps within a span that fits. *)
Lemma np_subtract_within (dt : dtype) (f f' l' l : Q) :
  (dt = int64 -> is_int64 f /\ is_int64 f' /\ is_int64 l' /\ is_int64 l
                 /\ (l - f < inject_Z (2 ^ 63))%Q) ->
  (f <= f')%Q -> (f' <= l')%Q -> (l' <= l)%Q ->
  (0 <= np_subtract dt l' f' <= np_subtract dt l f)%Q.
Proof.
  intros Hint H1 H2 H3. destruct dt; cbn [np_subtract]; [|lra].
  destruct (Hint eq_refl) as ((zf & -> & _) & (zf' & -> & _) & (zl' & -> & _)
                              & (zl & -> & _) & Hspan).
  rewrite !Qfloor_Z. rewrite <- Zle_Qle in H1, H2, H3.
  unfold Qminus in Hspan. rewrite <- inject_Z_opp, <- inject_Z_plus, <- Zlt_Qlt in Hspan.
  assert (Hwrap : forall z, 0 <= z < 2 ^ 63 -> wrap_int64 z = z).
  { intros z Hz. unfold wrap_int64. rewrite Z.mod_small by lia. lia. }
  rewrite !Hwrap by lia. change 0%Q with (inject_Z 0). rewrite <- !Zle_Qle. lia.
Qed.

(** X2: on timestamps of shape (N,) that never decrease, of float64 or
    of int64 with less than [2^63] ns from the first to the last, the
    duration of a slice, whatever its two indices, is not negative and
    not longer than the duration of the source; a slice with fewer than
    two samples lasts 0.0 seconds. *)
Theorem slice_duration_within (dt : dtype) (st : gmap nat ndarray) (sd : SensorData view)
    (n : nat) (start stop : Z) (c : SensorData ndarray) (ts : list Q) :
  sensor_data_ok st sd n ->
  load st sd = Some c ->
  timestamps c = Arr1 ts ->
  has_dtype dt ts ->
  StronglySorted Qle ts ->
  (dt = int64 -> (List.last ts 0 - hd 0 ts < inject_Z (2 ^ 63))%Q) ->
  exists c' d d',
    load st (slice sd start stop) = Some c'
    /\ sensor_duration_sec dt c = inl d
    /\ sensor_duration_sec dt c' = inl d'
    /\ (0 <= d' <= d)%Q
    /\ ((sensor_length c' < 2)%nat -> d' = 0%Q).
Proof.
  intros Hok Hload Hts Htyped Hsorted Hspan.
  exists (sensor_data_map (fun a => np_slice a start stop) c).
  pose proof (load_slice st sd n start stop Hok) as Hls. rewrite Hload in Hls.
  assert (Hitem : forall i t, ts !! i = Some t -> dt = int64 -> is_int64 t).
  { intros i t Hi ->. exact (Forall_lookup_1 _ _ _ _ Htyped Hi). }
  assert (Hwhole : exists d, sensor_duration_sec dt c = inl d /\ (0 <= d)%Q
                    /\ ((2 <= length ts)%nat ->
                        d = (np_subtract dt (List.last ts 0) (hd 0 ts) / 1000000000)%Q)).
  { unfold sensor_duration_sec, sensor_length. rewrite Hts. cbn [np_len].
    destruct (Nat.ltb_spec (length ts) 2) as [Hshort|Hlong].
    - exists 0%Q. split; [reflexivity|]. split; [apply Qle_refl|lia].
    - eexists. split; [reflexivity|]. split; [|reflexivity].
      assert (Hne : ts <> []) by (intros ->; simpl in Hlong; lia).
      pose proof (lookup_hd_default ts 0%Q Hne) as Hhd.
      pose proof (lookup_last_default ts 0%Q Hne) as Hlast.
      assert (Hle : (hd 0 ts <= List.last ts 0)%Q).
      { apply (sorted_lookup_Qle ts 0 (length ts - 1)); [exact Hsorted|lia|exact Hhd|exact Hlast]. }
      apply Qdiv_nanoseconds_nonneg.
      apply (np_subtract_within dt (hd 0%Q ts) (hd 0%Q ts) (List.last ts 0%Q)
               (List.last ts 0%Q));
        [|apply Qle_refl|exact Hle|apply Qle_refl].
      intros Hdt. eauto 10. }
  destruct Hwhole as (d & Hd & Hd0 & Hdlong).
  set (ts' := py_slice ts start stop).
  assert (Hts' : timestamps (sensor_data_map (fun a => np_slice a start stop) c) = Arr1 ts').
  { cbn [sensor_data_map timestamps]. rewrite Hts. reflexivity. }
  exists d. unfold sensor_duration_sec at 2. unfold sensor_length. rewrite Hts'.
  cbn [np_len].
  destruct (Nat.ltb_spec (length ts') 2) as [Hshort|Hlong].
  - exists 0%Q. split; [exact Hls|]. split; [exact Hd|]. split; [reflexivity|].
    split; [split; [apply Qle_refl|exact Hd0]|reflexivity].
  - eexists. split; [exact Hls|]. split; [exact Hd|]. split; [reflexivity|].
    split; [|lia].
    assert (Hne' : ts' <> []) by (intros Heq; rewrite Heq in Hlong; simpl in Hlong; lia).
    pose proof (lookup_hd_default ts' 0%Q Hne') as Hhd'.
    pose proof (lookup_last_default ts' 0%Q Hne') as Hlast'.
    unfold ts' in Hhd', Hlast'.
    rewrite lookup_py_slice in Hhd' by (fold ts'; lia).
    rewrite lookup_py_slice in Hlast' by (fold ts'; lia).
    fold ts' in Hhd', Hlast'.
    pose proof (length_py_slice ts start stop) as Hlen. fold ts' in Hlen.
    pose proof (slice_bounds_range (length ts) start stop) as Hrange.
    set (lo := (slice_bounds (length ts) start stop).1) in *.
    set (hi := (slice_bounds (length ts) start stop).2) in *.
    assert (Hne : ts <> []) by (intros ->; simpl in Hrange; lia).
    pose proof (lookup_hd_default ts 0%Q Hne) as Hhd.
    pose proof (lookup_last_default ts 0%Q Hne) as Hlast.
    assert (H1 : (hd 0 ts <= hd 0 ts')%Q).
    { apply (sorted_lookup_Qle ts 0 (lo + 0)); [exact Hsorted|lia|exact Hhd|exact Hhd']. }
    assert (H2 : (hd 0 ts' <= List.last ts' 0)%Q).
    { apply (sorted_lookup_Qle ts (lo + 0) (lo + (length ts' - 1)));
        [exact Hsorted|lia|exact Hhd'|exact Hlast']. }
    assert (H3 : (List.last ts' 0 <= List.last ts 0)%Q).
    { apply (sorted_lookup_Qle ts (lo + (length ts' - 1)) (length ts - 1));
        [exact Hsorted|lia|exact Hlast'|exact Hlast]. }
    rewrite Hdlong by lia.
    destruct (np_subtract_within dt (hd 0%Q ts) (hd 0%Q ts') (List.last ts' 0%Q)
                (List.last ts 0%Q))
      as [Hlo Hhi]; [|exact H1|exact H2|exact H3|].
    { intros Hdt. eauto 10. }
    split.
    + apply Qdiv_nanoseconds_nonneg, Hlo.
    + apply Qdiv_le_nanoseconds, Hhi.
Qed.

(** The slice [1:3] of four samples taken at 0, 1, 2 and 3 ns, as
    int64. *)
Lemma slice_duration_within_witness :
  sensor_data_ok four_sample_store four_samples 4
  /\ has_dtype int64 [0; 1; 2; 3]%Q
  /\ StronglySorted Qle [0; 1; 2; 3]%Q
  /\ (List.last [0; 1; 2; 3] 0 - hd 0 [0; 1; 2; 3] < inject_Z (2 ^ 63))%Q
  /\ exists c' d d',
       load four_sample_store (slice four_samples 1 3) = Some c'
       /\ sensor_duration_sec int64 c' = inl d'
       /\ (0 <= d' <= d)%Q.
Proof.
  assert (Hok : sensor_data_ok four_sample_store four_samples 4).
  { unfold sensor_data_ok, arrays, four_samples, four_sample_store. cbn.
    repeat constructor; eexists; (split; [reflexivity|cbn; lia]). }
  assert (Htyped : has_dtype int64 [0; 1; 2; 3]%Q).
  { repeat constructor; [exists 0|exists 1|exists 2|exists 3]; (split; [reflexivity|lia]). }
  assert (Hsorted : StronglySorted Qle [0; 1; 2; 3]%Q).
  { repeat constructor; discriminate. }
  assert (Hspan : (List.last [0; 1; 2; 3] 0 - hd 0 [0; 1; 2; 3] < inject_Z (2 ^ 63))%Q).
  { vm_compute. reflexivity. }
  split; [exact Hok|]. split; [exact Htyped|]. split; [exact Hsorted|].
  split; [exact Hspan|].
  assert (Hload : load four_sample_store four_samples = Some four_samples_contents).
  { vm_compute. reflexivity. }
  destruct (slice_duration_within int64 _ _ 4 1 3 _ _ Hok Hload eq_refl Htyped Hsorted
              (fun _ => Hspan))
    as (c' & d & d' & Hload' & _ & Hd' & Hle & _).
  exists c', d, d'. split; [exact Hload'|]. split; [exact Hd'|exact Hle].
Defined.

(** ** AnalysisResult: the stroke breakdown *)

Lemma py_sum_int_from (l : list Z) (acc : Z) : fold_left Z.add l acc = acc + py_sum_int l.
Proof.
  unfold py_sum_int. revert acc. induction l as [|x l IH]; intros acc; simpl.
  - lia.
  - rewrite (IH (acc + x)), (IH (0 + x)). lia.
Qed.

Lemma py_sum_int_cons (x : Z) (l : list Z) : py_sum_int (x :: l) = x + py_sum_int l.
Proof. unfold py_sum_int at 1. simpl. apply py_sum_int_from. Qed.

Lemma breakdown_step_invariants (d : list (StrokeType * Z)) (lap : SwimLap) :
  NoDup (map fst d) ->
  Forall (fun kv => 1 <= kv.2) d ->
  NoDup (map fst (breakdown_step d lap))
  /\ Forall (fun kv => 1 <= kv.2) (breakdown_step d lap)
  /\ py_sum_int (map snd (breakdown_step d lap)) = py_sum_int (map snd d) + 1.
Proof.
  unfold breakdown_step. generalize (stroke_type lap) as k. intros k.
  induction d as [|[k' v'] d IH]; intros Hnodup Hall.
  - simpl. split; [apply NoDup_singleton|].
    split; [constructor; [simpl; lia|constructor]|reflexivity].
  - simpl in Hnodup. apply NoDup_cons in Hnodup as [Hnotin Hnodup].
    apply Forall_cons in Hall as [Hv' Hall]. simpl in Hv'.
    cbn [dict_set dict_get]. destruct (decide (k' = k)) as [->|Hne].
    + cbn [map fst snd]. split; [apply NoDup_cons; done|].
      split; [constructor; [simpl; lia|exact Hall]|].
      rewrite !py_sum_int_cons. lia.
    + destruct (IH Hnodup Hall) as (IH1 & IH2 & IH3).
      cbn [map fst snd]. split; [|split].
      * apply NoDup_cons. split; [|exact IH1].
        rewrite dict_set_keys. destruct (decide (k ∈ map fst d)); [exact Hnotin|].
        rewrite elem_of_app, list_elem_of_singleton. intros [Hin| ->]; done.
      * constructor; [exact Hv'|exact IH2].
      * rewrite !py_sum_int_cons, IH3. lia.
Qed.

Lemma breakdown_fold_invariants (ls : list SwimLap) (d : list (StrokeType * Z)) :
  NoDup (map fst d) ->
  Forall (fun kv => 1 <= kv.2) d ->
  NoDup (map fst (fold_left breakdown_step ls d))
  /\ Forall (fun kv => 1 <= kv.2) (fold_left breakdown_step ls d)
  /\ py_sum_int (map snd (fold_left breakdown_step ls d))
     = py_sum_int (map snd d) + Z.of_nat (length ls).
Proof.
  revert d. induction ls as [|lap ls IH]; intros d Hnodup Hall.
  - simpl. split; [exact Hnodup|]. split; [exact Hall|lia].
  - destruct (breakdown_step_invariants d lap Hnodup Hall) as (H1 & H2 & H3).
    destruct (IH _ H1 H2) as (IH1 & IH2 & IH3).
    cbn [fold_left]. split; [exact IH1|]. split; [exact IH2|].
    rewrite IH3, H3. cbn [length]. lia.
Qed.

(** X3: the dict returned by [get_stroke_breakdown] has exactly the
    styles of the laps as its keys, each once, every count is at least
    1, and the counts add up to the number of laps. *)
Theorem stroke_breakdown_invariants (r : AnalysisResult) :
  NoDup (map fst (get_stroke_breakdown r))
  /\ (forall s, s ∈ map fst (get_stroke_breakdown r) <-> s ∈ map stroke_type (laps r))
  /\ Forall (fun kv => 1 <= kv.2) (get_stroke_breakdown r)
  /\ py_sum_int (map snd (get_stroke_breakdown r)) = total_laps r.
Proof.
  unfold get_stroke_breakdown, total_laps.
  destruct (breakdown_fold_invariants (laps r) []) as (H1 & H2 & H3);
    [apply NoDup_nil_2|constructor|].
  split; [exact H1|]. split; [|split; [exact H2|]].
  - exact (proj1 (breakdown_keys_order (laps r))).
  - rewrite H3. reflexivity.
Qed.

(** ** SwimBITFilter: the cache of filter taps, and when [process] succeeds *)

Lemma cache_get_app (cache : list (Q * list Q)) (rate r : Q) (taps : list Q) :
  SwimBITFilter.cache_get (cache ++ [(r, taps)]) rate
  = match SwimBITFilter.cache_get cache rate with
    | Some t => Some t
    | None => if Qeq_bool r rate then Some taps else None
    end.
Proof.
  induction cache as [|[r' t'] cache IH]; simpl; [reflexivity|].
  destruct (Qeq_bool r' rate); [reflexivity|exact IH].
Qed.

(** What a call of [_get_filter_taps] leaves behind. *)
Lemma get_filter_taps_spec `{Numerics} (self self' : SwimBITFilter.t) (rate : Q)
    (taps : res (list Q)) :
  SwimBITFilter._get_filter_taps self rate = (taps, self') ->
  SwimBITFilter._get_filter_taps self' rate = (taps, self')
  /\ SwimBITFilter.order self' = SwimBITFilter.order self
  /\ SwimBITFilter.cutoff_hz self' = SwimBITFilter.cutoff_hz self
  /\ (forall r t, SwimBITFilter.cache_get (SwimBITFilter._filter_taps_cache self) r = Some t ->
        SwimBITFilter.cache_get (SwimBITFilter._filter_taps_cache self') r = Some t)
  /\ (forall t, taps = Ok t ->
        SwimBITFilter.cache_get (SwimBITFilter._filter_taps_cache self') rate = Some t)
  /\ (forall e, taps = Raise e -> self' = self /\ e = ZeroDivisionError /\ (rate == 0)%Q).
Proof.
  unfold SwimBITFilter._get_filter_taps at 1.
  destruct (SwimBITFilter.cache_get _ rate) as [cached|] eqn:Hget.
  - intros [= <- <-]. unfold SwimBITFilter._get_filter_taps. rewrite Hget.
    repeat split; try done. intros t [= <-]. reflexivity.
  - unfold py_truediv. destruct (Qeq_bool (0.5 * rate) 0) eqn:Hz.
    + intros [= <- <-]. unfold SwimBITFilter._get_filter_taps, py_truediv.
      rewrite Hget, Hz. repeat split; try done.
      * congruence.
      * apply Qeq_bool_eq in Hz. lra.
    + intros [= <- <-]. unfold SwimBITFilter._get_filter_taps.
      cbn [SwimBITFilter._filter_taps_cache SwimBITFilter.order SwimBITFilter.cutoff_hz].
      rewrite cache_get_app, Hget, Qeq_bool_refl.
      repeat split; try done.
      * intros r t Hr. rewrite cache_get_app, Hr. reflexivity.
      * congruence.
Qed.


(** X5: when the filter succeeds. For a filter of order 1 or more
    whose cached taps are of its order, at a sampling rate other than 0:
    [process] returns normally exactly when the input holds at most
    [order + 1] samples or more than [3 * (order + 1)]; the result then
    has the input's shape, and on every other length the call raises
    ValueError. [process_sensor_data] returns normally exactly when both
    arrays have such a length, and both results keep their shapes. *)
Theorem process_succeeds_iff_filterable `{Numerics} (self : SwimBITFilter.t)
    (accel_data gyro_data : ndarray) (rate : Q) :
  cache_consistent self ->
  ~ (rate == 0)%Q ->
  (1 <= SwimBITFilter.order self)%nat ->
  (is_ok (SwimBITFilter.process self accel_data rate).1
   <-> filterable (SwimBITFilter.order self) (np_len accel_data))
  /\ (forall out, (SwimBITFilter.process self accel_data rate).1 = Ok out ->
        shape out = shape accel_data)
  /\ (~ filterable (SwimBITFilter.order self) (np_len accel_data) ->
      (SwimBITFilter.process self accel_data rate).1 = Raise ValueError)
  /\ (is_ok (SwimBITFilter.process_sensor_data self accel_data gyro_data rate).1
      <-> filterable (SwimBITFilter.order self) (np_len accel_data)
          /\ filterable (SwimBITFilter.order self) (np_len gyro_data))
  /\ (forall filtered_accel filtered_gyro,
        (SwimBITFilter.process_sensor_data self accel_data gyro_data rate).1
        = Ok (filtered_accel, filtered_gyro) ->
        shape filtered_accel = shape accel_data /\ shape filtered_gyro = shape gyro_data).
Proof.
  intros Hcache Hrate Horder.
  assert (Hcases : forall (p : SwimBITFilter.t) (data : ndarray),
            cache_consistent p -> SwimBITFilter.order p = SwimBITFilter.order self ->
            (filterable (SwimBITFilter.order self) (np_len data)
             /\ exists out p', SwimBITFilter.process p data rate = (Ok out, p')
                               /\ shape out = shape data
                               /\ SwimBITFilter.order p' = SwimBITFilter.order self
                               /\ cache_consistent p')
            \/ (~ filterable (SwimBITFilter.order self) (np_len data)
                /\ exists p', SwimBITFilter.process p data rate = (Raise ValueError, p'))).
  { intros p data Hp Hpo.
    destruct (decide ((np_len data <= SwimBITFilter.order self + 1)%nat
                      \/ (3 * (SwimBITFilter.order self + 1) < np_len data)%nat))
      as [Hfit|Hmid].
    - left. assert (Hf : filterable (SwimBITFilter.order self) (np_len data))
        by (unfold filterable; lia).
      split; [exact Hf|]. rewrite <- Hpo in Hf.
      destruct (process_filterable p data rate Hp Hrate Hf) as (out & p' & Hproc & Hs & Ho & Hc).
      exists out, p'. repeat split; [exact Hproc|exact Hs|congruence|exact Hc].
    - right. split; [unfold filterable; lia|].
      destruct (process_medium_raises p data rate Hp Hrate) as (p' & Hproc & _);
        [rewrite Hpo; lia|rewrite Hpo; lia|].
      exists p'. exact Hproc. }
  destruct (Hcases self accel_data Hcache eq_refl)
    as [(Hfa & out & p' & Hproc & Hshape & Ho & Hc)|(Hnfa & p' & Hproc)].
  - split; [rewrite Hproc; cbn; tauto|].
    split; [rewrite Hproc; cbn; intros ? [= <-]; exact Hshape|].
    split; [tauto|].
    unfold SwimBITFilter.process_sensor_data. rewrite Hproc.
    destruct (Hcases p' gyro_data Hc Ho)
      as [(Hfg & outg & p'' & Hprocg & Hshapeg & _)|(Hnfg & p'' & Hprocg)];
      rewrite Hprocg; cbn.
    + split; [tauto|]. intros ? ? [= <- <-]. split; assumption.
    + split; [tauto|]. intros ? ? [=].
  - split; [rewrite Hproc; cbn; tauto|].
    split; [rewrite Hproc; cbn; intros ? [=]|].
    split; [intros _; rewrite Hproc; reflexivity|].
    unfold SwimBITFilter.process_sensor_data. rewrite Hproc. cbn.
    split; [tauto|]. intros ? ? [=].
Qed.

(** A filter of order 48, fresh, at 30 Hz on 200 and on 20 samples. *)
Lemma process_succeeds_iff_filterable_witness :
  cache_consistent (SwimBITFilter.init 48 3.0)
  /\ ~ (30 == 0)%Q
  /\ (1 <= SwimBITFilter.order (SwimBITFilter.init 48 3.0))%nat
  /\ is_ok (SwimBITFilter.process_sensor_data (SwimBITFilter.init 48 3.0)
              (Arr2 (at_rest 200)) (Arr1 (repeat 0%Q 20)) 30).1.
Proof.
  assert (Hcache : cache_consistent (SwimBITFilter.init 48 3.0)) by constructor.
  assert (Hrate : ~ (30 == 0)%Q) by discriminate.
  assert (Horder : (1 <= SwimBITFilter.order (SwimBITFilter.init 48 3.0))%nat)
    by (cbn; lia).
  split; [exact Hcache|]. split; [exact Hrate|]. split; [exact Horder|].
  apply (process_succeeds_iff_filterable (SwimBITFilter.init 48 3.0)
           (Arr2 (at_rest 200)) (Arr1 (repeat 0%Q 20)) 30 Hcache Hrate Horder).
  split; unfold filterable; cbn; lia.
Defined.

(** [process] at a sampling rate of 0, without cached taps. *)
Lemma process_at_zero_rate `{Numerics} (self : SwimBITFilter.t) (data : ndarray)
    (rate : Q) :
  (rate == 0)%Q ->
  SwimBITFilter.cache_get (SwimBITFilter._filter_taps_cache self) rate = None ->
  SwimBITFilter.process self data rate
  = (if (np_len data <=? SwimBITFilter.order self + 1)%nat then Ok data
     else Raise ZeroDivisionError, self).
Proof.
  intros Hrate Hget. unfold SwimBITFilter.process.
  destruct (np_len data <=? SwimBITFilter.order self + 1)%nat; [reflexivity|].
  unfold SwimBITFilter._get_filter_taps, py_truediv. rewrite Hget.
  assert (Hz : Qeq_bool (0.5 * rate) 0 = true) by (apply Qeq_eq_bool; lra).
  rewrite Hz. reflexivity.
Qed.

(** X6: a sampling rate of 0. On a filter that has no taps cached for
    it, [process] at sampling rate 0 returns an input of at most
    [order + 1] samples as it is, and raises ZeroDivisionError on every
    longer one; the filter is left as it was in both cases. *)
Theorem process_zero_sampling_rate `{Numerics} (self : SwimBITFilter.t) (data : ndarray)
    (rate : Q) :
  (rate == 0)%Q ->
  SwimBITFilter.cache_get (SwimBITFilter._filter_taps_cache self) rate = None ->
  SwimBITFilter.process self data rate
  = (if (np_len data <=? SwimBITFilter.order self + 1)%nat then Ok data
     else Raise ZeroDivisionError, self).
Proof. apply process_at_zero_rate. Qed.

(** A fresh filter of order 48 on 100 samples. *)
Lemma process_zero_sampling_rate_witness :
  (0 == 0)%Q
  /\ SwimBITFilter.cache_get
       (SwimBITFilter._filter_taps_cache (SwimBITFilter.init 48 3.0)) 0 = None
  /\ forall N : Numerics,
       @SwimBITFilter.process N (SwimBITFilter.init 48 3.0) (Arr2 (at_rest 100)) 0
       = (Raise ZeroDivisionError, SwimBITFilter.init 48 3.0).
Proof.
  split; [reflexivity|]. split; [reflexivity|]. intros N.
  exact (process_zero_sampling_rate (SwimBITFilter.init 48 3.0) (Arr2 (at_rest 100)) 0
           (Qeq_refl 0) eq_refl).
Defined.

(** ** PitchRollSegmenter: the runs of swimming samples *)

Lemma enumerate_snoc {A : Type} (l : list A) (x : A) :
  enumerate (l ++ [x]) = enumerate l ++ [(Z.of_nat (length l), x)].
Proof.
  unfold enumerate. rewrite length_app. cbn [length].
  replace (Z.of_nat (length l + 1)) with (Z.of_nat (length l) + 1) by lia.
  rewrite seqZ_app by lia.
  rewrite zip_with_app by (rewrite length_seqZ; lia).
  reflexivity.
Qed.

Lemma lookup_snoc_lt {A : Type} (l : list A) (x : A) (k : nat) :
  (k < length l)%nat -> (l ++ [x]) !! k = l !! k.
Proof. intros Hk. apply lookup_app_l, Hk. Qed.

Lemma lookup_snoc_length {A : Type} (l : list A) (x : A) :
  (l ++ [x]) !! length l = Some x.
Proof. rewrite lookup_app_r by lia. rewrite Nat.sub_diag. reflexivity. Qed.

Lemma lookup_snoc_Some {A : Type} (l : list A) (x y : A) (k : nat) :
  (l ++ [x]) !! k = Some y <-> l !! k = Some y \/ (k = length l /\ y = x).
Proof.
  destruct (lt_eq_lt_dec k (length l)) as [[Hlt| ->]|Hgt].
  - rewrite lookup_snoc_lt by exact Hlt. split; [auto|]. intros [Hl|[-> _]]; [exact Hl|lia].
  - rewrite lookup_snoc_length. split.
    + intros [= ->]. right. auto.
    + intros [Hl|[_ ->]]; [|reflexivity]. apply lookup_lt_Some in Hl. lia.
  - rewrite lookup_ge_None_2 by (rewrite length_app; cbn; lia). split; [discriminate|].
    intros [Hl|[-> _]]; [|lia]. apply lookup_lt_Some in Hl. lia.
Qed.

Lemma last_lookup_false (prefix : list bool) :
  prefix = [] \/ last prefix = Some false ->
  length prefix = 0%nat \/ prefix !! (length prefix - 1)%nat = Some false.
Proof.
  intros [->|Hlast]; [left; reflexivity|]. right.
  rewrite last_lookup in Hlast. rewrite <- Hlast. f_equal. lia.
Qed.

Lemma find_segments_step_runs (prefix : list bool) (st : list (Z * Z) * bool * Z) (b : bool) :
  find_segments_runs prefix st ->
  find_segments_runs (prefix ++ [b])
    (PitchRollSegmenter.find_segments_step st (Z.of_nat (length prefix), b)).
Proof.
  destruct st as [[segments in_segment] start]. intros (H1 & H2 & H3 & H4).
  set (n := length prefix).
  assert (Hlen : Z.of_nat (length (prefix ++ [b])) = Z.of_nat n + 1)
    by (rewrite length_app; cbn; lia).
  assert (Hclosed : forall s e, (s, e) ∈ segments ->
            0 <= s /\ s < e /\ e < Z.of_nat (length (prefix ++ [b]))
            /\ (prefix ++ [b]) !! Z.to_nat e = Some false
            /\ (s = 0 \/ (prefix ++ [b]) !! Z.to_nat (s - 1) = Some false)).
  { intros s e Hin. destruct (H2 s e Hin) as (Hs & Hse & He & Hme & Hms).
    fold n in He. split; [exact Hs|]. split; [exact Hse|]. split; [lia|].
    split; [rewrite lookup_snoc_lt by (fold n; lia); exact Hme|].
    destruct Hms as [Hms|Hms]; [left; exact Hms|right].
    rewrite lookup_snoc_lt by (fold n; lia). exact Hms. }
  unfold PitchRollSegmenter.find_segments_step, find_segments_runs.
  destruct b, in_segment; cbn [andb negb].
  - (* a set sample within an open segment *)
    destruct (H3 eq_refl) as (Hstart & Hbefore). fold n in Hstart.
    split; [|split; [exact Hclosed|split; [|discriminate]]].
    + intros k. rewrite lookup_snoc_Some, H1. fold n. split.
      * intros [[Hc|[_ Ho]]|[-> _]]; [left; exact Hc|right; split; [done|lia]|].
        right. split; [done|lia].
      * intros [Hc|[_ Ho]]; [left; left; exact Hc|].
        destruct (decide (k = n)) as [->|Hne]; [right; done|].
        left. right. split; [done|lia].
    + intros _. split; [lia|]. destruct Hbefore as [Hb|Hb]; [left; exact Hb|right].
      rewrite lookup_snoc_lt by (fold n; lia). exact Hb.
  - (* a set sample opens a segment *)
    split; [|split; [exact Hclosed|split; [|discriminate]]].
    + intros k. rewrite lookup_snoc_Some, H1. fold n. split.
      * intros [[Hc|[Hf _]]|[-> _]]; [left; exact Hc|discriminate|].
        right. split; [done|lia].
      * intros [Hc|[_ Ho]]; [left; left; exact Hc|]. right. split; [lia|done].
    + intros _. split; [lia|].
      destruct (last_lookup_false prefix (H4 eq_refl)) as [Hz|Hl].
      * left. fold n in Hz. lia.
      * right. fold n in Hl. apply lookup_lt_Some in Hl as Hlt. fold n in Hlt.
        rewrite lookup_snoc_lt by (fold n; lia).
        replace (Z.to_nat (Z.of_nat n - 1)) with (n - 1)%nat by lia. exact Hl.
  - (* a clear sample closes the open segment *)
    destruct (H3 eq_refl) as (Hstart & Hbefore). fold n in Hstart.
    split; [|split; [|split; [discriminate|]]].
    + intros k. rewrite lookup_snoc_Some, H1. fold n. split.
      * intros [[(s & e & Hin & Hk)|[_ Ho]]|[_ [=]]]; left.
        -- exists s, e. split; [apply elem_of_app; left; exact Hin|exact Hk].
        -- exists start, (Z.of_nat n). split; [|lia].
           apply elem_of_app. right. apply list_elem_of_singleton. reflexivity.
      * intros [(s & e & Hin & Hk)|[[=] _]]. left.
        apply elem_of_app in Hin as [Hin|Hin].
        -- left. exists s, e. split; [exact Hin|exact Hk].
        -- apply list_elem_of_singleton in Hin as [= -> ->]. right. split; [done|lia].
    + intros s e Hin. apply elem_of_app in Hin as [Hin|Hin]; [apply Hclosed, Hin|].
      apply list_elem_of_singleton in Hin as [= -> ->].
      split; [lia|]. split; [lia|]. split; [lia|].
      split; [rewrite Nat2Z.id; apply lookup_snoc_length|].
      destruct Hbefore as [Hb|Hb]; [left; exact Hb|right].
      rewrite lookup_snoc_lt by (fold n; lia). exact Hb.
    + intros _. right. apply last_snoc.
  - (* a clear sample outside any segment *)
    split; [|split; [exact Hclosed|split; [discriminate|]]].
    + intros k. rewrite lookup_snoc_Some, H1. fold n. split.
      * intros [[Hc|[[=] _]]|[_ [=]]]. left. exact Hc.
      * intros [Hc|[[=] _]]. left. left. exact Hc.
    + intros _. right. apply last_snoc.
Qed.

Lemma find_segments_fold_runs (mask : list bool) :
  find_segments_runs mask
    (fold_left PitchRollSegmenter.find_segments_step (enumerate mask) ([], false, 0)).
Proof.
  induction mask as [|b mask IH] using rev_ind.
  - cbn. split; [|split; [|split; [discriminate|left; reflexivity]]].
    + intros k. rewrite lookup_nil. split; [discriminate|].
      intros [(s & e & Hin & _)|[[=] _]]. apply elem_of_nil in Hin. destruct Hin.
    + intros s e Hin. apply elem_of_nil in Hin. destruct Hin.
  - rewrite enumerate_snoc, fold_left_app. cbn [fold_left].
    apply find_segments_step_runs, IH.
Qed.

Lemma StronglySorted_strengthen {A : Type} (R R' : A -> A -> Prop) (l : list A) :
  (forall a b, a ∈ l -> b ∈ l -> R a b -> R' a b) ->
  StronglySorted R l -> StronglySorted R' l.
Proof.
  intros Himp Hs. induction Hs as [|a l Hs IH Hall]; constructor.
  - apply IH. intros x y Hx Hy. apply Himp; apply elem_of_cons; right; assumption.
  - rewrite Forall_forall in Hall |- *. intros y Hy.
    apply Himp; [apply elem_of_cons; left; reflexivity|apply elem_of_cons; right; exact Hy|].
    apply Hall, Hy.
Qed.

(** The ranges of [_find_segments] are exactly the maximal runs of set
    samples. *)
Lemma find_segments_runs_spec (mask : list bool) :
  (forall k : nat,
     mask !! k = Some true <->
     exists s e, (s, e) ∈ PitchRollSegmenter._find_segments mask /\ s <= Z.of_nat k < e)
  /\ (forall s e, (s, e) ∈ PitchRollSegmenter._find_segments mask ->
        0 <= s /\ s < e /\ e <= Z.of_nat (length mask)
        /\ (s = 0 \/ mask !! Z.to_nat (s - 1) = Some false)
        /\ (e = Z.of_nat (length mask) \/ mask !! Z.to_nat e = Some false))
  /\ StronglySorted (fun a b => a.2 < b.1) (PitchRollSegmenter._find_segments mask).
Proof.
  assert (Hruns : (forall k : nat,
     mask !! k = Some true <->
     exists s e, (s, e) ∈ PitchRollSegmenter._find_segments mask /\ s <= Z.of_nat k < e)
  /\ (forall s e, (s, e) ∈ PitchRollSegmenter._find_segments mask ->
        0 <= s /\ s < e /\ e <= Z.of_nat (length mask)
        /\ (s = 0 \/ mask !! Z.to_nat (s - 1) = Some false)
        /\ (e = Z.of_nat (length mask) \/ mask !! Z.to_nat e = Some false))).
  { pose proof (find_segments_fold_runs mask) as Hinv.
    unfold PitchRollSegmenter._find_segments.
    destruct (fold_left _ _ _) as [[segments in_segment] start].
    destruct Hinv as (H1 & H2 & H3 & _). destruct in_segment.
    - destruct (H3 eq_refl) as (Hstart & Hbefore). split.
      + intros k. rewrite H1. split.
        * intros [(s & e & Hin & Hk)|[_ Ho]].
          -- exists s, e. split; [apply elem_of_app; left; exact Hin|exact Hk].
          -- exists start, (Z.of_nat (length mask)). split; [|exact Ho].
             apply elem_of_app. right. apply list_elem_of_singleton. reflexivity.
        * intros (s & e & Hin & Hk). apply elem_of_app in Hin as [Hin|Hin].
          -- left. exists s, e. split; [exact Hin|exact Hk].
          -- apply list_elem_of_singleton in Hin as [= -> ->]. right. split; [done|exact Hk].
      + intros s e Hin. apply elem_of_app in Hin as [Hin|Hin].
        * destruct (H2 s e Hin) as (Hs & Hse & He & Hme & Hms).
          split; [exact Hs|]. split; [exact Hse|]. split; [lia|]. split; [exact Hms|].
          right. exact Hme.
        * apply list_elem_of_singleton in Hin as [= -> ->].
          split; [lia|]. split; [lia|]. split; [lia|]. split; [exact Hbefore|left; reflexivity].
    - split.
      + intros k. rewrite H1. split.
        * intros [Hc|[[=] _]]. exact Hc.
        * intros Hc. left. exact Hc.
      + intros s e Hin. destruct (H2 s e Hin) as (Hs & Hse & He & Hme & Hms).
        split; [exact Hs|]. split; [exact Hse|]. split; [lia|]. split; [exact Hms|].
        right. exact Hme. }
  destruct Hruns as [Hin_run Hmax]. split; [exact Hin_run|]. split; [exact Hmax|].
  destruct (find_segments_ranges mask) as (_ & _ & Hsorted).
  revert Hsorted. apply StronglySorted_strengthen.
  intros [s1 e1] [s2 e2] Ha Hb Hle. cbn [fst snd] in *.
  destruct (Hmax s1 e1 Ha) as (_ & _ & _ & _ & Hend).
  destruct (Hmax s2 e2 Hb) as (Hs2 & Hse2 & He2 & _).
  assert (Hset : mask !! Z.to_nat s2 = Some true).
  { apply Hin_run. exists s2, e2. split; [exact Hb|lia]. }
  destruct Hend as [Hend|Hend]; [lia|].
  destruct (decide (e1 = s2)) as [->|Hne]; [congruence|lia].
Qed.

(** X7: [_find_segments] returns exactly the maximal runs of set
    samples of the mask: a sample is set if and only if it lies in one
    of the returned ranges; every range is non-empty and within the
    mask, the sample before its start (if any) and the sample at its end
    (if any) are clear; and between two ranges there is at least one
    clear sample. *)
Theorem find_segments_maximal_runs (mask : list bool) :
  (forall k : nat,
     mask !! k = Some true <->
     exists s e, (s, e) ∈ PitchRollSegmenter._find_segments mask /\ s <= Z.of_nat k < e)
  /\ (forall s e, (s, e) ∈ PitchRollSegmenter._find_segments mask ->
        0 <= s /\ s < e /\ e <= Z.of_nat (length mask)
        /\ (s = 0 \/ mask !! Z.to_nat (s - 1) = Some false)
        /\ (e = Z.of_nat (length mask) \/ mask !! Z.to_nat e = Some false))
  /\ StronglySorted (fun a b => a.2 < b.1) (PitchRollSegmenter._find_segments mask).
Proof. apply find_segments_runs_spec. Qed.

(** ** PitchRollSegmenter: the morphological operations *)

Lemma morphological_close_passes (mask : list bool) (size : Z) :
  PitchRollSegmenter._morphological_close mask size = erode (dilate mask size) size.
Proof. reflexivity. Qed.

Lemma morphological_open_passes (mask : list bool) (size : Z) :
  PitchRollSegmenter._morphological_open mask size = dilate (erode mask size) size.
Proof. reflexivity. Qed.

Lemma lookup_enumerate {A : Type} (l : list A) (k : nat) :
  enumerate l !! k = (fun x => (Z.of_nat k, x)) <$> l !! k.
Proof.
  induction l as [|x l IH] using rev_ind; [reflexivity|].
  rewrite enumerate_snoc.
  destruct (lt_eq_lt_dec k (length l)) as [[Hlt| ->]|Hgt].
  - rewrite !lookup_app_l by (rewrite ?length_enumerate; lia). exact IH.
  - rewrite lookup_snoc_length.
    rewrite <- (length_enumerate l) at 1. rewrite lookup_snoc_length. reflexivity.
  - rewrite !lookup_ge_None_2 by (rewrite length_app, ?length_enumerate; cbn; lia).
    reflexivity.
Qed.

Lemma length_dilate (mask : list bool) (size : Z) : length (dilate mask size) = length mask.
Proof. unfold dilate. rewrite length_map. apply length_enumerate. Qed.

Lemma length_erode (mask : list bool) (size : Z) : length (erode mask size) = length mask.
Proof. unfold erode. rewrite length_map. apply length_enumerate. Qed.

Lemma py_any_lookup (l : list bool) : py_any l = true <-> exists j, l !! j = Some true.
Proof.
  unfold py_any. rewrite existsb_exists. split.
  - intros (b & Hin & Hb). unfold id in Hb. subst b.
    apply list_elem_of_In, list_elem_of_lookup in Hin. exact Hin.
  - intros (j & Hj). exists true. split; [|reflexivity].
    apply list_elem_of_In. eapply list_elem_of_lookup_2, Hj.
Qed.

Lemma py_all_lookup (l : list bool) :
  py_all l = true <-> forall j, (j < length l)%nat -> l !! j = Some true.
Proof.
  unfold py_all. rewrite forallb_forall. split.
  - intros Hall j Hj. destruct (lookup_lt_is_Some_2 l j Hj) as [b Hb].
    rewrite Hb. f_equal. apply (Hall b). apply list_elem_of_In.
    eapply list_elem_of_lookup_2, Hb.
  - intros Hall b Hin. apply list_elem_of_In, list_elem_of_lookup in Hin as [j Hj].
    pose proof (lookup_lt_Some _ _ _ Hj) as Hlt. rewrite (Hall j Hlt) in Hj.
    injection Hj as <-. reflexivity.
Qed.

(** The neighbourhood of sample [k], for a size that is not negative. *)
Lemma lookup_neighbourhood (mask : list bool) (size : Z) (k : nat) :
  0 <= size -> (k < length mask)%nat ->
  exists lo m,
    PitchRollSegmenter.neighbourhood mask (Z.of_nat k) size = take m (drop lo mask)
    /\ (lo + m <= length mask)%nat
    /\ forall j, in_window (length mask) size k j <-> (lo <= j < lo + m)%nat.
Proof.
  intros Hsize Hk. unfold PitchRollSegmenter.neighbourhood, py_slice.
  rewrite slice_bounds_valid by lia.
  eexists _, _. split; [reflexivity|]. split; [lia|].
  intros j. unfold in_window. lia.
Qed.

Lemma py_any_neighbourhood (mask : list bool) (size : Z) (k : nat) :
  0 <= size -> (k < length mask)%nat ->
  py_any (PitchRollSegmenter.neighbourhood mask (Z.of_nat k) size) = true
  <-> exists j, in_window (length mask) size k j /\ mask !! j = Some true.
Proof.
  intros Hsize Hk.
  destruct (lookup_neighbourhood mask size k Hsize Hk) as (lo & m & -> & Hfit & Hwin).
  rewrite py_any_lookup. split.
  - intros (j & Hj). apply lookup_take_Some in Hj as [Hj Hlt].
    rewrite lookup_drop in Hj. exists (lo + j)%nat. split; [apply Hwin; lia|exact Hj].
  - intros (j & Hin & Hj). apply Hwin in Hin. exists (j - lo)%nat.
    rewrite lookup_take_lt by lia. rewrite lookup_drop.
    replace (lo + (j - lo))%nat with j by lia. exact Hj.
Qed.

Lemma py_all_neighbourhood (mask : list bool) (size : Z) (k : nat) :
  0 <= size -> (k < length mask)%nat ->
  py_all (PitchRollSegmenter.neighbourhood mask (Z.of_nat k) size) = true
  <-> forall j, in_window (length mask) size k j -> mask !! j = Some true.
Proof.
  intros Hsize Hk.
  destruct (lookup_neighbourhood mask size k Hsize Hk) as (lo & m & -> & Hfit & Hwin).
  rewrite py_all_lookup. rewrite length_take, length_drop. split.
  - intros Hall j Hin. apply Hwin in Hin.
    specialize (Hall (j - lo)%nat ltac:(lia)).
    rewrite lookup_take_lt in Hall by lia. rewrite lookup_drop in Hall.
    replace (lo + (j - lo))%nat with j in Hall by lia. exact Hall.
  - intros Hall j Hj. rewrite lookup_take_lt by lia. rewrite lookup_drop.
    apply Hall, Hwin. lia.
Qed.

Lemma in_window_self (n : nat) (size : Z) (k : nat) :
  0 <= size -> (k < n)%nat -> in_window n size k k.
Proof. unfold in_window. lia. Qed.

Lemma in_window_sym (n : nat) (size : Z) (i j : nat) :
  (i < n)%nat -> in_window n size i j -> in_window n size j i.
Proof. unfold in_window. lia. Qed.

Lemma lookup_dilate (mask : list bool) (size : Z) (k : nat) :
  0 <= size ->
  dilate mask size !! k = Some true
  <-> (k < length mask)%nat
      /\ exists j, in_window (length mask) size k j /\ mask !! j = Some true.
Proof.
  intros Hsize. unfold dilate. rewrite list_lookup_fmap, lookup_enumerate.
  destruct (mask !! k) as [b|] eqn:Hb; cbn [fmap option_fmap option_map].
  - pose proof (lookup_lt_Some _ _ _ Hb) as Hk.
    pose proof (py_any_neighbourhood mask size k Hsize Hk) as Hany.
    destruct (py_any _).
    + split; [intros _; split; [exact Hk|apply Hany; reflexivity]|reflexivity].
    + split.
      * intros [= ->]. split; [exact Hk|]. exists k.
        split; [apply in_window_self; assumption|exact Hb].
      * intros [_ Hex]. apply Hany in Hex. discriminate.
  - apply lookup_ge_None in Hb. split; [discriminate|]. intros [Hk _]. lia.
Qed.

Lemma lookup_erode (mask : list bool) (size : Z) (k : nat) :
  0 <= size ->
  erode mask size !! k = Some true
  <-> (k < length mask)%nat
      /\ forall j, in_window (length mask) size k j -> mask !! j = Some true.
Proof.
  intros Hsize. unfold erode. rewrite list_lookup_fmap, lookup_enumerate.
  destruct (mask !! k) as [b|] eqn:Hb; cbn [fmap option_fmap option_map].
  - pose proof (lookup_lt_Some _ _ _ Hb) as Hk.
    pose proof (py_all_neighbourhood mask size k Hsize Hk) as Hall.
    destruct (py_all _); cbn [negb].
    + split.
      * intros [= ->]. split; [exact Hk|apply Hall; reflexivity].
      * intros [_ Hw]. rewrite <- Hb. apply Hw, in_window_self; assumption.
    + split; [discriminate|]. intros [_ Hw]. apply Hall in Hw. discriminate.
  - apply lookup_ge_None in Hb. split; [discriminate|]. intros [Hk _]. lia.
Qed.

(** Two masks with the same set samples are the same mask. *)
Lemma mask_eq (l1 l2 : list bool) :
  length l1 = length l2 ->
  (forall k, l1 !! k = Some true <-> l2 !! k = Some true) ->
  l1 = l2.
Proof.
  intros Hlen Hset. apply list_eq. intros k.
  destruct (l1 !! k) as [b1|] eqn:H1, (l2 !! k) as [b2|] eqn:H2.
  - f_equal. specialize (Hset k). rewrite H1, H2 in Hset.
    destruct b1, b2; try reflexivity.
    + destruct Hset as [Hset _]. specialize (Hset eq_refl). discriminate.
    + destruct Hset as [_ Hset]. specialize (Hset eq_refl). discriminate.
  - apply lookup_lt_Some in H1. apply lookup_ge_None in H2. lia.
  - apply lookup_ge_None in H1. apply lookup_lt_Some in H2. lia.
  - reflexivity.
Qed.

Lemma close_extensive (mask : list bool) (size : Z) (k : nat) :
  0 <= size ->
  mask !! k = Some true -> erode (dilate mask size) size !! k = Some true.
Proof.
  intros Hsize Hk. pose proof (lookup_lt_Some _ _ _ Hk) as Hlt.
  apply lookup_erode; [exact Hsize|]. rewrite length_dilate. split; [exact Hlt|].
  intros j Hj. apply lookup_dilate; [exact Hsize|]. split; [apply Hj|].
  exists k. split; [apply in_window_sym; assumption|exact Hk].
Qed.

Lemma open_antiextensive (mask : list bool) (size : Z) (k : nat) :
  0 <= size ->
  dilate (erode mask size) size !! k = Some true -> mask !! k = Some true.
Proof.
  intros Hsize Hk. apply lookup_dilate in Hk as (Hlt & j & Hj & He); [|exact Hsize].
  rewrite length_erode in Hlt, Hj.
  apply lookup_erode in He as (_ & Hw); [|exact Hsize].
  apply Hw, in_window_sym; [exact Hlt|exact Hj].
Qed.

Lemma dilate_monotone (l1 l2 : list bool) (size : Z) :
  0 <= size -> length l1 = length l2 ->
  (forall k, l1 !! k = Some true -> l2 !! k = Some true) ->
  forall k, dilate l1 size !! k = Some true -> dilate l2 size !! k = Some true.
Proof.
  intros Hsize Hlen Hle k Hk.
  apply lookup_dilate in Hk as (Hlt & j & Hj & Hset); [|exact Hsize].
  apply lookup_dilate; [exact Hsize|]. rewrite <- Hlen. split; [exact Hlt|].
  exists j. split; [exact Hj|apply Hle, Hset].
Qed.

Lemma erode_monotone (l1 l2 : list bool) (size : Z) :
  0 <= size -> length l1 = length l2 ->
  (forall k, l1 !! k = Some true -> l2 !! k = Some true) ->
  forall k, erode l1 size !! k = Some true -> erode l2 size !! k = Some true.
Proof.
  intros Hsize Hlen Hle k Hk.
  apply lookup_erode in Hk as (Hlt & Hw); [|exact Hsize].
  apply lookup_erode; [exact Hsize|]. rewrite <- Hlen. split; [exact Hlt|].
  intros j Hj. apply Hle, Hw, Hj.
Qed.

Lemma dilate_erode_dilate (mask : list bool) (size : Z) :
  0 <= size -> dilate (erode (dilate mask size) size) size = dilate mask size.
Proof.
  intros Hsize. apply mask_eq.
  - rewrite !length_dilate, length_erode, length_dilate. reflexivity.
  - intros k. split.
    + apply open_antiextensive, Hsize.
    + apply dilate_monotone; [exact Hsize| |].
      * rewrite length_erode, length_dilate. reflexivity.
      * intros j. apply close_extensive, Hsize.
Qed.

Lemma erode_dilate_erode (mask : list bool) (size : Z) :
  0 <= size -> erode (dilate (erode mask size) size) size = erode mask size.
Proof.
  intros Hsize. apply mask_eq.
  - rewrite !length_erode, length_dilate, length_erode. reflexivity.
  - intros k. split.
    + apply erode_monotone; [exact Hsize| |].
      * rewrite length_dilate, length_erode. reflexivity.
      * intros j. apply open_antiextensive, Hsize.
    + apply close_extensive, Hsize.
Qed.

(** X8: for a size that is not negative, [_morphological_close] only
    adds to the mask (every set sample stays set) and
    [_morphological_open] only removes from it (every sample set
    afterwards was set before); both keep the length of the mask. *)
Theorem morphological_close_adds_open_removes (mask : list bool) (size : Z) :
  0 <= size ->
  (forall k, mask !! k = Some true ->
             PitchRollSegmenter._morphological_close mask size !! k = Some true)
  /\ (forall k, PitchRollSegmenter._morphological_open mask size !! k = Some true ->
                mask !! k = Some true)
  /\ length (PitchRollSegmenter._morphological_close mask size) = length mask
  /\ length (PitchRollSegmenter._morphological_open mask size) = length mask.
Proof.
  intros Hsize. rewrite morphological_close_passes, morphological_open_passes.
  split; [intros k; apply close_extensive, Hsize|].
  split; [intros k; apply open_antiextensive, Hsize|].
  rewrite length_erode, !length_dilate, length_erode. split; reflexivity.
Qed.

(** A gap of one sample is closed, a burst of one sample is removed. *)
Lemma morphological_close_adds_open_removes_witness :
  0 <= 1
  /\ PitchRollSegmenter._morphological_close [true; true; false; true; true] 1 !! 2%nat
     = Some true
  /\ (PitchRollSegmenter._morphological_open [false; false; true; false; false] 1 !! 2%nat
      = Some true ->
      [false; false; true; false; false] !! 2%nat = Some true).
Proof.
  split; [lia|]. split; [reflexivity|].
  apply (morphological_close_adds_open_removes [false; false; true; false; false] 1).
  lia.
Defined.

(** X9: for a size that is not negative, closing a closed mask and
    opening an opened mask change nothing. *)
Theorem morphological_operations_idempotent (mask : list bool) (size : Z) :
  0 <= size ->
  PitchRollSegmenter._morphological_close
    (PitchRollSegmenter._morphological_close mask size) size
  = PitchRollSegmenter._morphological_close mask size
  /\ PitchRollSegmenter._morphological_open
       (PitchRollSegmenter._morphological_open mask size) size
     = PitchRollSegmenter._morphological_open mask size.
Proof.
  intros Hsize. rewrite !morphological_close_passes, !morphological_open_passes.
  rewrite dilate_erode_dilate, erode_dilate_erode by exact Hsize. split; reflexivity.
Qed.

Lemma morphological_operations_idempotent_witness :
  0 <= 2
  /\ PitchRollSegmenter._morphological_close
       (PitchRollSegmenter._morphological_close
          [true; false; false; false; true; false; false; false; false; false; true] 2) 2
     = [true; true; true; true; true; false; false; false; false; false; true].
Proof.
  split; [lia|].
  rewrite (proj1 (morphological_operations_idempotent
                    [true; false; false; false; true; false; false; false; false; false; true]
                    2 ltac:(lia))).
  reflexivity.
Defined.

(** ** PitchRollSegmenter: a recording without swimming *)

Lemma py_any_all_clear (l : list bool) : Forall (fun b => b = false) l -> py_any l = false.
Proof. induction 1 as [|b l -> _ IH]; [reflexivity|exact IH]. Qed.

Lemma neighbourhood_all_clear (mask : list bool) (i size : Z) :
  Forall (fun b => b = false) mask ->
  py_any (PitchRollSegmenter.neighbourhood mask i size) = false.
Proof.
  intros Hclear. apply py_any_all_clear.
  unfold PitchRollSegmenter.neighbourhood, py_slice.
  destruct (slice_bounds _ _ _) as [lo hi]. apply Forall_take, Forall_drop, Hclear.
Qed.

Lemma dilate_all_clear (mask : list bool) (size : Z) :
  Forall (fun b => b = false) mask -> dilate mask size = mask.
Proof.
  intros Hclear. unfold dilate.
  transitivity (map snd (enumerate mask)); [|apply snd_enumerate].
  apply map_ext. intros [i m]. rewrite neighbourhood_all_clear by exact Hclear.
  reflexivity.
Qed.

Lemma erode_all_clear (mask : list bool) (size : Z) :
  Forall (fun b => b = false) mask -> erode mask size = mask.
Proof.
  intros Hclear. unfold erode.
  transitivity (map snd (enumerate mask)); [|apply snd_enumerate].
  apply map_ext_in. intros [i m] Hin.
  assert (Hm : m = false).
  { apply (in_map snd) in Hin. rewrite snd_enumerate in Hin. cbn [snd] in Hin.
    apply list_elem_of_In in Hin. rewrite Forall_forall in Hclear. apply Hclear, Hin. }
  subst m. destruct (negb _); reflexivity.
Qed.

Lemma find_segments_all_clear (mask : list bool) :
  Forall (fun b => b = false) mask -> PitchRollSegmenter._find_segments mask = [].
Proof.
  intros Hclear. destruct (find_segments_runs_spec mask) as (Hin_run & Hmax & _).
  destruct (PitchRollSegmenter._find_segments mask) as [|[s e] segments]; [reflexivity|].
  exfalso.
  assert (Hin : (s, e) ∈ (s, e) :: segments) by (apply elem_of_cons; left; reflexivity).
  destruct (Hmax s e Hin) as (Hs & Hse & _).
  assert (Hset : mask !! Z.to_nat s = Some true).
  { apply Hin_run. exists s, e. split; [exact Hin|lia]. }
  pose proof (Forall_lookup_1 _ _ _ _ Hclear Hset) as Hfalse. discriminate.
Qed.

Lemma quiet_not_swimming `{Numerics} (rows : list vec3) :
  Forall quiet rows ->
  Forall (fun b => b = false)
         (map (fun p => Qltb p 0.5) (PitchRollSegmenter._calculate_null_probability rows)).
Proof.
  intros Hquiet. unfold PitchRollSegmenter._calculate_null_probability.
  rewrite map_map. apply Forall_fmap. eapply Forall_impl; [exact Hquiet|].
  intros a Ha. unfold quiet in Ha. cbn beta. apply Qltb_ge.
  set (deviation := Qabs (np_sqrt (vx a ^ 2 + vy a ^ 2 + vz a ^ 2) - 9.8)) in *.
  pose proof (Qabs_nonneg (np_sqrt (vx a ^ 2 + vy a ^ 2 + vz a ^ 2) - 9.8)) as Hnonneg.
  fold deviation in Hnonneg. clearbody deviation.
  unfold Qdiv at 2. change (/ 2)%Q with (1 # 2)%Q.
  apply Qle_shift_div_l; lra.
Qed.

(** X10: a recording without swimming has no laps. When the
    acceleration of every sample is within 2 m/s^2 of gravity (9.8),
    [segment] returns the empty list, whatever the sampling rate, the
    configuration and the other channels are. *)
Theorem segment_quiet_recording `{Numerics} (self : PitchRollSegmenter.t)
    (times gyr : ndarray) (rows : list vec3) (magn pres : option ndarray)
    (sampling_rate : option Q) :
  Forall quiet rows ->
  PitchRollSegmenter.segment self (mkSensorData times (Arr2 rows) gyr magn pres)
                             sampling_rate
  = Ok [].
Proof.
  intros Hquiet. pose proof (quiet_not_swimming rows Hquiet) as Hclear.
  unfold PitchRollSegmenter.segment. cbn [accel]. f_equal.
  rewrite morphological_close_passes, morphological_open_passes.
  rewrite (dilate_all_clear _ _ Hclear), (erode_all_clear _ _ Hclear).
  rewrite (erode_all_clear _ _ Hclear), (dilate_all_clear _ _ Hclear).
  rewrite (find_segments_all_clear _ Hclear). reflexivity.
Qed.

(** Sixty samples of gravity alone, with square roots to six decimals. *)
Lemma segment_quiet_recording_witness :
  Forall quiet (at_rest 60)
  /\ PitchRollSegmenter.segment (PitchRollSegmenter.make 25 30 ∅)
       (mkSensorData (Arr1 []) (Arr2 (at_rest 60)) (Arr2 []) None None) None
     = Ok [].
Proof.
  assert (Hquiet : Forall quiet (at_rest 60)).
  { apply Forall_forall. intros a Ha. apply list_elem_of_In, repeat_spec in Ha.
    subst a. vm_compute. discriminate. }
  split; [exact Hquiet|].
  exact (segment_quiet_recording (PitchRollSegmenter.make 25 30 ∅)
           (Arr1 []) (Arr2 []) (at_rest 60) None None None Hquiet).
Defined.

(** ** PitchRollSegmenter.refine_lap_boundaries *)

Lemma np_argmax_lt (l : list Q) : l <> [] -> (np_argmax l < length l)%nat.
Proof.
  destruct l as [|x l]; [done|]. intros _. cbn [np_argmax length].
  destruct (argmax_from_spec l 0 x 1) as [->|(k & -> & Hk & _)]; [lia|].
  destruct (l !! k) eqn:Hlk; [|done]. apply lookup_lt_Some in Hlk. lia.
Qed.

Lemma length_np_diff (l : list Q) : length (np_diff l) = (length l - 1)%nat.
Proof.
  unfold np_diff. rewrite length_zip_with. destruct l as [|x l]; cbn [tl length]; lia.
Qed.

(** A region of two rows or more has its spike before the last row. *)
Lemma spike_index_ok `{Numerics} (rows : list vec3) :
  (2 <= length rows)%nat ->
  exists k, spike_index (Arr2 rows) = Ok k /\ (k + 2 <= length rows)%nat.
Proof.
  intros Hlen. unfold spike_index.
  set (jumps := map Qabs (np_diff _)).
  assert (Hjumps : length jumps = (length rows - 1)%nat).
  { unfold jumps. rewrite length_map, length_np_diff, length_map. reflexivity. }
  assert (Hne : jumps <> []) by (intros Heq; rewrite Heq in Hjumps; cbn in Hjumps; lia).
  pose proof (np_argmax_lt jumps Hne) as Hlt.
  exists (np_argmax jumps). split; [|lia].
  unfold np_argmax_checked. destruct jumps; [done|reflexivity].
Qed.

Lemma np_len_slice_clipped (rows : list vec3) (lo stop : Z) :
  0 <= lo -> lo <= Z.min stop (Z.of_nat (length rows)) ->
  exists region,
    np_slice (Arr2 rows) lo stop = Arr2 region
    /\ Z.of_nat (length region) = Z.min stop (Z.of_nat (length rows)) - lo.
Proof.
  intros Hlo Hstop. eexists. split; [reflexivity|].
  rewrite length_py_slice. unfold slice_bounds, slice_index. cbn [fst snd].
  destruct (Z.ltb_spec lo 0); [lia|]. destruct (Z.ltb_spec stop 0); lia.
Qed.

Lemma sequence_map_ok_Forall {A B : Type} (f : A -> res B) (P : A -> B -> Prop)
    (Q : A -> Prop) (l : list A) :
  (forall x, Q x -> exists y, f x = Ok y /\ P x y) ->
  Forall Q l ->
  exists ys, sequence (map f l) = Ok ys /\ Forall2 P l ys.
Proof.
  intros Hf Hall. induction Hall as [|x l Hx _ (ys & Hys & HP)].
  - exists []. split; [reflexivity|constructor].
  - destruct (Hf x Hx) as (y & Hy & Hxy). exists (y :: ys).
    cbn [map sequence]. rewrite Hy, Hys. split; [reflexivity|constructor; assumption].
Qed.

(** X11: [refine_lap_boundaries] on an acceleration of shape (N,3) with
    [N >= 2], for a window [w = int(2 * sampling_rate)] of at least 2
    samples and ranges with [0 <= start < end <= N]: the call returns
    one refined range per range, in order; each refined start lies from
    [max(0, start - w)] to [min(N, start + w) - 2], each refined end
    from [max(0, end - w)] to [min(N, end + w) - 2]; so a refined range
    is non-empty whenever the range was longer than [2 * w - 2]
    samples. *)
Theorem refine_lap_boundaries_bounds `{Numerics} (self : PitchRollSegmenter.t)
    (times gyr : ndarray) (rows : list vec3) (magn pres : option ndarray)
    (segments : list (Z * Z)) (sampling_rate : option Q) :
  let window :=
    py_int (2 * default (PitchRollSegmenter.sampling_rate self) sampling_rate) in
  let n := Z.of_nat (length rows) in
  2 <= window ->
  2 <= n ->
  Forall (fun '(s, e) => 0 <= s /\ s < e /\ e <= n) segments ->
  exists refined,
    refine_lap_boundaries self (mkSensorData times (Arr2 rows) gyr magn pres)
                          segments sampling_rate
    = Ok refined
    /\ Forall2 (fun '(s, e) '(s', e') =>
                  Z.max 0 (s - window) <= s' <= Z.min n (s + window) - 2
                  /\ Z.max 0 (e - window) <= e' <= Z.min n (e + window) - 2
                  /\ (2 * window - 2 < e - s -> s' < e'))
               segments refined.
Proof.
  intros window n Hwindow Hn Hvalid. unfold refine_lap_boundaries. cbn [accel np_len].
  fold window. fold n.
  apply (sequence_map_ok_Forall _ _ (fun '(s, e) => 0 <= s /\ s < e /\ e <= n));
    [|exact Hvalid].
  intros [s e] (Hs & Hse & He).
  destruct (np_len_slice_clipped rows (Z.max 0 (s - window)) (s + window))
    as (start_region & -> & Hlen_s); [lia|fold n; lia|]. fold n in Hlen_s.
  destruct (np_len_slice_clipped rows (Z.max 0 (e - window)) (Z.min n (e + window)))
    as (end_region & -> & Hlen_e); [lia|fold n; lia|]. fold n in Hlen_e.
  cbn [np_len].
  destruct (Nat.ltb_spec 0 (length start_region)) as [_|Hempty]; [|lia].
  destruct (Nat.ltb_spec 0 (length end_region)) as [_|Hempty]; [|lia].
  destruct (spike_index_ok start_region) as (ks & -> & Hks); [lia|].
  destruct (spike_index_ok end_region) as (ke & -> & Hke); [lia|].
  unfold mbind, res_bind. eexists. split; [reflexivity|]. cbn beta iota.
  split; [lia|]. split; lia.
Qed.

(** Twelve samples at 1 Hz and the range from sample 2 to sample 10. *)
Lemma refine_lap_boundaries_bounds_witness :
  2 <= py_int (2 * default (PitchRollSegmenter.sampling_rate
                              (PitchRollSegmenter.make 25 1 ∅)) None)
  /\ 2 <= Z.of_nat (length (at_rest 12))
  /\ Forall (fun '(s, e) => 0 <= s /\ s < e /\ e <= Z.of_nat (length (at_rest 12)))
            [(2, 10)]
  /\ exists refined,
       refine_lap_boundaries (PitchRollSegmenter.make 25 1 ∅)
         (mkSensorData (Arr1 []) (Arr2 (at_rest 12)) (Arr2 []) None None) [(2, 10)] None
       = Ok refined
       /\ length refined = 1%nat.
Proof.
  assert (Hw : 2 <= py_int (2 * default (PitchRollSegmenter.sampling_rate
                                            (PitchRollSegmenter.make 25 1 ∅)) None))
    by (vm_compute; discriminate).
  assert (Hn : 2 <= Z.of_nat (length (at_rest 12))) by (vm_compute; discriminate).
  assert (Hvalid : Forall (fun '(s, e) => 0 <= s /\ s < e
                                         /\ e <= Z.of_nat (length (at_rest 12)))
                          [(2, 10)]).
  { constructor; [|constructor]. cbn. lia. }
  split; [exact Hw|]. split; [exact Hn|]. split; [exact Hvalid|].
  destruct (refine_lap_boundaries_bounds (PitchRollSegmenter.make 25 1 ∅)
              (Arr1 []) (Arr2 []) (at_rest 12) None None [(2, 10)] None Hw Hn Hvalid)
    as (refined & Hrefined & Hbounds).
  exists refined. split; [exact Hrefined|].
  apply Forall2_length in Hbounds. rewrite <- Hbounds. reflexivity.
Defined.

(** ** NullProbabilitySegmenter *)

Lemma null_probability_segment_find_segments `{Numerics} (self : NullProbabilitySegmenter.t)
    (probs : list Q) (segmentation_config : gmap string Q)
    (sensor_data : SensorData ndarray) (sampling_rate : Q) :
  NullProbabilitySegmenter.segment
    (NullProbabilitySegmenter.set_null_probabilities self probs)
    segmentation_config sensor_data sampling_rate
  = Ok (PitchRollSegmenter._find_segments
          (map (fun p =>
                  Qltb p (default 0.5%Q
                            (default ∅ (NullProbabilitySegmenter.config self !! "smooth_nulls")
                               !! "probability")))
               probs)).
Proof.
  unfold NullProbabilitySegmenter.segment, NullProbabilitySegmenter.set_null_probabilities,
    PitchRollSegmenter._find_segments.
  cbn [NullProbabilitySegmenter.null_probs NullProbabilitySegmenter.config].
  destruct (fold_left _ _ _) as [[segments []] start]; reflexivity.
Qed.

(** X12: [NullProbabilitySegmenter] with probabilities set. After
    [set_null_probabilities(probs)], [segment] never looks at the sensor
    data or the sampling rate and never raises: it returns the maximal
    runs of samples whose probability is below the threshold (0.5 unless
    configured under smooth_nulls/probability). Every run is returned,
    however short, as a non-empty range within the probabilities, and two
    ranges are separated by at least one sample. *)
Theorem null_probability_segment_runs `{Numerics} (self : NullProbabilitySegmenter.t)
    (probs : list Q) :
  let threshold :=
    default 0.5%Q (default ∅ (NullProbabilitySegmenter.config self !! "smooth_nulls")
                     !! "probability") in
  exists segments,
    (forall segmentation_config sensor_data sampling_rate,
       NullProbabilitySegmenter.segment
         (NullProbabilitySegmenter.set_null_probabilities self probs)
         segmentation_config sensor_data sampling_rate
       = Ok segments)
    /\ (forall (k : nat) p, probs !! k = Some p ->
          (p < threshold)%Q <-> exists s e, (s, e) ∈ segments /\ s <= Z.of_nat k < e)
    /\ (forall s e, (s, e) ∈ segments -> 0 <= s /\ s < e /\ e <= Z.of_nat (length probs))
    /\ StronglySorted (fun a b => a.2 < b.1) segments.
Proof.
  intros threshold.
  set (mask := map (fun p => Qltb p threshold) probs).
  exists (PitchRollSegmenter._find_segments mask).
  destruct (find_segments_runs_spec mask) as (Hin_run & Hmax & Hsorted).
  split; [|split; [|split; [|exact Hsorted]]].
  - intros. apply null_probability_segment_find_segments.
  - intros k p Hp. rewrite <- Hin_run. unfold mask.
    rewrite list_lookup_fmap, Hp. cbn [fmap option_fmap option_map].
    rewrite <- Qltb_lt. split; [intros ->; reflexivity|intros [= ->]; reflexivity].
  - intros s e Hin. destruct (Hmax s e Hin) as (Hs & Hse & He & _).
    unfold mask in He. rewrite length_map in He. auto.
Qed.

(** ** EnergyClassifier: what [classify] can return *)

Lemma classify_styles (self : EnergyClassifier.t) (rows : list vec3) :
  exists s,
    EnergyClassifier.classify self (Arr2 rows) = Ok s
    /\ (((length rows < 30)%nat /\ s = UNKNOWN)
        \/ ((30 <= length rows)%nat
            /\ s ∈ [FREESTYLE; BACKSTROKE; BREASTSTROKE; BUTTERFLY])).
Proof.
  unfold EnergyClassifier.classify. cbn [EnergyClassifier._calculate_energy np_len].
  destruct (Nat.ltb_spec (length rows) 30) as [Hshort|Hlong].
  - exists UNKNOWN. split; [reflexivity|left; auto].
  - cbn [EnergyClassifier._detect_backstroke_by_gravity]. unfold mbind, res_bind.
    repeat match goal with
           | |- context [if ?c then _ else _] => destruct c
           end; eexists;
      (split; [reflexivity|right; split; [exact Hlong|rewrite !elem_of_cons; auto]]).
Qed.

(** X13: what [classify] can return. On an array of shape (N,3) it
    never raises; it returns unknown exactly when [N < 30], and otherwise
    one of freestyle, backstroke, breaststroke and butterfly, never rest
    or turn. On an array of shape (N,) it returns unknown for [N < 30]
    and raises IndexError otherwise. *)
Theorem classify_returns_a_style (self : EnergyClassifier.t) :
  (forall rows, exists s,
      EnergyClassifier.classify self (Arr2 rows) = Ok s
      /\ (s = UNKNOWN <-> (length rows < 30)%nat)
      /\ s ∈ [FREESTYLE; BACKSTROKE; BREASTSTROKE; BUTTERFLY; UNKNOWN])
  /\ (forall xs,
        EnergyClassifier.classify self (Arr1 xs)
        = if (length xs <? 30)%nat then Ok UNKNOWN else Raise IndexError).
Proof.
  split.
  - intros rows. destruct (classify_styles self rows) as (s & Hs & Hcases).
    exists s. split; [exact Hs|].
    destruct Hcases as [[Hshort ->]|[Hlong Hin]].
    + split; [tauto|]. rewrite !elem_of_cons. auto 10.
    + rewrite !elem_of_cons, elem_of_nil in Hin. rewrite !elem_of_cons.
      destruct Hin as [->|[->|[->|[->|[]]]]];
        (split; [split; [discriminate|lia]|auto 10]).
  - intros xs. unfold EnergyClassifier.classify. cbn [np_len].
    destruct (length xs <? 30)%nat; reflexivity.
Qed.

(** ** EnergyClassifier.get_energy_profile *)

Lemma fold_Qplus_nonneg (l : list Q) (acc : Q) :
  Forall (fun x => 0 <= x)%Q l -> (0 <= acc)%Q -> (0 <= fold_left Qplus l acc)%Q.
Proof.
  intros Hall. revert acc. induction Hall as [|x l Hx _ IH]; intros acc Hacc; [exact Hacc|].
  cbn [fold_left]. apply IH. lra.
Qed.

Lemma channel_energy_nonneg (xs : list Q) : (0 <= EnergyClassifier.channel_energy xs)%Q.
Proof.
  unfold EnergyClassifier.channel_energy, Qdiv. apply Qmult_le_0_compat.
  - apply fold_Qplus_nonneg; [|apply Qle_refl].
    apply Forall_fmap, Forall_forall. intros x _. apply Qabs_nonneg.
  - apply Qinv_le_0_compat. change 0%Q with (inject_Z 0). rewrite <- Zle_Qle. lia.
Qed.

(** X14: [get_energy_profile] on a non-empty array of shape (N,3)
    returns a profile whose three energies are not negative, whose total
    energy is their sum, and whose dominant axis is the first axis of the
    largest energy: "x" when the X energy is at least the two others, "y"
    when the Y energy exceeds the X energy and is at least the Z energy,
    "z" when the Z energy exceeds both others. On an array of shape (N,)
    it raises IndexError. *)
Theorem energy_profile_dominant_axis (self : EnergyClassifier.t) (rows : list vec3) :
  rows <> [] ->
  (exists p,
     get_energy_profile self (Arr2 rows) = Ok p
     /\ (0 <= energy_x p)%Q /\ (0 <= energy_y p)%Q /\ (0 <= energy_z p)%Q
     /\ (total_energy p == energy_x p + energy_y p + energy_z p)%Q
     /\ ((dominant_axis p = "x"
          /\ (energy_y p <= energy_x p)%Q /\ (energy_z p <= energy_x p)%Q)
         \/ (dominant_axis p = "y"
             /\ (energy_x p < energy_y p)%Q /\ (energy_z p <= energy_y p)%Q)
         \/ (dominant_axis p = "z"
             /\ (energy_x p < energy_z p)%Q /\ (energy_y p < energy_z p)%Q)))
  /\ forall xs, get_energy_profile self (Arr1 xs) = Raise IndexError.
Proof.
  intros _. split; [|reflexivity].
  eexists. split; [reflexivity|].
  cbn [energy_x energy_y energy_z total_energy dominant_axis vx vy vz].
  set (E_x := EnergyClassifier.channel_energy (map vx rows)).
  set (E_y := EnergyClassifier.channel_energy (map vy rows)).
  set (E_z := EnergyClassifier.channel_energy (map vz rows)).
  split; [apply channel_energy_nonneg|]. split; [apply channel_energy_nonneg|].
  split; [apply channel_energy_nonneg|].
  split; [unfold py_sum; cbn [fold_left]; lra|].
  cbn [np_argmax argmax_from].
  destruct (Qltb E_x E_y) eqn:Hxy.
  - apply Qltb_lt in Hxy. destruct (Qltb E_y E_z) eqn:Hyz.
    + apply Qltb_lt in Hyz. right. right. split; [reflexivity|]. split; lra.
    + apply Qltb_ge in Hyz. right. left. split; [reflexivity|]. split; lra.
  - apply Qltb_ge in Hxy. destruct (Qltb E_x E_z) eqn:Hxz.
    + apply Qltb_lt in Hxz. right. right. split; [reflexivity|]. split; lra.
    + apply Qltb_ge in Hxz. left. split; [reflexivity|]. split; lra.
Qed.

(** Two samples that differ on the Y axis only. *)
Lemma energy_profile_dominant_axis_witness :
  [mkVec3 0 1 0; mkVec3 0 3 0] <> []
  /\ exists p,
       get_energy_profile (EnergyClassifier.make ∅) (Arr2 [mkVec3 0 1 0; mkVec3 0 3 0]) = Ok p
       /\ dominant_axis p = "y".
Proof.
  assert (Hne : [mkVec3 0 1 0; mkVec3 0 3 0] <> []) by discriminate.
  split; [exact Hne|].
  destruct (proj1 (energy_profile_dominant_axis
                     (EnergyClassifier.make ∅) [mkVec3 0 1 0; mkVec3 0 3 0] Hne))
    as (p & Hp & _).
  exists p. split; [exact Hp|].
  vm_compute in Hp. injection Hp as <-. reflexivity.
Defined.

(** ** BasicStrokeCounter: a signal without turning points *)

Lemma local_maxima_nondecreasing (l : list Q) :
  forall (prev : Q) (cand : option nat) (i : nat),
    StronglySorted Qle (prev :: l) -> local_maxima_scan prev cand i l = [].
Proof.
  induction l as [|x l IH]; intros prev cand i Hsorted; [reflexivity|].
  apply StronglySorted_inv in Hsorted as [Htail Hprev].
  apply Forall_cons in Hprev as [Hx _].
  cbn [local_maxima_scan]. destruct (Qcompare prev x) eqn:Hcmp.
  - apply IH, Htail.
  - apply IH, Htail.
  - exfalso. apply Qgt_alt in Hcmp. lra.
Qed.

Lemma local_maxima_nonincreasing (l : list Q) :
  forall (prev : Q) (i : nat),
    StronglySorted (fun a b => b <= a)%Q (prev :: l) ->
    local_maxima_scan prev None i l = [].
Proof.
  induction l as [|x l IH]; intros prev i Hsorted; [reflexivity|].
  apply StronglySorted_inv in Hsorted as [Htail Hprev].
  apply Forall_cons in Hprev as [Hx _].
  cbn [local_maxima_scan]. destruct (Qcompare prev x) eqn:Hcmp.
  - apply IH, Htail.
  - exfalso. apply Qlt_alt in Hcmp. lra.
  - apply IH, Htail.
Qed.

Lemma find_peaks_monotone (x : list Q) (distance : Z) :
  1 <= distance ->
  StronglySorted Qle x \/ StronglySorted (fun a b => b <= a)%Q x ->
  find_peaks x distance = Ok [].
Proof.
  intros Hd Hmono. unfold find_peaks.
  destruct (Z.ltb_spec distance 1) as [?|_]; [lia|].
  assert (Hnone : _local_maxima_1d x = []).
  { destruct x as [|x0 l]; [reflexivity|]. cbn [_local_maxima_1d].
    destruct Hmono as [Hup|Hdown].
    - apply local_maxima_nondecreasing, Hup.
    - apply local_maxima_nonincreasing, Hdown. }
  rewrite Hnone. reflexivity.
Qed.

(** X15: a signal without turning points has no strokes. When the
    column that [count_strokes] reads (Y for freestyle and backstroke, Z
    otherwise) never decreases or never increases over the lap, in
    particular when it is constant, the count is 0, at every sampling
    rate. *)
Theorem count_strokes_monotone_signal (self : BasicStrokeCounter.t) (rows : list vec3)
    (stroke_type : StrokeType) :
  let signal :=
    if BasicStrokeCounter.bilateral stroke_type then map vy rows else map vz rows in
  StronglySorted Qle signal \/ StronglySorted (fun a b => b <= a)%Q signal ->
  BasicStrokeCounter.count_strokes self (Arr2 rows) stroke_type = Ok 0.
Proof.
  intros signal Hmono. unfold BasicStrokeCounter.count_strokes.
  destruct (np_len (Arr2 rows) <? 10)%nat; [reflexivity|].
  unfold BasicStrokeCounter.select_axis, BasicStrokeCounter._calculate_min_peak_distance.
  fold signal.
  pose proof (stroke_max_freq_nonzero stroke_type) as Hmax.
  destruct (BasicStrokeCounter._get_stroke_frequency_range stroke_type) as [min_freq max_freq].
  simpl in Hmax. unfold py_truediv. rewrite Hmax. unfold mbind, res_bind.
  generalize (np_mean signal) as mean. intros mean.
  assert (Hcentred : StronglySorted Qle (map (fun s => s - mean)%Q signal)
                     \/ StronglySorted (fun a b => b <= a)%Q
                                       (map (fun s => s - mean)%Q signal)).
  { destruct Hmono as [Hup|Hdown]; [left|right].
    - revert Hup. apply StronglySorted_fmap. intros a b Hab. cbn beta in *. lra.
    - revert Hdown. apply StronglySorted_fmap. intros a b Hab. cbn beta in *. lra. }
  assert (Hflipped : StronglySorted Qle (map Qopp (map (fun s => s - mean)%Q signal))
                     \/ StronglySorted (fun a b => b <= a)%Q
                                       (map Qopp (map (fun s => s - mean)%Q signal))).
  { destruct Hcentred as [Hup|Hdown]; [right|left].
    - revert Hup. apply StronglySorted_fmap. intros a b Hab. cbn beta in *. lra.
    - revert Hdown. apply StronglySorted_fmap. intros a b Hab. cbn beta in *. lra. }
  rewrite !find_peaks_monotone by first [lia|assumption].
  destruct (BasicStrokeCounter.bilateral stroke_type); reflexivity.
Qed.

Lemma StronglySorted_constant (x : Q) (n : nat) : StronglySorted Qle (repeat x n).
Proof.
  induction n as [|n IH]; cbn [repeat]; constructor; [exact IH|].
  apply Forall_forall. intros y Hy. apply list_elem_of_In, repeat_spec in Hy.
  subst y. apply Qle_refl.
Qed.

(** Forty samples at rest, read as a lap of butterfly. *)
Lemma count_strokes_monotone_signal_witness :
  (StronglySorted Qle (map vz (at_rest 40))
   \/ StronglySorted (fun a b => b <= a)%Q (map vz (at_rest 40)))
  /\ BasicStrokeCounter.count_strokes (BasicStrokeCounter.make 30) (Arr2 (at_rest 40))
       BUTTERFLY
     = Ok 0.
Proof.
  assert (Hflat : StronglySorted Qle (map vz (at_rest 40))
                  \/ StronglySorted (fun a b => b <= a)%Q (map vz (at_rest 40))).
  { left. unfold at_rest. rewrite map_repeat. apply StronglySorted_constant. }
  split; [exact Hflat|].
  exact (count_strokes_monotone_signal (BasicStrokeCounter.make 30) (at_rest 40)
           BUTTERFLY Hflat).
Defined.

(** ** AnalysisPipeline: the laps of a result *)

Lemma filtfilt_1d_ok_length (b x y : list Q) :
  filtfilt_1d b x = Ok y -> length y = length x.
Proof.
  unfold filtfilt_1d.
  destruct (Nat.leb_spec (length x) (3 * Nat.max 1 (length b))) as [?|Hlong]; [discriminate|].
  destruct (length b <? 2)%nat; [discriminate|]. intros [= <-].
  rewrite length_take, length_drop, length_rev, length_lfilter, length_rev,
    length_lfilter, length_odd_ext by lia.
  lia.
Qed.

Lemma filtfilt_ok_shape (b : list Q) (x y : ndarray) :
  filtfilt b x = Ok y -> shape y = shape x.
Proof.
  destruct x as [xs|rows]; unfold filtfilt.
  - destruct (filtfilt_1d b xs) as [ys|] eqn:Hys; [|discriminate].
    intros [= <-]. apply filtfilt_1d_ok_length in Hys. cbn. rewrite Hys. reflexivity.
  - destruct (filtfilt_1d b (map vx rows)) as [c0|] eqn:H0; [|discriminate].
    destruct (filtfilt_1d b (map vy rows)) as [c1|] eqn:H1; [|discriminate].
    destruct (filtfilt_1d b (map vz rows)) as [c2|] eqn:H2; [|discriminate].
    unfold mbind, res_bind. intros [= <-].
    apply filtfilt_1d_ok_length in H0, H1, H2. rewrite length_map in H0, H1, H2.
    cbn. rewrite length_zip_with, length_zip. f_equal. lia.
Qed.

(** Whatever the filter holds, a result of [process] has the shape of
    the input. *)
Lemma process_ok_shape `{Numerics} (self self' : SwimBITFilter.t) (data out : ndarray)
    (rate : Q) :
  SwimBITFilter.process self data rate = (Ok out, self') -> shape out = shape data.
Proof.
  unfold SwimBITFilter.process.
  destruct (np_len data <=? SwimBITFilter.order self + 1)%nat; [intros [= <- _]; reflexivity|].
  destruct (SwimBITFilter._get_filter_taps self rate) as [[taps|e] p]; [|discriminate].
  unfold mbind, res_bind. intros [= Hf _]. apply filtfilt_ok_shape in Hf. exact Hf.
Qed.

Lemma preprocess_state `{Numerics} (self self' : AnalysisPipeline.t)
    (sd : SensorData ndarray) (filtered : res (ndarray * ndarray)) :
  AnalysisPipeline._preprocess self sd = (filtered, self') ->
  exists p, self' = AnalysisPipeline.with_preprocessor self p.
Proof.
  unfold AnalysisPipeline._preprocess.
  destruct (SwimBITFilter.process _ (accel sd) _) as [[fa|e] p1].
  - destruct (SwimBITFilter.process p1 (gyro sd) _) as [fg p2].
    intros [= _ <-]. exists p2. reflexivity.
  - intros [= _ <-]. exists p1. reflexivity.
Qed.

Lemma preprocess_ok_shapes `{Numerics} (self self' : AnalysisPipeline.t)
    (sd : SensorData ndarray) (fa fg : ndarray) :
  AnalysisPipeline._preprocess self sd = (Ok (fa, fg), self') ->
  shape fa = shape (accel sd) /\ shape fg = shape (gyro sd).
Proof.
  unfold AnalysisPipeline._preprocess.
  destruct (SwimBITFilter.process _ (accel sd) _) as [[fa'|e] p1] eqn:Ha; [|discriminate].
  destruct (SwimBITFilter.process p1 (gyro sd) _) as [[fg'|e] p2] eqn:Hg; [|discriminate].
  unfold mbind, res_bind. intros [= <- <- _].
  split; eapply process_ok_shape; eassumption.
Qed.

Lemma sequence_map_inv {A B : Type} (f : A -> res B) (l : list A) (ys : list B) :
  sequence (map f l) = Ok ys -> Forall2 (fun x y => f x = Ok y) l ys.
Proof.
  revert ys. induction l as [|x l IH]; intros ys; cbn [map sequence].
  - intros [= <-]. constructor.
  - destruct (f x) as [y|e] eqn:Hy; [|discriminate]. unfold mbind at 1, res_bind at 1.
    destruct (sequence (map f l)) as [ys'|e]; [|discriminate].
    unfold mbind, res_bind. intros [= <-]. constructor; [exact Hy|apply IH; reflexivity].
Qed.

(** What a lap returned by [_create_lap] holds. *)
Lemma create_lap_inv `{Numerics} (self : AnalysisPipeline.t) (number s e pool : Z)
    (lap_accel : ndarray) (lap : SwimLap) :
  AnalysisPipeline._create_lap self number s e lap_accel pool = Ok lap ->
  lap_number lap = number /\ start_idx lap = s /\ end_idx lap = e
  /\ pool_length_m lap = pool
  /\ EnergyClassifier.classify (AnalysisPipeline.classifier self) lap_accel
     = Ok (stroke_type lap)
  /\ BasicStrokeCounter.count_strokes (AnalysisPipeline.stroke_counter self) lap_accel
       (stroke_type lap)
     = Ok (stroke_count lap)
  /\ ~ (AnalysisPipeline.sampling_rate self == 0)%Q
  /\ duration_sec lap = (inject_Z (e - s) / AnalysisPipeline.sampling_rate self)%Q.
Proof.
  unfold AnalysisPipeline._create_lap.
  destruct (EnergyClassifier.classify _ lap_accel) as [st|] eqn:Hst; [|discriminate].
  unfold mbind at 1, res_bind at 1.
  destruct (BasicStrokeCounter.count_strokes _ lap_accel st) as [count|] eqn:Hcount;
    [|discriminate].
  unfold mbind at 1, res_bind at 1. unfold py_truediv.
  destruct (Qeq_bool (AnalysisPipeline.sampling_rate self) 0) eqn:Hrate; [discriminate|].
  unfold mbind, res_bind. intros [= <-].
  cbn [lap_number start_idx end_idx pool_length_m stroke_type stroke_count duration_sec].
  repeat split; try assumption.
  intros Heq. apply Qeq_eq_bool in Heq. congruence.
Qed.

(** The stages that a returned result has gone through. *)
Lemma analyze_inv `{Numerics} (self self' : AnalysisPipeline.t) (session : SessionData)
    (now : Z) (result : AnalysisResult) :
  AnalysisPipeline.analyze self session now = (Ok result, self') ->
  exists fa fg segments,
    AnalysisPipeline._preprocess self (sensor_data session) = (Ok (fa, fg), self')
    /\ PitchRollSegmenter.segment (AnalysisPipeline.segmenter self')
         {| timestamps := timestamps (sensor_data session);
            accel := fa; gyro := fg;
            mag := mag (sensor_data session);
            pressure := pressure (sensor_data session) |}
         (Some (AnalysisPipeline.sampling_rate self'))
       = Ok segments
    /\ Forall2 (fun '(i, (s, e)) lap =>
                  AnalysisPipeline._create_lap self' (i + 1) s e (np_slice fa s e)
                    (session_pool_length_m session)
                  = Ok lap)
               (enumerate segments) (laps result)
    /\ result_session_id result = session_id session
    /\ processed_at result = now
    /\ result_pool_length_m result = session_pool_length_m session
    /\ filtered_accel result = Some fa
    /\ filtered_gyro result = Some fg.
Proof.
  unfold AnalysisPipeline.analyze.
  destruct (AnalysisPipeline._preprocess self (sensor_data session))
    as [[[fa fg]|e] p] eqn:Hpre; [|discriminate].
  unfold mbind at 1, res_bind at 1.
  destruct (PitchRollSegmenter.segment _ _ _) as [segments|e] eqn:Hseg; [|discriminate].
  unfold mbind at 1, res_bind at 1.
  destruct (sequence _) as [built|e] eqn:Hbuilt; [|discriminate].
  unfold mbind, res_bind. intros [= <- <-].
  exists fa, fg, segments. split; [reflexivity|]. split; [exact Hseg|].
  split; [|repeat split].
  apply sequence_map_inv in Hbuilt. cbn [laps].
  eapply Forall2_impl; [exact Hbuilt|]. intros [i [s e]] lap Hlap. exact Hlap.
Qed.

Lemma analyze_ok_laps `{Numerics} (self self' : AnalysisPipeline.t) (session : SessionData)
    (now : Z) (result : AnalysisResult) :
  AnalysisPipeline.analyze self session now = (Ok result, self') ->
  exists rows fg segments,
    filtered_accel result = Some (Arr2 rows)
    /\ filtered_gyro result = Some fg
    /\ shape (accel (sensor_data session)) = Shape2 (length rows)
    /\ shape (gyro (sensor_data session)) = shape fg
    /\ lap_ranges_valid
         (Z.of_nat (length rows))
         (py_int (default 10%Q (PitchRollSegmenter.config (AnalysisPipeline.segmenter self)
                                  !! "min_lap_duration_sec")
                  * AnalysisPipeline.sampling_rate self)%Q)
         segments
    /\ Forall2 (fun x lap =>
                  AnalysisPipeline._create_lap self (x.1 + 1) x.2.1 x.2.2
                    (Arr2 (py_slice rows x.2.1 x.2.2)) (session_pool_length_m session)
                  = Ok lap)
               (enumerate segments) (laps result)
    /\ result_session_id result = session_id session
    /\ processed_at result = now
    /\ result_pool_length_m result = session_pool_length_m session.
Proof.
  intros Hanalyze.
  destruct (analyze_inv _ _ _ _ _ Hanalyze)
    as (fa & fg & segments & Hpre & Hseg & Hlaps & Hid & Hnow & Hpool & Hfa & Hfg).
  destruct (preprocess_state _ _ _ _ Hpre) as (p & ->).
  destruct (preprocess_ok_shapes _ _ _ _ _ Hpre) as (Hshape_a & Hshape_g).
  cbn [AnalysisPipeline.with_preprocessor AnalysisPipeline.segmenter
       AnalysisPipeline.sampling_rate] in Hseg.
  destruct fa as [xs|rows]; [discriminate Hseg|].
  destruct (segment_valid_ranges (AnalysisPipeline.segmenter self)
              (timestamps (sensor_data session)) fg rows
              (mag (sensor_data session)) (pressure (sensor_data session))
              (Some (AnalysisPipeline.sampling_rate self))) as (segments' & Hseg' & Hvalid).
  rewrite Hseg in Hseg'. injection Hseg' as <-.
  exists rows, fg, segments. split; [exact Hfa|]. split; [exact Hfg|].
  split; [symmetry; exact Hshape_a|]. split; [symmetry; exact Hshape_g|].
  split; [exact Hvalid|]. split; [|auto].
  eapply Forall2_impl; [exact Hlaps|]. intros [i [s e]] lap Hlap. exact Hlap.
Qed.

Lemma Forall2_map_eq {A B C : Type} (f : A -> C) (g : B -> C) (l : list A) (k : list B) :
  Forall2 (fun x y => g y = f x) l k -> map g k = map f l.
Proof. induction 1 as [|x y l k Hxy _ IH]; cbn [map]; [reflexivity|]. rewrite Hxy, IH. done. Qed.

Lemma fst_enumerate {A : Type} (l : list A) :
  map fst (enumerate l) = seqZ 0 (Z.of_nat (length l)).
Proof. unfold enumerate. apply fst_zip. rewrite length_seqZ. lia. Qed.

(** X16: the laps of a result. Whenever [analyze] returns, the result
    carries the session's id and pool length and the time of the
    analysis; its laps are numbered 1, 2, ... in order; each lap has the
    session's pool length, lasts [(end_idx - start_idx) / sampling_rate]
    seconds, has a stroke count that is not negative and a style that is
    never rest or turn; the ranges of the laps lie within the [N] rows of
    the acceleration, in order and without overlap; the filtered arrays
    have the shapes of the input arrays; and the total distance is the
    pool length times the number of laps. If there is a lap, the
    sampling rate is not 0. *)
Theorem analyze_lap_structure `{Numerics} (self self' : AnalysisPipeline.t)
    (session : SessionData) (now : Z) (result : AnalysisResult) :
  AnalysisPipeline.analyze self session now = (Ok result, self') ->
  result_session_id result = session_id session
  /\ processed_at result = now
  /\ result_pool_length_m result = session_pool_length_m session
  /\ map lap_number (laps result) = seqZ 1 (total_laps result)
  /\ Forall (fun lap =>
               pool_length_m lap = session_pool_length_m session
               /\ ~ (AnalysisPipeline.sampling_rate self == 0)%Q
               /\ duration_sec lap
                  = (inject_Z (end_idx lap - start_idx lap)
                     / AnalysisPipeline.sampling_rate self)%Q
               /\ 0 <= stroke_count lap
               /\ stroke_type lap ∈ [FREESTYLE; BACKSTROKE; BREASTSTROKE; BUTTERFLY; UNKNOWN])
            (laps result)
  /\ total_distance_m result = session_pool_length_m session * total_laps result
  /\ exists fa fg n,
       filtered_accel result = Some fa /\ filtered_gyro result = Some fg
       /\ shape fa = Shape2 n /\ shape (accel (sensor_data session)) = Shape2 n
       /\ shape fg = shape (gyro (sensor_data session))
       /\ Forall (fun lap => 0 <= start_idx lap /\ start_idx lap < end_idx lap
                             /\ end_idx lap <= Z.of_nat n) (laps result)
       /\ StronglySorted (fun a b => end_idx a <= start_idx b) (laps result).
Proof.
  intros Hanalyze.
  destruct (analyze_ok_laps _ _ _ _ _ Hanalyze)
    as (rows & fg & segments & Hfa & Hfg & Hshape_a & Hshape_g & Hvalid & Hlaps
        & Hid & Hnow & Hpool).
  split; [exact Hid|]. split; [exact Hnow|]. split; [exact Hpool|].
  assert (Hfacts : Forall2 (fun x lap =>
            lap_number lap = x.1 + 1 /\ (start_idx lap, end_idx lap) = x.2
            /\ pool_length_m lap = session_pool_length_m session
            /\ ~ (AnalysisPipeline.sampling_rate self == 0)%Q
            /\ duration_sec lap
               = (inject_Z (end_idx lap - start_idx lap)
                  / AnalysisPipeline.sampling_rate self)%Q
            /\ 0 <= stroke_count lap
            /\ stroke_type lap ∈ [FREESTYLE; BACKSTROKE; BREASTSTROKE; BUTTERFLY; UNKNOWN])
          (enumerate segments) (laps result)).
  { eapply Forall2_impl; [exact Hlaps|]. intros [i [s e]] lap Hlap. cbn [fst snd] in *.
    apply create_lap_inv in Hlap
      as (Hnum & Hs & He & Hp & Hclass & Hcount & Hrate & Hdur).
    split; [exact Hnum|]. split; [congruence|]. split; [exact Hp|]. split; [exact Hrate|].
    split; [rewrite Hdur, Hs, He; reflexivity|]. split.
    - destruct (count_strokes_is_ok (AnalysisPipeline.stroke_counter self)
                  (py_slice rows s e) (stroke_type lap)) as (count & Hc & Hnonneg).
      rewrite Hcount in Hc. injection Hc as <-. exact Hnonneg.
    - destruct (classify_styles (AnalysisPipeline.classifier self) (py_slice rows s e))
        as (st & Hst & Hcases).
      rewrite Hclass in Hst. injection Hst as <-. rewrite !elem_of_cons.
      destruct Hcases as [[_ ->]|[_ Hin]]; [auto 10|].
      rewrite !elem_of_cons, elem_of_nil in Hin. tauto. }
  assert (Hlen : length (laps result) = length segments).
  { apply Forall2_length in Hlaps. rewrite length_enumerate in Hlaps. lia. }
  assert (Hranges : map (fun lap => (start_idx lap, end_idx lap)) (laps result) = segments).
  { transitivity (map snd (enumerate segments)); [|apply snd_enumerate].
    apply Forall2_map_eq. eapply Forall2_impl; [exact Hfacts|]. cbn beta. tauto. }
  assert (Heach : Forall (fun lap =>
               pool_length_m lap = session_pool_length_m session
               /\ ~ (AnalysisPipeline.sampling_rate self == 0)%Q
               /\ duration_sec lap
                  = (inject_Z (end_idx lap - start_idx lap)
                     / AnalysisPipeline.sampling_rate self)%Q
               /\ 0 <= stroke_count lap
               /\ stroke_type lap ∈ [FREESTYLE; BACKSTROKE; BREASTSTROKE; BUTTERFLY; UNKNOWN])
            (laps result)).
  { clear - Hfacts. induction Hfacts as [|x lap xs laps Hx _ IH]; constructor; [tauto|exact IH]. }
  split; [|split; [exact Heach|split]].
  - unfold total_laps. rewrite Hlen.
    transitivity (map (fun x : Z * (Z * Z) => x.1 + 1) (enumerate segments)).
    + apply Forall2_map_eq. eapply Forall2_impl; [exact Hfacts|]. cbn beta. tauto.
    + rewrite <- (map_map fst (fun i => i + 1)), fst_enumerate.
      change (map (fun i => i + 1) (seqZ 0 (Z.of_nat (length segments))))
        with ((fun i => i + 1) <$> seqZ 0 (Z.of_nat (length segments))).
      rewrite <- (fmap_add_seqZ 1 0). apply list_fmap_ext. intros _ i _. lia.
  - unfold total_distance_m, total_laps. rewrite <- (length_map distance_m).
    apply py_sum_int_constant. apply Forall_fmap.
    eapply Forall_impl; [exact Heach|]. intros lap Hlap. apply Hlap.
  - exists (Arr2 rows), fg, (length rows).
    split; [exact Hfa|]. split; [exact Hfg|]. split; [reflexivity|].
    split; [exact Hshape_a|]. split; [symmetry; exact Hshape_g|].
    destruct Hvalid as (Hbounds & _ & Hsorted). rewrite <- Hranges in Hbounds, Hsorted.
    split.
    + apply Forall_fmap in Hbounds. eapply Forall_impl; [exact Hbounds|].
      intros lap Hlap. cbn in Hlap. lia.
    + clear - Hsorted. induction (laps result) as [|lap ls IH]; [constructor|].
      cbn [map] in Hsorted. apply StronglySorted_inv in Hsorted as [Htail Hhead].
      constructor; [apply IH, Htail|].
      rewrite Forall_forall in Hhead. apply Forall_forall. intros b Hb.
      apply (Hhead (start_idx b, end_idx b)).
      apply (list_elem_of_fmap_2 (fun lap => (start_idx lap, end_idx lap))), Hb.
Qed.

(** Two bursts of 15 s at 1 Hz make laps 1 and 2. *)
Lemma analyze_lap_structure_witness :
  exists result self',
    AnalysisPipeline.analyze (AnalysisPipeline.init 1 48 3.0 ∅ ∅) two_bursts_session 0
    = (Ok result, self')
    /\ map lap_number (laps result) = seqZ 1 (total_laps result)
    /\ total_laps result = 2.
Proof.
  assert (Hrun : { out : AnalysisResult * AnalysisPipeline.t |
                   AnalysisPipeline.analyze (AnalysisPipeline.init 1 48 3.0 ∅ ∅)
                     two_bursts_session 0
                   = (Ok out.1, out.2) /\ total_laps out.1 = 2 }).
  { eexists (_, _). cbn [fst snd]. split; [vm_compute; reflexivity|reflexivity]. }
  destruct Hrun as ([result self'] & Hrun & Hcount). cbn [fst snd] in Hrun, Hcount.
  exists result, self'. split; [exact Hrun|]. split; [|exact Hcount].
  apply (analyze_lap_structure _ _ _ _ _ Hrun).
Defined.

(** X17: laps long enough to be classified. When the minimum lap
    duration (10 s unless configured) times the sampling rate, truncated
    to whole samples, is at least 30, every lap of a returned result
    spans at least 30 samples and has one of the styles freestyle,
    backstroke, breaststroke and butterfly: no lap is unknown. *)
Theorem analyze_laps_have_a_style `{Numerics} (self self' : AnalysisPipeline.t)
    (session : SessionData) (now : Z) (result : AnalysisResult) :
  AnalysisPipeline.analyze self session now = (Ok result, self') ->
  30 <= py_int (default 10%Q (PitchRollSegmenter.config (AnalysisPipeline.segmenter self)
                                !! "min_lap_duration_sec")
                * AnalysisPipeline.sampling_rate self)%Q ->
  Forall (fun lap =>
            30 <= end_idx lap - start_idx lap
            /\ stroke_type lap ∈ [FREESTYLE; BACKSTROKE; BREASTSTROKE; BUTTERFLY])
         (laps result).
Proof.
  intros Hanalyze Hmin.
  destruct (analyze_ok_laps _ _ _ _ _ Hanalyze)
    as (rows & fg & segments & _ & _ & _ & _ & Hvalid & Hlaps & _).
  destruct Hvalid as (Hbounds & _).
  eapply Forall2_Forall_r; [exact Hlaps|].
  apply Forall_forall. intros [i [s e]] Hin lap Hlap. cbn [fst snd] in Hlap.
  assert (Hrange : (s, e) ∈ segments).
  { rewrite <- (snd_enumerate segments).
    apply (list_elem_of_fmap_2 snd) in Hin. exact Hin. }
  rewrite Forall_forall in Hbounds. specialize (Hbounds _ Hrange).
  cbn beta iota in Hbounds. destruct Hbounds as (Hs & Hse & He & Hlong).
  apply create_lap_inv in Hlap as (_ & -> & -> & _ & Hclass & _).
  split; [lia|].
  destruct (classify_styles (AnalysisPipeline.classifier self) (py_slice rows s e))
    as (st & Hst & Hcases).
  rewrite Hclass in Hst. injection Hst as <-.
  destruct Hcases as [[Hshort _]|[_ Hstyle]]; [|exact Hstyle].
  exfalso. rewrite length_py_slice, slice_bounds_valid in Hshort by lia.
  cbn [fst snd] in Hshort. lia.
Qed.

(** One burst of 40 samples at 3 Hz. *)
Lemma analyze_laps_have_a_style_witness :
  exists result self',
    AnalysisPipeline.analyze (AnalysisPipeline.init 3 60 3.0 ∅ ∅) one_burst_session 0
    = (Ok result, self')
    /\ 30 <= py_int (default 10%Q
                       (PitchRollSegmenter.config
                          (AnalysisPipeline.segmenter (AnalysisPipeline.init 3 60 3.0 ∅ ∅))
                          !! "min_lap_duration_sec")
                     * AnalysisPipeline.sampling_rate (AnalysisPipeline.init 3 60 3.0 ∅ ∅))%Q
    /\ total_laps result = 1
    /\ Forall (fun lap =>
                 30 <= end_idx lap - start_idx lap
                 /\ stroke_type lap ∈ [FREESTYLE; BACKSTROKE; BREASTSTROKE; BUTTERFLY])
              (laps result).
Proof.
  assert (Hrun : { out : AnalysisResult * AnalysisPipeline.t |
                   AnalysisPipeline.analyze (AnalysisPipeline.init 3 60 3.0 ∅ ∅)
                     one_burst_session 0
                   = (Ok out.1, out.2) /\ total_laps out.1 = 1 }).
  { eexists (_, _). cbn [fst snd]. split; [vm_compute; reflexivity|reflexivity]. }
  destruct Hrun as ([result self'] & Hrun & Hcount). cbn [fst snd] in Hrun, Hcount.
  assert (Hmin : 30 <= py_int (default 10%Q
                       (PitchRollSegmenter.config
                          (AnalysisPipeline.segmenter (AnalysisPipeline.init 3 60 3.0 ∅ ∅))
                          !! "min_lap_duration_sec")
                     * AnalysisPipeline.sampling_rate (AnalysisPipeline.init 3 60 3.0 ∅ ∅))%Q)
    by (vm_compute; discriminate).
  exists result, self'. split; [exact Hrun|]. split; [exact Hmin|]. split; [exact Hcount|].
  exact (analyze_laps_have_a_style _ _ _ _ _ Hrun Hmin).
Defined.

(** ** AnalysisPipeline: analysing again *)

Lemma process_idempotent `{Numerics} (self self' : SwimBITFilter.t) (data : ndarray)
    (rate : Q) (out : res ndarray) :
  SwimBITFilter.process self data rate = (out, self') ->
  SwimBITFilter.process self' data rate = (out, self')
  /\ SwimBITFilter.order self' = SwimBITFilter.order self
  /\ (((np_len data <= SwimBITFilter.order self + 1)%nat /\ self' = self)
      \/ ((SwimBITFilter.order self + 1 < np_len data)%nat
          /\ forall fa, out = Ok fa ->
               is_Some (SwimBITFilter.cache_get
                          (SwimBITFilter._filter_taps_cache self') rate))).
Proof.
  unfold SwimBITFilter.process at 1.
  destruct (Nat.leb_spec (np_len data) (SwimBITFilter.order self + 1)) as [Hshort|Hlong].
  - intros [= <- <-]. split; [|split; [reflexivity|left; auto]].
    apply process_short_identity, Hshort.
  - destruct (SwimBITFilter._get_filter_taps self rate) as [taps p] eqn:Htaps.
    intros [= <- <-].
    destruct (get_filter_taps_spec _ _ _ _ Htaps) as (Hagain & Horder & _ & _ & Hcached & _).
    split; [|split; [exact Horder|right; split; [exact Hlong|]]].
    + unfold SwimBITFilter.process. rewrite Horder.
      destruct (Nat.leb_spec (np_len data) (SwimBITFilter.order self + 1)); [lia|].
      rewrite Hagain. reflexivity.
    + intros fa Hfa. destruct taps as [t|e]; [|discriminate].
      rewrite (Hcached t eq_refl). eexists. reflexivity.
Qed.

Lemma process_cached `{Numerics} (self : SwimBITFilter.t) (data : ndarray) (rate : Q) :
  is_Some (SwimBITFilter.cache_get (SwimBITFilter._filter_taps_cache self) rate) ->
  (SwimBITFilter.process self data rate).2 = self.
Proof.
  intros [taps Hcached]. unfold SwimBITFilter.process.
  destruct (np_len data <=? SwimBITFilter.order self + 1)%nat; [reflexivity|].
  unfold SwimBITFilter._get_filter_taps. rewrite Hcached. reflexivity.
Qed.

Lemma preprocess_idempotent `{Numerics} (self : AnalysisPipeline.t)
    (sd : SensorData ndarray) :
  AnalysisPipeline._preprocess (AnalysisPipeline._preprocess self sd).2 sd
  = AnalysisPipeline._preprocess self sd.
Proof.
  unfold AnalysisPipeline._preprocess at 2 3.
  destruct (SwimBITFilter.process (AnalysisPipeline.preprocessor self) (accel sd)
              (AnalysisPipeline.sampling_rate self)) as [oa p1] eqn:Ha.
  destruct (process_idempotent _ _ _ _ _ Ha) as (Ha' & Horder1 & Hstate1).
  destruct oa as [fa|e].
  - destruct (SwimBITFilter.process p1 (gyro sd) (AnalysisPipeline.sampling_rate self))
      as [og p2] eqn:Hg.
    destruct (process_idempotent _ _ _ _ _ Hg) as (Hg' & Horder2 & _).
    cbn [snd]. unfold AnalysisPipeline._preprocess.
    cbn [AnalysisPipeline.with_preprocessor AnalysisPipeline.preprocessor
         AnalysisPipeline.sampling_rate].
    destruct Hstate1 as [[Hshort ->]|[Hlong Hcached]].
    + rewrite process_short_identity by (rewrite Horder2; exact Hshort).
      rewrite process_short_identity in Ha by exact Hshort. injection Ha as <-.
      rewrite Hg'. reflexivity.
    + assert (Hp2 : p2 = p1).
      { pose proof (process_cached p1 (gyro sd) (AnalysisPipeline.sampling_rate self)
                      (Hcached fa eq_refl)) as Hsame.
        rewrite Hg in Hsame. exact Hsame. }
      subst p2. rewrite Ha', Hg. reflexivity.
  - cbn [snd]. unfold AnalysisPipeline._preprocess.
    cbn [AnalysisPipeline.with_preprocessor AnalysisPipeline.preprocessor
         AnalysisPipeline.sampling_rate].
    rewrite Ha'. reflexivity.
Qed.

(** The time of the call enters the result as [processed_at] and
    nowhere else. *)
Lemma analyze_at_time `{Numerics} (self : AnalysisPipeline.t) (session : SessionData)
    (now now' : Z) :
  AnalysisPipeline.analyze self session now'
  = (stamped now' <$> (AnalysisPipeline.analyze self session now).1,
     (AnalysisPipeline.analyze self session now).2).
Proof.
  unfold AnalysisPipeline.analyze.
  destruct (AnalysisPipeline._preprocess self (sensor_data session)) as [filtered self1].
  cbn [fst snd]. f_equal.
  destruct filtered as [[fa fg]|e]; [|reflexivity].
  unfold mbind, res_bind. cbn beta iota.
  destruct (PitchRollSegmenter.segment _ _ _) as [segments|e]; [|reflexivity].
  destruct (sequence _) as [ls|e]; reflexivity.
Qed.

(** A second call at the same time. *)
Lemma analyze_again `{Numerics} (self : AnalysisPipeline.t) (session : SessionData)
    (now : Z) :
  AnalysisPipeline.analyze (AnalysisPipeline.analyze self session now).2 session now
  = AnalysisPipeline.analyze self session now
  /\ exists p, (AnalysisPipeline.analyze self session now).2
               = AnalysisPipeline.with_preprocessor self p.
Proof.
  pose proof (preprocess_idempotent self (sensor_data session)) as Hidem.
  unfold AnalysisPipeline.analyze at 2 3 4.
  destruct (AnalysisPipeline._preprocess self (sensor_data session)) as [filtered self1]
    eqn:Hpre.
  cbn [snd] in *. split.
  - unfold AnalysisPipeline.analyze. rewrite Hidem. reflexivity.
  - eapply preprocess_state, Hpre.
Qed.

(** X18: analysing again. [analyze] changes nothing of a pipeline but
    the filter's cache of taps, and the cache does not change what is
    computed: a second call with the same session, at whatever time, on
    the pipeline as the first call left it, raises the same exception or
    returns the same result but for [processed_at], which is the time of
    the second call, and leaves the pipeline as it is. *)
Theorem analyze_repeatable `{Numerics} (self : AnalysisPipeline.t) (session : SessionData)
    (now now' : Z) :
  let first := AnalysisPipeline.analyze self session now in
  AnalysisPipeline.analyze first.2 session now' = (stamped now' <$> first.1, first.2)
  /\ exists p, first.2 = AnalysisPipeline.with_preprocessor self p.
Proof.
  intros first. destruct (analyze_again self session now) as [Hagain Hstate].
  fold first in Hagain, Hstate. split; [|exact Hstate].
  rewrite (analyze_at_time first.2 session now now'), Hagain. reflexivity.
Qed.

(** ** AnalysisPipeline: a sampling rate of 0 *)

Lemma create_lap_zero_sampling_rate `{Numerics} (self : AnalysisPipeline.t)
    (number s e pool : Z) (rows : list vec3) :
  (AnalysisPipeline.sampling_rate self == 0)%Q ->
  AnalysisPipeline._create_lap self number s e (Arr2 rows) pool = Raise ZeroDivisionError.
Proof.
  intros Hrate. unfold AnalysisPipeline._create_lap.
  destruct (classify_is_ok (AnalysisPipeline.classifier self) rows) as (st & ->).
  unfold mbind, res_bind.
  destruct (count_strokes_is_ok (AnalysisPipeline.stroke_counter self) rows st)
    as (count & -> & _).
  unfold py_truediv. rewrite (Qeq_eq_bool _ _ Hrate). reflexivity.
Qed.

Lemma enumerate_cons {A : Type} (x : A) (l : list A) :
  exists rest, enumerate (x :: l) = (0, x) :: rest.
Proof.
  pose proof (lookup_enumerate (x :: l) 0) as Hhead. cbn in Hhead.
  destruct (enumerate (x :: l)) as [|y rest]; [discriminate|].
  injection Hhead as ->. exists rest. reflexivity.
Qed.

(** X19: a pipeline built for sampling rate 0. On a session whose
    acceleration has shape (N,3), [analyze] either raises
    ZeroDivisionError or returns a result without laps; it never returns
    a lap. *)
Theorem analyze_zero_sampling_rate `{Numerics} (rate : Q) (order : nat) (cutoff : Q)
    (segmentation_config thresholds : gmap string Q) (session : SessionData) (now : Z)
    (rows : list vec3) :
  (rate == 0)%Q ->
  accel (sensor_data session) = Arr2 rows ->
  (AnalysisPipeline.analyze
     (AnalysisPipeline.init rate order cutoff segmentation_config thresholds)
     session now).1 = Raise ZeroDivisionError
  \/ exists result,
       (AnalysisPipeline.analyze
          (AnalysisPipeline.init rate order cutoff segmentation_config thresholds)
          session now).1 = Ok result
       /\ laps result = [].
Proof.
  intros Hrate Haccel.
  unfold AnalysisPipeline.analyze, AnalysisPipeline._preprocess.
  cbn [AnalysisPipeline.init AnalysisPipeline.preprocessor AnalysisPipeline.sampling_rate].
  rewrite !(process_at_zero_rate (SwimBITFilter.init order cutoff) _ rate Hrate eq_refl).
  rewrite Haccel.
  destruct (np_len (Arr2 rows) <=? _)%nat; [|left; reflexivity].
  destruct (np_len (gyro (sensor_data session)) <=? _)%nat; [|left; reflexivity].
  cbn [fst]. unfold mbind, res_bind. cbn beta iota.
  match goal with
  | |- context [PitchRollSegmenter.segment ?seg ?sd ?r] =>
      destruct (segment_valid_ranges seg (timestamps sd) (gyro sd) rows (mag sd)
                  (pressure sd) r) as (segments & Hseg & _)
  end.
  cbn [timestamps gyro mag pressure] in Hseg. rewrite Hseg.
  destruct segments as [|[s e] segments].
  - right. eexists. split; [reflexivity|reflexivity].
  - left. destruct (enumerate_cons (s, e) segments) as (rest & ->).
    cbn [map sequence np_slice].
    rewrite create_lap_zero_sampling_rate by exact Hrate. reflexivity.
Qed.

(** Ten samples at rest and a burst of twenty, at sampling rate 0. *)
Lemma analyze_zero_sampling_rate_witness :
  (0 == 0)%Q
  /\ (AnalysisPipeline.analyze (AnalysisPipeline.init 0 48 3.0 ∅ ∅)
        (mkSessionData 4 1 25 0
           (mkSensorData (Arr1 []) (Arr2 (at_rest 10 ++ swinging 20)) (Arr2 []) None None)
           None "unknown") 0).1
     = Raise ZeroDivisionError.
Proof.
  split; [reflexivity|].
  destruct (analyze_zero_sampling_rate 0 48 3.0 ∅ ∅
              (mkSessionData 4 1 25 0
                 (mkSensorData (Arr1 []) (Arr2 (at_rest 10 ++ swinging 20)) (Arr2 [])
                               None None)
                 None "unknown") 0 (at_rest 10 ++ swinging 20) (Qeq_refl 0) eq_refl)
    as [Hraise|(result & Hresult & _)]; [exact Hraise|].
  vm_compute in Hresult. discriminate Hresult.
Defined.

(** ** The session endpoints *)

Lemma update_session_lookup (st : sessions.state) (session_id other : N)
    (f : sessions.session_dict -> sessions.session_dict) :
  sessions._sessions (sessions.update_session st session_id f) !! other
  = if decide (session_id = other) then f <$> sessions._sessions st !! other
    else sessions._sessions st !! other.
Proof.
  unfold sessions.update_session.
  destruct (sessions._sessions st !! session_id) as [session|] eqn:Hs; cbn.
  - destruct (decide (session_id = other)) as [<-|Hne].
    + rewrite lookup_insert_eq, Hs. reflexivity.
    + rewrite lookup_insert_ne by exact Hne. reflexivity.
  - destruct (decide (session_id = other)) as [<-|Hne]; [rewrite Hs|]; reflexivity.
Qed.

Lemma update_session_results (st : sessions.state) (session_id : N)
    (f : sessions.session_dict -> sessions.session_dict) :
  sessions._analysis_results (sessions.update_session st session_id f)
  = sessions._analysis_results st.
Proof.
  unfold sessions.update_session.
  destruct (sessions._sessions st !! session_id); reflexivity.
Qed.

Lemma update_session_absent (st : sessions.state) (session_id : N)
    (f : sessions.session_dict -> sessions.session_dict) :
  sessions._sessions st !! session_id = None ->
  sessions.update_session st session_id f = st.
Proof. intros Hs. unfold sessions.update_session. rewrite Hs. reflexivity. Qed.

(** X20: what [upload_session] answers. The only 400 is for an empty
    file: a file that parses but lacks one of the seven required columns
    is answered with 500 (the 400 raised for it is caught by the
    endpoint's own handler), as is any other failure of the parser. No
    failed upload stores a session or queues an analysis. An upload with
    all required columns stores the session under its new id as
    processing, at progress 0 and without error, and queues one analysis
    of the same frame. *)
Theorem upload_session_outcomes (str : sessions.exception -> string) (st : sessions.state)
    (session_id : N) (now : Z) (parsed : sessions.outcome sessions.DataFrame)
    (pool_length_m : Z) (device_type : string) (notes : option string) :
  let answer :=
    sessions.upload_session str st session_id now parsed pool_length_m device_type notes in
  (forall e, answer.1.1 = sessions.Throw e ->
     answer.1.2 = st /\ answer.2 = None
     /\ exists code detail,
          e = sessions.HTTPException code detail
          /\ (code = 400 /\ parsed = sessions.Throw sessions.EmptyDataError
              \/ code = 500 /\ parsed <> sessions.Throw sessions.EmptyDataError))
  /\ (forall df col,
        parsed = sessions.Return df ->
        col ∈ sessions.required_cols ->
        sessions.columns df !! col = None ->
        exists detail, answer.1.1 = sessions.Throw (sessions.HTTPException 500 detail))
  /\ (forall df,
        parsed = sessions.Return df ->
        (forall col, col ∈ sessions.required_cols -> is_Some (sessions.columns df !! col)) ->
        answer
        = (sessions.Return
             (schemas.mkSessionUploadResponse session_id schemas.PROCESSING
                "Session uploaded successfully. Analysis in progress."),
           sessions.mk_state
             (<[session_id :=
                  sessions.mk_session_dict session_id schemas.PROCESSING pool_length_m
                    device_type notes now df 0 None]> (sessions._sessions st))
             (sessions._analysis_results st),
           Some (session_id, df, pool_length_m))).
Proof.
  intros answer. unfold answer, sessions.upload_session. split; [|split].
  - destruct parsed as [df|e0].
    + destruct (List.filter _ sessions.required_cols) as [|col missing]; cbn.
      * intros e [=].
      * intros e [= <-]. split; [reflexivity|]. split; [reflexivity|].
        eexists _, _. split; [reflexivity|]. right. split; [reflexivity|discriminate].
    + destruct e0; cbn; intros e' [= <-]; (split; [reflexivity|]);
        (split; [reflexivity|]); eexists _, _; (split; [reflexivity|]);
        first [left; split; reflexivity | right; split; [reflexivity|discriminate]].
  - intros df col -> Hcol Hmissing.
    assert (Hin : col ∈ List.filter
                    (fun c => bool_decide (sessions.columns df !! c = None))
                    sessions.required_cols).
    { apply list_elem_of_In, filter_In. split; [apply list_elem_of_In, Hcol|].
      apply bool_decide_eq_true. exact Hmissing. }
    destruct (List.filter _ sessions.required_cols) as [|c missing].
    + apply elem_of_nil in Hin. destruct Hin.
    + cbn. eexists. reflexivity.
  - intros df -> Hall.
    assert (Hnone : List.filter
                      (fun c => bool_decide (sessions.columns df !! c = None))
                      sessions.required_cols = []).
    { destruct (List.filter _ sessions.required_cols) as [|c missing] eqn:Hf; [reflexivity|].
      exfalso. assert (Hc : In c (c :: missing)) by (left; reflexivity).
      rewrite <- Hf in Hc. apply filter_In in Hc as [Hc Hmissing].
      apply bool_decide_eq_true in Hmissing.
      destruct (Hall c (proj2 (list_elem_of_In _ _) Hc)) as [xs Hxs]. congruence. }
    rewrite Hnone. reflexivity.
Qed.

(** The three ways through [_process_session]. *)
Lemma process_session_cases `{Numerics} (str : sessions.exception -> string)
    (config : sessions.AlgorithmConfig) (st : sessions.state) (session_id : N)
    (df : sessions.DataFrame) (pool_length_m : Z) (user_id : N) (start_time now : Z) :
  let pipeline :=
    AnalysisPipeline.init 30.0 (sessions.filter_order config)
      (sessions.filter_cutoff_hz config) (sessions.segmentation_config config)
      (sessions.classifier_thresholds config) in
  let st10 := sessions.update_session st session_id (sessions.set_progress 10) in
  let st30 := sessions.update_session st10 session_id (sessions.set_progress 30) in
  let st90 := sessions.update_session st30 session_id (sessions.set_progress 90) in
  (exists e,
     sessions.sensor_data_of_frame df = sessions.Throw e
     /\ sessions._process_session str config st session_id df pool_length_m user_id
          start_time now
        = sessions.mark_failed str st10 session_id e)
  \/ (exists sd e,
        sessions.sensor_data_of_frame df = sessions.Return sd
        /\ (AnalysisPipeline.analyze pipeline
              (mkSessionData session_id user_id pool_length_m start_time sd None "unknown")
              now).1 = Raise e
        /\ sessions._process_session str config st session_id df pool_length_m user_id
             start_time now
           = sessions.mark_failed str st30 session_id (sessions.CoreError e))
  \/ (exists sd result,
        sessions.sensor_data_of_frame df = sessions.Return sd
        /\ (AnalysisPipeline.analyze pipeline
              (mkSessionData session_id user_id pool_length_m start_time sd None "unknown")
              now).1 = Ok result
        /\ sessions._process_session str config st session_id df pool_length_m user_id
             start_time now
           = sessions.update_session
               (sessions.mk_state (sessions._sessions st90)
                  (<[session_id := result]> (sessions._analysis_results st90)))
               session_id
               (fun session =>
                  sessions.set_progress 100
                    (sessions.set_status schemas.COMPLETED session))).
Proof.
  intros pipeline st10 st30 st90. unfold sessions._process_session.
  destruct (sessions.sensor_data_of_frame df) as [sd|e].
  - fold pipeline st10 st30.
    destruct (AnalysisPipeline.analyze pipeline _ now).1 as [result|e] eqn:Hrun.
    + right. right. exists sd, result. auto.
    + right. left. exists sd, e. auto.
  - left. exists e. auto.
Qed.

(** The session's entry and result after [_process_session]. *)
Lemma process_session_entry `{Numerics} (str : sessions.exception -> string)
    (config : sessions.AlgorithmConfig) (st : sessions.state) (session_id : N)
    (df : sessions.DataFrame) (pool_length_m : Z) (user_id : N) (start_time now : Z)
    (session : sessions.session_dict) :
  sessions._sessions st !! session_id = Some session ->
  let st' :=
    sessions._process_session str config st session_id df pool_length_m user_id
      start_time now in
  let pipeline :=
    AnalysisPipeline.init 30.0 (sessions.filter_order config)
      (sessions.filter_cutoff_hz config) (sessions.segmentation_config config)
      (sessions.classifier_thresholds config) in
  let entry status progress error :=
    sessions.mk_session_dict (sessions.id session) status (sessions.pool_length_m session)
      (sessions.device_type session) (sessions.notes session)
      (sessions.uploaded_at session) (sessions.data session) progress error in
  (forall other, other <> session_id ->
     sessions._sessions st' !! other = sessions._sessions st !! other
     /\ sessions._analysis_results st' !! other = sessions._analysis_results st !! other)
  /\ ((exists sd result,
         sessions.sensor_data_of_frame df = sessions.Return sd
         /\ (AnalysisPipeline.analyze pipeline
               (mkSessionData session_id user_id pool_length_m start_time sd None "unknown")
               now).1 = Ok result
         /\ sessions._sessions st' !! session_id
            = Some (entry schemas.COMPLETED 100 (sessions.error session))
         /\ sessions._analysis_results st' !! session_id = Some result)
      \/ (exists sd e,
            sessions.sensor_data_of_frame df = sessions.Return sd
            /\ (AnalysisPipeline.analyze pipeline
                  (mkSessionData session_id user_id pool_length_m start_time sd None
                                 "unknown")
                  now).1 = Raise e
            /\ sessions._sessions st' !! session_id
               = Some (entry schemas.FAILED 30 (Some (str (sessions.CoreError e))))
            /\ sessions._analysis_results st' !! session_id
               = sessions._analysis_results st !! session_id)
      \/ (exists e,
            sessions.sensor_data_of_frame df = sessions.Throw e
            /\ sessions._sessions st' !! session_id
               = Some (entry schemas.FAILED 10 (Some (str e)))
            /\ sessions._analysis_results st' !! session_id
               = sessions._analysis_results st !! session_id)).
Proof.
  intros Hsession st' pipeline entry.
  destruct (process_session_cases str config st session_id df pool_length_m user_id
              start_time now)
    as [(e & Hframe & Hst')|[(sd & e & Hframe & Hrun & Hst')|(sd & result & Hframe & Hrun & Hst')]];
    fold st' in Hst'; rewrite Hst'.
  - split.
    + intros other Hne. unfold sessions.mark_failed.
      rewrite !update_session_lookup, !update_session_results.
      destruct (decide (session_id = other)); [congruence|]. auto.
    + right. right. exists e. split; [exact Hframe|]. unfold sessions.mark_failed.
      rewrite !update_session_lookup, !update_session_results.
      destruct (decide (session_id = session_id)); [|congruence].
      rewrite Hsession. split; reflexivity.
  - split.
    + intros other Hne. unfold sessions.mark_failed.
      rewrite !update_session_lookup, !update_session_results.
      destruct (decide (session_id = other)); [congruence|]. auto.
    + right. left. exists sd, e. split; [exact Hframe|]. split; [exact Hrun|].
      unfold sessions.mark_failed.
      rewrite !update_session_lookup, !update_session_results.
      destruct (decide (session_id = session_id)); [|congruence].
      rewrite Hsession. split; reflexivity.
  - split.
    + intros other Hne.
      rewrite !update_session_lookup, !update_session_results.
      cbn [sessions._sessions sessions._analysis_results].
      rewrite !update_session_lookup, ?update_session_results.
      destruct (decide (session_id = other)); [congruence|].
      rewrite lookup_insert_ne by congruence. auto.
    + left. exists sd, result. split; [exact Hframe|]. split; [exact Hrun|].
      rewrite !update_session_lookup, !update_session_results.
      cbn [sessions._sessions sessions._analysis_results].
      rewrite !update_session_lookup, ?update_session_results.
      destruct (decide (session_id = session_id)); [|congruence].
      rewrite Hsession, lookup_insert_eq. split; reflexivity.
Qed.

Lemma astype_float_throws (cells : list sessions.cell) (e : sessions.exception) :
  sessions.astype_float cells = sessions.Throw e ->
  exists text, e = sessions.ConversionError text /\ sessions.Text text ∈ cells.
Proof.
  induction cells as [|c cells IH]; cbn; [discriminate|].
  destruct c as [x|s]; cbn.
  - destruct (sessions.astype_float cells) as [xs|e']; [discriminate|].
    intros [= <-]. destruct (IH eq_refl) as (text & -> & Hin).
    exists text. split; [reflexivity|]. apply elem_of_cons. auto.
  - intros [= <-]. exists s. split; [reflexivity|]. apply elem_of_cons. auto.
Qed.

Lemma astype_float_rows_throws (rows : list (sessions.cell * sessions.cell * sessions.cell))
    (e : sessions.exception) :
  sessions.astype_float_rows rows = sessions.Throw e ->
  exists text a b c,
    e = sessions.ConversionError text /\ (a, b, c) ∈ rows
    /\ (sessions.Text text = a \/ sessions.Text text = b \/ sessions.Text text = c).
Proof.
  induction rows as [|[[a b] c] rows IH]; cbn; [discriminate|].
  assert (Hhere : forall text, sessions.Text text = a \/ sessions.Text text = b
                               \/ sessions.Text text = c ->
            exists text' a' b' c',
              sessions.ConversionError text = sessions.ConversionError text'
              /\ (a', b', c') ∈ (a, b, c) :: rows
              /\ (sessions.Text text' = a' \/ sessions.Text text' = b'
                  \/ sessions.Text text' = c')).
  { intros text Ht. exists text, a, b, c. split; [reflexivity|].
    split; [apply elem_of_cons; auto|exact Ht]. }
  destruct a as [x|s]; cbn; [|intros [= <-]; apply Hhere; auto].
  destruct b as [y|s]; cbn; [|intros [= <-]; apply Hhere; auto].
  destruct c as [z|s]; cbn; [|intros [= <-]; apply Hhere; auto].
  destruct (sessions.astype_float_rows rows) as [vs|e']; [discriminate|].
  intros [= <-]. destruct (IH eq_refl) as (text & a' & b' & c' & -> & Hin & Ht).
  exists text, a', b', c'. split; [reflexivity|]. split; [apply elem_of_cons; auto|exact Ht].
Qed.

(** Why reading three columns fails: a column is missing, or a cell is a
    text. *)
Lemma rows_values_throws (df : sessions.DataFrame) (l0 l1 l2 : string)
    (e : sessions.exception) :
  sessions.rows_values df l0 l1 l2 = sessions.Throw e ->
  (exists labels col,
     e = sessions.KeyError labels /\ col ∈ [l0; l1; l2]
     /\ sessions.columns df !! col = None)
  \/ (exists text col cells,
        e = sessions.ConversionError text /\ col ∈ [l0; l1; l2]
        /\ sessions.columns df !! col = Some cells /\ sessions.Text text ∈ cells).
Proof.
  unfold sessions.rows_values.
  destruct (sessions.columns df !! l0) as [c0|] eqn:H0;
    [|intros [= <-]; left; eexists _, l0; rewrite !elem_of_cons; auto 10].
  destruct (sessions.columns df !! l1) as [c1|] eqn:H1;
    [|intros [= <-]; left; eexists _, l1; rewrite !elem_of_cons; auto 10].
  destruct (sessions.columns df !! l2) as [c2|] eqn:H2;
    [|intros [= <-]; left; eexists _, l2; rewrite !elem_of_cons; auto 10].
  destruct (sessions.astype_float_rows _) as [rows|e'] eqn:Hrows; [discriminate|].
  intros [= <-]. right.
  destruct (astype_float_rows_throws _ _ Hrows) as (text & a & b & c & -> & Hin & Ht).
  apply elem_of_zip_with in Hin. destruct Hin as ([a' b'] & c' & [= -> -> ->] & Hab & Hc).
  cbn [fst snd] in Ht.
  destruct Ht as [<-|[<-|<-]].
  - exists text, l0, c0. rewrite !elem_of_cons.
    split; [reflexivity|]. split; [auto 10|]. split; [exact H0|].
    eapply elem_of_zip_l, Hab.
  - exists text, l1, c1. rewrite !elem_of_cons.
    split; [reflexivity|]. split; [auto 10|]. split; [exact H1|].
    eapply elem_of_zip_r, Hab.
  - exists text, l2, c2. rewrite !elem_of_cons.
    split; [reflexivity|]. split; [auto 10|]. split; [exact H2|exact Hc].
Qed.

(** Why reading the sensor data of a frame fails: a required column is
    missing, or a cell of a column that is read is a text. *)
Lemma sensor_data_of_frame_throws (df : sessions.DataFrame) (e : sessions.exception) :
  sessions.sensor_data_of_frame df = sessions.Throw e ->
  (exists labels col,
     e = sessions.KeyError labels /\ col ∈ sessions.required_cols
     /\ sessions.columns df !! col = None)
  \/ (exists text col cells,
        e = sessions.ConversionError text
        /\ sessions.columns df !! col = Some cells /\ sessions.Text text ∈ cells).
Proof.
  unfold sessions.sensor_data_of_frame.
  destruct (sessions.column_values df "timestamp") as [ts|e'] eqn:Hts.
  - destruct (sessions.rows_values df "ACC_0" "ACC_1" "ACC_2") as [acc|e'] eqn:Hacc.
    + destruct (sessions.rows_values df "GYRO_0" "GYRO_1" "GYRO_2") as [gyr|e'] eqn:Hgyr.
      * destruct (forallb _ _) eqn:Hall; [|discriminate].
        destruct (sessions.rows_values df "MAG_0" "MAG_1" "MAG_2") as [magn|e'] eqn:Hmag;
          [discriminate|].
        intros [= <-]. right.
        destruct (rows_values_throws _ _ _ _ _ Hmag)
          as [(labels & col & -> & Hcol & Hnone)|(text & col & cells & -> & _ & Hc & Hin)].
        -- exfalso. cbn [forallb] in Hall. rewrite !andb_true_iff in Hall.
           rewrite !bool_decide_eq_true in Hall. destruct Hall as (Hm0 & Hm1 & Hm2 & _).
           rewrite !elem_of_cons, elem_of_nil in Hcol.
           destruct Hcol as [->|[->|[->|[]]]]; rewrite Hnone in *;
             match goal with
             | Hsome : is_Some None |- _ => destruct Hsome as [? Hsome]; discriminate Hsome
             end.
        -- eauto 10.
      * intros [= <-].
        destruct (rows_values_throws _ _ _ _ _ Hgyr)
          as [(labels & col & -> & Hcol & Hnone)|(text & col & cells & -> & _ & Hc & Hin)];
          [left|right; eauto 10].
        exists labels, col. split; [reflexivity|]. split; [|exact Hnone].
        unfold sessions.required_cols. rewrite !elem_of_cons, elem_of_nil in Hcol.
        rewrite !elem_of_cons. destruct Hcol as [->|[->|[->|[]]]]; auto 10.
    + intros [= <-].
      destruct (rows_values_throws _ _ _ _ _ Hacc)
        as [(labels & col & -> & Hcol & Hnone)|(text & col & cells & -> & _ & Hc & Hin)];
        [left|right; eauto 10].
      exists labels, col. split; [reflexivity|]. split; [|exact Hnone].
      unfold sessions.required_cols. rewrite !elem_of_cons, elem_of_nil in Hcol.
      rewrite !elem_of_cons. destruct Hcol as [->|[->|[->|[]]]]; auto 10.
  - intros [= <-]. unfold sessions.column_values in Hts.
    destruct (sessions.columns df !! "timestamp") as [cells|] eqn:Hc.
    + destruct (sessions.astype_float cells) as [xs|e''] eqn:Hconv; [discriminate|].
      injection Hts as <-. right.
      destruct (astype_float_throws _ _ Hconv) as (text & -> & Hin). eauto 10.
    + injection Hts as <-. left. exists ["timestamp"], "timestamp".
      split; [reflexivity|]. split; [|exact Hc].
      unfold sessions.required_cols. rewrite !elem_of_cons. auto.
Qed.

(** X21: what the background analysis leaves behind for a session
    that is still stored. The other sessions and results are untouched;
    of the session itself only the status, the progress and the error
    change, and it is never left as processing: either the analysis
    returned, the session is completed at progress 100 and the result is
    stored under its id; or the analysis raised, the session is failed at
    progress 30 with the exception's text as its error; or the sensor
    data could not be read from the frame, because a required column is
    missing or because a cell of a column that is read is a text, and the
    session is failed at progress 10 with the text of that KeyError or
    ValueError as its error. The stored result of a failed session is
    as it was. *)
Theorem process_session_outcome `{Numerics} (str : sessions.exception -> string)
    (config : sessions.AlgorithmConfig) (st : sessions.state) (session_id : N)
    (df : sessions.DataFrame) (pool_length_m : Z) (user_id : N) (start_time now : Z)
    (session : sessions.session_dict) :
  sessions._sessions st !! session_id = Some session ->
  let st' :=
    sessions._process_session str config st session_id df pool_length_m user_id
      start_time now in
  let pipeline :=
    AnalysisPipeline.init 30.0 (sessions.filter_order config)
      (sessions.filter_cutoff_hz config) (sessions.segmentation_config config)
      (sessions.classifier_thresholds config) in
  let entry status progress error :=
    sessions.mk_session_dict (sessions.id session) status (sessions.pool_length_m session)
      (sessions.device_type session) (sessions.notes session)
      (sessions.uploaded_at session) (sessions.data session) progress error in
  (forall other, other <> session_id ->
     sessions._sessions st' !! other = sessions._sessions st !! other
     /\ sessions._analysis_results st' !! other = sessions._analysis_results st !! other)
  /\ ((exists sd result,
         sessions.sensor_data_of_frame df = sessions.Return sd
         /\ (AnalysisPipeline.analyze pipeline
               (mkSessionData session_id user_id pool_length_m start_time sd None "unknown")
               now).1 = Ok result
         /\ sessions._sessions st' !! session_id
            = Some (entry schemas.COMPLETED 100 (sessions.error session))
         /\ sessions._analysis_results st' !! session_id = Some result)
      \/ (exists sd e,
            sessions.sensor_data_of_frame df = sessions.Return sd
            /\ (AnalysisPipeline.analyze pipeline
                  (mkSessionData session_id user_id pool_length_m start_time sd None
                                 "unknown")
                  now).1 = Raise e
            /\ sessions._sessions st' !! session_id
               = Some (entry schemas.FAILED 30 (Some (str (sessions.CoreError e))))
            /\ sessions._analysis_results st' !! session_id
               = sessions._analysis_results st !! session_id)
      \/ (exists e,
            sessions.sensor_data_of_frame df = sessions.Throw e
            /\ ((exists labels col,
                    e = sessions.KeyError labels /\ col ∈ sessions.required_cols
                    /\ sessions.columns df !! col = None)
                \/ (exists text col cells,
                      e = sessions.ConversionError text
                      /\ sessions.columns df !! col = Some cells
                      /\ sessions.Text text ∈ cells))
            /\ sessions._sessions st' !! session_id
               = Some (entry schemas.FAILED 10 (Some (str e)))
            /\ sessions._analysis_results st' !! session_id
               = sessions._analysis_results st !! session_id)).
Proof.
  intros Hsession st' pipeline entry.
  destruct (process_session_entry str config st session_id df pool_length_m user_id
              start_time now session Hsession) as [Hothers Hcases].
  split; [exact Hothers|].
  destruct Hcases as [Hdone|[Hraised|(e & Hframe & Hentry & Hresults)]].
  - left. exact Hdone.
  - right. left. exact Hraised.
  - right. right. exists e. split; [exact Hframe|].
    split; [exact (sensor_data_of_frame_throws df e Hframe)|].
    split; [exact Hentry|exact Hresults].
Qed.

(** Ten lines at rest, uploaded as session 7, are analysed into a
    result without laps. *)
Lemma process_session_outcome_witness :
  sessions._sessions (one_upload (frame_at_rest 10)) !! 7%N
  = Some (sessions.mk_session_dict 7 schemas.PROCESSING 25 "unknown" None 0
            (frame_at_rest 10) 0 None)
  /\ sessions._sessions
       (sessions._process_session (fun _ => "error") config_order_48
          (one_upload (frame_at_rest 10)) 7 (frame_at_rest 10) 25 1 0 0) !! 7%N
     = Some (sessions.mk_session_dict 7 schemas.COMPLETED 25 "unknown" None 0
               (frame_at_rest 10) 100 None).
Proof.
  assert (Hsession : sessions._sessions (one_upload (frame_at_rest 10)) !! 7%N
                     = Some (sessions.mk_session_dict 7 schemas.PROCESSING 25 "unknown"
                               None 0 (frame_at_rest 10) 0 None)).
  { unfold one_upload. cbn [sessions._sessions]. apply lookup_singleton_eq. }
  split; [exact Hsession|].
  destruct (process_session_outcome (fun _ => "error") config_order_48
              (one_upload (frame_at_rest 10)) 7 (frame_at_rest 10) 25 1 0 0 _ Hsession)
    as [_ [(sd & result & _ & _ & Hentry & _)
          |[(sd & e & Hframe & Hrun & _)|(e & Hframe & _)]]].
  - exact Hentry.
  - exfalso. vm_compute in Hframe. injection Hframe as <-.
    vm_compute in Hrun. discriminate Hrun.
  - exfalso. vm_compute in Hframe. discriminate Hframe.
Defined.

(** X22: an analysis that ends after its session was deleted. When
    the session is no longer stored, [_process_session] changes no
    session; if the analysis returns, its result is stored all the same,
    and no endpoint reaches it: the status, the analysis and the deletion
    of that id are all answered with 404, the deletion leaving the result
    where it is. If the analysis fails, nothing changes at all. *)
Theorem process_session_of_deleted_session `{Numerics}
    (str : sessions.exception -> string) (str_int : Z -> string) (format_1f : Q -> string)
    (config : sessions.AlgorithmConfig) (st : sessions.state) (session_id : N)
    (df : sessions.DataFrame) (pool_length_m : Z) (user_id : N) (start_time now : Z) :
  sessions._sessions st !! session_id = None ->
  let st' :=
    sessions._process_session str config st session_id df pool_length_m user_id
      start_time now in
  let pipeline :=
    AnalysisPipeline.init 30.0 (sessions.filter_order config)
      (sessions.filter_cutoff_hz config) (sessions.segmentation_config config)
      (sessions.classifier_thresholds config) in
  sessions._sessions st' = sessions._sessions st
  /\ ((exists sd result,
         sessions.sensor_data_of_frame df = sessions.Return sd
         /\ (AnalysisPipeline.analyze pipeline
               (mkSessionData session_id user_id pool_length_m start_time sd None "unknown")
               now).1 = Ok result
         /\ sessions._analysis_results st'
            = <[session_id := result]> (sessions._analysis_results st))
      \/ st' = st)
  /\ sessions.get_session_status st' session_id
     = sessions.Throw (sessions.HTTPException 404 "Session not found")
  /\ sessions.get_analysis_result str_int format_1f st' session_id
     = sessions.Throw (sessions.HTTPException 404 "Session not found")
  /\ sessions.delete_session st' session_id
     = (sessions.Throw (sessions.HTTPException 404 "Session not found"), st').
Proof.
  intros Habsent st' pipeline.
  assert (Hsessions : sessions._sessions st' = sessions._sessions st
            /\ ((exists sd result,
                  sessions.sensor_data_of_frame df = sessions.Return sd
                  /\ (AnalysisPipeline.analyze pipeline
                        (mkSessionData session_id user_id pool_length_m start_time sd None
                                       "unknown")
                        now).1 = Ok result
                  /\ sessions._analysis_results st'
                     = <[session_id := result]> (sessions._analysis_results st))
                \/ st' = st)).
  { destruct (process_session_cases str config st session_id df pool_length_m user_id
                start_time now)
      as [(e & Hframe & Hst')|[(sd & e & Hframe & Hrun & Hst')
                              |(sd & result & Hframe & Hrun & Hst')]];
      fold st' in Hst'; rewrite Hst'; unfold sessions.mark_failed;
      rewrite ?(update_session_absent st) by exact Habsent.
    - split; [reflexivity|right; reflexivity].
    - split; [reflexivity|right; reflexivity].
    - rewrite update_session_absent by exact Habsent.
      split; [reflexivity|]. left. exists sd, result. auto. }
  destruct Hsessions as [Hsame Hresults]. split; [exact Hsame|]. split; [exact Hresults|].
  unfold sessions.get_session_status, sessions.get_analysis_result, sessions.delete_session.
  rewrite Hsame, Habsent. auto.
Qed.

(** Session 7 is not stored; the analysis of ten lines at rest, queued
    for it, stores a result. *)
Lemma process_session_of_deleted_session_witness :
  sessions._sessions (sessions.mk_state ∅ ∅) !! 7%N = None
  /\ is_Some (sessions._analysis_results
                (sessions._process_session (fun _ => "error") config_order_48
                   (sessions.mk_state ∅ ∅) 7 (frame_at_rest 10) 25 1 0 0) !! 7%N)
  /\ sessions.delete_session
       (sessions._process_session (fun _ => "error") config_order_48
          (sessions.mk_state ∅ ∅) 7 (frame_at_rest 10) 25 1 0 0) 7
     = (sessions.Throw (sessions.HTTPException 404 "Session not found"),
        sessions._process_session (fun _ => "error") config_order_48
          (sessions.mk_state ∅ ∅) 7 (frame_at_rest 10) 25 1 0 0).
Proof.
  assert (Habsent : sessions._sessions (sessions.mk_state ∅ ∅) !! 7%N = None)
    by apply lookup_empty.
  split; [exact Habsent|].
  destruct (process_session_of_deleted_session (fun _ => "error") (fun _ => "")
              (fun _ => "") config_order_48 (sessions.mk_state ∅ ∅) 7 (frame_at_rest 10)
              25 1 0 0 Habsent)
    as (_ & Hresults & _ & _ & Hdelete).
  split; [|exact Hdelete].
  destruct Hresults as [(sd & result & _ & _ & ->)|Hsame].
  - rewrite lookup_insert_eq. eexists. reflexivity.
  - exfalso. vm_compute in Hsame. discriminate Hsame.
Defined.

Lemma frame_has_rows_lookup (df : sessions.DataFrame) (n : nat) (col : string) :
  frame_has_rows df n -> col ∈ sessions.required_cols ->
  exists xs, sessions.columns df !! col = Some (sessions.Number <$> xs) /\ length xs = n.
Proof.
  unfold frame_has_rows. rewrite Forall_forall. intros [Hall _] Hcol. apply Hall, Hcol.
Qed.

Lemma astype_float_numbers (xs : list Q) :
  sessions.astype_float (sessions.Number <$> xs) = sessions.Return xs.
Proof. induction xs as [|x xs IH]; cbn; [reflexivity|]. rewrite IH. reflexivity. Qed.

Lemma astype_float_rows_numbers (a b c : list Q) :
  sessions.astype_float_rows
    (zip_with (fun ab c => (ab.1, ab.2, c))
       (zip (sessions.Number <$> a) (sessions.Number <$> b)) (sessions.Number <$> c))
  = sessions.Return (zip_with (fun xy z => mkVec3 xy.1 xy.2 z) (zip a b) c).
Proof.
  revert b c. induction a as [|x a IH]; intros [|y b] [|z c]; cbn; try reflexivity.
  rewrite IH. reflexivity.
Qed.

(** The sensor data of a frame with the required columns. *)
Lemma sensor_data_of_frame_rows (df : sessions.DataFrame) (n : nat) :
  frame_has_rows df n ->
  exists sd rows,
    sessions.sensor_data_of_frame df = sessions.Return sd
    /\ accel sd = Arr2 rows /\ length rows = n.
Proof.
  intros Hframe.
  destruct (frame_has_rows_lookup df n "timestamp" Hframe) as (ts & Hts & _);
    [unfold sessions.required_cols; rewrite !elem_of_cons; auto 10|].
  destruct (frame_has_rows_lookup df n "ACC_0" Hframe) as (a0 & Ha0 & Hl0);
    [unfold sessions.required_cols; rewrite !elem_of_cons; auto 10|].
  destruct (frame_has_rows_lookup df n "ACC_1" Hframe) as (a1 & Ha1 & Hl1);
    [unfold sessions.required_cols; rewrite !elem_of_cons; auto 10|].
  destruct (frame_has_rows_lookup df n "ACC_2" Hframe) as (a2 & Ha2 & Hl2);
    [unfold sessions.required_cols; rewrite !elem_of_cons; auto 10|].
  destruct (frame_has_rows_lookup df n "GYRO_0" Hframe) as (g0 & Hg0 & _);
    [unfold sessions.required_cols; rewrite !elem_of_cons; auto 10|].
  destruct (frame_has_rows_lookup df n "GYRO_1" Hframe) as (g1 & Hg1 & _);
    [unfold sessions.required_cols; rewrite !elem_of_cons; auto 10|].
  destruct (frame_has_rows_lookup df n "GYRO_2" Hframe) as (g2 & Hg2 & _);
    [unfold sessions.required_cols; rewrite !elem_of_cons; auto 10|].
  destruct Hframe as [_ Hmag]. rewrite Forall_forall in Hmag.
  assert (Hm : forall col cells, col ∈ ["MAG_0"; "MAG_1"; "MAG_2"] ->
                 sessions.columns df !! col = Some cells ->
                 exists xs, cells = sessions.Number <$> xs).
  { intros col cells Hcol. apply Hmag, Hcol. }
  unfold sessions.sensor_data_of_frame, sessions.column_values, sessions.rows_values.
  rewrite Hts, Ha0, Ha1, Ha2, Hg0, Hg1, Hg2.
  rewrite astype_float_numbers, !astype_float_rows_numbers.
  assert (Hrows : length (zip_with (fun xy z => mkVec3 xy.1 xy.2 z) (zip a0 a1) a2) = n).
  { rewrite length_zip_with, length_zip. lia. }
  cbn [forallb].
  destruct (sessions.columns df !! "MAG_0") as [m0|] eqn:Hm0;
    [|cbn; eexists _, _; (split; [reflexivity|split; [reflexivity|exact Hrows]])].
  destruct (sessions.columns df !! "MAG_1") as [m1|] eqn:Hm1;
    [|cbn; eexists _, _; (split; [reflexivity|split; [reflexivity|exact Hrows]])].
  destruct (sessions.columns df !! "MAG_2") as [m2|] eqn:Hm2;
    [|cbn; eexists _, _; (split; [reflexivity|split; [reflexivity|exact Hrows]])].
  destruct (Hm "MAG_0" m0) as [x0 ->]; [rewrite !elem_of_cons; auto|exact Hm0|].
  destruct (Hm "MAG_1" m1) as [x1 ->]; [rewrite !elem_of_cons; auto|exact Hm1|].
  destruct (Hm "MAG_2" m2) as [x2 ->]; [rewrite !elem_of_cons; auto|exact Hm2|].
  rewrite astype_float_rows_numbers. cbn.
  eexists _, _; (split; [reflexivity|split; [reflexivity|exact Hrows]]).
Qed.

Lemma analyze_medium_raises `{Numerics} (rate : Q) (order : nat) (cutoff : Q)
    (segmentation_config thresholds : gmap string Q) (session : SessionData) (now : Z) :
  ~ (rate == 0)%Q ->
  (order + 1 < np_len (accel (sensor_data session)))%nat ->
  (np_len (accel (sensor_data session)) <= 3 * (order + 1))%nat ->
  (AnalysisPipeline.analyze
     (AnalysisPipeline.init rate order cutoff segmentation_config thresholds)
     session now).1 = Raise ValueError.
Proof.
  intros Hrate Hlong Hshort. unfold AnalysisPipeline.analyze, AnalysisPipeline._preprocess.
  cbn [AnalysisPipeline.init AnalysisPipeline.preprocessor AnalysisPipeline.sampling_rate].
  destruct (process_medium_raises (SwimBITFilter.init order cutoff)
              (accel (sensor_data session)) rate) as (p & -> & _);
    [constructor|exact Hrate|exact Hlong|exact Hshort|].
  reflexivity.
Qed.

(** X23: recordings the filter cannot take end as failed. For a
    stored session and a frame with the seven required columns, all
    cells of these columns (and of the magnetometer's, if present)
    numbers, whose number of lines is more than [order + 1] and at most
    [3 * (order + 1)], for the configured filter order (with order 48:
    50 to 147 lines, 1.7 to 4.9 s at 30 Hz), the background analysis
    leaves the session failed at progress 30, its error the text of the
    ValueError of the filter, and leaves the results as they were. *)
Theorem process_session_short_recording_fails `{Numerics}
    (str : sessions.exception -> string) (config : sessions.AlgorithmConfig)
    (st : sessions.state) (session_id : N) (df : sessions.DataFrame) (pool_length_m : Z)
    (user_id : N) (start_time now : Z) (session : sessions.session_dict) (n : nat) :
  sessions._sessions st !! session_id = Some session ->
  frame_has_rows df n ->
  (sessions.filter_order config + 1 < n)%nat ->
  (n <= 3 * (sessions.filter_order config + 1))%nat ->
  let st' :=
    sessions._process_session str config st session_id df pool_length_m user_id
      start_time now in
  sessions._sessions st' !! session_id
  = Some (sessions.mk_session_dict (sessions.id session) schemas.FAILED
            (sessions.pool_length_m session) (sessions.device_type session)
            (sessions.notes session) (sessions.uploaded_at session) (sessions.data session)
            30 (Some (str (sessions.CoreError ValueError))))
  /\ sessions._analysis_results st' !! session_id
     = sessions._analysis_results st !! session_id.
Proof.
  intros Hsession Hframe Hlong Hshort st'.
  destruct (sensor_data_of_frame_rows df n Hframe) as (sd & rows & Hsd & Haccel & Hrows).
  assert (Hraise : forall sd' : SensorData ndarray, sd' = sd ->
            (AnalysisPipeline.analyze
               (AnalysisPipeline.init 30.0 (sessions.filter_order config)
                  (sessions.filter_cutoff_hz config) (sessions.segmentation_config config)
                  (sessions.classifier_thresholds config))
               (mkSessionData session_id user_id pool_length_m start_time sd' None "unknown")
               now).1 = Raise ValueError).
  { intros sd' ->. apply analyze_medium_raises; cbn [sensor_data]; rewrite ?Haccel;
      cbn [np_len]; [discriminate|lia|lia]. }
  destruct (process_session_entry str config st session_id df pool_length_m user_id
              start_time now session Hsession)
    as [_ [(sd' & result & Hsd' & Hrun & _)
          |[(sd' & e & Hsd' & Hrun & Hentry & Hresults)|(e & Hsd' & _)]]].
  - exfalso. rewrite Hsd in Hsd'. injection Hsd' as <-.
    rewrite (Hraise sd eq_refl) in Hrun. discriminate Hrun.
  - rewrite Hsd in Hsd'. injection Hsd' as <-.
    rewrite (Hraise sd eq_refl) in Hrun. injection Hrun as <-.
    split; [exact Hentry|exact Hresults].
  - exfalso. rewrite Hsd in Hsd'. discriminate Hsd'.
Qed.

(** A hundred lines at rest, uploaded as session 7. *)
Lemma process_session_short_recording_fails_witness :
  frame_has_rows (frame_at_rest 100) 100
  /\ (sessions.filter_order config_order_48 + 1 < 100)%nat
  /\ (100 <= 3 * (sessions.filter_order config_order_48 + 1))%nat
  /\ forall N : Numerics,
       sessions._sessions
         (@sessions._process_session N (fun _ => "error") config_order_48
            (one_upload (frame_at_rest 100)) 7 (frame_at_rest 100) 25 1 0 0) !! 7%N
       = Some (sessions.mk_session_dict 7 schemas.FAILED 25 "unknown" None 0
                 (frame_at_rest 100) 30 (Some "error")).
Proof.
  assert (Hframe : frame_has_rows (frame_at_rest 100) 100).
  { unfold frame_has_rows, sessions.required_cols. split.
    - repeat (constructor; [eexists; split; [reflexivity|vm_compute; reflexivity]|]).
      constructor.
    - repeat (constructor; [intros cells Hcells; vm_compute in Hcells; discriminate Hcells|]).
      constructor. }
  assert (Hlong : (sessions.filter_order config_order_48 + 1 < 100)%nat) by (cbn; lia).
  assert (Hshort : (100 <= 3 * (sessions.filter_order config_order_48 + 1))%nat)
    by (cbn; lia).
  split; [exact Hframe|]. split; [exact Hlong|]. split; [exact Hshort|]. intros N.
  assert (Hsession : sessions._sessions (one_upload (frame_at_rest 100)) !! 7%N
                     = Some (sessions.mk_session_dict 7 schemas.PROCESSING 25 "unknown"
                               None 0 (frame_at_rest 100) 0 None)).
  { unfold one_upload. cbn [sessions._sessions]. apply lookup_singleton_eq. }
  exact (proj1 (process_session_short_recording_fails (fun _ => "error") config_order_48
                  (one_upload (frame_at_rest 100)) 7 (frame_at_rest 100) 25 1 0 0 _ 100
                  Hsession Hframe Hlong Hshort)).
Defined.

Lemma lap_detail_ok (lap : SwimLap) :
  exists detail,
    sessions.lap_detail lap = Ok detail
    /\ schemas.lap_number detail = lap_number lap
    /\ schemas.stroke_type detail = stroke_type lap
    /\ schemas.stroke_count detail = stroke_count lap
    /\ schemas.swolf detail = swolf lap.
Proof.
  unfold sessions.lap_detail. pose proof (pace_per_100m_is_ok lap) as Hpace.
  destruct (pace_per_100m lap) as [pace|e]; [|destruct Hpace].
  eexists. split; [reflexivity|]. repeat split.
Qed.

(** The response schema of a stored result. *)
Lemma analysis_response_ok (str_int : Z -> string) (format_1f : Q -> string)
    (result : AnalysisResult) :
  exists response,
    sessions.analysis_response str_int format_1f result = Ok response
    /\ schemas.session_id response = result_session_id result
    /\ schemas.total_laps response = total_laps result
    /\ schemas.total_distance_m response = total_distance_m result
    /\ map schemas.lap_number (schemas.laps response) = map lap_number (laps result)
    /\ map schemas.swolf (schemas.laps response) = map swolf (laps result)
    /\ schemas.primary_stroke (schemas.summary response) = primary_stroke result.
Proof.
  unfold sessions.analysis_response.
  destruct (sequence_map_ok sessions.lap_detail
              (fun lap detail => schemas.lap_number detail = lap_number lap
                                 /\ schemas.swolf detail = swolf lap)
              (laps result)) as (details & -> & Hdetails).
  { intros lap. destruct (lap_detail_ok lap) as (detail & Hd & Hn & _ & _ & Hs).
    exists detail. auto. }
  pose proof (avg_pace_per_100m_is_ok result) as Hpace.
  pose proof (avg_swolf_is_ok result) as Hswolf.
  destruct (avg_pace_per_100m result) as [pace|e]; [|destruct Hpace].
  destruct (avg_swolf result) as [avg|e]; [|destruct Hswolf].
  unfold mbind, res_bind. eexists. split; [reflexivity|].
  cbn [schemas.session_id schemas.total_laps schemas.total_distance_m schemas.laps
       schemas.summary schemas.primary_stroke].
  repeat split.
  - apply Forall2_map_eq. eapply Forall2_impl; [exact Hdetails|].
    cbn beta. intros lap detail [Hn _]. exact Hn.
  - apply Forall2_map_eq. eapply Forall2_impl; [exact Hdetails|].
    cbn beta. intros lap detail [_ Hs]. exact Hs.
Qed.

(** X24: a session from upload to deletion. While a stored session is
    processing, its analysis is answered with 202. After the background
    analysis, either the status is completed at 100 percent and the
    analysis is answered with the stored result (same id, number of laps,
    total distance, lap numbers, SWOLF values and primary stroke), or the
    status is failed with an error text and the analysis is answered with
    500, "Analysis failed: " and that text. Deleting the session then
    succeeds and removes the session and its result: status, analysis and
    a second deletion are answered with 404, and every other session and
    result is as before the analysis. *)
Theorem session_lifecycle `{Numerics} (str : sessions.exception -> string)
    (str_int : Z -> string) (format_1f : Q -> string)
    (config : sessions.AlgorithmConfig) (st : sessions.state) (session_id : N)
    (df : sessions.DataFrame) (pool_length_m : Z) (user_id : N) (start_time now : Z)
    (session : sessions.session_dict) :
  sessions._sessions st !! session_id = Some session ->
  sessions.status session = schemas.PROCESSING ->
  let st' :=
    sessions._process_session str config st session_id df pool_length_m user_id
      start_time now in
  let st'' := (sessions.delete_session st' session_id).2 in
  let not_found := sessions.HTTPException 404 "Session not found" in
  sessions.get_analysis_result str_int format_1f st session_id
  = sessions.Throw (sessions.HTTPException 202 "Analysis still in progress")
  /\ ((exists result response,
         sessions._analysis_results st' !! session_id = Some result
         /\ sessions.get_session_status st' session_id
            = sessions.Return
                (schemas.mkSessionStatusResponse session_id schemas.COMPLETED (Some 100)
                   (sessions.error session))
         /\ sessions.get_analysis_result str_int format_1f st' session_id
            = sessions.Return response
         /\ schemas.session_id response = result_session_id result
         /\ schemas.total_laps response = total_laps result
         /\ schemas.total_distance_m response = total_distance_m result
         /\ map schemas.lap_number (schemas.laps response) = map lap_number (laps result)
         /\ map schemas.swolf (schemas.laps response) = map swolf (laps result)
         /\ schemas.primary_stroke (schemas.summary response) = primary_stroke result)
      \/ (exists percent text,
            sessions.get_session_status st' session_id
            = sessions.Return
                (schemas.mkSessionStatusResponse session_id schemas.FAILED (Some percent)
                   (Some text))
            /\ sessions.get_analysis_result str_int format_1f st' session_id
               = sessions.Throw (sessions.HTTPException 500 ("Analysis failed: " +:+ text))))
  /\ (sessions.delete_session st' session_id).1 = sessions.Return "Session deleted successfully"
  /\ sessions.get_session_status st'' session_id = sessions.Throw not_found
  /\ sessions.get_analysis_result str_int format_1f st'' session_id = sessions.Throw not_found
  /\ sessions.delete_session st'' session_id = (sessions.Throw not_found, st'')
  /\ sessions._analysis_results st'' !! session_id = None
  /\ forall other, other <> session_id ->
       sessions._sessions st'' !! other = sessions._sessions st !! other
       /\ sessions._analysis_results st'' !! other = sessions._analysis_results st !! other.
Proof.
  intros Hsession Hstatus st' st'' not_found.
  destruct (process_session_entry str config st session_id df pool_length_m user_id
              start_time now session Hsession) as [Hothers Hcases].
  fold st' in Hothers, Hcases.
  assert (Hstored : exists session', sessions._sessions st' !! session_id = Some session').
  { destruct Hcases as [(? & ? & _ & _ & Hs & _)|[(? & ? & _ & _ & Hs & _)|(? & _ & Hs & _)]];
      eauto. }
  destruct Hstored as (session' & Hsession').
  assert (Hst'' : st'' = sessions.mk_state (delete session_id (sessions._sessions st'))
                           (delete session_id (sessions._analysis_results st'))).
  { unfold st'', sessions.delete_session. rewrite Hsession'. reflexivity. }
  assert (Hgone : sessions._sessions st'' !! session_id = None).
  { rewrite Hst''. cbn [sessions._sessions]. apply lookup_delete_eq. }
  split; [|split; [|split; [|split; [|split; [|split; [|split]]]]]].
  - unfold sessions.get_analysis_result. rewrite Hsession, Hstatus. reflexivity.
  - destruct Hcases as [(sd & result & _ & _ & Hs & Hr)
                       |[(sd & e & _ & _ & Hs & _)|(e & _ & Hs & _)]].
    + left. destruct (analysis_response_ok str_int format_1f result)
        as (response & Hresponse & Hfacts).
      exists result, response. split; [exact Hr|].
      unfold sessions.get_session_status, sessions.get_analysis_result.
      rewrite Hs, Hr, Hresponse. cbn [sessions.status sessions.progress sessions.error].
      split; [reflexivity|]. split; [reflexivity|exact Hfacts].
    + right. eexists _, _.
      unfold sessions.get_session_status, sessions.get_analysis_result.
      rewrite Hs. cbn [sessions.status sessions.progress sessions.error default].
      split; reflexivity.
    + right. eexists _, _.
      unfold sessions.get_session_status, sessions.get_analysis_result.
      rewrite Hs. cbn [sessions.status sessions.progress sessions.error default].
      split; reflexivity.
  - unfold sessions.delete_session. rewrite Hsession'. reflexivity.
  - unfold sessions.get_session_status. rewrite Hgone. reflexivity.
  - unfold sessions.get_analysis_result. rewrite Hgone. reflexivity.
  - unfold sessions.delete_session. rewrite Hgone. reflexivity.
  - rewrite Hst''. cbn [sessions._analysis_results]. apply lookup_delete_eq.
  - intros other Hne. destruct (Hothers other Hne) as [Hs Hr].
    rewrite Hst''. cbn [sessions._sessions sessions._analysis_results].
    rewrite !lookup_delete_ne by congruence. auto.
Qed.

(** Ten lines at rest, uploaded as session 7, analysed and deleted. *)
Lemma session_lifecycle_witness :
  sessions._sessions (one_upload (frame_at_rest 10)) !! 7%N
  = Some (sessions.mk_session_dict 7 schemas.PROCESSING 25 "unknown" None 0
            (frame_at_rest 10) 0 None)
  /\ sessions.get_analysis_result (fun _ => "") (fun _ => "")
       (one_upload (frame_at_rest 10)) 7
     = sessions.Throw (sessions.HTTPException 202 "Analysis still in progress")
  /\ (sessions.delete_session
        (sessions._process_session (fun _ => "error") config_order_48
           (one_upload (frame_at_rest 10)) 7 (frame_at_rest 10) 25 1 0 0) 7).1
     = sessions.Return "Session deleted successfully".
Proof.
  assert (Hsession : sessions._sessions (one_upload (frame_at_rest 10)) !! 7%N
                     = Some (sessions.mk_session_dict 7 schemas.PROCESSING 25 "unknown"
                               None 0 (frame_at_rest 10) 0 None)).
  { unfold one_upload. cbn [sessions._sessions]. apply lookup_singleton_eq. }
  split; [exact Hsession|].
  destruct (session_lifecycle (fun _ => "error") (fun _ => "") (fun _ => "")
              config_order_48 (one_upload (frame_at_rest 10)) 7 (frame_at_rest 10)
              25 1 0 0 _ Hsession eq_refl)
    as (Hbefore & _ & Hdelete & _).
  split; [exact Hbefore|exact Hdelete].
Defined.

(** * Arrays as objects: the analysis writes to its own arrays *)

Lemma map_fmap {A B : Type} (f : A -> B) (l : list A) : map f l = f <$> l.
Proof. reflexivity. Qed.

Lemma window_whole (b : nat) (a : ndarray) :
  window {| base := b; offset := 0; size := np_len a |} a = a.
Proof.
  destruct a as [xs|rows]; cbn [window np_len offset size]; f_equal;
    rewrite drop_0; apply take_ge; lia.
Qed.

(** What a new array leaves of the store: all of it. *)
Lemma np_array_spec (st : gmap nat ndarray) (a : ndarray) :
  let v := (InStore.np_array st a).1 in
  let st' := (InStore.np_array st a).2 in
  st !! base v = None
  /\ st' = <[base v := a]> st
  /\ offset v = 0%nat /\ size v = np_len a
  /\ read st' v = Some a
  /\ st ⊆ st'.
Proof.
  unfold InStore.np_array. cbn [fst snd base offset size].
  assert (Hfresh : st !! fresh (dom st) = None).
  { apply not_elem_of_dom. apply is_fresh. }
  split; [exact Hfresh|]. split; [reflexivity|]. split; [reflexivity|].
  split; [reflexivity|]. split.
  - unfold read. cbn [base]. rewrite lookup_insert_eq. cbn. f_equal. apply window_whole.
  - apply insert_subseteq, Hfresh.
Qed.

Lemma read_weaken (st st' : gmap nat ndarray) (v : view) (a : ndarray) :
  st ⊆ st' -> read st v = Some a -> read st' v = Some a.
Proof.
  intros Hsub. unfold read. destruct (st !! base v) as [buf|] eqn:Hbuf; [|discriminate].
  rewrite (lookup_weaken _ _ _ _ Hbuf Hsub). auto.
Qed.

Lemma view_ok_weaken (st st' : gmap nat ndarray) (v : view) :
  st ⊆ st' -> view_ok st v -> view_ok st' v.
Proof.
  intros Hsub (buf & Hbuf & Hfit). exists buf. split; [|exact Hfit].
  exact (lookup_weaken _ _ _ _ Hbuf Hsub).
Qed.

Lemma py_slice_fmap {A B : Type} (f : A -> B) (l : list A) (start stop : Z) :
  py_slice (map f l) start stop = map f (py_slice l start stop).
Proof.
  unfold py_slice. rewrite length_map.
  destruct (slice_bounds (length l) start stop) as [lo hi].
  rewrite List.skipn_map, List.firstn_map. reflexivity.
Qed.

Lemma truthy_int_of_bool (mask : list bool) :
  map InStore.truthy (map InStore.int_of_bool mask) = mask.
Proof.
  induction mask as [|b mask IH]; [reflexivity|]. cbn [map]. rewrite IH.
  destruct b; reflexivity.
Qed.

(** The neighbours of a sample, read through a slice of the mask's
    array. *)
Lemma truth_values_neighbourhood (st : gmap nat ndarray) (b : nat) (mask : list bool)
    (i sz : Z) :
  st !! b = Some (InStore.int_mask mask) ->
  InStore.truth_values st
    (view_slice {| base := b; offset := 0; size := length mask |} (Z.max 0 (i - sz))
                (Z.min (Z.of_nat (length mask)) (i + sz + 1)))
  = Some (PitchRollSegmenter.neighbourhood mask i sz).
Proof.
  intros Hb. unfold InStore.truth_values.
  rewrite read_view_slice.
  - unfold read. cbn [base]. rewrite Hb. cbn [fmap option_fmap option_map mbind option_bind].
    unfold InStore.int_mask.
    replace (length mask) with (np_len (Arr1 (map InStore.int_of_bool mask)))
      by (cbn [np_len]; apply length_map).
    rewrite window_whole. cbn [np_slice np_len]. rewrite length_map.
    rewrite py_slice_fmap, truthy_int_of_bool. reflexivity.
  - exists (InStore.int_mask mask). split; [exact Hb|].
    cbn [offset size InStore.int_mask np_len]. rewrite length_map. lia.
Qed.

Lemma take_S_drop {A : Type} (new old : list A) (k : nat) (x : A) :
  new !! k = Some x -> (k < length old)%nat ->
  <[k := x]> (take k new ++ drop k old) = take (S k) new ++ drop (S k) old.
Proof.
  intros Hnew Hold.
  assert (Hk : length (take k new) = k).
  { apply length_take_le. apply lookup_lt_Some in Hnew. lia. }
  destruct (lookup_lt_is_Some_2 old k Hold) as [y Hy].
  rewrite (drop_S old y k Hy), (take_S_r new k x Hnew).
  rewrite insert_app_r_alt by lia. rewrite Hk, Nat.sub_diag. cbn.
  rewrite <- app_assoc. reflexivity.
Qed.

Lemma take_S_drop_same {A : Type} (new old : list A) (k : nat) (x : A) :
  new !! k = Some x -> old !! k = Some x ->
  take k new ++ drop k old = take (S k) new ++ drop (S k) old.
Proof.
  intros Hnew Hold.
  rewrite (drop_S old x k Hold), (take_S_r new k x Hnew), <- app_assoc. reflexivity.
Qed.

(** One loop of a morphological operation writes the pass over the
    mask into the target's buffer and nothing else. *)
Lemma morphological_pass_spec (test : list bool -> bool) (x : bool)
    (st : gmap nat ndarray) (bs bd : nat) (mask result : list bool) (sz : Z) :
  bs <> bd ->
  st !! bs = Some (InStore.int_mask mask) ->
  st !! bd = Some (InStore.int_mask result) ->
  length result = length mask ->
  InStore.morphological_pass test (InStore.int_of_bool x) st
    {| base := bs; offset := 0; size := length mask |}
    {| base := bd; offset := 0; size := length mask |} sz
  = Some (<[bd := InStore.int_mask
                    (map (fun '(i, r) =>
                            if test (PitchRollSegmenter.neighbourhood mask i sz)
                            then x else r)
                         (enumerate result))]> st).
Proof.
  intros Hne Hbs Hbd Hlen. unfold InStore.morphological_pass, InStore.view_len.
  cbn [size].
  set (new := map (fun '(i, r) =>
                     if test (PitchRollSegmenter.neighbourhood mask i sz) then x else r)
                  (enumerate result)).
  assert (Hnew : length new = length mask).
  { unfold new. rewrite length_map, length_enumerate. exact Hlen. }
  assert (Hprefix : forall k, (k <= length mask)%nat ->
            fold_left
              (fun st i =>
                 st ← st;
                 neighbours ←
                   InStore.truth_values st
                     (view_slice {| base := bs; offset := 0; size := length mask |}
                        (Z.max 0 (i - sz))
                        (Z.min (Z.of_nat (length mask)) (i + sz + 1)));
                 if test neighbours
                 then match setitem1 st {| base := bd; offset := 0; size := length mask |} i
                              (InStore.int_of_bool x) with
                      | Ok st => Some st
                      | Raise _ => None
                      end
                 else Some st)
              (seqZ 0 (Z.of_nat k)) (Some st)
            = Some (<[bd := InStore.int_mask (take k new ++ drop k result)]> st)).
  { induction k as [|k IH]; intros Hk.
    - cbn. rewrite drop_0. rewrite insert_id by exact Hbd. reflexivity.
    - replace (Z.of_nat (S k)) with (Z.of_nat k + 1) by lia.
      rewrite seqZ_app by lia. rewrite fold_left_app, IH by lia.
      cbn [seqZ]. change (seqZ (0 + Z.of_nat k) 1) with [0 + Z.of_nat k]. cbn [fold_left].
      cbn [mbind option_bind].
      rewrite truth_values_neighbourhood
        by (rewrite lookup_insert_ne by congruence; exact Hbs).
      cbn [mbind option_bind].
      assert (Hres : exists r, result !! k = Some r)
        by (apply lookup_lt_is_Some_2; lia).
      destruct Hres as [r Hr].
      assert (Hnk : new !! k
                    = Some (if test (PitchRollSegmenter.neighbourhood mask (Z.of_nat k) sz)
                            then x else r)).
      { unfold new. rewrite map_fmap.
        rewrite list_lookup_fmap, lookup_enumerate, Hr. reflexivity. }
      replace (0 + Z.of_nat k) with (Z.of_nat k) by lia.
      revert Hnk.
      destruct (test (PitchRollSegmenter.neighbourhood mask (Z.of_nat k) sz)); intros Hnk.
      + unfold setitem1. cbn [size base offset].
        rewrite item_index_valid by lia. unfold mbind at 1, res_bind.
        rewrite lookup_insert_eq. unfold InStore.int_mask. rewrite Nat2Z.id.
        rewrite insert_insert_eq. do 3 f_equal.
        rewrite !map_fmap, <- list_fmap_insert. f_equal.
        apply take_S_drop; [exact Hnk|lia].
      + do 3 f_equal. apply (take_S_drop_same _ _ _ r); [exact Hnk|exact Hr]. }
  rewrite (Hprefix (length mask)) by lia.
  rewrite <- Hnew at 1. rewrite take_ge, drop_ge, app_nil_r by lia. reflexivity.
Qed.

Lemma mask_array_weaken (st st' : gmap nat ndarray) (v : view) (mask : list bool) :
  st ⊆ st' -> mask_array st v mask -> mask_array st' v mask.
Proof.
  intros Hsub (Hoff & Hsize & Hbuf). split; [exact Hoff|]. split; [exact Hsize|].
  exact (lookup_weaken _ _ _ _ Hbuf Hsub).
Qed.

Lemma mask_array_read (st : gmap nat ndarray) (v : view) (mask : list bool) :
  mask_array st v mask -> read st v = Some (InStore.int_mask mask).
Proof.
  destruct v as [b o s]. intros (Hoff & Hsize & Hbuf). cbn [offset size base] in *. subst.
  unfold read. cbn [base]. rewrite Hbuf. cbn [fmap option_fmap option_map]. f_equal.
  replace (length mask) with (np_len (InStore.int_mask mask))
    by (cbn [InStore.int_mask np_len]; apply length_map).
  apply window_whole.
Qed.

Lemma mask_array_truth_values (st : gmap nat ndarray) (v : view) (mask : list bool) :
  mask_array st v mask -> InStore.truth_values st v = Some mask.
Proof.
  intros Hv. unfold InStore.truth_values. rewrite (mask_array_read _ _ _ Hv).
  cbn. rewrite truthy_int_of_bool. reflexivity.
Qed.

(** A new array of a mask. *)
Lemma np_array_mask (st : gmap nat ndarray) (mask : list bool) :
  let v := (InStore.np_array st (InStore.int_mask mask)).1 in
  let st' := (InStore.np_array st (InStore.int_mask mask)).2 in
  st ⊆ st' /\ mask_array st' v mask /\ st !! base v = None
  /\ st' = <[base v := InStore.int_mask mask]> st.
Proof.
  intros v st'. destruct (np_array_spec st (InStore.int_mask mask))
    as (Hfresh & Hst' & Hoff & Hsize & _ & Hsub).
  fold v st' in Hfresh, Hst', Hoff, Hsize, Hsub.
  split; [exact Hsub|]. split; [|split; [exact Hfresh|exact Hst']].
  split; [exact Hoff|]. split.
  - rewrite Hsize. cbn [InStore.int_mask np_len]. apply length_map.
  - rewrite Hst'. apply lookup_insert_eq.
Qed.

(** A copy of the mask and one loop over it: the source and all other
    arrays are as before, and the copy holds the pass. *)
Lemma copy_pass_spec (test : list bool -> bool) (x : bool) (st : gmap nat ndarray)
    (src : view) (mask : list bool) (sz : Z) :
  mask_array st src mask ->
  exists dst st1 st2,
    InStore.np_copy st src = Some (dst, st1)
    /\ InStore.morphological_pass test (InStore.int_of_bool x) st1 src dst sz = Some st2
    /\ st ⊆ st2
    /\ mask_array st2 dst
         (map (fun '(i, r) =>
                 if test (PitchRollSegmenter.neighbourhood mask i sz) then x else r)
              (enumerate mask)).
Proof.
  intros Hsrc. unfold InStore.np_copy. rewrite (mask_array_read _ _ _ Hsrc).
  cbn [mbind option_bind].
  destruct (np_array_mask st mask) as (Hsub & Hdst & Hfresh & Hst1).
  destruct (InStore.np_array st (InStore.int_mask mask)) as [dst st1] eqn:Hnew.
  cbn [fst snd] in *.
  pose proof (mask_array_weaken _ _ _ _ Hsub Hsrc) as Hsrc1.
  destruct src as [bs os ss]. destruct dst as [bd od sd].
  destruct Hsrc as (Hos & Hss & Hbs). destruct Hsrc1 as (_ & _ & Hbs1).
  destruct Hdst as (Hod & Hsd & Hbd).
  cbn [base offset size] in *. subst os ss od sd.
  assert (Hne : bs <> bd) by congruence.
  eexists _, st1, _. split; [reflexivity|]. split.
  - apply morphological_pass_spec; [exact Hne|exact Hbs1|exact Hbd|reflexivity].
  - split.
    + rewrite Hst1, insert_insert_eq. apply insert_subseteq, Hfresh.
    + split; [reflexivity|]. split.
      * cbn [size]. rewrite length_map, length_enumerate. reflexivity.
      * cbn [base]. apply lookup_insert_eq.
Qed.

(** [_morphological_close] and [_morphological_open] on array objects
    return a new array with the mask that the operation gives, and
    leave every array that was there as it was. *)
Lemma morphological_close_in_store (st : gmap nat ndarray) (mask_array_v : view)
    (mask : list bool) (sz : Z) :
  mask_array st mask_array_v mask ->
  exists closed st',
    InStore._morphological_close st mask_array_v sz = Some (closed, st')
    /\ st ⊆ st'
    /\ mask_array st' closed (PitchRollSegmenter._morphological_close mask sz).
Proof.
  intros Hmask. unfold InStore._morphological_close.
  destruct (copy_pass_spec py_any true st mask_array_v mask sz Hmask)
    as (result & st1 & st2 & -> & Hpass1 & Hsub1 & Hresult).
  cbn [mbind option_bind]. change 1%Q with (InStore.int_of_bool true). rewrite Hpass1.
  cbn [mbind option_bind].
  destruct (copy_pass_spec (fun neighbours => negb (py_all neighbours)) false st2 result _ sz
              Hresult)
    as (closed & st3 & st4 & -> & Hpass2 & Hsub2 & Hclosed).
  cbn [mbind option_bind]. change 0%Q with (InStore.int_of_bool false). rewrite Hpass2.
  cbn [mbind option_bind].
  exists closed, st4. split; [reflexivity|]. split; [etrans; eassumption|].
  exact Hclosed.
Qed.

Lemma morphological_open_in_store (st : gmap nat ndarray) (mask_array_v : view)
    (mask : list bool) (sz : Z) :
  mask_array st mask_array_v mask ->
  exists opened st',
    InStore._morphological_open st mask_array_v sz = Some (opened, st')
    /\ st ⊆ st'
    /\ mask_array st' opened (PitchRollSegmenter._morphological_open mask sz).
Proof.
  intros Hmask. unfold InStore._morphological_open.
  destruct (copy_pass_spec (fun neighbours => negb (py_all neighbours)) false st
              mask_array_v mask sz Hmask)
    as (result & st1 & st2 & -> & Hpass1 & Hsub1 & Hresult).
  cbn [mbind option_bind]. change 0%Q with (InStore.int_of_bool false). rewrite Hpass1.
  cbn [mbind option_bind].
  destruct (copy_pass_spec py_any true st2 result _ sz Hresult)
    as (opened & st3 & st4 & -> & Hpass2 & Hsub2 & Hopened).
  cbn [mbind option_bind]. change 1%Q with (InStore.int_of_bool true). rewrite Hpass2.
  cbn [mbind option_bind].
  exists opened, st4. split; [reflexivity|]. split; [etrans; eassumption|].
  exact Hopened.
Qed.

Lemma np_array_view_ok (st : gmap nat ndarray) (a : ndarray) :
  view_ok (InStore.np_array st a).2 (InStore.np_array st a).1.
Proof.
  destruct (np_array_spec st a) as (_ & Hst' & Hoff & Hsize & _ & _).
  exists a. split.
  - rewrite Hst'. apply lookup_insert_eq.
  - rewrite Hoff, Hsize. lia.
Qed.

(** [process] on an array object computes what [process] computes on its
    contents; the result is the input itself or a new array. *)
Lemma process_in_store `{Numerics} (self : SwimBITFilter.t) (st : gmap nat ndarray)
    (data : view) (contents : ndarray) (rate : Q) :
  view_ok st data ->
  read st data = Some contents ->
  exists r st',
    InStore.process self st data rate
    = Some (r, (SwimBITFilter.process self contents rate).2, st')
    /\ st ⊆ st'
    /\ match (SwimBITFilter.process self contents rate).1 with
       | Ok out => exists v, r = Ok v /\ view_ok st' v /\ read st' v = Some out
       | Raise e => r = Raise e
       end.
Proof.
  intros Hok Hread. unfold InStore.process, SwimBITFilter.process. rewrite Hread.
  cbn [mbind option_bind].
  destruct (np_len contents <=? SwimBITFilter.order self + 1)%nat.
  - exists (Ok data), st. cbn [fst snd]. split; [reflexivity|]. split; [reflexivity|].
    exists data. auto.
  - destruct (SwimBITFilter._get_filter_taps self rate) as [taps self1]. cbn [fst snd].
    destruct (taps ≫= (fun taps => filtfilt taps contents)) as [filtered|e].
    + pose proof (np_array_spec st filtered) as (_ & _ & _ & _ & Hnew & Hsub).
      pose proof (np_array_view_ok st filtered) as Hview.
      destruct (InStore.np_array st filtered) as [v st'] eqn:Harray. cbn [fst snd] in *.
      exists (Ok v), st'. split; [reflexivity|]. split; [exact Hsub|].
      exists v. auto.
    + exists (Raise e), st. split; [reflexivity|]. split; reflexivity.
Qed.

(** [segment] on an array object returns what [segment] returns on its
    contents and leaves every array that was there as it was. *)
Lemma segment_in_store `{Numerics} (self : PitchRollSegmenter.t) (st : gmap nat ndarray)
    (accel_data : view) (sensor_data : SensorData ndarray) (sampling_rate : option Q) :
  read st accel_data = Some (accel sensor_data) ->
  exists st',
    InStore.segment self st accel_data sampling_rate
    = Some (PitchRollSegmenter.segment self sensor_data sampling_rate, st')
    /\ st ⊆ st'.
Proof.
  intros Hread. unfold InStore.segment, PitchRollSegmenter.segment. rewrite Hread.
  cbn [mbind option_bind].
  destruct (accel sensor_data) as [xs|rows]; [exists st; split; reflexivity|].
  set (probabilities := PitchRollSegmenter._calculate_null_probability rows).
  set (mask := map (fun p => Qltb p 0.5) probabilities).
  pose proof (np_array_spec st (Arr1 probabilities)) as (_ & _ & _ & _ & _ & Hsub1).
  destruct (InStore.np_array st (Arr1 probabilities)) as [null_prob st1].
  cbn [fst snd] in Hsub1.
  destruct (np_array_mask st1 mask) as (Hsub2 & Hmask & _ & _).
  destruct (InStore.np_array st1 (InStore.int_mask mask)) as [swimming_mask st2].
  cbn [fst snd] in Hsub2, Hmask.
  unfold InStore.np_copy. rewrite (mask_array_read _ _ _ Hmask). cbn [mbind option_bind].
  destruct (np_array_mask st2 mask) as (Hsub3 & Hint & _ & _).
  destruct (InStore.np_array st2 (InStore.int_mask mask)) as [as_int st3].
  cbn [fst snd] in Hsub3, Hint.
  destruct (morphological_close_in_store st3 as_int mask
              (py_int (3 * default (PitchRollSegmenter.sampling_rate self) sampling_rate))
              Hint)
    as (closed & st4 & -> & Hsub4 & Hclosed).
  cbn [mbind option_bind].
  destruct (morphological_open_in_store st4 closed _
              (py_int (2 * default (PitchRollSegmenter.sampling_rate self) sampling_rate))
              Hclosed)
    as (opened & st5 & -> & Hsub5 & Hopened).
  cbn [mbind option_bind].
  rewrite (mask_array_truth_values _ _ _ Hopened). cbn [mbind option_bind].
  exists st5. split; [reflexivity|].
  etrans; [exact Hsub1|]. etrans; [exact Hsub2|]. etrans; [exact Hsub3|].
  etrans; [exact Hsub4|exact Hsub5].
Qed.

Lemma mapM_Some_map {A B : Type} (f : A -> option B) (g : A -> B) (l : list A) :
  (forall x, f x = Some (g x)) -> mapM f l = Some (map g l).
Proof.
  intros Hf. induction l as [|x l IH]; [reflexivity|].
  cbn. rewrite Hf. cbn. rewrite IH. reflexivity.
Qed.

Lemma enumerate_zip_map {A B : Type} (g : A -> B) (l : list A) :
  enumerate (zip l (map g l)) = map (fun '(i, x) => (i, (x, g x))) (enumerate l).
Proof.
  apply list_eq. intros k. rewrite !map_fmap.
  rewrite lookup_enumerate, list_lookup_fmap, lookup_enumerate.
  rewrite lookup_zip_with, list_lookup_fmap.
  destruct (l !! k); reflexivity.
Qed.

(** [analyze] on the session's arrays as objects returns what [analyze]
    returns on their contents, and leaves every array that was there as
    it was. *)
Lemma analyze_in_store `{Numerics} (self : AnalysisPipeline.t) (st : gmap nat ndarray)
    (session : SessionData) (sd : SensorData view) (now : Z) :
  view_ok st (accel sd) -> view_ok st (gyro sd) ->
  read st (accel sd) = Some (accel (sensor_data session)) ->
  read st (gyro sd) = Some (gyro (sensor_data session)) ->
  exists st',
    InStore.analyze self st session sd now
    = Some ((AnalysisPipeline.analyze self session now).1,
            (AnalysisPipeline.analyze self session now).2, st')
    /\ st ⊆ st'.
Proof.
  intros Hoka Hokg Hreada Hreadg.
  unfold InStore.analyze, AnalysisPipeline.analyze, AnalysisPipeline._preprocess.
  destruct (process_in_store (AnalysisPipeline.preprocessor self) st (accel sd) _
              (AnalysisPipeline.sampling_rate self) Hoka Hreada)
    as (ra & st1 & -> & Hsub1 & Hra).
  cbn [mbind option_bind].
  destruct (SwimBITFilter.process (AnalysisPipeline.preprocessor self)
              (accel (sensor_data session)) (AnalysisPipeline.sampling_rate self))
    as [oa p1].
  cbn [fst snd] in *.
  destruct oa as [fa|e]; [|subst ra; exists st1; split; [reflexivity|exact Hsub1]].
  destruct Hra as (va & -> & Hokva & Hreadva).
  destruct (process_in_store p1 st1 (gyro sd) _ (AnalysisPipeline.sampling_rate self)
              (view_ok_weaken _ _ _ Hsub1 Hokg) (read_weaken _ _ _ _ Hsub1 Hreadg))
    as (rg & st2 & -> & Hsub2 & Hrg).
  cbn [mbind option_bind].
  destruct (SwimBITFilter.process p1 (gyro (sensor_data session))
              (AnalysisPipeline.sampling_rate self)) as [og p2].
  cbn [fst snd] in *.
  destruct og as [fg|e];
    [|subst rg; exists st2; split; [reflexivity|etrans; eassumption]].
  destruct Hrg as (vg & -> & Hokvg & Hreadvg).
  cbn [AnalysisPipeline.with_preprocessor AnalysisPipeline.segmenter
       AnalysisPipeline.sampling_rate].
  set (filtered_sensor_data :=
         {| timestamps := timestamps (sensor_data session); accel := fa; gyro := fg;
            mag := mag (sensor_data session); pressure := pressure (sensor_data session) |}).
  destruct (segment_in_store (AnalysisPipeline.segmenter self) st2 va filtered_sensor_data
              (Some (AnalysisPipeline.sampling_rate self))
              (read_weaken _ _ _ _ Hsub2 Hreadva))
    as (st3 & -> & Hsub3).
  assert (Hsub : st ⊆ st3) by (etrans; [exact Hsub1|]; etrans; eassumption).
  assert (Hokva3 : view_ok st3 va).
  { eapply view_ok_weaken; [|exact Hokva]. etrans; eassumption. }
  assert (Hreadva3 : read st3 va = Some fa).
  { eapply read_weaken; [|exact Hreadva]. etrans; eassumption. }
  exists st3. split; [|exact Hsub].
  cbn [mbind res_bind option_bind]. fold filtered_sensor_data.
  destruct (PitchRollSegmenter.segment (AnalysisPipeline.segmenter self)
              filtered_sensor_data (Some (AnalysisPipeline.sampling_rate self)))
    as [lap_segments|e]; [|reflexivity].
  cbn [mbind res_bind].
  rewrite (mapM_Some_map _ (fun '(start_idx, end_idx) => np_slice fa start_idx end_idx)).
  2:{ intros [start_idx end_idx]. rewrite read_view_slice by exact Hokva3.
      rewrite Hreadva3. reflexivity. }
  cbn [mbind option_bind]. rewrite Hreadva3. cbn [mbind option_bind].
  rewrite (read_weaken _ _ _ _ Hsub3 Hreadvg). cbn [mbind option_bind].
  rewrite enumerate_zip_map, map_map.
  match goal with
  | |- Some (sequence (map ?F ?l) ≫= _, _, _) = Some (sequence (map ?G ?l) ≫= _, _, _) =>
      rewrite (map_ext F G) by (intros [i [start_idx end_idx]]; reflexivity)
  end.
  reflexivity.
Qed.

Lemma load_reads (st : gmap nat ndarray) (sd : SensorData view) (c : SensorData ndarray) :
  load st sd = Some c ->
  read st (accel sd) = Some (accel c) /\ read st (gyro sd) = Some (gyro c).
Proof.
  unfold load.
  destruct (read st (timestamps sd)) as [t|]; [|discriminate].
  destruct (read st (accel sd)) as [a|]; [|discriminate].
  destruct (read st (gyro sd)) as [g|]; [|discriminate].
  cbn [mbind option_bind].
  destruct (match mag sd with Some v => Some <$> read st v | None => Some None end)
    as [m|]; [|discriminate].
  destruct (match pressure sd with Some v => Some <$> read st v | None => Some None end)
    as [p|]; [|discriminate].
  cbn [mbind option_bind]. intros [= <-]. split; reflexivity.
Qed.

Lemma load_weaken (st st' : gmap nat ndarray) (sd : SensorData view)
    (c : SensorData ndarray) :
  st ⊆ st' -> load st sd = Some c -> load st' sd = Some c.
Proof.
  intros Hsub. unfold load.
  destruct (read st (timestamps sd)) as [t|] eqn:Ht; [|discriminate].
  destruct (read st (accel sd)) as [a|] eqn:Ha; [|discriminate].
  destruct (read st (gyro sd)) as [g|] eqn:Hg; [|discriminate].
  rewrite (read_weaken _ _ _ _ Hsub Ht), (read_weaken _ _ _ _ Hsub Ha),
    (read_weaken _ _ _ _ Hsub Hg).
  cbn [mbind option_bind].
  destruct (mag sd) as [vm|], (pressure sd) as [vp|];
    repeat match goal with
    | |- context [read st ?v] =>
        let Hv := fresh "Hv" in
        destruct (read st v) eqn:Hv; [rewrite (read_weaken _ _ _ _ Hsub Hv)|discriminate]
    end; exact id.
Qed.

Lemma sensor_data_ok_weaken (st st' : gmap nat ndarray) (sd : SensorData view) (n : nat) :
  st ⊆ st' -> sensor_data_ok st sd n -> sensor_data_ok st' sd n.
Proof.
  intros Hsub Hall. unfold sensor_data_ok in *. eapply Forall_impl; [exact Hall|].
  cbn beta. intros v [Hv Hn]. split; [exact (view_ok_weaken _ _ _ Hsub Hv)|exact Hn].
Qed.

(** C4, amended: for a source whose arrays hold [n] samples and a valid
    pair [0 <= start <= end <= n], [slice] returns a new [SensorData]
    whose arrays are windows on the source's buffers, not copies: each
    reads as the range [start:end] of the source's array, and writing
    item [i] through it writes item [start + i] of the source's array.
    The pipeline itself never writes to the source: the preprocessor,
    the segmenter and [analyze] as a whole, run on the arrays as
    objects, return what they return on the contents and leave every
    buffer that was in the store as it was, so the source and its
    slices read after the analysis as before. *)
Theorem slice_is_a_view `{Numerics} (st : gmap nat ndarray) (sd : SensorData view)
    (n : nat) (start stop : Z) :
  sensor_data_ok st sd n ->
  0 <= start -> start <= stop -> stop <= Z.of_nat n ->
  arrays (slice sd start stop) = map (fun v => view_slice v start stop) (arrays sd)
  /\ (forall v, v ∈ arrays sd ->
       read st (view_slice v start stop) = (fun a => np_slice a start stop) <$> read st v
       /\ forall i, 0 <= i -> i < stop - start ->
            (forall rows x, read st v = Some (Arr2 rows) ->
               exists st', setitem2 st (view_slice v start stop) i x = Ok st'
                           /\ read st' v = Some (Arr2 (<[Z.to_nat (start + i) := x]> rows)))
            /\ (forall xs x, read st v = Some (Arr1 xs) ->
                  exists st', setitem1 st (view_slice v start stop) i x = Ok st'
                              /\ read st' v = Some (Arr1 (<[Z.to_nat (start + i) := x]> xs))))
  /\ (forall (filter : SwimBITFilter.t) (v : view) (contents : ndarray) (rate : Q),
        v ∈ arrays sd -> read st v = Some contents ->
        exists r st',
          InStore.process filter st v rate
          = Some (r, (SwimBITFilter.process filter contents rate).2, st')
          /\ (forall b buf, st !! b = Some buf -> st' !! b = Some buf))
  /\ (forall (segmenter : PitchRollSegmenter.t) (c : SensorData ndarray) (rate : option Q),
        load st sd = Some c ->
        exists st',
          InStore.segment segmenter st (accel sd) rate
          = Some (PitchRollSegmenter.segment segmenter c rate, st')
          /\ (forall b buf, st !! b = Some buf -> st' !! b = Some buf))
  /\ (forall (pipeline : AnalysisPipeline.t) (session : SessionData) (now : Z),
        load st sd = Some (sensor_data session) ->
        exists st',
          InStore.analyze pipeline st session sd now
          = Some ((AnalysisPipeline.analyze pipeline session now).1,
                  (AnalysisPipeline.analyze pipeline session now).2, st')
          /\ (forall b buf, st !! b = Some buf -> st' !! b = Some buf)
          /\ load st' sd = Some (sensor_data session)
          /\ load st' (slice sd start stop) = load st (slice sd start stop)).
Proof.
  intros Hok H0 H1 H2.
  assert (Hviews : forall v, v ∈ arrays sd -> view_ok st v).
  { intros v Hv. unfold sensor_data_ok in Hok. rewrite Forall_forall in Hok.
    apply (Hok v Hv). }
  split; [|split; [|split; [|split]]].
  - unfold arrays, slice. cbn [timestamps accel gyro mag pressure].
    destruct (mag sd), (pressure sd); reflexivity.
  - intros v Hv. unfold sensor_data_ok in Hok. rewrite Forall_forall in Hok.
    destruct (Hok v Hv) as [Hview Hsize]. split.
    + apply read_view_slice, Hview.
    + intros i Hi0 Hi1. split.
      * intros rows x Hread.
        apply (setitem2_through_slice st v start stop i rows x); try assumption. lia.
      * intros xs x Hread.
        apply (setitem1_through_slice st v start stop i xs x); try assumption. lia.
  - intros filter v contents rate Hv Hread.
    destruct (process_in_store filter st v contents rate (Hviews v Hv) Hread)
      as (r & st' & Hrun & Hsub & _).
    exists r, st'. split; [exact Hrun|].
    intros b buf Hb. exact (lookup_weaken _ _ _ _ Hb Hsub).
  - intros segmenter c rate Hload.
    destruct (load_reads _ _ _ Hload) as [Hreada _].
    destruct (segment_in_store segmenter st (accel sd) c rate Hreada) as (st' & Hrun & Hsub).
    exists st'. split; [exact Hrun|].
    intros b buf Hb. exact (lookup_weaken _ _ _ _ Hb Hsub).
  - intros pipeline session now Hload.
    destruct (load_reads _ _ _ Hload) as [Hreada Hreadg].
    assert (Ha : accel sd ∈ arrays sd)
      by (unfold arrays; apply elem_of_app; left; rewrite !elem_of_cons; auto).
    assert (Hg : gyro sd ∈ arrays sd)
      by (unfold arrays; apply elem_of_app; left; rewrite !elem_of_cons; auto).
    destruct (analyze_in_store pipeline st session sd now (Hviews _ Ha) (Hviews _ Hg)
                Hreada Hreadg) as (st' & Hrun & Hsub).
    exists st'. split; [exact Hrun|]. split; [|split].
    + intros b buf Hb. exact (lookup_weaken _ _ _ _ Hb Hsub).
    + exact (load_weaken _ _ _ _ Hsub Hload).
    + rewrite (load_slice st' sd n start stop (sensor_data_ok_weaken _ _ _ _ Hsub Hok)).
      rewrite (load_slice st sd n start stop Hok).
      rewrite Hload, (load_weaken _ _ _ _ Hsub Hload). reflexivity.
Qed.

(** The slice [1:3] of four samples, and an analysis of the four
    samples. *)
Lemma slice_is_a_view_witness :
  sensor_data_ok four_sample_store four_samples 4
  /\ 0 <= 1 /\ 1 <= 3 /\ 3 <= Z.of_nat 4
  /\ arrays (slice four_samples 1 3)
     = map (fun v => view_slice v 1 3) (arrays four_samples)
  /\ exists st',
       InStore.analyze (AnalysisPipeline.init 30 48 3.0 ∅ ∅) four_sample_store
         (mkSessionData 7 1 25 0 four_samples_contents None "unknown") four_samples 0
       = Some ((AnalysisPipeline.analyze (AnalysisPipeline.init 30 48 3.0 ∅ ∅)
                  (mkSessionData 7 1 25 0 four_samples_contents None "unknown") 0).1,
               (AnalysisPipeline.analyze (AnalysisPipeline.init 30 48 3.0 ∅ ∅)
                  (mkSessionData 7 1 25 0 four_samples_contents None "unknown") 0).2, st')
       /\ load st' four_samples = Some four_samples_contents.
Proof.
  assert (Hok : sensor_data_ok four_sample_store four_samples 4).
  { unfold sensor_data_ok, arrays, four_samples, four_sample_store. cbn.
    repeat constructor; eexists; (split; [reflexivity|cbn; lia]). }
  assert (Hload : load four_sample_store four_samples = Some four_samples_contents).
  { vm_compute. reflexivity. }
  split; [exact Hok|]. split; [lia|]. split; [lia|]. split; [lia|].
  destruct (slice_is_a_view four_sample_store four_samples 4 1 3 Hok)
    as (Harrays & _ & _ & _ & Hanalyze); [lia|lia|lia|].
  split; [exact Harrays|].
  destruct (Hanalyze (AnalysisPipeline.init 30 48 3.0 ∅ ∅)
              (mkSessionData 7 1 25 0 four_samples_contents None "unknown") 0 Hload)
    as (st' & Hrun & _ & Hsame & _).
  exists st'. split; [exact Hrun|exact Hsame].
Defined.

(** ** The embedding on concrete inputs *)

Example py_round_half_even :
  py_round (41 # 2) = 20 /\ py_round (43 # 2) = 22 /\ py_round (-1 # 2) = 0.
Proof. repeat split. Qed.

Example py_int_toward_zero : py_int (7 # 2) = 3 /\ py_int (-7 # 2) = -3.
Proof. split; reflexivity. Qed.

(** The doubles nearest to 0.1 and to [2^53 + 1], and a sum that is
    rounded up to a whole number: [1 - 2^-53 + 4] is 5.0. *)
Example round64_examples :
  Qred (round64 (1 # 10)) = (3602879701896397 # 36028797018963968)%Q
  /\ Qred (round64 (inject_Z (2 ^ 53 + 1))) = inject_Z (2 ^ 53)
  /\ Qred (float_add (9007199254740991 # 9007199254740992) (py_float 4)) = 5%Q.
Proof. repeat split; vm_compute; reflexivity. Qed.

(** Two int64 timestamps more than [2^63] ns apart: the difference
    wraps, and the duration is negative. *)
Example duration_int64_wraps :
  sensor_duration_sec int64
    (mkSensorData (Arr1 [inject_Z (- 2 ^ 62); inject_Z (2 ^ 62 + 5)]) (Arr2 []) (Arr2 [])
                  None None)
  = inl (inject_Z (- 2 ^ 63 + 5) / 1000000000)%Q
  /\ sensor_duration_sec float64
       (mkSensorData (Arr1 [inject_Z (- 2 ^ 62); inject_Z (2 ^ 62 + 5)]) (Arr2 []) (Arr2 [])
                     None None)
     = inl ((inject_Z (2 ^ 62 + 5) - inject_Z (- 2 ^ 62)) / 1000000000)%Q.
Proof. split; reflexivity. Qed.

(** A lap of 0.9999999999999999 s with 4 strokes has SWOLF 5. *)
Example swolf_rounded_sum :
  swolf (mkSwimLap 1 0 1 FREESTYLE 4 (9007199254740991 # 9007199254740992) 25) = 5.
Proof. vm_compute. reflexivity. Qed.

Example py_slice_examples :
  py_slice [1; 2; 3; 4; 5] 1 3 = [2; 3]
  /\ py_slice [1; 2; 3; 4; 5] (-2) 10 = [4; 5]
  /\ py_slice [1; 2; 3; 4; 5] 4 2 = [].
Proof. repeat split. Qed.

(** Closing fills a gap of two samples and leaves a gap of four. *)
Example morphological_close_example :
  PitchRollSegmenter._morphological_close
    [false; true; false; false; true; false; false; false; false; true] 1
  = [true; true; true; true; true; false; false; false; false; true].
Proof. reflexivity. Qed.

(** Opening removes a run of two samples and keeps a run of four. *)
Example morphological_open_example :
  PitchRollSegmenter._morphological_open
    [true; true; false; true; true; true; true; false; true; false] 1
  = [true; true; false; true; true; true; true; false; false; false].
Proof. reflexivity. Qed.

Example find_segments_example :
  PitchRollSegmenter._find_segments [false; true; true; false; true] = [(1, 3); (4, 5)].
Proof. reflexivity. Qed.

(** A recording of gravity alone has no laps. *)
Example segment_at_rest :
  PitchRollSegmenter.segment (PitchRollSegmenter.make 25 30 ∅)
    (mkSensorData (Arr1 []) (Arr2 (at_rest 45)) (Arr2 []) None None) None
  = Ok [].
Proof. vm_compute. reflexivity. Qed.

(** Thirty samples of zeros are classified, as breaststroke. *)
Example classify_zeros :
  EnergyClassifier.classify (EnergyClassifier.make ∅) (Arr2 (repeat (mkVec3 0 0 0) 30))
  = Ok BREASTSTROKE.
Proof. vm_compute. reflexivity. Qed.

(** Flat tops count once, in their middle; a flat run up to the last
    sample does not count; of two peaks closer than the distance the
    higher stays. *)
Example find_peaks_examples :
  find_peaks [0; 1; 0; 2; 0; 3; 0; 1; 1; 0; 5; 5; 5; 0; 4; 4]%Q 1 = Ok [1; 3; 5; 7; 11]%nat
  /\ find_peaks [0; 1; 0; 2; 0; 3; 0; 1; 1; 0; 5; 5; 5; 0; 4; 4]%Q 3 = Ok [1; 5; 11]%nat
  /\ find_peaks [0; 1; 0; 1; 0; 1; 0; 1; 0; 1; 0]%Q 4 = Ok [1; 5; 9]%nat
  /\ find_peaks [0; 1; 0]%Q 0 = Raise ValueError.
Proof. repeat split. Qed.

(** The frequency bins of 8 samples, in units of a eighth of the
    sampling rate. *)
Example fftfreq_example :
  map (fun f => Qfloor (f * 8 / 30)) (fftfreq 8 (1 / 30)) = [0; 1; 2; 3; -4; -3; -2; -1].
Proof. vm_compute. reflexivity. Qed.

(** Forward and backward through a two-tap average, a ramp comes back
    unchanged and in place. *)
Example filtfilt_ramp :
  fmap (map Qred) (filtfilt_1d [1 # 2; 1 # 2] [1; 2; 3; 4; 5; 6; 7; 8])%Q
  = Ok [1; 2; 3; 4; 5; 6; 7; 8]%Q.
Proof. vm_compute. reflexivity. Qed.

(** Two bursts of 15 s at 1 Hz, 8 s apart, make two laps of 15 s; with
    the instance above each gets 4 strokes and SWOLF 19. *)
Example analyze_two_bursts :
  fmap (fun r => map (fun lap => (lap_number lap, start_idx lap, end_idx lap,
                                  stroke_type lap, stroke_count lap, swolf lap))
                     (laps r))
       (AnalysisPipeline.analyze (AnalysisPipeline.init 1 48 3.0 ∅ ∅)
                                 two_bursts_session 0).1
  = Ok [(1, 5, 20, UNKNOWN, 4, 19); (2, 28, 43, UNKNOWN, 4, 19)].
Proof. vm_compute. reflexivity. Qed.

(** The analysis on the four samples as objects puts seven arrays of
    its own beside the three buffers of the source and leaves the
    acceleration of the source as it is. *)
Example analyze_in_store_four_samples :
  (fun out => (base.size out.2, read out.2 (accel four_samples)))
    <$> InStore.analyze (AnalysisPipeline.init 30 48 3.0 ∅ ∅) four_sample_store
          (mkSessionData 7 1 25 0 four_samples_contents None "unknown") four_samples 0
  = Some (10%nat, Some (Arr2 [mkVec3 0 0 0; mkVec3 1 1 1; mkVec3 2 2 2; mkVec3 3 3 3])).
Proof. vm_compute. reflexivity. Qed.

(** A text in a column that is read: the session is failed before the
    analysis starts, at progress 10. *)
Example process_session_text_cell :
  sessions._sessions
    (sessions._process_session
       (fun e => match e with sessions.ConversionError text => text | _ => "" end)
       config_order_48 (one_upload frame_with_text) 7 frame_with_text 25 1 0 0) !! 7%N
  = Some (sessions.mk_session_dict 7 schemas.FAILED 25 "unknown" None 0 frame_with_text 10
            (Some "n/a")).
Proof. vm_compute. reflexivity. Qed.
